(** * Shroombound: boss encounter, enemies and combat contract

    A shallow embedding of the combat core of the game: the generic state
    machine ([components/StateMachine.ts]), the player's damage contract
    ([entities/Player.ts]), the HUD health display ([scenes/UIScene.ts]), the
    enemy base class and the flyer ([entities/Enemy.ts], [entities/Flyer.ts]),
    the boss entity class and the boss encounter scene
    ([scenes/BossScene.ts]); and, around it, the player's movement
    controller ([Player.update]), the crawler's behaviour
    ([entities/Crawler.ts]), the math utilities ([utils/MathHelpers.ts]),
    the portal ([systems/Portal.ts]), the arena's enemy manager
    ([systems/EnemyManager.ts]) and the arena scene
    ([scenes/ArenaScene.ts]).

    Conventions.
    - A JavaScript [number] is modelled by a rational ([Q]); rounding of
      doubles is not modelled.  Every comparison of the source is a boolean
      comparison on [Q].  Integer-valued tags (phase, facing) are [Z].
      Statements that compare an accumulated time with a bound keep a
      margin of 1 ms and ask for frames of at least 1 ms, so that they also
      hold of the source's doubles; [Doubles] evaluates the countdowns in
      binary64 at the bound itself.
    - [Math.sqrt], [Math.sin] and [Math.random] are inputs: the first two are
      section variables, the random draw is part of a frame's input.
    - Rendering calls (tints, tweens on display objects, particles, camera)
      are dropped; what a scripted tween or a delayed call does to the
      simulation state is kept as a callback on the scene clock. *)

From Stdlib Require Import ZArith QArith Qabs Qround Bool List Sorted Lia Lqa String.
From Corelib Require PrimFloat.
From stdpp Require Import gmap strings.
Import ListNotations.

Local Open Scope Q_scope.

(** ** Numbers *)

Definition number := Q.

Definition Qleb (a b : Q) : bool := Qle_bool a b.
Definition Qltb (a b : Q) : bool := negb (Qle_bool b a).

(** [Math.abs], [Math.min], [Math.max], [Math.sign]. *)
Definition Math_abs (a : Q) : Q := Qabs a.
Definition Math_min (a b : Q) : Q := if Qleb a b then a else b.
Definition Math_max (a b : Q) : Q := if Qleb a b then b else a.
Definition Math_sign (a : Q) : Q :=
  if Qltb 0 a then 1 else if Qltb a 0 then -1 else 0.

(** ** Runs *)

(** The states a system passes through, oldest first, starting with [s]:
    one state per input. *)
Fixpoint trajectory {S I : Type} (step : S -> I -> S) (s : S) (inputs : list I)
  : list S :=
  match inputs with
  | [] => [s]
  | i :: rest => s :: trajectory step (step s i) rest
  end.

(** The time a list of frame times adds up to. *)
Definition total (deltas : list Q) : Q := fold_right Qplus 0 deltas.

(** ** Engine geometry (Phaser.Geom.Rectangle, Phaser.Math) *)

Module Geom.

Record Rectangle := mkRect { rx : Q; ry : Q; rwidth : Q; rheight : Q }.

Definition right (r : Rectangle) : Q := rx r + rwidth r.
Definition bottom (r : Rectangle) : Q := ry r + rheight r.

(** [Phaser.Geom.Rectangle.Overlaps(a, b)]:
    [a.x < b.right && a.right > b.x && a.y < b.bottom && a.bottom > b.y]. *)
Definition Overlaps (a b : Rectangle) : bool :=
  Qltb (rx a) (right b) && Qltb (rx b) (right a) &&
  Qltb (ry a) (bottom b) && Qltb (ry b) (bottom a).

Definition setPosition (x y : Q) (r : Rectangle) : Rectangle :=
  mkRect x y (rwidth r) (rheight r).

(** [Phaser.Math.Clamp(v, min, max) = Math.max(min, Math.min(max, v))]. *)
Definition Clamp (v lo hi : Q) : Q := Math_max lo (Math_min hi v).

End Geom.

(** ** The player's health and damage contract (entities/Player.ts) *)

Module Player.

(** What the player emits on the scene's event bus ([player-attack] is
    returned to the scene by [handleAttack] instead). *)
Inductive Event :=
| PlayerDamaged (health maxHealth : Q)
| PlayerDied.

(** Delayed calls the player leaves on the scene clock. *)
Inductive Callback :=
| ClearInvincible
| AllowAttack.

Record t := mk {
  x : Q; y : Q;
  velocityX : Q; velocityY : Q;
  body : Geom.Rectangle;
  facing : Z;
  health : Q;
  maxHealth : Q;
  invincible : bool;
  canAttack : bool;
  spawnX : Q; spawnY : Q;
  emitted : list Event;
  pending : list (Q * Callback)
}.

Definition set_x (v : Q) (s : t) : t :=
  mk v (y s) (velocityX s) (velocityY s) (body s) (facing s) (health s) (maxHealth s)
    (invincible s) (canAttack s) (spawnX s) (spawnY s) (emitted s) (pending s).
Definition set_y (v : Q) (s : t) : t :=
  mk (x s) v (velocityX s) (velocityY s) (body s) (facing s) (health s) (maxHealth s)
    (invincible s) (canAttack s) (spawnX s) (spawnY s) (emitted s) (pending s).
Definition set_velocityX (v : Q) (s : t) : t :=
  mk (x s) (y s) v (velocityY s) (body s) (facing s) (health s) (maxHealth s)
    (invincible s) (canAttack s) (spawnX s) (spawnY s) (emitted s) (pending s).
Definition set_velocityY (v : Q) (s : t) : t :=
  mk (x s) (y s) (velocityX s) v (body s) (facing s) (health s) (maxHealth s)
    (invincible s) (canAttack s) (spawnX s) (spawnY s) (emitted s) (pending s).
Definition set_facing (v : Z) (s : t) : t :=
  mk (x s) (y s) (velocityX s) (velocityY s) (body s) v (health s) (maxHealth s)
    (invincible s) (canAttack s) (spawnX s) (spawnY s) (emitted s) (pending s).
Definition set_health (v : Q) (s : t) : t :=
  mk (x s) (y s) (velocityX s) (velocityY s) (body s) (facing s) v (maxHealth s)
    (invincible s) (canAttack s) (spawnX s) (spawnY s) (emitted s) (pending s).
Definition set_invincible (v : bool) (s : t) : t :=
  mk (x s) (y s) (velocityX s) (velocityY s) (body s) (facing s) (health s)
    (maxHealth s) v (canAttack s) (spawnX s) (spawnY s) (emitted s) (pending s).
Definition set_canAttack (v : bool) (s : t) : t :=
  mk (x s) (y s) (velocityX s) (velocityY s) (body s) (facing s) (health s)
    (maxHealth s) (invincible s) v (spawnX s) (spawnY s) (emitted s) (pending s).
Definition set_emitted (v : list Event) (s : t) : t :=
  mk (x s) (y s) (velocityX s) (velocityY s) (body s) (facing s) (health s)
    (maxHealth s) (invincible s) (canAttack s) (spawnX s) (spawnY s) v (pending s).
Definition set_pending (v : list (Q * Callback)) (s : t) : t :=
  mk (x s) (y s) (velocityX s) (velocityY s) (body s) (facing s) (health s)
    (maxHealth s) (invincible s) (canAttack s) (spawnX s) (spawnY s) (emitted s) v.

(** [new Player(scene, x, y)]: health 5 of 5, facing right.  The body is
    [WIDTH * 0.5] by [HEIGHT * 0.85], offset by [(WIDTH * 0.25,
    HEIGHT * 0.15)] from the top-left corner of the 48 by 64 sprite. *)
Definition create (x0 y0 : Q) : t :=
  mk x0 y0 0 0 (Geom.mkRect (x0 - 24 + 12) (y0 - 32 + (48 # 5)) 24 (272 # 5))
     1 5 5 false true x0 y0 [] [].

Definition emit (e : Event) (p : t) : t := set_emitted (emitted p ++ [e]) p.

Definition delayedCall (ms : Q) (cb : Callback) (p : t) : t :=
  set_pending (pending p ++ [(ms, cb)]) p.

(** What the physics step and the movement keys report before the
    player's logic runs: where the sprite and its body are, and which way
    the player faces. *)
Definition moveTo (x1 y1 : Q) (b : Geom.Rectangle) (f : Z) (p : t) : t :=
  mk x1 y1 (velocityX p) (velocityY p) b f (health p) (maxHealth p)
     (invincible p) (canAttack p) (spawnX p) (spawnY p) (emitted p) (pending p).

(** [handleAttack]: [justDown] is [JustDown(keyJ)].  Returns the hitbox
    carried by the [player-attack] event, if one is emitted. *)
Definition handleAttack (justDown : bool) (p : t) : t * option Geom.Rectangle :=
  if justDown && canAttack p then
    let p := set_canAttack false p in
    let hitboxWidth := 70 in
    let hitboxHeight := 50 in
    let offsetX := if (0 <? facing p)%Z then 20 else -20 - hitboxWidth in
    let hitbox :=
      Geom.mkRect (x p + offsetX) (y p - hitboxHeight / 2) hitboxWidth hitboxHeight in
    (delayedCall 300 AllowAttack p, Some hitbox)
  else (p, None).

Definition respawn (p : t) : t :=
  let p := set_y (spawnY p) (set_x (spawnX p) p) in
  let p := set_velocityY 0 (set_velocityX 0 p) in
  let p := set_invincible true p in
  delayedCall 500 ClearInvincible p.

Definition die (p : t) : t :=
  let p := emit PlayerDied p in
  let p := set_health (maxHealth p) p in
  let p := respawn p in
  emit (PlayerDamaged (health p) (maxHealth p)) p.

Definition takeDamage (amount sourceX : Q) (p : t) : t :=
  if invincible p then p
  else
    let p := set_health (health p - amount) p in
    let p := set_invincible true p in
    let knockbackDir := if Qltb (x p) sourceX then -1 else 1 in
    let p := set_velocityX (200 * knockbackDir) p in
    let p := set_velocityY (-150) p in
    let p := emit (PlayerDamaged (health p) (maxHealth p)) p in
    if Qleb (health p) 0 then die p
    else delayedCall 1000 ClearInvincible p.

Definition fallDeath (p : t) : t :=
  let p := set_health (health p - 1) p in
  let p := emit (PlayerDamaged (health p) (maxHealth p)) p in
  if Qleb (health p) 0 then die p else respawn p.

Definition checkDeathPit (deathY : Q) (p : t) : t :=
  if Qltb deathY (y p) then fallDeath p else p.

Definition getHealth (p : t) : Q := health p.
Definition getMaxHealth (p : t) : Q := maxHealth p.

Definition runCallback (cb : Callback) (p : t) : t :=
  match cb with
  | ClearInvincible => set_invincible false p
  | AllowAttack => set_canAttack true p
  end.

(** The scene clock, as far as the player's calls go: every pending call
    ages by [delta]; those whose delay has elapsed fire in the order they
    were scheduled. *)
Definition tick (delta : Q) (p : t) : t :=
  let aged := map (fun '(ms, cb) => (ms - delta, cb)) (pending p) in
  let due := List.filter (fun '(ms, _) => Qleb ms 0) aged in
  let rest := List.filter (fun '(ms, _) => negb (Qleb ms 0)) aged in
  fold_left (fun p '(_, cb) => runCallback cb p) due (set_pending rest p).

(** The health values carried by [player-damaged] events. *)
Definition damagedValues (es : list Event) : list Q :=
  flat_map (fun e => match e with PlayerDamaged h _ => [h] | PlayerDied => [] end) es.

End Player.

(** ** The HUD (scenes/UIScene.ts) *)

Module UIScene.

Definition MAX_HEALTH : Q := 5.

Record t := mk { currentHealth : Q }.

Definition updateHealth (health : Q) (_ : t) : t :=
  mk (Geom.Clamp health 0 MAX_HEALTH).

(** The listener registered on [player-damaged]. *)
Definition onEvent (e : Player.Event) (ui : t) : t :=
  match e with
  | Player.PlayerDamaged h _ => updateHealth h ui
  | Player.PlayerDied => ui
  end.

End UIScene.

(** ** The generic state machine (components/StateMachine.ts) *)

Module StateMachine.

(** What [console.warn] receives. *)
Inductive ConsoleMessage :=
| StateNotFound (name : string).

Section Machine.

(** The owning entity.  A hook [(entity: T) => void] acts on the entity
    it is handed; it is modelled by the change it makes to it.  Hooks
    that call back into the machine are outside this model. *)
Context {T : Type}.

(** A [State<T>] object.  [ref] is the identity of the object: [===] on
    two states compares references, not names or contents. *)
Record State := mkState {
  ref : nat;
  name : string;
  onEnter : option (T -> T);
  onUpdate : option (T -> Q -> Q -> T);
  onExit : option (T -> T)
}.

Record t := mk {
  entity : T;
  states : gmap string State;
  currentState : option State;
  previousState : option State;
  console : list ConsoleMessage
}.

(** [new StateMachine(entity)] *)
Definition create (e : T) : t := mk e ∅ None None [].

Definition addState (state : State) (sm : t) : t :=
  mk (entity sm) (<[name state := state]> (states sm))
     (currentState sm) (previousState sm) (console sm).

(** [this.currentState === newState] *)
Definition isCurrent (sm : t) (newState : State) : bool :=
  match currentState sm with
  | Some cur => Nat.eqb (ref cur) (ref newState)
  | None => false
  end.

Definition runHook (h : option (T -> T)) (e : T) : T :=
  match h with
  | Some f => f e
  | None => e
  end.

Definition setState (nm : string) (sm : t) : t :=
  match states sm !! nm with
  | None =>
      mk (entity sm) (states sm) (currentState sm) (previousState sm)
         (console sm ++ [StateNotFound nm])
  | Some newState =>
      if isCurrent sm newState then sm
      else
        (* Exit current state *)
        let e :=
          match currentState sm with
          | Some cur => runHook (onExit cur) (entity sm)
          | None => entity sm
          end in
        (* Enter new state *)
        let e := runHook (onEnter newState) e in
        mk e (states sm) (Some newState) (currentState sm) (console sm)
  end.

Definition update (time delta : Q) (sm : t) : t :=
  match currentState sm with
  | Some cur =>
      match onUpdate cur with
      | Some f =>
          mk (f (entity sm) time delta) (states sm) (currentState sm)
             (previousState sm) (console sm)
      | None => sm
      end
  | None => sm
  end.

Definition getCurrentState (sm : t) : option string :=
  option_map name (currentState sm).

Definition getPreviousState (sm : t) : option string :=
  option_map name (previousState sm).

Definition isInState (nm : string) (sm : t) : bool :=
  match currentState sm with
  | Some cur => String.eqb (name cur) nm
  | None => false
  end.

(** Every state is registered under its own name, and the registry still
    maps the current state's name to the current state object: true of
    a new machine, kept by [setState], and kept by [addState] unless it
    registers a second state object under the name of the current
    one. *)
Definition registryAgrees (sm : t) : Prop :=
  (forall k st, states sm !! k = Some st -> name st = k) /\
  (forall cur, currentState sm = Some cur ->
     exists st, states sm !! name cur = Some st /\ ref st = ref cur).

End Machine.

Arguments State : clear implicits.
Arguments t : clear implicits.

(** An entity with entry and exit counters, for running the machine. *)
Record Counters := mkCounters { entered : nat; exited : nat }.

Definition countEnter (c : Counters) : Counters := mkCounters (S (entered c)) (exited c).
Definition countExit (c : Counters) : Counters := mkCounters (entered c) (S (exited c)).

Definition counting (r : nat) (nm : string) : State Counters :=
  mkState r nm (Some countEnter) None (Some countExit).

End StateMachine.

(** ** The enemy base class (entities/Enemy.ts) *)

Module Enemy.

(** The fade-out tween started by [die]; on completion it emits
    [enemy-defeated] and destroys the sprite. *)
Inductive Callback :=
| Defeated.

Record t := mk {
  x : Q; y : Q;
  velocityX : Q; velocityY : Q;
  health : Q;
  maxHealth : Q;
  damage : Q;
  speed : Q;
  isHurt : bool;
  isAlive : bool;
  facingRight : bool;
  knockbackVelocity : Q;
  hurtTimer : Q;
  hurtDuration : Q;
  pending : list (Q * Callback)
}.

Definition set_x (v : Q) (s : t) : t :=
  mk v (y s) (velocityX s) (velocityY s) (health s) (maxHealth s) (damage s) (speed s)
    (isHurt s) (isAlive s) (facingRight s) (knockbackVelocity s) (hurtTimer s)
    (hurtDuration s) (pending s).
Definition set_y (v : Q) (s : t) : t :=
  mk (x s) v (velocityX s) (velocityY s) (health s) (maxHealth s) (damage s) (speed s)
    (isHurt s) (isAlive s) (facingRight s) (knockbackVelocity s) (hurtTimer s)
    (hurtDuration s) (pending s).
Definition set_velocityX (v : Q) (s : t) : t :=
  mk (x s) (y s) v (velocityY s) (health s) (maxHealth s) (damage s) (speed s)
    (isHurt s) (isAlive s) (facingRight s) (knockbackVelocity s) (hurtTimer s)
    (hurtDuration s) (pending s).
Definition set_velocityY (v : Q) (s : t) : t :=
  mk (x s) (y s) (velocityX s) v (health s) (maxHealth s) (damage s) (speed s)
    (isHurt s) (isAlive s) (facingRight s) (knockbackVelocity s) (hurtTimer s)
    (hurtDuration s) (pending s).
Definition set_health (v : Q) (s : t) : t :=
  mk (x s) (y s) (velocityX s) (velocityY s) v (maxHealth s) (damage s) (speed s)
    (isHurt s) (isAlive s) (facingRight s) (knockbackVelocity s) (hurtTimer s)
    (hurtDuration s) (pending s).
Definition set_isHurt (v : bool) (s : t) : t :=
  mk (x s) (y s) (velocityX s) (velocityY s) (health s) (maxHealth s) (damage s)
    (speed s) v (isAlive s) (facingRight s) (knockbackVelocity s) (hurtTimer s)
    (hurtDuration s) (pending s).
Definition set_isAlive (v : bool) (s : t) : t :=
  mk (x s) (y s) (velocityX s) (velocityY s) (health s) (maxHealth s) (damage s)
    (speed s) (isHurt s) v (facingRight s) (knockbackVelocity s) (hurtTimer s)
    (hurtDuration s) (pending s).
Definition set_facingRight (v : bool) (s : t) : t :=
  mk (x s) (y s) (velocityX s) (velocityY s) (health s) (maxHealth s) (damage s)
    (speed s) (isHurt s) (isAlive s) v (knockbackVelocity s) (hurtTimer s)
    (hurtDuration s) (pending s).
Definition set_hurtTimer (v : Q) (s : t) : t :=
  mk (x s) (y s) (velocityX s) (velocityY s) (health s) (maxHealth s) (damage s)
    (speed s) (isHurt s) (isAlive s) (facingRight s) (knockbackVelocity s) v
    (hurtDuration s) (pending s).
Definition set_pending (v : list (Q * Callback)) (s : t) : t :=
  mk (x s) (y s) (velocityX s) (velocityY s) (health s) (maxHealth s) (damage s)
    (speed s) (isHurt s) (isAlive s) (facingRight s) (knockbackVelocity s)
    (hurtTimer s) (hurtDuration s) v.

(** [constructor(scene, x, y, texture, {health, damage, speed})] *)
Definition create (x0 y0 health0 damage0 speed0 : Q) : t :=
  mk x0 y0 0 0 health0 health0 damage0 speed0 false true true 300 0 200 [].

Definition die (e : t) : t :=
  let e := set_isAlive false e in
  set_pending (pending e ++ [(200, Defeated)]) e.

Definition takeDamage (amount sourceX : Q) (e : t) : t :=
  if isHurt e || negb (isAlive e) then e
  else
    let e := set_health (health e - amount) e in
    let e := set_isHurt true e in
    let e := set_hurtTimer (hurtDuration e) e in
    (* Knockback *)
    let direction := if Qltb (x e) sourceX then -1 else 1 in
    let e := set_velocityX (knockbackVelocity e * direction) e in
    let e := set_velocityY (-100) e in
    (* Check for death *)
    if Qleb (health e) 0 then die e else e.

Definition updateHurt (delta : Q) (e : t) : t :=
  if isHurt e then
    let e := set_hurtTimer (hurtTimer e - delta) e in
    if Qleb (hurtTimer e) 0 then set_isHurt false e else e
  else e.

Definition facePlayer (playerX : Q) (e : t) : t :=
  set_facingRight (Qltb (x e) playerX) e.

Definition getDamage (e : t) : Q := damage e.
Definition isActive (e : t) : bool := isAlive e && negb (isHurt e).

End Enemy.

(** ** The crawler (entities/Crawler.ts): its damage contract is the one it
    inherits from [Enemy]; its behaviour is the state machine of [update]. *)

Module Crawler.

Inductive CrawlerState := IDLE | PATROL | CHASE | ATTACK.

Record t := mk {
  base : Enemy.t;
  currentState : CrawlerState;
  patrolDirection : Q;
  patrolTimer : Q;
  patrolDuration : Q;
  idleTimer : Q;
  idleDuration : Q;
  chargeSpeed : Q;
  detectionRange : Q;
  attackRange : Q
}.

(** [CRAWLER.HEALTH = 2], [DAMAGE = 1], [SPEED = 120],
    [DETECTION_RANGE = 300], [ATTACK_RANGE = 50]. *)
Definition create (x0 y0 : Q) : t :=
  mk (Enemy.create x0 y0 2 1 120) PATROL 1 2000 2000 0 1000 (120 * 2) 300 50.

Definition set_base (b : Enemy.t) (c : t) : t :=
  mk b (currentState c) (patrolDirection c) (patrolTimer c) (patrolDuration c)
     (idleTimer c) (idleDuration c) (chargeSpeed c) (detectionRange c) (attackRange c).

Definition takeDamage (amount sourceX : Q) (c : t) : t :=
  set_base (Enemy.takeDamage amount sourceX (base c)) c.

Definition set_currentState (v : CrawlerState) (c : t) : t :=
  mk (base c) v (patrolDirection c) (patrolTimer c) (patrolDuration c)
     (idleTimer c) (idleDuration c) (chargeSpeed c) (detectionRange c) (attackRange c).
Definition set_patrolDirection (v : Q) (c : t) : t :=
  mk (base c) (currentState c) v (patrolTimer c) (patrolDuration c)
     (idleTimer c) (idleDuration c) (chargeSpeed c) (detectionRange c) (attackRange c).
Definition set_patrolTimer (v : Q) (c : t) : t :=
  mk (base c) (currentState c) (patrolDirection c) v (patrolDuration c)
     (idleTimer c) (idleDuration c) (chargeSpeed c) (detectionRange c) (attackRange c).
Definition set_idleTimer (v : Q) (c : t) : t :=
  mk (base c) (currentState c) (patrolDirection c) (patrolTimer c) (patrolDuration c)
     v (idleDuration c) (chargeSpeed c) (detectionRange c) (attackRange c).

Definition x (c : t) : Q := Enemy.x (base c).
Definition y (c : t) : Q := Enemy.y (base c).
Definition isAlive (c : t) : bool := Enemy.isAlive (base c).
Definition isHurt (c : t) : bool := Enemy.isHurt (base c).

Definition set_velocityX (v : Q) (c : t) : t :=
  set_base (Enemy.set_velocityX v (base c)) c.

(** The delayed call [updateAttack] leaves on the scene clock. *)
Inductive Callback :=
| ReturnToChase.

(** What one call of [update] is handed besides the player: the frame
    time, the two rectangles [getBounds()] returns, and the body's
    [blocked] flags. *)
Record Frame := mkFrame {
  delta : Q;
  bounds : Geom.Rectangle;
  playerBounds : Geom.Rectangle;
  blockedLeft : bool;
  blockedRight : bool
}.

Section Behaviour.

Variable Math_sqrt : Q -> Q.

(** [Phaser.Math.Distance.Between] *)
Definition DistanceBetween (x1 y1 x2 y2 : Q) : Q :=
  let dx := x1 - x2 in
  let dy := y1 - y2 in
  Math_sqrt (dx * dx + dy * dy).

Definition canSeePlayer (player : Player.t) (c : t) : bool :=
  let heightDiff := Math_abs (y c - Player.y player) in
  Qltb heightDiff 100.

Definition updateIdle (delta distanceToPlayer : Q) (playerVisible : bool) (c : t) : t :=
  let c := set_velocityX 0 c in
  let c := set_idleTimer (idleTimer c - delta) c in
  (* Check for player detection *)
  if playerVisible && Qltb distanceToPlayer (detectionRange c) then
    set_currentState CHASE c
  else
    (* Resume patrol *)
    if Qleb (idleTimer c) 0 then
      let c := set_patrolDirection (patrolDirection c * -1) c in
      let c := set_patrolTimer (patrolDuration c) c in
      set_currentState PATROL c
    else c.

Definition updatePatrol (fr : Frame) (distanceToPlayer : Q) (playerVisible : bool)
  (c : t) : t :=
  (* Move in patrol direction *)
  let c := set_velocityX (Enemy.speed (base c) * patrolDirection c) c in
  let c := set_patrolTimer (patrolTimer c - delta fr) c in
  (* Check for player detection *)
  if playerVisible && Qltb distanceToPlayer (detectionRange c) then
    set_currentState CHASE c
  else
    (* Check for wall or edge *)
    let c :=
      if blockedLeft fr || blockedRight fr then
        let c := set_patrolDirection (patrolDirection c * -1) c in
        set_patrolTimer (patrolDuration c) c
      else c in
    (* Switch to idle *)
    if Qleb (patrolTimer c) 0 then
      let c := set_idleTimer (idleDuration c) c in
      set_currentState IDLE c
    else c.

Definition updateChase (player : Player.t) (distanceToPlayer : Q) (c : t) : t :=
  (* Face and move toward player *)
  let c := set_base (Enemy.facePlayer (Player.x player) (base c)) c in
  let direction := if Qltb (x c) (Player.x player) then 1 else -1 in
  let c := set_velocityX (chargeSpeed c * direction) c in
  (* Attack if close enough *)
  if Qltb distanceToPlayer (attackRange c) then set_currentState ATTACK c
  else
    (* Lose interest if too far *)
    if Qltb (detectionRange c * (15 # 10)) distanceToPlayer then
      let c := set_currentState PATROL c in
      set_patrolTimer (patrolDuration c) c
    else c.

(** [updateAttack] returns the crawler and the delayed call it
    schedules. *)
Definition updateAttack (player : Player.t) (c : t) : t * list (Q * Callback) :=
  (* Lunge attack *)
  let direction := if Qltb (x c) (Player.x player) then 1 else -1 in
  let c := set_velocityX (chargeSpeed c * (15 # 10) * direction) c in
  (* Return to chase after attack *)
  (c, [(200, ReturnToChase)]).

Definition checkPlayerCollision (fr : Frame) (player : Player.t) (c : t) : Player.t :=
  if Geom.Overlaps (bounds fr) (playerBounds fr) then
    Player.takeDamage (Enemy.damage (base c)) (x c) player
  else player.

(** [update]: the crawler and the player after it, and the delayed
    calls scheduled on the scene clock. *)
Definition update (fr : Frame) (player : Player.t) (c : t)
  : t * Player.t * list (Q * Callback) :=
  if negb (isAlive c) then (c, player, [])
  else
    let c := set_base (Enemy.updateHurt (delta fr) (base c)) c in
    if isHurt c then (c, player, [])
    else
      let distanceToPlayer :=
        DistanceBetween (x c) (y c) (Player.x player) (Player.y player) in
      let playerVisible := canSeePlayer player c in
      (* State machine *)
      let '(c, calls) :=
        match currentState c with
        | IDLE => (updateIdle (delta fr) distanceToPlayer playerVisible c, [])
        | PATROL => (updatePatrol fr distanceToPlayer playerVisible c, [])
        | CHASE => (updateChase player distanceToPlayer c, [])
        | ATTACK => updateAttack player c
        end in
      (* Check for collision with player *)
      (c, checkPlayerCollision fr player c, calls).

End Behaviour.

(** The callback [updateAttack] schedules, when the clock runs it. *)
Definition runCallback (cb : Callback) (c : t) : t :=
  match cb with
  | ReturnToChase => if isAlive c then set_currentState CHASE c else c
  end.

(** The arcade physics step between two updates moves the sprite and may
    change its velocity. *)
Definition physics (x1 y1 vx vy : Q) (c : t) : t :=
  set_base (Enemy.set_velocityY vy (Enemy.set_velocityX vx
             (Enemy.set_y y1 (Enemy.set_x x1 (base c))))) c.

End Crawler.

(** ** The arena's enemies (systems/EnemyManager.ts, class [BaseEnemy]) *)

Module BaseEnemy.

Inductive Event :=
| EnemyDefeated.

Record t := mk {
  x : Q;
  velocityX : Q; velocityY : Q;
  health : Q;
  damage : Q;
  moveSpeed : Q;
  isAlive : bool;
  isHurt : bool;
  hurtTimer : Q;
  active : bool;
  emitted : list Event
}.

Definition set_velocityX (v : Q) (s : t) : t :=
  mk (x s) v (velocityY s) (health s) (damage s) (moveSpeed s) (isAlive s) (isHurt s)
    (hurtTimer s) (active s) (emitted s).
Definition set_velocityY (v : Q) (s : t) : t :=
  mk (x s) (velocityX s) v (health s) (damage s) (moveSpeed s) (isAlive s) (isHurt s)
    (hurtTimer s) (active s) (emitted s).
Definition set_health (v : Q) (s : t) : t :=
  mk (x s) (velocityX s) (velocityY s) v (damage s) (moveSpeed s) (isAlive s)
    (isHurt s) (hurtTimer s) (active s) (emitted s).
Definition set_isAlive (v : bool) (s : t) : t :=
  mk (x s) (velocityX s) (velocityY s) (health s) (damage s) (moveSpeed s) v (isHurt s)
    (hurtTimer s) (active s) (emitted s).
Definition set_isHurt (v : bool) (s : t) : t :=
  mk (x s) (velocityX s) (velocityY s) (health s) (damage s) (moveSpeed s) (isAlive s)
    v (hurtTimer s) (active s) (emitted s).
Definition set_hurtTimer (v : Q) (s : t) : t :=
  mk (x s) (velocityX s) (velocityY s) (health s) (damage s) (moveSpeed s) (isAlive s)
    (isHurt s) v (active s) (emitted s).
Definition set_active (v : bool) (s : t) : t :=
  mk (x s) (velocityX s) (velocityY s) (health s) (damage s) (moveSpeed s) (isAlive s)
    (isHurt s) (hurtTimer s) v (emitted s).
Definition set_emitted (v : list Event) (s : t) : t :=
  mk (x s) (velocityX s) (velocityY s) (health s) (damage s) (moveSpeed s) (isAlive s)
    (isHurt s) (hurtTimer s) (active s) v.

Definition create (x0 : Q) : t := mk x0 0 0 2 1 80 true false 0 true [].

Definition die (e : t) : t :=
  let e := set_isAlive false e in
  let e := set_emitted (emitted e ++ [EnemyDefeated]) e in
  set_active false e.

Definition takeDamage (amount sourceX : Q) (e : t) : t :=
  if isHurt e || negb (isAlive e) then e
  else
    let e := set_health (health e - amount) e in
    let e := set_isHurt true e in
    let e := set_hurtTimer 300 e in
    let dir := if Qltb (x e) sourceX then -1 else 1 in
    let e := set_velocityX (150 * dir) e in
    let e := set_velocityY (-50) e in
    if Qleb (health e) 0 then die e else e.

End BaseEnemy.

(** ** The flyer (entities/Flyer.ts) *)

Module FLYER.
Definition SPEED : Q := 150.
Definition HEALTH : Q := 1.
Definition DAMAGE : Q := 1.
Definition HOVER_AMPLITUDE : Q := 30.
Definition HOVER_SPEED : Q := 2.
Definition SWOOP_SPEED : Q := 350.
Definition DETECTION_RANGE : Q := 400.
End FLYER.

Module Flyer.

Inductive FlyerState := HOVER | TRACK | SWOOP | RETREAT.

(** The numeric value of an enum member. *)
Definition code (s : FlyerState) : Z :=
  match s with HOVER => 0 | TRACK => 1 | SWOOP => 2 | RETREAT => 3 end.

(** [currentState] is the flyer's own behaviour state.  [state] is the
    field every engine game object has ([GameObject.state], initially 0);
    the flyer's [update] never reads it. *)
Record t := mk {
  base : Enemy.t;
  currentState : FlyerState;
  state : Z;
  hoverOffset : Q;
  hoverBaseY : Q;
  swoopTarget : option (Q * Q);
  retreatTimer : Q;
  retreatDuration : Q;
  trackTimer : Q;
  trackDuration : Q
}.

Definition set_base (v : Enemy.t) (s : t) : t :=
  mk v (currentState s) (state s) (hoverOffset s) (hoverBaseY s) (swoopTarget s)
    (retreatTimer s) (retreatDuration s) (trackTimer s) (trackDuration s).
Definition set_currentState (v : FlyerState) (s : t) : t :=
  mk (base s) v (state s) (hoverOffset s) (hoverBaseY s) (swoopTarget s)
    (retreatTimer s) (retreatDuration s) (trackTimer s) (trackDuration s).
Definition set_state (v : Z) (s : t) : t :=
  mk (base s) (currentState s) v (hoverOffset s) (hoverBaseY s) (swoopTarget s)
    (retreatTimer s) (retreatDuration s) (trackTimer s) (trackDuration s).
Definition set_hoverOffset (v : Q) (s : t) : t :=
  mk (base s) (currentState s) (state s) v (hoverBaseY s) (swoopTarget s)
    (retreatTimer s) (retreatDuration s) (trackTimer s) (trackDuration s).
Definition set_swoopTarget (v : option (Q * Q)) (s : t) : t :=
  mk (base s) (currentState s) (state s) (hoverOffset s) (hoverBaseY s) v
    (retreatTimer s) (retreatDuration s) (trackTimer s) (trackDuration s).
Definition set_retreatTimer (v : Q) (s : t) : t :=
  mk (base s) (currentState s) (state s) (hoverOffset s) (hoverBaseY s) (swoopTarget s)
    v (retreatDuration s) (trackTimer s) (trackDuration s).
Definition set_trackTimer (v : Q) (s : t) : t :=
  mk (base s) (currentState s) (state s) (hoverOffset s) (hoverBaseY s) (swoopTarget s)
    (retreatTimer s) (retreatDuration s) v (trackDuration s).


Definition create (x0 y0 : Q) : t :=
  mk (Enemy.create x0 y0 FLYER.HEALTH FLYER.DAMAGE FLYER.SPEED)
     HOVER 0 0 y0 None 0 1500 0 500.

Definition x (f : t) : Q := Enemy.x (base f).
Definition y (f : t) : Q := Enemy.y (base f).
Definition isAlive (f : t) : bool := Enemy.isAlive (base f).
Definition isHurt (f : t) : bool := Enemy.isHurt (base f).
Definition health (f : t) : Q := Enemy.health (base f).

Definition set_velocity (vx vy : Q) (f : t) : t :=
  set_base (Enemy.set_velocityY vy (Enemy.set_velocityX vx (base f))) f.

(** What one call of [update] is handed besides [delta]: the player, and
    the two rectangles [getBounds()] returns. *)
Record Frame := mkFrame {
  delta : Q;
  bounds : Geom.Rectangle;
  playerBounds : Geom.Rectangle
}.

Section Behaviour.

Variable Math_sqrt : Q -> Q.
Variable Math_sin : Q -> Q.

(** [Phaser.Math.Distance.Between] *)
Definition DistanceBetween (x1 y1 x2 y2 : Q) : Q :=
  let dx := x1 - x2 in
  let dy := y1 - y2 in
  Math_sqrt (dx * dx + dy * dy).

Definition updateHover (delta distanceToPlayer : Q) (f : t) : t :=
  (* Sinusoidal hover movement *)
  let f := set_hoverOffset (hoverOffset f + delta * FLYER.HOVER_SPEED * (1 # 1000)) f in
  let targetY := hoverBaseY f + Math_sin (hoverOffset f) * FLYER.HOVER_AMPLITUDE in
  let f := set_velocity 0 ((targetY - y f) * 3) f in
  (* Detect player and start tracking *)
  if Qltb distanceToPlayer FLYER.DETECTION_RANGE then
    let f := set_currentState TRACK f in
    set_trackTimer (trackDuration f) f
  else f.

Definition startSwoop (player : Player.t) (f : t) : t :=
  let f := set_currentState SWOOP f in
  set_swoopTarget (Some (Player.x player, Player.y player)) f.

Definition updateTrack (delta : Q) (player : Player.t) (f : t) : t :=
  let f := set_trackTimer (trackTimer f - delta) f in
  (* Move toward position above player *)
  let targetX := Player.x player in
  let targetY := Player.y player - 150 in
  let dx := targetX - x f in
  let dy := targetY - y f in
  let distance := Math_sqrt (dx * dx + dy * dy) in
  let f :=
    if Qltb 10 distance then
      set_velocity ((dx / distance) * Enemy.speed (base f))
                   ((dy / distance) * Enemy.speed (base f)) f
    else f in
  (* Start swoop when tracked enough or in position *)
  if Qleb (trackTimer f) 0 || Qltb distance 50 then startSwoop player f else f.

Definition updateSwoop (f : t) : t :=
  match swoopTarget f with
  | None =>
      let f := set_currentState RETREAT f in
      set_retreatTimer (retreatDuration f) f
  | Some (tx, ty) =>
      (* Dive toward target *)
      let dx := tx - x f in
      let dy := ty - y f in
      let distance := Math_sqrt (dx * dx + dy * dy) in
      if Qltb 20 distance then
        let f := set_velocity ((dx / distance) * FLYER.SWOOP_SPEED)
                              ((dy / distance) * FLYER.SWOOP_SPEED) f in
        (* Also retreat if passed through target area *)
        if Qltb (ty + 50) (y f) then
          let f := set_currentState RETREAT f in
          let f := set_retreatTimer (retreatDuration f) f in
          set_swoopTarget None f
        else f
      else
        (* Reached target, retreat *)
        let f := set_currentState RETREAT f in
        let f := set_retreatTimer (retreatDuration f) f in
        set_swoopTarget None f
  end.

Definition updateRetreat (delta : Q) (f : t) : t :=
  let f := set_retreatTimer (retreatTimer f - delta) f in
  (* Move back up to hover height *)
  let targetY := hoverBaseY f in
  let dy := targetY - y f in
  let f := set_velocity 0 (Math_sign dy * Enemy.speed (base f)) f in
  (* Return to hover state *)
  if Qleb (retreatTimer f) 0 || Qltb (Math_abs dy) 20 then
    let f := set_currentState HOVER f in
    set_hoverOffset 0 f
  else f.

Definition checkPlayerCollision (fr : Frame) (player : Player.t) (f : t)
  : t * Player.t :=
  if Geom.Overlaps (bounds fr) (playerBounds fr) then
    let player := Player.takeDamage (Enemy.damage (base f)) (x f) player in
    (* If swooping, retreat after hit *)
    if (state f =? code SWOOP)%Z then
      let f := set_state (code RETREAT) f in
      (set_retreatTimer (retreatDuration f) f, player)
    else (f, player)
  else (f, player).

Definition update (fr : Frame) (player : Player.t) (f : t) : t * Player.t :=
  if negb (isAlive f) then (f, player)
  else
    let f := set_base (Enemy.updateHurt (delta fr) (base f)) f in
    if isHurt f then (f, player)
    else
      let distanceToPlayer :=
        DistanceBetween (x f) (y f) (Player.x player) (Player.y player) in
      (* State machine *)
      let f :=
        match currentState f with
        | HOVER => updateHover (delta fr) distanceToPlayer f
        | TRACK => updateTrack (delta fr) player f
        | SWOOP => updateSwoop f
        | RETREAT => updateRetreat (delta fr) f
        end in
      (* Always face player *)
      let f := set_base (Enemy.facePlayer (Player.x player) (base f)) f in
      (* Check for collision with player *)
      checkPlayerCollision fr player f.

End Behaviour.

Definition takeDamage (amount sourceX : Q) (f : t) : t :=
  let f := set_base (Enemy.takeDamage amount sourceX (base f)) f in
  (* Retreat when hit *)
  if isAlive f then
    let f := set_state (code RETREAT) f in
    set_retreatTimer (retreatDuration f) f
  else f.

(** The arcade physics step between two updates moves the sprite and may
    change its velocity (world bounds). *)
Definition physics (x1 y1 vx vy : Q) (f : t) : t :=
  set_velocity vx vy (set_base (Enemy.set_y y1 (Enemy.set_x x1 (base f))) f).

(** The flyers the code can produce: a new flyer, and whatever [update],
    [takeDamage] and the physics step make of one. *)
Inductive reachable (Math_sqrt Math_sin : Q -> Q) : t -> Prop :=
| reach_create x0 y0 : reachable Math_sqrt Math_sin (create x0 y0)
| reach_update f fr player :
    reachable Math_sqrt Math_sin f ->
    reachable Math_sqrt Math_sin (fst (update Math_sqrt Math_sin fr player f))
| reach_takeDamage f amount sourceX :
    reachable Math_sqrt Math_sin f ->
    reachable Math_sqrt Math_sin (takeDamage amount sourceX f)
| reach_physics f x1 y1 vx vy :
    reachable Math_sqrt Math_sin f ->
    reachable Math_sqrt Math_sin (physics x1 y1 vx vy f).

End Flyer.

(** ** The boss entity class (class [Boss], "The Shade Knight") *)

Module BOSS.
Definition HEALTH : Q := 15.
Definition DAMAGE : Q := 2.
Definition PHASE1_SPEED : Q := 180.
Definition PHASE1_ATTACK_COOLDOWN : Q := 2000.
Definition PHASE2_SPEED : Q := 220.
Definition PHASE2_ATTACK_COOLDOWN : Q := 1500.
Definition PHASE3_SPEED : Q := 260.
Definition PHASE3_ATTACK_COOLDOWN : Q := 1000.
End BOSS.

Module Boss.

Inductive BossPhase := PHASE_1 | PHASE_2 | PHASE_3.
Inductive BossState := IDLE | WALK | ATTACK | DASH | STUNNED | TRANSITION.

(** The phase as the spec counts it. *)
Definition phaseNumber (p : BossPhase) : Z :=
  match p with PHASE_1 => 1 | PHASE_2 => 2 | PHASE_3 => 3 end.

Definition BossPhase_eqb (a b : BossPhase) : bool :=
  (phaseNumber a =? phaseNumber b)%Z.

Inductive Callback :=
| TransitionDone      (* 500 ms after a phase change: back to IDLE *)
| DefeatedFade.       (* end of the death tween: emit [defeated], destroy *)

Record t := mk {
  x : Q;
  velocityX : Q;
  health : Q;
  maxHealth : Q;
  damage : Q;
  phase : BossPhase;
  currentState : BossState;
  facingRight : bool;
  isAlive : bool;
  isHurt : bool;
  hurtTimer : Q;
  hurtDuration : Q;
  actionTimer : Q;
  attackCooldown : Q;
  attackTimer : Q;
  currentSpeed : Q;
  roars : list BossPhase;         (* the roar texts shown, oldest first *)
  pending : list (Q * Callback)
}.

Definition set_velocityX (v : Q) (s : t) : t :=
  mk (x s) v (health s) (maxHealth s) (damage s) (phase s) (currentState s)
    (facingRight s) (isAlive s) (isHurt s) (hurtTimer s) (hurtDuration s)
    (actionTimer s) (attackCooldown s) (attackTimer s) (currentSpeed s) (roars s)
    (pending s).
Definition set_health (v : Q) (s : t) : t :=
  mk (x s) (velocityX s) v (maxHealth s) (damage s) (phase s) (currentState s)
    (facingRight s) (isAlive s) (isHurt s) (hurtTimer s) (hurtDuration s)
    (actionTimer s) (attackCooldown s) (attackTimer s) (currentSpeed s) (roars s)
    (pending s).
Definition set_phase (v : BossPhase) (s : t) : t :=
  mk (x s) (velocityX s) (health s) (maxHealth s) (damage s) v (currentState s)
    (facingRight s) (isAlive s) (isHurt s) (hurtTimer s) (hurtDuration s)
    (actionTimer s) (attackCooldown s) (attackTimer s) (currentSpeed s) (roars s)
    (pending s).
Definition set_currentState (v : BossState) (s : t) : t :=
  mk (x s) (velocityX s) (health s) (maxHealth s) (damage s) (phase s) v
    (facingRight s) (isAlive s) (isHurt s) (hurtTimer s) (hurtDuration s)
    (actionTimer s) (attackCooldown s) (attackTimer s) (currentSpeed s) (roars s)
    (pending s).
Definition set_isAlive (v : bool) (s : t) : t :=
  mk (x s) (velocityX s) (health s) (maxHealth s) (damage s) (phase s) (currentState s)
    (facingRight s) v (isHurt s) (hurtTimer s) (hurtDuration s) (actionTimer s)
    (attackCooldown s) (attackTimer s) (currentSpeed s) (roars s) (pending s).
Definition set_isHurt (v : bool) (s : t) : t :=
  mk (x s) (velocityX s) (health s) (maxHealth s) (damage s) (phase s) (currentState s)
    (facingRight s) (isAlive s) v (hurtTimer s) (hurtDuration s) (actionTimer s)
    (attackCooldown s) (attackTimer s) (currentSpeed s) (roars s) (pending s).
Definition set_hurtTimer (v : Q) (s : t) : t :=
  mk (x s) (velocityX s) (health s) (maxHealth s) (damage s) (phase s) (currentState s)
    (facingRight s) (isAlive s) (isHurt s) v (hurtDuration s) (actionTimer s)
    (attackCooldown s) (attackTimer s) (currentSpeed s) (roars s) (pending s).
Definition set_actionTimer (v : Q) (s : t) : t :=
  mk (x s) (velocityX s) (health s) (maxHealth s) (damage s) (phase s) (currentState s)
    (facingRight s) (isAlive s) (isHurt s) (hurtTimer s) (hurtDuration s) v
    (attackCooldown s) (attackTimer s) (currentSpeed s) (roars s) (pending s).
Definition set_attackCooldown (v : Q) (s : t) : t :=
  mk (x s) (velocityX s) (health s) (maxHealth s) (damage s) (phase s) (currentState s)
    (facingRight s) (isAlive s) (isHurt s) (hurtTimer s) (hurtDuration s)
    (actionTimer s) v (attackTimer s) (currentSpeed s) (roars s) (pending s).
Definition set_attackTimer (v : Q) (s : t) : t :=
  mk (x s) (velocityX s) (health s) (maxHealth s) (damage s) (phase s) (currentState s)
    (facingRight s) (isAlive s) (isHurt s) (hurtTimer s) (hurtDuration s)
    (actionTimer s) (attackCooldown s) v (currentSpeed s) (roars s) (pending s).
Definition set_currentSpeed (v : Q) (s : t) : t :=
  mk (x s) (velocityX s) (health s) (maxHealth s) (damage s) (phase s) (currentState s)
    (facingRight s) (isAlive s) (isHurt s) (hurtTimer s) (hurtDuration s)
    (actionTimer s) (attackCooldown s) (attackTimer s) v (roars s) (pending s).
Definition set_roars (v : list BossPhase) (s : t) : t :=
  mk (x s) (velocityX s) (health s) (maxHealth s) (damage s) (phase s) (currentState s)
    (facingRight s) (isAlive s) (isHurt s) (hurtTimer s) (hurtDuration s)
    (actionTimer s) (attackCooldown s) (attackTimer s) (currentSpeed s) v (pending s).
Definition set_pending (v : list (Q * Callback)) (s : t) : t :=
  mk (x s) (velocityX s) (health s) (maxHealth s) (damage s) (phase s) (currentState s)
    (facingRight s) (isAlive s) (isHurt s) (hurtTimer s) (hurtDuration s)
    (actionTimer s) (attackCooldown s) (attackTimer s) (currentSpeed s) (roars s) v.


Definition create (x0 : Q) : t :=
  mk x0 0 BOSS.HEALTH BOSS.HEALTH BOSS.DAMAGE PHASE_1 IDLE false true false 0 300 0
     BOSS.PHASE1_ATTACK_COOLDOWN BOSS.PHASE1_ATTACK_COOLDOWN BOSS.PHASE1_SPEED [] [].

Definition delayedCall (ms : Q) (cb : Callback) (b : t) : t :=
  set_pending (pending b ++ [(ms, cb)]) b.

Definition transitionToPhase (newPhase : BossPhase) (b : t) : t :=
  let b := set_phase newPhase b in
  let b := set_currentState TRANSITION b in
  (* Update stats based on phase *)
  let b :=
    match newPhase with
    | PHASE_2 =>
        set_attackCooldown BOSS.PHASE2_ATTACK_COOLDOWN
          (set_currentSpeed BOSS.PHASE2_SPEED b)
    | PHASE_3 =>
        set_attackCooldown BOSS.PHASE3_ATTACK_COOLDOWN
          (set_currentSpeed BOSS.PHASE3_SPEED b)
    | PHASE_1 => b
    end in
  (* Roar/transition animation *)
  let b := set_roars (roars b ++ [newPhase]) b in
  (* Brief invulnerability during transition *)
  delayedCall 500 TransitionDone b.

Definition checkPhaseTransition (b : t) : t :=
  let healthPercent := health b / maxHealth b in
  if Qleb healthPercent (66 # 100) && BossPhase_eqb (phase b) PHASE_1 then
    transitionToPhase PHASE_2 b
  else if Qleb healthPercent (33 # 100) && BossPhase_eqb (phase b) PHASE_2 then
    transitionToPhase PHASE_3 b
  else b.

Definition die (b : t) : t :=
  let b := set_isAlive false b in
  let b := set_velocityX 0 b in
  delayedCall 1000 DefeatedFade b.

Definition takeDamage (amount sourceX : Q) (b : t) : t :=
  if isHurt b || negb (isAlive b) then b
  else
    let b := set_health (health b - amount) b in
    let b := set_isHurt true b in
    let b := set_hurtTimer (hurtDuration b) b in
    (* Knockback (slight for boss) *)
    let direction := if Qltb (x b) sourceX then -1 else 1 in
    let b := set_velocityX (100 * direction) b in
    (* Check phase transitions *)
    let b := checkPhaseTransition b in
    (* Check for death *)
    if Qleb (health b) 0 then die b else b.

Definition updateHurt (delta : Q) (b : t) : t :=
  if isHurt b then
    let b := set_hurtTimer (hurtTimer b - delta) b in
    if Qleb (hurtTimer b) 0 then set_isHurt false b else b
  else b.

Definition runCallback (cb : Callback) (b : t) : t :=
  match cb with
  | TransitionDone => set_actionTimer 500 (set_currentState IDLE b)
  | DefeatedFade => b
  end.

Definition getHealthPercent (b : t) : Q := health b / maxHealth b.
Definition getCurrentPhase (b : t) : BossPhase := phase b.

(** The scene clock, as far as the boss's calls go. *)
Definition tickClock (delta : Q) (b : t) : t :=
  let aged := map (fun '(ms, cb) => (ms - delta, cb)) (pending b) in
  let due := List.filter (fun '(ms, _) => Qleb ms 0) aged in
  let rest := List.filter (fun '(ms, _) => negb (Qleb ms 0)) aged in
  fold_left (fun b '(_, cb) => runCallback cb b) due (set_pending rest b).

(** What happens to the boss's health and hurt state between two
    observations: a call of [takeDamage(amount, sourceX)], or a frame, in
    which the clock runs and [update] counts the hurt timer down.  The
    rest of [update] (movement and attack choice) touches neither health
    nor phase and is left out. *)
Inductive Step :=
| Hit (amount sourceX : Q)
| Update (delta : Q).

Definition step (b : t) (st : Step) : t :=
  match st with
  | Hit amount sourceX => takeDamage amount sourceX b
  | Update delta =>
      let b := tickClock delta b in
      if isAlive b then updateHurt delta b else b
  end.

(** Every hit of the run is a hit of the player's nail
    ([PLAYER.NAIL_DAMAGE = 1]). *)
Definition nailHits (steps : list Step) : Prop :=
  Forall (fun st => match st with Hit amount _ => amount = 1 | Update _ => True end)
         steps.

(** No hit of the run heals. *)
Definition hitsTakeOff (steps : list Step) : Prop :=
  Forall (fun st => match st with Hit amount _ => 0 <= amount | Update _ => True end)
         steps.

(** The boss after each step, oldest first, starting with [b] itself. *)
Definition history (b : t) (steps : list Step) : list t := trajectory step b steps.

(** What the phase logic reads and writes. *)
Definition Vitals : Type := Q * Q * BossPhase * list BossPhase.

Definition vitals (b : t) : Vitals := (health b, maxHealth b, phase b, roars b).

(** What one hit that is not turned away does to the vitals. *)
Definition hitVitals (amount : Q) (v : Vitals) : Vitals :=
  let '(h, m, ph, shown) := v in
  let h := h - amount in
  if Qleb (h / m) (66 # 100) && BossPhase_eqb ph PHASE_1
  then (h, m, PHASE_2, shown ++ [PHASE_2])
  else if Qleb (h / m) (33 # 100) && BossPhase_eqb ph PHASE_2
  then (h, m, PHASE_3, shown ++ [PHASE_3])
  else (h, m, ph, shown).

(** The roars shown so far are those of the phases entered, each once and
    in order. *)
Definition roarsInOrder (b : t) : Prop :=
  roars b = match phase b with
            | PHASE_1 => []
            | PHASE_2 => [PHASE_2]
            | PHASE_3 => [PHASE_2; PHASE_3]
            end.

(** The phase matches the health thresholds, and each roar has been
    shown exactly once since its threshold was reached. *)
Definition phaseInvariant (b : t) : Prop :=
  maxHealth b = 15 /\
  ((phase b = PHASE_1 /\ ~ getHealthPercent b <= 66 # 100 /\ roars b = []) \/
   (phase b = PHASE_2 /\ getHealthPercent b <= 66 # 100 /\
    ~ getHealthPercent b <= 33 # 100 /\ roars b = [PHASE_2]) \/
   (phase b = PHASE_3 /\ getHealthPercent b <= 33 # 100 /\
    roars b = [PHASE_2; PHASE_3])).

End Boss.

(** ** The boss encounter (scenes/BossScene.ts) *)

Module BossScene.

(** Boss states for the fight *)
Inductive BossState :=
| DORMANT | AWAKENING | IDLE | WALKING | SLASH | CHARGE | SUMMON | SLAM
| STUNNED | DYING | DEAD.

Definition BossState_eqb (a b : BossState) : bool :=
  match a, b with
  | DORMANT, DORMANT | AWAKENING, AWAKENING | IDLE, IDLE | WALKING, WALKING
  | SLASH, SLASH | CHARGE, CHARGE | SUMMON, SUMMON | SLAM, SLAM
  | STUNNED, STUNNED | DYING, DYING | DEAD, DEAD => true
  | _, _ => false
  end.

(** A void orb: a graphics object carrying [targetX], [targetY], [speed],
    [lifetime] and [chasing].  [oid] is the identity of the object;
    [active] is cleared by [destroy()]. *)
Record Orb := mkOrb {
  oid : nat;
  ox : Q; oy : Q;
  targetX : Q; targetY : Q;
  speed : Q;
  lifetime : Q;
  chasing : bool;
  active : bool
}.

(** Delayed calls and tween completions waiting on the scene clock. *)
Inductive Callback :=
| AwakeningDone                (* startBossFight, 2500 ms *)
| SlashDamage                  (* startSlash, 150 ms *)
| ChargeGo                     (* startCharge, 200 ms *)
| SpawnOrb                     (* startSummon, 300 + i * 200 ms *)
| SlamRiseDone                 (* startSlam, end of the 400 ms rise *)
| SlamImpact                   (* startSlam, end of the 200 ms fall *)
| SlamWaveDamage               (* createSlamWave, 100 ms *)
| OrbFloatDone (id : nat) (y : Q)   (* spawnVoidOrb, end of the 500 ms float *)
| BossDead                     (* startBossDeath, 2500 ms *)
| ReturnToMenu                 (* showVictory, 6000 ms *)
| SceneStart.                  (* transitionOut, 1000 ms *)

(** One-shot cues the scene hands to the display, camera and scene
    manager. *)
Inductive Effect :=
| DeathSequence                (* the death tween and particle burst *)
| Victory                      (* showVictory *)
| FadeOut                      (* transitionOut *)
| MenuStarted.                 (* scene.start(SCENES.MENU) *)

Record t := mk {
  player : Player.t;
  bossX : Q;
  bossY : Q;
  bossHealth : Q;
  bossMaxHealth : Q;
  bossState : BossState;
  bossPhase : Z;
  bossFacing : Z;
  bossVelocityX : Q;
  bossVelocityY : Q;
  bossHitbox : Geom.Rectangle;
  stateTimer : Q;
  attackCooldown : Q;
  invincibleTimer : Q;
  animTimer : Q;
  screenShakeIntensity : Q;
  voidOrbs : list Orb;
  clock : list (Q * Callback);
  orbsCreated : nat;
  triggerZone : bool;
  phaseTextLog : list Z;
  effects : list Effect
}.

Definition set_player (v : Player.t) (s : t) : t :=
  mk v (bossX s) (bossY s) (bossHealth s) (bossMaxHealth s) (bossState s) (bossPhase s)
    (bossFacing s) (bossVelocityX s) (bossVelocityY s) (bossHitbox s) (stateTimer s)
    (attackCooldown s) (invincibleTimer s) (animTimer s) (screenShakeIntensity s)
    (voidOrbs s) (clock s) (orbsCreated s) (triggerZone s) (phaseTextLog s)
    (effects s).
Definition set_bossX (v : Q) (s : t) : t :=
  mk (player s) v (bossY s) (bossHealth s) (bossMaxHealth s) (bossState s)
    (bossPhase s) (bossFacing s) (bossVelocityX s) (bossVelocityY s) (bossHitbox s)
    (stateTimer s) (attackCooldown s) (invincibleTimer s) (animTimer s)
    (screenShakeIntensity s) (voidOrbs s) (clock s) (orbsCreated s) (triggerZone s)
    (phaseTextLog s) (effects s).
Definition set_bossY (v : Q) (s : t) : t :=
  mk (player s) (bossX s) v (bossHealth s) (bossMaxHealth s) (bossState s)
    (bossPhase s) (bossFacing s) (bossVelocityX s) (bossVelocityY s) (bossHitbox s)
    (stateTimer s) (attackCooldown s) (invincibleTimer s) (animTimer s)
    (screenShakeIntensity s) (voidOrbs s) (clock s) (orbsCreated s) (triggerZone s)
    (phaseTextLog s) (effects s).
Definition set_bossHealth (v : Q) (s : t) : t :=
  mk (player s) (bossX s) (bossY s) v (bossMaxHealth s) (bossState s) (bossPhase s)
    (bossFacing s) (bossVelocityX s) (bossVelocityY s) (bossHitbox s) (stateTimer s)
    (attackCooldown s) (invincibleTimer s) (animTimer s) (screenShakeIntensity s)
    (voidOrbs s) (clock s) (orbsCreated s) (triggerZone s) (phaseTextLog s)
    (effects s).
Definition set_bossState (v : BossState) (s : t) : t :=
  mk (player s) (bossX s) (bossY s) (bossHealth s) (bossMaxHealth s) v (bossPhase s)
    (bossFacing s) (bossVelocityX s) (bossVelocityY s) (bossHitbox s) (stateTimer s)
    (attackCooldown s) (invincibleTimer s) (animTimer s) (screenShakeIntensity s)
    (voidOrbs s) (clock s) (orbsCreated s) (triggerZone s) (phaseTextLog s)
    (effects s).
Definition set_bossPhase (v : Z) (s : t) : t :=
  mk (player s) (bossX s) (bossY s) (bossHealth s) (bossMaxHealth s) (bossState s) v
    (bossFacing s) (bossVelocityX s) (bossVelocityY s) (bossHitbox s) (stateTimer s)
    (attackCooldown s) (invincibleTimer s) (animTimer s) (screenShakeIntensity s)
    (voidOrbs s) (clock s) (orbsCreated s) (triggerZone s) (phaseTextLog s)
    (effects s).
Definition set_bossFacing (v : Z) (s : t) : t :=
  mk (player s) (bossX s) (bossY s) (bossHealth s) (bossMaxHealth s) (bossState s)
    (bossPhase s) v (bossVelocityX s) (bossVelocityY s) (bossHitbox s) (stateTimer s)
    (attackCooldown s) (invincibleTimer s) (animTimer s) (screenShakeIntensity s)
    (voidOrbs s) (clock s) (orbsCreated s) (triggerZone s) (phaseTextLog s)
    (effects s).
Definition set_bossVelocityX (v : Q) (s : t) : t :=
  mk (player s) (bossX s) (bossY s) (bossHealth s) (bossMaxHealth s) (bossState s)
    (bossPhase s) (bossFacing s) v (bossVelocityY s) (bossHitbox s) (stateTimer s)
    (attackCooldown s) (invincibleTimer s) (animTimer s) (screenShakeIntensity s)
    (voidOrbs s) (clock s) (orbsCreated s) (triggerZone s) (phaseTextLog s)
    (effects s).
Definition set_bossVelocityY (v : Q) (s : t) : t :=
  mk (player s) (bossX s) (bossY s) (bossHealth s) (bossMaxHealth s) (bossState s)
    (bossPhase s) (bossFacing s) (bossVelocityX s) v (bossHitbox s) (stateTimer s)
    (attackCooldown s) (invincibleTimer s) (animTimer s) (screenShakeIntensity s)
    (voidOrbs s) (clock s) (orbsCreated s) (triggerZone s) (phaseTextLog s)
    (effects s).
Definition set_bossHitbox (v : Geom.Rectangle) (s : t) : t :=
  mk (player s) (bossX s) (bossY s) (bossHealth s) (bossMaxHealth s) (bossState s)
    (bossPhase s) (bossFacing s) (bossVelocityX s) (bossVelocityY s) v (stateTimer s)
    (attackCooldown s) (invincibleTimer s) (animTimer s) (screenShakeIntensity s)
    (voidOrbs s) (clock s) (orbsCreated s) (triggerZone s) (phaseTextLog s)
    (effects s).
Definition set_stateTimer (v : Q) (s : t) : t :=
  mk (player s) (bossX s) (bossY s) (bossHealth s) (bossMaxHealth s) (bossState s)
    (bossPhase s) (bossFacing s) (bossVelocityX s) (bossVelocityY s) (bossHitbox s) v
    (attackCooldown s) (invincibleTimer s) (animTimer s) (screenShakeIntensity s)
    (voidOrbs s) (clock s) (orbsCreated s) (triggerZone s) (phaseTextLog s)
    (effects s).
Definition set_attackCooldown (v : Q) (s : t) : t :=
  mk (player s) (bossX s) (bossY s) (bossHealth s) (bossMaxHealth s) (bossState s)
    (bossPhase s) (bossFacing s) (bossVelocityX s) (bossVelocityY s) (bossHitbox s)
    (stateTimer s) v (invincibleTimer s) (animTimer s) (screenShakeIntensity s)
    (voidOrbs s) (clock s) (orbsCreated s) (triggerZone s) (phaseTextLog s)
    (effects s).
Definition set_invincibleTimer (v : Q) (s : t) : t :=
  mk (player s) (bossX s) (bossY s) (bossHealth s) (bossMaxHealth s) (bossState s)
    (bossPhase s) (bossFacing s) (bossVelocityX s) (bossVelocityY s) (bossHitbox s)
    (stateTimer s) (attackCooldown s) v (animTimer s) (screenShakeIntensity s)
    (voidOrbs s) (clock s) (orbsCreated s) (triggerZone s) (phaseTextLog s)
    (effects s).
Definition set_animTimer (v : Q) (s : t) : t :=
  mk (player s) (bossX s) (bossY s) (bossHealth s) (bossMaxHealth s) (bossState s)
    (bossPhase s) (bossFacing s) (bossVelocityX s) (bossVelocityY s) (bossHitbox s)
    (stateTimer s) (attackCooldown s) (invincibleTimer s) v (screenShakeIntensity s)
    (voidOrbs s) (clock s) (orbsCreated s) (triggerZone s) (phaseTextLog s)
    (effects s).
Definition set_screenShakeIntensity (v : Q) (s : t) : t :=
  mk (player s) (bossX s) (bossY s) (bossHealth s) (bossMaxHealth s) (bossState s)
    (bossPhase s) (bossFacing s) (bossVelocityX s) (bossVelocityY s) (bossHitbox s)
    (stateTimer s) (attackCooldown s) (invincibleTimer s) (animTimer s) v (voidOrbs s)
    (clock s) (orbsCreated s) (triggerZone s) (phaseTextLog s) (effects s).
Definition set_voidOrbs (v : list Orb) (s : t) : t :=
  mk (player s) (bossX s) (bossY s) (bossHealth s) (bossMaxHealth s) (bossState s)
    (bossPhase s) (bossFacing s) (bossVelocityX s) (bossVelocityY s) (bossHitbox s)
    (stateTimer s) (attackCooldown s) (invincibleTimer s) (animTimer s)
    (screenShakeIntensity s) v (clock s) (orbsCreated s) (triggerZone s)
    (phaseTextLog s) (effects s).
Definition set_clock (v : list (Q * Callback)) (s : t) : t :=
  mk (player s) (bossX s) (bossY s) (bossHealth s) (bossMaxHealth s) (bossState s)
    (bossPhase s) (bossFacing s) (bossVelocityX s) (bossVelocityY s) (bossHitbox s)
    (stateTimer s) (attackCooldown s) (invincibleTimer s) (animTimer s)
    (screenShakeIntensity s) (voidOrbs s) v (orbsCreated s) (triggerZone s)
    (phaseTextLog s) (effects s).
Definition set_orbsCreated (v : nat) (s : t) : t :=
  mk (player s) (bossX s) (bossY s) (bossHealth s) (bossMaxHealth s) (bossState s)
    (bossPhase s) (bossFacing s) (bossVelocityX s) (bossVelocityY s) (bossHitbox s)
    (stateTimer s) (attackCooldown s) (invincibleTimer s) (animTimer s)
    (screenShakeIntensity s) (voidOrbs s) (clock s) v (triggerZone s) (phaseTextLog s)
    (effects s).
Definition set_triggerZone (v : bool) (s : t) : t :=
  mk (player s) (bossX s) (bossY s) (bossHealth s) (bossMaxHealth s) (bossState s)
    (bossPhase s) (bossFacing s) (bossVelocityX s) (bossVelocityY s) (bossHitbox s)
    (stateTimer s) (attackCooldown s) (invincibleTimer s) (animTimer s)
    (screenShakeIntensity s) (voidOrbs s) (clock s) (orbsCreated s) v (phaseTextLog s)
    (effects s).
Definition set_phaseTextLog (v : list Z) (s : t) : t :=
  mk (player s) (bossX s) (bossY s) (bossHealth s) (bossMaxHealth s) (bossState s)
    (bossPhase s) (bossFacing s) (bossVelocityX s) (bossVelocityY s) (bossHitbox s)
    (stateTimer s) (attackCooldown s) (invincibleTimer s) (animTimer s)
    (screenShakeIntensity s) (voidOrbs s) (clock s) (orbsCreated s) (triggerZone s) v
    (effects s).
Definition set_effects (v : list Effect) (s : t) : t :=
  mk (player s) (bossX s) (bossY s) (bossHealth s) (bossMaxHealth s) (bossState s)
    (bossPhase s) (bossFacing s) (bossVelocityX s) (bossVelocityY s) (bossHitbox s)
    (stateTimer s) (attackCooldown s) (invincibleTimer s) (animTimer s)
    (screenShakeIntensity s) (voidOrbs s) (clock s) (orbsCreated s) (triggerZone s)
    (phaseTextLog s) v.


(** [create()]: the player at (150, 520), the boss dormant at
    (1100, 520) with 20 of 20 health, the battle trigger in place. *)
Definition create : t :=
  mk (Player.create 150 520) 1100 520 20 20 DORMANT 1 (-1) 0 0
     (Geom.mkRect (-30) (-50) 60 100) 0 0 0 0 0 [] [] 0 true [] [].

Definition delayedCall (ms : Q) (cb : Callback) (s : t) : t :=
  set_clock (clock s ++ [(ms, cb)]) s.

Definition cue (e : Effect) (s : t) : t := set_effects (effects s ++ [e]) s.

Definition playerRect (s : t) : Geom.Rectangle :=
  let playerBody := Player.body (player s) in
  Geom.mkRect (Geom.rx playerBody) (Geom.ry playerBody)
              (Geom.rwidth playerBody) (Geom.rheight playerBody).

Definition playerTakeDamage (amount sourceX : Q) (s : t) : t :=
  set_player (Player.takeDamage amount sourceX (player s)) s.

(** *** Battle trigger *)

Definition startBossFight (s : t) : t :=
  let s := set_bossState AWAKENING s in
  let s := set_stateTimer 3000 s in
  let s := set_screenShakeIntensity 5 s in
  (* Return camera and start fight *)
  delayedCall 2500 AwakeningDone s.

(** The overlap callback of the trigger zone. *)
Definition onTriggerOverlap (s : t) : t :=
  if triggerZone s && BossState_eqb (bossState s) DORMANT then
    startBossFight (set_triggerZone false s)
  else s.

(** *** Boss attacks *)

Definition startSlash (s : t) : t :=
  let s := set_bossState SLASH s in
  let s := set_stateTimer 400 s in
  let s := set_bossVelocityX 0 s in
  (* Damage after windup *)
  let s := delayedCall 150 SlashDamage s in
  set_attackCooldown (800 - inject_Z (bossPhase s - 1) * 150) s.

Definition startCharge (s : t) : t :=
  let s := set_bossState CHARGE s in
  let s := set_stateTimer 600 s in
  (* Start charging after windup *)
  let s := delayedCall 200 ChargeGo s in
  set_attackCooldown 1500 s.

Definition startSummon (s : t) : t :=
  let s := set_bossState SUMMON s in
  let s := set_stateTimer 1500 s in
  let s := set_bossVelocityX 0 s in
  (* Spawn void orbs *)
  let orbCount := Z.to_nat (bossPhase s) in
  let s :=
    fold_left (fun s i => delayedCall (300 + inject_Z (Z.of_nat i) * 200) SpawnOrb s)
              (seq 0 orbCount) s in
  set_attackCooldown 2000 s.

Definition startSlam (s : t) : t :=
  let s := set_bossState SLAM s in
  let s := set_stateTimer 1000 s in
  (* Jump up *)
  let s := delayedCall 400 SlamRiseDone s in
  set_attackCooldown 2500 s.

Definition chooseNextAction (roll : Q) (s : t) : t :=
  let distance := Math_abs (Player.x (player s) - bossX s) in
  if Qltb distance 120 then
    (* Close range - slash *)
    startSlash s
  else if Qltb 400 distance && (2 <=? bossPhase s)%Z && Qltb (5 # 10) roll then
    (* Far range, phase 2+ - charge *)
    startCharge s
  else if (2 <=? bossPhase s)%Z && Qltb (7 # 10) roll then
    (* Phase 2+ - summon *)
    startSummon s
  else if (3 <=? bossPhase s)%Z && Qltb (6 # 10) roll then
    (* Phase 3 - slam *)
    startSlam s
  else
    (* Walk towards player *)
    let s := set_bossState WALKING s in
    set_stateTimer 2000 s.

(** *** Boss AI *)

Definition updateIdle (roll : Q) (s : t) : t :=
  let s := set_bossVelocityX 0 s in
  let s := set_bossVelocityY 0 s in
  if Qleb (stateTimer s) 0 && Qleb (attackCooldown s) 0 then chooseNextAction roll s
  else s.

Definition updateWalking (s : t) : t :=
  let speed := 120 + inject_Z (bossPhase s - 1) * 40 in
  let direction := if Qltb (Player.x (player s)) (bossX s) then -1 else 1 in
  let s := set_bossVelocityX (speed * direction) s in
  let distance := Math_abs (Player.x (player s) - bossX s) in
  if Qltb distance 100 && Qleb (attackCooldown s) 0 then startSlash s
  else if Qleb (stateTimer s) 0 then
    let s := set_bossState IDLE s in
    set_stateTimer 300 s
  else s.

Definition updateSlash (s : t) : t :=
  if Qleb (stateTimer s) 0 then
    let s := set_bossState IDLE s in
    set_stateTimer 300 s
  else s.

Definition updateCharge (s : t) : t :=
  (* Check player collision during charge *)
  if Geom.Overlaps (bossHitbox s) (playerRect s) then
    let s := playerTakeDamage 2 (bossX s) s in
    let s := set_screenShakeIntensity 10 s in
    let s := set_bossVelocityX 0 s in
    let s := set_bossState IDLE s in
    set_stateTimer 500 s
  else
    (* Stop at walls *)
    let s :=
      if Qleb (bossX s) 100 || Qleb 1300 (bossX s) then
        let s := set_bossVelocityX 0 s in
        let s := set_screenShakeIntensity 5 s in
        let s := set_bossState STUNNED s in
        set_stateTimer 1000 s
      else s in
    if Qleb (stateTimer s) 0 then
      let s := set_bossVelocityX 0 s in
      let s := set_bossState IDLE s in
      set_stateTimer 300 s
    else s.

Definition updateSummon (s : t) : t :=
  if Qleb (stateTimer s) 0 then
    let s := set_bossState IDLE s in
    set_stateTimer 500 s
  else s.

Definition updateSlam (s : t) : t :=
  if Qleb (stateTimer s) 0 then
    let s := set_bossState IDLE s in
    set_stateTimer 500 s
  else s.

Definition updateStunned (s : t) : t :=
  if Qleb (stateTimer s) 0 then
    let s := set_bossState IDLE s in
    set_stateTimer 300 s
  else s.

Definition checkBossPlayerCollision (s : t) : t :=
  if BossState_eqb (bossState s) DORMANT || BossState_eqb (bossState s) DEAD then s
  else if Geom.Overlaps (bossHitbox s) (playerRect s) then
    (* Contact damage *)
    if negb (BossState_eqb (bossState s) STUNNED) then
      playerTakeDamage 1 (bossX s) s
    else s
  else s.

(** The "State machine" switch of [updateBoss]. *)
Definition runState (roll : Q) (s : t) : t :=
  match bossState s with
  | IDLE => updateIdle roll s
  | WALKING => updateWalking s
  | SLASH => updateSlash s
  | CHARGE => updateCharge s
  | SUMMON => updateSummon s
  | SLAM => updateSlam s
  | STUNNED => updateStunned s
  | _ => s
  end.

(** The "Apply velocity", "Keep in bounds" and "Update hitbox" blocks of
    [updateBoss]. *)
Definition moveBoss (delta : Q) (s : t) : t :=
  (* Apply velocity *)
  let s := set_bossX (bossX s + bossVelocityX s * (delta / 1000)) s in
  let s := set_bossY (bossY s + bossVelocityY s * (delta / 1000)) s in
  (* Keep in bounds *)
  let s := set_bossX (Geom.Clamp (bossX s) 80 1320) s in
  let s := set_bossY (Geom.Clamp (bossY s) 100 580) s in
  (* Update hitbox *)
  set_bossHitbox (Geom.setPosition (bossX s - 30) (bossY s - 50) (bossHitbox s)) s.

Definition updateBoss (delta roll : Q) (s : t) : t :=
  if BossState_eqb (bossState s) DORMANT || BossState_eqb (bossState s) AWAKENING
  then s
  else if BossState_eqb (bossState s) DEAD then s
  else
    (* State timer *)
    let s := set_stateTimer (stateTimer s - delta) s in
    (* Face player *)
    let s := set_bossFacing
               (if Qltb (Player.x (player s)) (bossX s) then -1 else 1)%Z s in
    (* State machine *)
    let s := runState roll s in
    let s := moveBoss delta s in
    (* Check player collision *)
    checkBossPlayerCollision s.

(** *** Void orbs *)

Definition spawnVoidOrb (s : t) : t :=
  let startX := bossX s in
  let startY := bossY s - 30 in
  let orb :=
    mkOrb (orbsCreated s) startX startY
          (Player.x (player s)) (Player.y (player s)) 200 3000 false true in
  let s := set_orbsCreated (S (orbsCreated s)) s in
  let s := set_voidOrbs (voidOrbs s ++ [orb]) s in
  (* Float up then chase *)
  delayedCall 500 (OrbFloatDone (oid orb) (startY - 50)) s.

Section Orbs.

Variable Math_sqrt : Q -> Q.

(** The body of the [filter] callback of [updateVoidOrbs]: the orb as it
    is left (or [None] when the callback returns [false]) and the
    player after it. *)
Definition updateVoidOrb (delta : Q) (player : Player.t) (orb : Orb)
  : option Orb * Player.t :=
  if negb (active orb) then (None, player)
  else
    let lifetime' := lifetime orb - delta in
    if Qleb lifetime' 0 then (None, player)
    else
      let orb := mkOrb (oid orb) (ox orb) (oy orb) (targetX orb) (targetY orb)
                       (speed orb) lifetime' (chasing orb) (active orb) in
      if chasing orb then
        let dx := Player.x player - ox orb in
        let dy := Player.y player - oy orb in
        let dist := Math_sqrt (dx * dx + dy * dy) in
        let orb :=
          if Qltb 0 dist then
            let speed' := speed orb * (delta / 1000) in
            mkOrb (oid orb) (ox orb + (dx / dist) * speed')
                  (oy orb + (dy / dist) * speed')
                  (targetX orb) (targetY orb) (speed orb) (lifetime orb)
                  (chasing orb) (active orb)
          else orb in
        (* Check player collision *)
        if Qltb dist 30 then (None, Player.takeDamage 1 (ox orb) player)
        else (Some orb, player)
      else (Some orb, player).

Fixpoint updateOrbList (delta : Q) (player : Player.t) (orbs : list Orb)
  : list Orb * Player.t :=
  match orbs with
  | [] => ([], player)
  | orb :: rest =>
      let '(kept, player) := updateVoidOrb delta player orb in
      let '(rest', player) := updateOrbList delta player rest in
      (match kept with Some o => o :: rest' | None => rest' end, player)
  end.

Definition updateVoidOrbs (delta : Q) (s : t) : t :=
  let '(orbs, p) := updateOrbList delta (player s) (voidOrbs s) in
  set_voidOrbs orbs (set_player p s).

(** The orb's distance to the player, as the chase computes it. *)
Definition orbDistance (player : Player.t) (orb : Orb) : Q :=
  let dx := Player.x player - ox orb in
  let dy := Player.y player - oy orb in
  Math_sqrt (dx * dx + dy * dy).

(** An armed orb sees the player within the hit radius. *)
Definition inHitRadius (player : Player.t) (orb : Orb) : bool :=
  chasing orb && Qltb (orbDistance player orb) 30.

(** Where the orb is after the chase step of one update. *)
Definition orbXAfterMove (delta : Q) (player : Player.t) (orb : Orb) : Q :=
  let dx := Player.x player - ox orb in
  let dist := orbDistance player orb in
  if Qltb 0 dist then ox orb + (dx / dist) * (speed orb * (delta / 1000))
  else ox orb.

(** The life of one orb over successive updates.  Between two updates
    anything may happen to the player ([elsewhere]: it moves, is hit by
    something else, loses its invincibility), and the float tween may
    complete ([floatDone]). *)
Record OrbTick := mkOrbTick {
  tickDelta : Q;
  elsewhere : Player.t -> Player.t;
  floatDone : bool
}.

Definition floatEnd (armed : bool) (orb : Orb) : Orb :=
  if armed then
    mkOrb (oid orb) (ox orb) (oy orb - 50) (targetX orb) (targetY orb) (speed orb)
          (lifetime orb) true (active orb)
  else orb.

Fixpoint orbRun (ticks : list OrbTick) (player : Player.t) (orb : option Orb)
  : option Orb * Player.t :=
  match ticks with
  | [] => (orb, player)
  | tk :: rest =>
      let player := elsewhere tk player in
      match orb with
      | None => orbRun rest player None
      | Some o =>
          let '(o', player) :=
            updateVoidOrb (tickDelta tk) player (floatEnd (floatDone tk) o) in
          orbRun rest player o'
      end
  end.

(** What becomes of the player when no orb touches it. *)
Definition playerElsewhere (ticks : list OrbTick) (player : Player.t) : Player.t :=
  fold_left (fun p tk => elsewhere tk p) ticks player.

(** At no update of its life does the orb, armed, see the player within
    the hit radius. *)
Fixpoint neverInHitRadius (ticks : list OrbTick) (player : Player.t)
  (orb : option Orb) : Prop :=
  match ticks, orb with
  | tk :: rest, Some o =>
      let player := elsewhere tk player in
      let o := floatEnd (floatDone tk) o in
      inHitRadius player o = false /\
      neverInHitRadius rest (snd (updateVoidOrb (tickDelta tk) player o))
                       (fst (updateVoidOrb (tickDelta tk) player o))
  | _, _ => True
  end.

Definition elapsed (ticks : list OrbTick) : Q :=
  fold_right (fun tk acc => tickDelta tk + acc) 0 ticks.

End Orbs.

(** *** Combat *)

Definition transitionToPhase (phase : Z) (s : t) : t :=
  let s := set_bossPhase phase s in
  let s := set_bossState STUNNED s in
  let s := set_stateTimer 2000 s in
  (* Dramatic effect *)
  let s := set_screenShakeIntensity 10 s in
  (* phaseText.setText, showPhaseTransitionText(phase), boss roar *)
  set_phaseTextLog (phaseTextLog s ++ [phase]) s.

Definition showVictory (s : t) : t :=
  let s := cue Victory s in
  (* Return to menu after delay *)
  delayedCall 6000 ReturnToMenu s.

Definition transitionOut (s : t) : t :=
  let s := cue FadeOut s in
  delayedCall 1000 SceneStart s.

Definition startBossDeath (s : t) : t :=
  let s := set_bossState DYING s in
  (* Destroy all orbs *)
  let s := set_voidOrbs [] s in
  (* Freeze and shake *)
  let s := set_screenShakeIntensity 20 s in
  (* Death animation, explosion particles *)
  let s := cue DeathSequence s in
  (* Victory! *)
  delayedCall 2500 BossDead s.

Definition bossTakeDamage (amount : Q) (s : t) : t :=
  let s := set_bossHealth (bossHealth s - amount) s in
  let s := set_invincibleTimer 300 s in
  let s := set_screenShakeIntensity 3 s in
  (* Check phase transitions *)
  let healthPercent := bossHealth s / bossMaxHealth s in
  let s :=
    if Qleb healthPercent (33 # 100) && (bossPhase s <? 3)%Z then
      transitionToPhase 3 s
    else if Qleb healthPercent (66 # 100) && (bossPhase s <? 2)%Z then
      transitionToPhase 2 s
    else s in
  (* Check death *)
  if Qleb (bossHealth s) 0 then startBossDeath s else s.

(** The listener [setupCombat] registers on [player-attack]. *)
Definition onPlayerAttack (hitbox : Geom.Rectangle) (s : t) : t :=
  if BossState_eqb (bossState s) DORMANT ||
     BossState_eqb (bossState s) AWAKENING ||
     BossState_eqb (bossState s) DEAD ||
     Qltb 0 (invincibleTimer s)
  then s
  else if Geom.Overlaps hitbox (bossHitbox s) then bossTakeDamage 1 s
  else s.

(** *** Delayed calls *)

Definition createSlamWave (s : t) : t :=
  (* Damage check along wave path, once per wave *)
  delayedCall 100 SlamWaveDamage (delayedCall 100 SlamWaveDamage s).

Definition armOrb (id : nat) (y : Q) (orb : Orb) : Orb :=
  if Nat.eqb (oid orb) id then
    mkOrb (oid orb) (ox orb) y (targetX orb) (targetY orb) (speed orb)
          (lifetime orb) true (active orb)
  else orb.

Definition runCallback (cb : Callback) (s : t) : t :=
  match cb with
  | AwakeningDone =>
      let s := set_bossState IDLE s in
      set_stateTimer 500 s
  | SlashDamage =>
      if negb (BossState_eqb (bossState s) SLASH) then s
      else
        let slashHitbox :=
          Geom.mkRect (bossX s + inject_Z (bossFacing s) * 30) (bossY s - 40) 80 80 in
        if Geom.Overlaps slashHitbox (playerRect s) then
          let s := playerTakeDamage 2 (bossX s) s in
          set_screenShakeIntensity 8 s
        else s
  | ChargeGo =>
      if negb (BossState_eqb (bossState s) CHARGE) then s
      else
        let chargeDir := if Qltb (Player.x (player s)) (bossX s) then -1 else 1 in
        set_bossVelocityX (600 * chargeDir) s
  | SpawnOrb => spawnVoidOrb s
  | SlamRiseDone =>
      (* Slam down *)
      delayedCall 200 SlamImpact s
  | SlamImpact =>
      let s := set_bossY 580 s in
      let s := set_screenShakeIntensity 15 s in
      createSlamWave s
  | SlamWaveDamage =>
      if Qltb 550 (Geom.ry (Player.body (player s))) &&
         Qltb (Math_abs (Player.x (player s) - bossX s)) 350
      then playerTakeDamage 2 (bossX s) s
      else s
  | OrbFloatDone id y => set_voidOrbs (map (armOrb id y) (voidOrbs s)) s
  | BossDead =>
      let s := set_bossState DEAD s in
      showVictory s
  | ReturnToMenu => transitionOut s
  | SceneStart => cue MenuStarted s
  end.

(** The scene clock and the tween manager run before the scene's own
    [update]: every pending call ages by [delta]; those whose delay has
    elapsed fire in the order they were scheduled. *)
Definition tickClock (delta : Q) (s : t) : t :=
  let aged := map (fun '(ms, cb) => (ms - delta, cb)) (clock s) in
  let due := List.filter (fun '(ms, _) => Qleb ms 0) aged in
  let rest := List.filter (fun '(ms, _) => negb (Qleb ms 0)) aged in
  let s := set_clock rest s in
  let s := set_player (Player.tick delta (player s)) s in
  fold_left (fun s '(_, cb) => runCallback cb s) due s.

(** *** One frame *)

(** What the engine hands the scene for one frame: the frame time, where
    physics has put the player, whether the player overlaps the trigger
    zone, whether [handleAttack] sees the attack key go down, and the
    value [Math.random()] returns if it is asked. *)
Record Frame := mkFrame {
  delta : Q;
  playerX : Q;
  playerY : Q;
  playerBody : Geom.Rectangle;
  playerFacing : Z;
  inTrigger : bool;
  attackDown : bool;
  roll : Q
}.

(** [this.player.update(time, delta)], as far as the fight goes: the
    attack, and the [player-attack] event reaching the scene's
    listener. *)
Definition playerUpdate (fr : Frame) (s : t) : t :=
  let '(p, attack) := Player.handleAttack (attackDown fr) (player s) in
  let s := set_player p s in
  match attack with
  | Some hitbox => onPlayerAttack hitbox s
  | None => s
  end.

(** The "Update timers" block of [update]. *)
Definition updateTimers (delta : Q) (s : t) : t :=
  let s := if Qltb 0 (attackCooldown s)
           then set_attackCooldown (attackCooldown s - delta) s else s in
  let s := if Qltb 0 (invincibleTimer s)
           then set_invincibleTimer (invincibleTimer s - delta) s else s in
  set_animTimer (animTimer s + delta) s.

(** The "Screen shake" block of [update]. *)
Definition updateScreenShake (s : t) : t :=
  if Qltb 0 (screenShakeIntensity s) then
    let s := set_screenShakeIntensity (screenShakeIntensity s * (9 # 10)) s in
    if Qltb (screenShakeIntensity s) (1 # 2) then set_screenShakeIntensity 0 s
    else s
  else s.

Section Update.

Variable Math_sqrt : Q -> Q.

(** [update(time, delta)] *)
Definition update (fr : Frame) (s : t) : t :=
  (* Update player *)
  let s := playerUpdate fr s in
  let s := set_player (Player.checkDeathPit (720 + 50) (player s)) s in
  (* Update boss *)
  let s := updateBoss (delta fr) (roll fr) s in
  (* Update timers *)
  let s := updateTimers (delta fr) s in
  (* Screen shake *)
  let s := updateScreenShake s in
  (* Update void orbs *)
  updateVoidOrbs Math_sqrt (delta fr) s.

(** One frame of the game loop: clock and tweens, physics, the scene's
    [update]. *)
Definition frame (s : t) (fr : Frame) : t :=
  let s := tickClock (delta fr) s in
  let s := set_player
             (Player.moveTo (playerX fr) (playerY fr) (playerBody fr)
                            (playerFacing fr) (player s)) s in
  let s := if inTrigger fr then onTriggerOverlap s else s in
  update fr s.

Definition run (s : t) (frames : list Frame) : t := fold_left frame frames s.

(** The scene after each frame, oldest first, starting with [s]. *)
Definition history (s : t) (frames : list Frame) : list t :=
  trajectory frame s frames.

End Update.

(** The fraction of the health bar that [updateBossHealthBar] fills. *)
Definition healthPercent (s : t) : Q := bossHealth s / bossMaxHealth s.

(** The action the spec's priority list picks when the boss leaves Idle. *)
Definition idlePolicy (distance : Q) (phase : Z) (roll : Q) : BossState :=
  if Qltb distance 120 then SLASH
  else if Qltb 400 distance && (2 <=? phase)%Z && Qltb (5 # 10) roll then CHARGE
  else if (2 <=? phase)%Z && Qltb (7 # 10) roll then SUMMON
  else if (3 <=? phase)%Z && Qltb (6 # 10) roll then SLAM
  else WALKING.

(** What the phase logic reads and writes: health, maximum health, phase,
    and the phase banners shown so far. *)
Definition Vitals : Type := Q * Q * Z * list Z.

Definition vitals (s : t) : Vitals :=
  (bossHealth s, bossMaxHealth s, bossPhase s, phaseTextLog s).

(** [vitals] together with the invincibility countdown. *)
Definition core (s : t) : Vitals * Q := (vitals s, invincibleTimer s).

(** What one accepted hit of the nail does to the vitals. *)
Definition hitVitals (v : Vitals) : Vitals :=
  let '(h, m, ph, banners) := v in
  let h := h - 1 in
  if Qleb (h / m) (33 # 100) && (ph <? 3)%Z then (h, m, 3%Z, banners ++ [3%Z])
  else if Qleb (h / m) (66 # 100) && (ph <? 2)%Z then (h, m, 2%Z, banners ++ [2%Z])
  else (h, m, ph, banners).

(** The phase matches the health thresholds, and each banner has been
    shown exactly once since its threshold was reached. *)
Definition phaseMatchesHealth (v : Vitals) : Prop :=
  let '(h, m, ph, banners) := v in
  (ph = 1%Z /\ ~ h / m <= 66 # 100 /\ banners = []) \/
  (ph = 2%Z /\ h / m <= 66 # 100 /\ ~ h / m <= 33 # 100 /\ banners = [2%Z]) \/
  (ph = 3%Z /\ h / m <= 33 # 100 /\ banners = [2%Z; 3%Z]).

Definition phaseInvariant (s : t) : Prop :=
  bossMaxHealth s = 20 /\ phaseMatchesHealth (vitals s).

Definition countEffect (e : Effect) (s : t) : nat :=
  length (List.filter (fun e' => match e, e' with
                            | DeathSequence, DeathSequence | Victory, Victory
                            | FadeOut, FadeOut | MenuStarted, MenuStarted => true
                            | _, _ => false
                            end) (effects s)).

End BossScene.

(** ** Running the model *)

(** A square root that is exact on perfect squares of integers, to run the
    model on concrete frames. *)
Definition isqrt (q : Q) : Q := inject_Z (Z.sqrt (Qfloor q)).

Module Fight.
Import BossScene.

(** The player stands 60 px left of the boss, facing it: the nail
    reaches the boss, the boss's body and slash do not reach the
    player. *)
Definition stand (delta : Q) (attack : bool) : Frame :=
  mkFrame delta 1040 520 (Geom.mkRect 1028 (2488 # 5) 24 (272 # 5)) 1 false attack 0.

(** The player crosses the trigger zone. *)
Definition enter : Frame :=
  mkFrame 16 700 520 (Geom.mkRect 688 (2488 # 5) 24 (272 # 5)) 1 true false 0.

(** One swing of the nail, then a frame of waiting: 320 ms in all, longer
    than the nail's 300 ms cooldown and the boss's 300 ms invincibility. *)
Definition swing : list Frame := [stand 160 true; stand 160 false].

Fixpoint swings (n : nat) : list Frame :=
  match n with
  | O => []
  | S n => swing ++ swings n
  end.

(** Walk in, wait out the 2500 ms awakening and one frame of Idle. *)
Definition opening : list Frame :=
  enter :: repeat (stand 500 false) 5 ++ [stand 160 false].

(** Walk in and wait out the awakening in 100 ms frames: the boss ends
    Idle with 400 ms on its state timer. *)
Definition awake : list Frame := enter :: repeat (stand 100 false) 25.

(** The whole fight: twenty hits bring the boss from 20 to 0. *)
Definition toDeath : list Frame := opening ++ swings 20.

(** The player keeps swinging while the boss dies. *)
Definition oneMore : list Frame := toDeath ++ swings 1.

(** ... and then waits for the death sequence to play out. *)
Definition aftermath : list Frame := oneMore ++ repeat (stand 500 false) 6.

(** The boss of phase 2 charging at the right bound, the player far to
    its left. *)
Definition chargingAtWall : t :=
  set_stateTimer 600
    (set_bossHitbox (Geom.mkRect 1290 470 60 100)
       (set_bossX 1320 (set_bossPhase 2 (set_bossState CHARGE create)))).

(** The boss stunned by a phase change, the player inside its hitbox. *)
Definition stunnedOnPlayer : t :=
  set_stateTimer 2000
    (set_bossHitbox (Geom.mkRect 1070 470 60 100)
       (set_player (Player.moveTo 1100 520 (Geom.mkRect 1088 (2488 # 5) 24 (272 # 5)) 1
                      (player create))
          (set_bossPhase 2 (set_bossState STUNNED create)))).

Definition totalTime (frames : list Frame) : Q := total (List.map delta frames).

End Fight.

(** ** The player's movement controller (entities/Player.ts, [update]) *)

Module PHYSICS.
Definition MOVE_SPEED : Q := 280.
Definition ACCEL : Q := 2000.
Definition DECEL : Q := 2400.
Definition AIR_CONTROL : Q := 85 # 100.
Definition JUMP_VELOCITY : Q := -550.
Definition FALL_MULTIPLIER : Q := 2.
Definition COYOTE_MS : Q := 100.
Definition JUMP_BUFFER_MS : Q := 150.
Definition DASH_SPEED : Q := 900.
Definition DASH_DURATION_MS : Q := 240.
Definition DASH_COOLDOWN_MS : Q := 500.
End PHYSICS.

Module PlayerControl.

Inductive State := IDLE | RUN | JUMP | FALL | DASH | ATTACK.

Definition State_eqb (a b : State) : bool :=
  match a, b with
  | IDLE, IDLE | RUN, RUN | JUMP, JUMP | FALL, FALL | DASH, DASH | ATTACK, ATTACK => true
  | _, _ => false
  end.

(** The private fields [update] works on, and what it reads and writes of
    the arcade body: its velocity and its gravity switch.  [dashCooldowns]
    are the delayed calls of [handleDashInput] waiting on the scene
    clock.  Health, invincibility and the attack are in [Player]. *)
Record t := mk {
  currentState : State;
  facing : Z;
  grounded : bool;
  coyoteTimer : Q;
  jumpBufferTimer : Q;
  canDash : bool;
  dashTimer : Q;
  dashVelocityY : Q;
  velocityX : Q;
  velocityY : Q;
  allowGravity : bool;
  dashCooldowns : list Q
}.

Definition set_currentState (v : State) (s : t) : t :=
  mk v (facing s) (grounded s) (coyoteTimer s) (jumpBufferTimer s) (canDash s)
    (dashTimer s) (dashVelocityY s) (velocityX s) (velocityY s) (allowGravity s)
    (dashCooldowns s).
Definition set_facing (v : Z) (s : t) : t :=
  mk (currentState s) v (grounded s) (coyoteTimer s) (jumpBufferTimer s) (canDash s)
    (dashTimer s) (dashVelocityY s) (velocityX s) (velocityY s) (allowGravity s)
    (dashCooldowns s).
Definition set_grounded (v : bool) (s : t) : t :=
  mk (currentState s) (facing s) v (coyoteTimer s) (jumpBufferTimer s) (canDash s)
    (dashTimer s) (dashVelocityY s) (velocityX s) (velocityY s) (allowGravity s)
    (dashCooldowns s).
Definition set_coyoteTimer (v : Q) (s : t) : t :=
  mk (currentState s) (facing s) (grounded s) v (jumpBufferTimer s) (canDash s)
    (dashTimer s) (dashVelocityY s) (velocityX s) (velocityY s) (allowGravity s)
    (dashCooldowns s).
Definition set_jumpBufferTimer (v : Q) (s : t) : t :=
  mk (currentState s) (facing s) (grounded s) (coyoteTimer s) v (canDash s)
    (dashTimer s) (dashVelocityY s) (velocityX s) (velocityY s) (allowGravity s)
    (dashCooldowns s).
Definition set_canDash (v : bool) (s : t) : t :=
  mk (currentState s) (facing s) (grounded s) (coyoteTimer s) (jumpBufferTimer s) v
    (dashTimer s) (dashVelocityY s) (velocityX s) (velocityY s) (allowGravity s)
    (dashCooldowns s).
Definition set_dashTimer (v : Q) (s : t) : t :=
  mk (currentState s) (facing s) (grounded s) (coyoteTimer s) (jumpBufferTimer s)
    (canDash s) v (dashVelocityY s) (velocityX s) (velocityY s) (allowGravity s)
    (dashCooldowns s).
Definition set_dashVelocityY (v : Q) (s : t) : t :=
  mk (currentState s) (facing s) (grounded s) (coyoteTimer s) (jumpBufferTimer s)
    (canDash s) (dashTimer s) v (velocityX s) (velocityY s) (allowGravity s)
    (dashCooldowns s).
Definition set_velocityX (v : Q) (s : t) : t :=
  mk (currentState s) (facing s) (grounded s) (coyoteTimer s) (jumpBufferTimer s)
    (canDash s) (dashTimer s) (dashVelocityY s) v (velocityY s) (allowGravity s)
    (dashCooldowns s).
Definition set_velocityY (v : Q) (s : t) : t :=
  mk (currentState s) (facing s) (grounded s) (coyoteTimer s) (jumpBufferTimer s)
    (canDash s) (dashTimer s) (dashVelocityY s) (velocityX s) v (allowGravity s)
    (dashCooldowns s).
Definition set_allowGravity (v : bool) (s : t) : t :=
  mk (currentState s) (facing s) (grounded s) (coyoteTimer s) (jumpBufferTimer s)
    (canDash s) (dashTimer s) (dashVelocityY s) (velocityX s) (velocityY s) v
    (dashCooldowns s).
Definition set_dashCooldowns (v : list Q) (s : t) : t :=
  mk (currentState s) (facing s) (grounded s) (coyoteTimer s) (jumpBufferTimer s)
    (canDash s) (dashTimer s) (dashVelocityY s) (velocityX s) (velocityY s)
    (allowGravity s) v.

(** A new player: idle, facing right, at rest. *)
Definition create : t := mk IDLE 1 false 0 0 true 0 0 0 0 true [].

(** What one call of [update] reads from the engine: the frame time,
    [body.blocked.down || body.onFloor()], the keys held ([isDown]) and
    the keys that went down since the last look ([JustDown]). *)
Record Keys := mkKeys {
  delta : Q;
  onFloor : bool;
  leftPressed : bool;
  rightPressed : bool;
  jumpPressed : bool;
  jumpHeld : bool;
  dashPressed : bool
}.

Definition handleMovement (k : Keys) (c : t) : t :=
  (* Get input direction *)
  let inputX := 0%Z in
  let inputX := if leftPressed k then (-1)%Z else inputX in
  let inputX := if rightPressed k then 1%Z else inputX in
  (* Apply movement *)
  if negb (inputX =? 0)%Z then
    let c := set_facing inputX c in
    let accel :=
      if grounded c then PHYSICS.ACCEL else PHYSICS.ACCEL * PHYSICS.AIR_CONTROL in
    let targetVelocity := inject_Z inputX * PHYSICS.MOVE_SPEED in
    (* Accelerate toward target velocity *)
    if Qltb (velocityX c) targetVelocity then
      set_velocityX (Math_min (velocityX c + accel * delta k / 1000) targetVelocity) c
    else if Qltb targetVelocity (velocityX c) then
      set_velocityX (Math_max (velocityX c - accel * delta k / 1000) targetVelocity) c
    else c
  else
    (* Decelerate when no input *)
    let decel := PHYSICS.DECEL * delta k / 1000 in
    if Qltb 0 (velocityX c) then
      set_velocityX (Math_max 0 (velocityX c - decel)) c
    else if Qltb (velocityX c) 0 then
      set_velocityX (Math_min 0 (velocityX c + decel)) c
    else c.

Definition handleJump (k : Keys) (c : t) : t :=
  (* Buffer jump input *)
  let c := if jumpPressed k then set_jumpBufferTimer PHYSICS.JUMP_BUFFER_MS c else c in
  (* Can jump if grounded or within coyote time *)
  let canJump := grounded c || Qltb 0 (coyoteTimer c) in
  let c :=
    if Qltb 0 (jumpBufferTimer c) && canJump then
      let c := set_velocityY PHYSICS.JUMP_VELOCITY c in
      let c := set_currentState JUMP c in
      let c := set_coyoteTimer 0 c in
      set_jumpBufferTimer 0 c
    else c in
  (* Variable jump height - release to cut jump short *)
  if State_eqb (currentState c) JUMP && negb (jumpHeld k) && Qltb (velocityY c) (-100)
  then set_velocityY (velocityY c * (5 # 10)) c
  else c.

Definition handleDashInput (k : Keys) (c : t) : t :=
  if dashPressed k && canDash c then
    let c := set_currentState DASH c in
    let c := set_dashTimer PHYSICS.DASH_DURATION_MS c in
    let c := set_canDash false c in
    (* Set dash velocity *)
    let c := set_velocityX (PHYSICS.DASH_SPEED * inject_Z (facing c)) c in
    let c := set_dashVelocityY (if grounded c then 0 else velocityY c) c in
    let c := set_velocityY (dashVelocityY c) c in
    let c := set_allowGravity false c in
    (* Dash cooldown *)
    set_dashCooldowns (dashCooldowns c ++ [PHYSICS.DASH_COOLDOWN_MS]) c
  else c.

Definition updateDash (c : t) : t :=
  (* Maintain dash velocity *)
  let c := set_velocityX (PHYSICS.DASH_SPEED * inject_Z (facing c)) c in
  let c := set_velocityY (dashVelocityY c) c in
  (* End dash *)
  if Qleb (dashTimer c) 0 then
    let c := set_allowGravity true c in
    let c := set_velocityX (velocityX c * (5 # 10)) c in
    set_currentState (if grounded c then IDLE else FALL) c
  else c.

Definition updateState (c : t) : t :=
  if State_eqb (currentState c) DASH then c
  else if grounded c then
    if Qltb 20 (Math_abs (velocityX c)) then set_currentState RUN c
    else set_currentState IDLE c
  else
    if Qltb (velocityY c) 0 then set_currentState JUMP c
    else set_currentState FALL c.

(** The "Update ground state" block of [update], with the two coyote
    time rules that follow it. *)
Definition updateGround (k : Keys) (c : t) : t :=
  let wasGrounded := grounded c in
  let c := set_grounded (onFloor k) c in
  (* Reset coyote time when landing *)
  let c :=
    if grounded c && negb wasGrounded then
      let c := set_coyoteTimer PHYSICS.COYOTE_MS c in
      set_canDash true c
    else c in
  (* Start coyote time when leaving ground *)
  if negb (grounded c) && wasGrounded && negb (State_eqb (currentState c) JUMP)
  then set_coyoteTimer PHYSICS.COYOTE_MS c
  else c.

(** The "Update timers" block of [update]. *)
Definition updateTimers (k : Keys) (c : t) : t :=
  let c := if Qltb 0 (coyoteTimer c)
           then set_coyoteTimer (coyoteTimer c - delta k) c else c in
  let c := if Qltb 0 (jumpBufferTimer c)
           then set_jumpBufferTimer (jumpBufferTimer c - delta k) c else c in
  if Qltb 0 (dashTimer c) then set_dashTimer (dashTimer c - delta k) c else c.

(** The "Apply extra fall gravity" block of [update]. *)
Definition applyFallGravity (k : Keys) (c : t) : t :=
  if Qltb 0 (velocityY c)
  then set_velocityY (velocityY c + PHYSICS.FALL_MULTIPLIER * delta k * (5 # 10)) c
  else c.

(** [update(time, delta)], without the attack ([Player.handleAttack]) and
    the animation. *)
Definition update (k : Keys) (c : t) : t :=
  let c := updateGround k c in
  let c := updateTimers k c in
  (* Handle dash state *)
  if State_eqb (currentState c) DASH then updateDash c
  else
    let c := handleMovement k c in
    let c := handleJump k c in
    let c := handleDashInput k c in
    let c := applyFallGravity k c in
    (* Update state based on velocity *)
    updateState c.

(** The scene clock, as far as the dash cooldown goes: every pending call
    ages by [delta]; each one that is due sets [canDash]. *)
Definition tick (delta : Q) (c : t) : t :=
  let aged := map (fun ms => ms - delta) (dashCooldowns c) in
  let due := List.filter (fun ms => Qleb ms 0) aged in
  let rest := List.filter (fun ms => negb (Qleb ms 0)) aged in
  fold_left (fun c _ => set_canDash true c) due (set_dashCooldowns rest c).

(** Everything else that writes the body's velocity between two updates:
    the arcade physics step (gravity, collisions), and the knockback of
    [takeDamage] and the reset of [respawn]. *)
Definition physics (vx vy : Q) (c : t) : t :=
  set_velocityY vy (set_velocityX vx c).

Inductive Input :=
| Update (k : Keys)
| Physics (vx vy : Q)
| Tick (delta : Q).

Definition step (c : t) (i : Input) : t :=
  match i with
  | Update k => update k c
  | Physics vx vy => physics vx vy c
  | Tick delta => tick delta c
  end.

Definition run (c : t) (inputs : list Input) : t := fold_left step inputs c.

End PlayerControl.
(** ** Math utilities (utils/MathHelpers.ts) *)

Module MathHelpers.

(** Linear interpolation between two values *)
Definition lerp (start end_ t : Q) : Q := start + (end_ - start) * t.

(** Clamp a value between min and max *)
Definition clamp (value min max : Q) : Q := Math_min (Math_max value min) max.

(** Map a value from one range to another *)
Definition mapRange (value inMin inMax outMin outMax : Q) : Q :=
  ((value - inMin) * (outMax - outMin)) / (inMax - inMin) + outMin.

(** Approach - Move toward target by a fixed amount *)
Definition approach (current target amount : Q) : Q :=
  if Qltb current target then Math_min (current + amount) target
  else if Qltb target current then Math_max (current - amount) target
  else target.

(** Ease in-out cubic; [Math.pow(x, 3)] is [x * x * x]. *)
Definition easeInOutCubic (t : Q) : Q :=
  if Qltb t (5 # 10) then 4 * t * t * t
  else
    let x := -2 * t + 2 in
    1 - (x * x * x) / 2.

End MathHelpers.

(** ** The portal (systems/Portal.ts) *)

Module Portal.

Record t := mk {
  width : Q;
  height : Q;
  locked : bool
}.

(** [config.width || 60]: an absent width, and a width of 0, give 60. *)
Definition orDefault (v : option Q) (d : Q) : Q :=
  match v with
  | Some q => if Qeq_bool q 0 then d else q
  | None => d
  end.

(** [new Portal(scene, config)] *)
Definition create (width height : option Q) (locked : option bool) : t :=
  mk (orDefault width 60) (orDefault height 120)
     (match locked with Some b => b | None => false end).

(** The overlap callback registered by [setupOverlap]: [callback] is the
    [onEnter] of the configuration, acting on the scene. *)
Definition onOverlap {S : Type} (callback : S -> S) (p : t) (scene : S) : S :=
  if negb (locked p) then callback scene else scene.

Definition unlock (p : t) : t := mk (width p) (height p) false.

Definition isLocked (p : t) : bool := locked p.

End Portal.

(** ** The arena (systems/EnemyManager.ts, scenes/ArenaScene.ts) *)

Module EnemyManager.

Inductive EnemyType := crawler | flyer.

(** An enemy of the manager: the fields of [BaseEnemy] that the damage
    contract uses ([BaseEnemy.t]), and the patrol state of the base class
    and of its two subclasses. *)
Record Enemy := mkEnemy {
  base : BaseEnemy.t;
  type : EnemyType;
  y : Q;
  spawnX : Q;
  patrolRange : Q;
  patrolDir : Q;
  patrolMinX : option Q;
  patrolMaxX : option Q;
  baseY : Q;
  hoverOffset : Q
}.

Definition set_base (v : BaseEnemy.t) (e : Enemy) : Enemy :=
  mkEnemy v (type e) (y e) (spawnX e) (patrolRange e) (patrolDir e) (patrolMinX e)
          (patrolMaxX e) (baseY e) (hoverOffset e).
Definition set_patrolDir (v : Q) (e : Enemy) : Enemy :=
  mkEnemy (base e) (type e) (y e) (spawnX e) (patrolRange e) v (patrolMinX e)
          (patrolMaxX e) (baseY e) (hoverOffset e).
Definition set_hoverOffset (v : Q) (e : Enemy) : Enemy :=
  mkEnemy (base e) (type e) (y e) (spawnX e) (patrolRange e) (patrolDir e) (patrolMinX e)
          (patrolMaxX e) (baseY e) v.

Definition isAlive (e : Enemy) : bool := BaseEnemy.isAlive (base e).
Definition isHurt (e : Enemy) : bool := BaseEnemy.isHurt (base e).
Definition active (e : Enemy) : bool := BaseEnemy.active (base e).
Definition x (e : Enemy) : Q := BaseEnemy.x (base e).

(** [new CrawlerEnemy(scene, x, y, patrolRange, patrolMinX, patrolMaxX)]:
    [CRAWLER.HEALTH = 2], [CRAWLER.DAMAGE = 1], speed [CRAWLER.SPEED * 0.6]. *)
Definition CrawlerEnemy (x0 y0 patrolRange0 : Q) (minX maxX : option Q) : Enemy :=
  mkEnemy (BaseEnemy.mk x0 0 0 2 1 (120 * (6 # 10)) true false 0 true [])
          crawler y0 x0 patrolRange0 1 minX maxX y0 0.

(** [new FlyerEnemy(scene, x, y, patrolRange)]: [FLYER.HEALTH = 1],
    [FLYER.DAMAGE = 1], speed [FLYER.SPEED * 0.4]. *)
Definition FlyerEnemy (x0 y0 patrolRange0 : Q) : Enemy :=
  mkEnemy (BaseEnemy.mk x0 0 0 1 1 (150 * (4 # 10)) true false 0 true [])
          flyer y0 x0 patrolRange0 1 None None y0 0.

(** [takeDamage] is the base class's. *)
Definition takeDamage (amount sourceX : Q) (e : Enemy) : Enemy :=
  set_base (BaseEnemy.takeDamage amount sourceX (base e)) e.

(** What one call of an enemy's [update] reads from the engine: the frame
    time, the enemy's physics body and its [blocked] flags. *)
Record Frame := mkFrame {
  delta : Q;
  body : Geom.Rectangle;
  blockedLeft : bool;
  blockedRight : bool
}.

Definition checkPlayerCollision (fr : Frame) (player : Player.t) (e : BaseEnemy.t) : bool :=
  if negb (BaseEnemy.isAlive e) then false
  else
    let enemyRect := body fr in
    let playerBody := Player.body player in
    let playerRect :=
      Geom.mkRect (Geom.rx playerBody) (Geom.ry playerBody)
                  (Geom.rwidth playerBody) (Geom.rheight playerBody) in
    Geom.Overlaps enemyRect playerRect.

(** [BaseEnemy.update] *)
Definition baseUpdate (fr : Frame) (player : Player.t) (e : BaseEnemy.t)
  : BaseEnemy.t * Player.t :=
  if negb (BaseEnemy.isAlive e) then (e, player)
  else
    (* Handle hurt state *)
    let e :=
      if BaseEnemy.isHurt e then
        let e := BaseEnemy.set_hurtTimer (BaseEnemy.hurtTimer e - delta fr) e in
        if Qleb (BaseEnemy.hurtTimer e) 0 then BaseEnemy.set_isHurt false e else e
      else e in
    (* Check player collision for damage *)
    if checkPlayerCollision fr player e
    then (e, Player.takeDamage (BaseEnemy.damage e) (BaseEnemy.x e) player)
    else (e, player).

Definition set_velocityX (v : Q) (e : Enemy) : Enemy :=
  set_base (BaseEnemy.set_velocityX v (base e)) e.
Definition set_velocityY (v : Q) (e : Enemy) : Enemy :=
  set_base (BaseEnemy.set_velocityY v (base e)) e.

Section Behaviour.

Variable Math_sin : Q -> Q.

(** [CrawlerEnemy.update] *)
Definition crawlerUpdate (fr : Frame) (player : Player.t) (e : Enemy)
  : Enemy * Player.t :=
  let '(b, player) := baseUpdate fr player (base e) in
  let e := set_base b e in
  if negb (isAlive e) then (e, player)
  else
    (* Simple patrol: move back and forth within range of spawn point *)
    if negb (isHurt e) then
      let minX := match patrolMinX e with
                  | Some v => v | None => spawnX e - patrolRange e end in
      let maxX := match patrolMaxX e with
                  | Some v => v | None => spawnX e + patrolRange e end in
      let edgeBuffer := 6 in
      (* Check if we've gone too far from spawn or reached hard bounds *)
      let e :=
        if Qltb (maxX - edgeBuffer) (x e) then set_patrolDir (-1) e
        else if Qltb (x e) (minX + edgeBuffer) then set_patrolDir 1 e
        else e in
      (* Also reverse if hitting a wall *)
      let e := if blockedLeft fr then set_patrolDir 1 e else e in
      let e := if blockedRight fr then set_patrolDir (-1) e else e in
      (* Move *)
      (set_velocityX (BaseEnemy.moveSpeed (base e) * patrolDir e) e, player)
    else (e, player).

(** [FlyerEnemy.update] *)
Definition flyerUpdate (fr : Frame) (player : Player.t) (e : Enemy)
  : Enemy * Player.t :=
  let '(b, player) := baseUpdate fr player (base e) in
  let e := set_base b e in
  if negb (isAlive e) then (e, player)
  else
    if negb (isHurt e) then
      (* Patrol horizontally *)
      let e :=
        if Qltb (spawnX e + patrolRange e) (x e) then set_patrolDir (-1) e
        else if Qltb (x e) (spawnX e - patrolRange e) then set_patrolDir 1 e
        else e in
      let e := set_velocityX (BaseEnemy.moveSpeed (base e) * patrolDir e) e in
      (* Hover up and down *)
      let e := set_hoverOffset (hoverOffset e + delta fr * (3 # 1000)) e in
      let targetY := baseY e + Math_sin (hoverOffset e) * 20 in
      (set_velocityY ((targetY - y e) * 3) e, player)
    else (e, player).

(** [e.update(time, delta, player)], by the class of [e]. *)
Definition enemyUpdate (fr : Frame) (player : Player.t) (e : Enemy)
  : Enemy * Player.t :=
  match type e with
  | crawler => crawlerUpdate fr player e
  | flyer => flyerUpdate fr player e
  end.

(** [update(time, delta)]: [frames i] is what the engine hands the
    [i]-th child of the group.  [from] is the index of the first enemy
    of the list. *)
Fixpoint updateFrom (from : nat) (frames : nat -> Frame) (player : Player.t)
  (enemies : list Enemy) : list Enemy * Player.t :=
  match enemies with
  | [] => ([], player)
  | e :: rest =>
      let '(e, player) :=
        if active e && isAlive e then enemyUpdate (frames from) player e
        else (e, player) in
      let '(rest, player) := updateFrom (S from) frames player rest in
      (e :: rest, player)
  end.

Definition update (frames : nat -> Frame) (player : Player.t) (enemies : list Enemy)
  : list Enemy * Player.t :=
  updateFrom 0 frames player enemies.

End Behaviour.

(** [handlePlayerAttack(hitbox)], with the [enemy-defeated] events emitted
    while it runs.  [enemies] is the array of the group's children and
    [bodies i] the physics body of the child that has index [i] when the
    swing begins.  [die()] ends in [this.destroy()], which takes the enemy out
    of the group at once; [forEach] walks the group's own array by index,
    so the child that moves into the freed index is passed over in this
    swing, and the walk goes on with the one after it. *)
Fixpoint handlePlayerAttackFrom (from : nat) (hitbox : Geom.Rectangle) (playerX : Q)
  (bodies : nat -> Geom.Rectangle) (enemies : list Enemy) : list Enemy * nat :=
  match enemies with
  | [] => ([], 0%nat)
  | e :: rest =>
      if active e && isAlive e then
        let enemyRect := bodies from in
        if Geom.Overlaps hitbox enemyRect then
          let e := takeDamage 1 playerX e in
          if isAlive e then
            let '(rest, defeated) :=
              handlePlayerAttackFrom (S from) hitbox playerX bodies rest in
            (e :: rest, defeated)
          else
            match rest with
            | [] => ([], 1%nat)
            | passedOver :: rest =>
                let '(rest, defeated) :=
                  handlePlayerAttackFrom (S (S from)) hitbox playerX bodies rest in
                (passedOver :: rest, S defeated)
            end
        else
          let '(rest, defeated) :=
            handlePlayerAttackFrom (S from) hitbox playerX bodies rest in
          (e :: rest, defeated)
      else
        let '(rest, defeated) :=
          handlePlayerAttackFrom (S from) hitbox playerX bodies rest in
        (e :: rest, defeated)
  end.

Definition handlePlayerAttack (hitbox : Geom.Rectangle) (playerX : Q)
  (bodies : nat -> Geom.Rectangle) (enemies : list Enemy) : list Enemy * nat :=
  handlePlayerAttackFrom 0 hitbox playerX bodies enemies.

Definition getAliveCount (enemies : list Enemy) : nat :=
  length (List.filter isAlive enemies).

(** The arcade physics step moves an enemy. *)
Definition physics (x1 y1 : Q) (e : Enemy) : Enemy :=
  let b := base e in
  mkEnemy (BaseEnemy.mk x1 (BaseEnemy.velocityX b) (BaseEnemy.velocityY b)
             (BaseEnemy.health b) (BaseEnemy.damage b) (BaseEnemy.moveSpeed b)
             (BaseEnemy.isAlive b) (BaseEnemy.isHurt b) (BaseEnemy.hurtTimer b)
             (BaseEnemy.active b) (BaseEnemy.emitted b))
          (type e) y1 (spawnX e) (patrolRange e) (patrolDir e) (patrolMinX e)
          (patrolMaxX e) (baseY e) (hoverOffset e).

Fixpoint physicsFrom (from : nat) (xs ys : nat -> Q) (enemies : list Enemy)
  : list Enemy :=
  match enemies with
  | [] => []
  | e :: rest => physics (xs from) (ys from) e :: physicsFrom (S from) xs ys rest
  end.

End EnemyManager.

Module ArenaScene.

Inductive Scene := TUTORIAL | BOSS.

(** The scene object.  The engine builds it once and runs [create()] on
    it at every start of the scene; the scene's event emitter is part of
    the object, and [create()] adds a listener to it that nothing takes
    off again. *)
Record t := mk {
  player : Player.t;
  enemies : list EnemyManager.Enemy;   (* the children of the manager's group *)
  enemiesDefeated : Z;
  totalEnemies : Z;
  entryPortal : Portal.t;
  exitPortal : Portal.t;
  defeatListeners : nat;        (* the listeners on [enemy-defeated] *)
  transitions : list Scene      (* the calls of [transitionTo] since the
                                   scene started, oldest first *)
}.

(** [create()] on a scene object that has [listeners] listeners on
    [enemy-defeated]: the counter reset, the player at (100, 500), the two
    portals, the five enemies of [spawnEnemies], and one more listener. *)
Definition createOn (listeners : nat) : t :=
  mk (Player.create 100 500)
     [EnemyManager.CrawlerEnemy 550 528 100 (Some 470) (Some 830);
      EnemyManager.CrawlerEnemy 750 528 80 (Some 470) (Some 830);
      EnemyManager.CrawlerEnemy 1100 528 100 (Some 970) (Some 1280);
      EnemyManager.FlyerEnemy 400 420 80;
      EnemyManager.FlyerEnemy 900 400 100]
     0 5
     (Portal.create (Some 50) (Some 100) (Some false))
     (Portal.create (Some 50) (Some 100) (Some true))
     (S listeners)
     [].

(** The first start of the scene. *)
Definition create : t := createOn 0.

(** The scene started again ([this.scene.start(SCENES.ARENA)] in the
    tutorial): [create()] runs on the same object. *)
Definition startAgain (s : t) : t := createOn (defeatListeners s).

Definition set_player (v : Player.t) (s : t) : t :=
  mk v (enemies s) (enemiesDefeated s) (totalEnemies s) (entryPortal s) (exitPortal s)
     (defeatListeners s) (transitions s).
Definition set_enemies (v : list EnemyManager.Enemy) (s : t) : t :=
  mk (player s) v (enemiesDefeated s) (totalEnemies s) (entryPortal s) (exitPortal s)
     (defeatListeners s) (transitions s).

Definition updateExitStatus (s : t) : t :=
  let remaining := (totalEnemies s - enemiesDefeated s)%Z in
  if (remaining <=? 0)%Z then
    mk (player s) (enemies s) (enemiesDefeated s) (totalEnemies s) (entryPortal s)
       (Portal.unlock (exitPortal s)) (defeatListeners s) (transitions s)
  else s.

(** One listener on [enemy-defeated]. *)
Definition onEnemyDefeated (s : t) : t :=
  updateExitStatus
    (mk (player s) (enemies s) (enemiesDefeated s + 1)%Z (totalEnemies s)
        (entryPortal s) (exitPortal s) (defeatListeners s) (transitions s)).

(** [this.scene.events.emit('enemy-defeated')]: every listener runs. *)
Definition emitEnemyDefeated (s : t) : t :=
  Nat.iter (defeatListeners s) onEnemyDefeated s.

Definition transitionTo (scene : Scene) (s : t) : t :=
  mk (player s) (enemies s) (enemiesDefeated s) (totalEnemies s) (entryPortal s)
     (exitPortal s) (defeatListeners s) (transitions s ++ [scene]).

(** The player overlaps the zone of the entry or of the exit portal. *)
Definition onEntryOverlap (s : t) : t :=
  Portal.onOverlap (transitionTo TUTORIAL) (entryPortal s) s.

Definition onExitOverlap (s : t) : t :=
  Portal.onOverlap (transitionTo BOSS) (exitPortal s) s.

(** A [player-attack] event reaches the enemy manager; every
    [enemy-defeated] event an enemy emits while it is handled reaches the
    scene's listeners. *)
Definition onPlayerAttack (hitbox : Geom.Rectangle)
  (bodies : nat -> Geom.Rectangle) (s : t) : t :=
  let '(enemies', defeated) :=
    EnemyManager.handlePlayerAttack hitbox (Player.x (player s)) bodies (enemies s) in
  Nat.iter defeated emitEnemyDefeated (set_enemies enemies' s).

Section Update.

Variable Math_sin : Q -> Q.

(** [this.player.update(time, delta)], as far as the arena goes: the
    attack, and the [player-attack] event reaching the enemy manager's
    listener.  [attackDown] is [JustDown(keyJ)]. *)
Definition playerUpdate (attackDown : bool) (bodies : nat -> Geom.Rectangle) (s : t)
  : t :=
  let '(p, attack) := Player.handleAttack attackDown (player s) in
  let s := set_player p s in
  match attack with
  | Some hitbox => onPlayerAttack hitbox bodies s
  | None => s
  end.

(** [update(time, delta)]: [bodies i] and [frames i] are what the engine
    hands the [i]-th enemy. *)
Definition update (attackDown : bool)
  (bodies : nat -> Geom.Rectangle) (frames : nat -> EnemyManager.Frame) (s : t) : t :=
  let s := playerUpdate attackDown bodies s in
  (* Check death pit *)
  let s := set_player (Player.checkDeathPit (720 - 10) (player s)) s in
  (* Update all enemies via manager *)
  let '(enemies', p) := EnemyManager.update Math_sin frames (player s) (enemies s) in
  set_enemies enemies' (set_player p s).

Inductive Input :=
| Update (attackDown : bool) (bodies : nat -> Geom.Rectangle)
         (frames : nat -> EnemyManager.Frame)
| Physics (playerX playerY : Q) (playerBody : Geom.Rectangle) (playerFacing : Z)
          (xs ys : nat -> Q)
| Tick (delta : Q)
| EntryOverlap
| ExitOverlap
| StartAgain.

Definition step (s : t) (i : Input) : t :=
  match i with
  | Update attack bodies frames => update attack bodies frames s
  | Physics px py pb pf xs ys =>
      set_enemies (EnemyManager.physicsFrom 0 xs ys (enemies s))
        (set_player (Player.moveTo px py pb pf (player s)) s)
  | Tick delta => set_player (Player.tick delta (player s)) s
  | EntryOverlap => onEntryOverlap s
  | ExitOverlap => onExitOverlap s
  | StartAgain => startAgain s
  end.

Definition run (inputs : list Input) : t := fold_left step inputs create.

End Update.

End ArenaScene.
(** ** Predicates and sample runs used by the properties *)

(** The health the getter returns is positive and at most the maximum, and
    no [player-damaged] event so far carried more than the maximum. *)
Definition PlayerHealthy (p : Player.t) : Prop :=
  0 < Player.getHealth p /\ Player.getHealth p <= Player.getMaxHealth p /\
  Forall (fun h => h <= Player.getMaxHealth p) (Player.damagedValues (Player.emitted p)).

(** Three slashes of the boss (2 damage each), a second apart, on a new
    player. *)
Definition thriceSlashed : Player.t :=
  let p := Player.takeDamage 2 1100 (Player.create 150 520) in
  let p := Player.takeDamage 2 1100 (Player.tick 1000 p) in
  Player.takeDamage 2 1100 (Player.tick 1000 p).


(** A machine over entry and exit counters: state "A" is registered and
    entered, then a second state object is registered under the same
    name. *)
Definition enteredA : StateMachine.t StateMachine.Counters :=
  StateMachine.setState "A"
    (StateMachine.addState (StateMachine.counting 1 "A")
       (StateMachine.create (StateMachine.mkCounters 0 0))).

Definition reregisteredA : StateMachine.t StateMachine.Counters :=
  StateMachine.addState (StateMachine.counting 2 "A") enteredA.

(** The hurt countdown of an enemy over successive updates. *)
Definition Enemy_elapse (deltas : list Q) (e : Enemy.t) : Enemy.t :=
  fold_left (fun e delta => Enemy.updateHurt delta e) deltas e.

(** While a living flyer is inside its hurt window, the engine tag and the
    retreat timer are as [takeDamage] left them. *)
Definition Flyer_hurtAsLeft (f : Flyer.t) : Prop :=
  Flyer.isHurt f = true -> Flyer.isAlive f = true ->
  Flyer.state f = Flyer.code Flyer.RETREAT /\
  Flyer.retreatTimer f = Flyer.retreatDuration f.

(** A new flyer that took a hit of half a point: hurt, alive, still
    hovering. *)
Definition grazedFlyer : Flyer.t := Flyer.takeDamage (1 # 2) 0 (Flyer.create 100 100).

(** The two flags of the enemy base class, as a flyer carries them. *)
Definition Flyer_flags (f : Flyer.t) : bool * bool := (Flyer.isHurt f, Flyer.isAlive f).

(** An armed orb on its last 16 ms, 10 px left of a player who is not
    invincible. *)
Definition lastGaspOrb : BossScene.Orb := BossScene.mkOrb 0 0 0 10 0 200 16 true true.

Definition freshPlayer : Player.t := Player.create 10 0.

(** A freshly armed orb with its full remaining lifetime, 10 px left of the
    player. *)
Definition closeOrb : BossScene.Orb := BossScene.mkOrb 0 0 0 10 0 200 2500 true true.

(** A 16 ms update before which nothing else happens to the player. *)
Definition quietTick : BossScene.OrbTick := BossScene.mkOrbTick 16 (fun p => p) false.

(** The frame after the grazed flyer's hurt window: 250 ms later, the
    player 50 px away and not touching it. *)
Definition afterHurt : Flyer.Frame :=
  Flyer.mkFrame 250 (Geom.mkRect 76 76 48 48) (Geom.mkRect 118 108 24 64).

Definition nearbyPlayer : Player.t := Player.create 130 140.


(** ** Timers in doubles

    The source counts its timers down in binary64 ([timer -= delta]); the
    embedding counts in rationals.  The countdowns below are evaluated in
    doubles, to show what the rounding does when the frame times add up to
    exactly the timer. *)
Module Doubles.
Import PrimFloat.

(** [timer -= delta], once per update. *)
Definition countdown (timer delta : float) (updates : nat) : float :=
  Nat.iter updates (fun t => sub t delta) timer.

(** The frame time at 60 frames per second. *)
Definition frame60 : float := div 1000 60.

(** The frame times of [frames] frames, multiplied out. *)
Definition elapsed (frames : float) : float := mul frame60 frames.

(** A void orb's [lifetime], 3000 at its spawn, after [updates] updates. *)
Definition orbLifetime (updates : nat) : float := countdown 3000 frame60 updates.

(** An enemy's [hurtTimer], 200 at the hit, after [updates] updates. *)
Definition hurtTimer (updates : nat) : float := countdown 200 frame60 updates.

Definition positive (x : float) : bool := ltb 0 x.
Definition isExactly (x y : float) : bool := eqb x y.
Definition threeSeconds : float := 3000.
Definition fifthOfASecond : float := 200.
Definition frames180 : float := 180.
Definition frames12 : float := 12.
End Doubles.

(** The boss entity's health is a whole number of its 15 points, not
    negative, and positive while the boss is alive. *)
Definition Boss_wholeHealth (b : Boss.t) : Prop :=
  Boss.maxHealth b = 15 /\
  (exists n : Z,
     Boss.health b == inject_Z n /\ (0 <= n)%Z /\ (Boss.isAlive b = true -> (0 < n)%Z)).

(** Fifteen hits of the nail on the boss entity class, 400 ms apart. *)
Definition nailDuel : list Boss.Step :=
  concat (repeat [Boss.Hit 1 0; Boss.Update 400] 15).

(** ** The movement controller *)

(** [x] lies between [a] and [b], whichever of the two is the larger. *)
Definition between (a b x : Q) : Prop := Math_min a b <= x /\ x <= Math_max a b.

(** The velocity the held movement keys ask for: right wins over left. *)
Definition heldVelocity (k : PlayerControl.Keys) : Q :=
  if PlayerControl.rightPressed k then PHYSICS.MOVE_SPEED
  else if PlayerControl.leftPressed k then - PHYSICS.MOVE_SPEED
  else 0.

(** The vertical velocity right after a jump has been launched: the jump
    velocity, or half of it when the jump key is not held. *)
Definition launched (c : PlayerControl.t) : Prop :=
  PlayerControl.velocityY c = PHYSICS.JUMP_VELOCITY \/
  PlayerControl.velocityY c = PHYSICS.JUMP_VELOCITY * (5 # 10).

(** The jump key goes down while the player stands on the floor. *)
Definition jumpFromFloor : PlayerControl.Keys :=
  PlayerControl.mkKeys 16 true false false true true false.

(** The jump key goes down again one frame later, in the air. *)
Definition jumpInAir : PlayerControl.Keys :=
  PlayerControl.mkKeys 16 false false false true true false.

(** Gravity on the player's body is switched off exactly while the
    controller is in its dash state. *)
Definition gravityMatchesDash (c : PlayerControl.t) : Prop :=
  PlayerControl.allowGravity c =
  negb (PlayerControl.State_eqb (PlayerControl.currentState c) PlayerControl.DASH).

(** What the dash logic reads and writes: the gravity switch, and whether
    the controller is in its dash state. *)
Definition dashView (c : PlayerControl.t) : bool * bool :=
  (PlayerControl.allowGravity c,
   PlayerControl.State_eqb (PlayerControl.currentState c) PlayerControl.DASH).

(** The controller right after [handleJump] has launched a jump. *)
Definition jumping (k : PlayerControl.Keys) (c : PlayerControl.t) : PlayerControl.t :=
  let c :=
    PlayerControl.set_jumpBufferTimer 0
      (PlayerControl.set_coyoteTimer 0
         (PlayerControl.set_currentState PlayerControl.JUMP
            (PlayerControl.set_velocityY PHYSICS.JUMP_VELOCITY
               (PlayerControl.set_jumpBufferTimer PHYSICS.JUMP_BUFFER_MS c)))) in
  if PlayerControl.jumpHeld k then c
  else PlayerControl.set_velocityY (PHYSICS.JUMP_VELOCITY * (5 # 10)) c.

(** ** The arena and the stages of the fight *)

(** The boss is inside the bounds [updateBoss] keeps it in. *)
Definition inArena (s : BossScene.t) : Prop :=
  80 <= BossScene.bossX s /\ BossScene.bossX s <= 1320 /\
  100 <= BossScene.bossY s /\ BossScene.bossY s <= 580.

(** Where the boss is. *)
Definition bossPosition (s : BossScene.t) : Q * Q := (BossScene.bossX s, BossScene.bossY s).

(** The stages of the encounter: asleep, waking, fighting (Idle to
    Stunned), dying, dead. *)
Definition stage (st : BossScene.BossState) : Z :=
  match st with
  | BossScene.DORMANT => 0
  | BossScene.AWAKENING => 1
  | BossScene.DYING => 3
  | BossScene.DEAD => 4
  | _ => 2
  end.

Definition isAwakeningDone (cb : BossScene.Callback) : bool :=
  match cb with BossScene.AwakeningDone => true | _ => false end.

Definition isBossDead (cb : BossScene.Callback) : bool :=
  match cb with BossScene.BossDead => true | _ => false end.

Definition isSpawnOrb (cb : BossScene.Callback) : bool :=
  match cb with BossScene.SpawnOrb => true | _ => false end.

(** How many of the calls waiting on a clock are of a given kind. *)
Definition pendingCount (p : BossScene.Callback -> bool)
  (l : list (Q * BossScene.Callback)) : nat :=
  length (List.filter (fun e => p (snd e)) l).

(** What decides the stage of the fight: the stage itself, the boss's
    health, and how many end-of-awakening and end-of-death calls are
    waiting. *)
Definition lifeView (s : BossScene.t) : Z * Q * nat * nat :=
  (stage (BossScene.bossState s), BossScene.bossHealth s,
   pendingCount isAwakeningDone (BossScene.clock s),
   pendingCount isBossDead (BossScene.clock s)).

(** The end of the awakening is waiting only while the boss wakes, and only
    once; the end of the death sequence is waiting only once the boss is
    dying, and a dying boss has no health left. *)
Definition lifeOK (v : Z * Q * nat * nat) : Prop :=
  let '(st, h, a, d) := v in
  (st = 0%Z /\ a = 0%nat /\ d = 0%nat) \/
  (st = 1%Z /\ (a <= 1)%nat /\ d = 0%nat) \/
  (st = 2%Z /\ a = 0%nat /\ d = 0%nat) \/
  (st = 3%Z /\ a = 0%nat /\ h <= 0) \/
  (st = 4%Z /\ a = 0%nat).

(** The boss's hit rectangle is where [updateBoss] puts it: 30 px left of
    and 50 px above the boss's position. *)
Definition hitboxOnBoss (s : BossScene.t) : Prop :=
  Geom.rx (BossScene.bossHitbox s) = BossScene.bossX s - 30 /\
  Geom.ry (BossScene.bossHitbox s) = BossScene.bossY s - 50.

(** The hit rectangle as [createBoss] makes it. *)
Definition creationHitbox : Geom.Rectangle := Geom.mkRect (-30) (-50) 60 100.

(** The hit rectangle is where the code last put it: still where it was
    created while the boss has not begun to fight, on the boss while it
    fights or dies. *)
Definition hitboxPlaced (s : BossScene.t) : Prop :=
  ((stage (BossScene.bossState s) < 2)%Z -> BossScene.bossHitbox s = creationHitbox) /\
  ((stage (BossScene.bossState s) = 2 \/ stage (BossScene.bossState s) = 3)%Z ->
   hitboxOnBoss s).

(** The scene as [update] finds it in a frame: the clock's calls of the
    frame have run, physics has moved the player, the trigger overlap has
    been handled. *)
Definition beforeUpdate (s : BossScene.t) (fr : BossScene.Frame) : BossScene.t :=
  let s := BossScene.tickClock (BossScene.delta fr) s in
  let s := BossScene.set_player
             (Player.moveTo (BossScene.playerX fr) (BossScene.playerY fr)
                            (BossScene.playerBody fr) (BossScene.playerFacing fr)
                            (BossScene.player s)) s in
  if BossScene.inTrigger fr then BossScene.onTriggerOverlap s else s.

(** The player has walked in and the boss has been waking for 2000 ms; in
    the next frame of 500 ms the awakening ends. *)
Definition stillWaking : list BossScene.Frame :=
  Fight.enter :: repeat (Fight.stand 500 false) 4.

(** The stage is in order after a step, and has not gone back. *)
Definition advances (s s' : BossScene.t) : Prop :=
  lifeOK (lifeView s') /\
  (stage (BossScene.bossState s) <= stage (BossScene.bossState s'))%Z.

(** The boss as the hit tests see it: its state, its position and its hit
    rectangle. *)
Definition bossBody (s : BossScene.t) : BossScene.BossState * (Q * Q) * Geom.Rectangle :=
  (BossScene.bossState s, bossPosition s, BossScene.bossHitbox s).

(** ** Screen shake *)

(** The largest shake left [k] frames after a shake of 20, the strongest
    the scene ever sets. *)
Fixpoint shakeBound (k : nat) : Q :=
  match k with
  | O => 20
  | S k => shakeBound k * (9 # 10)
  end.

(** [k] frames of the "Screen shake" block, with no new shake. *)
Fixpoint shakeFrames (k : nat) (s : BossScene.t) : BossScene.t :=
  match k with
  | O => s
  | S k => BossScene.updateScreenShake (shakeFrames k s)
  end.

(** ** Runs of a flyer and of a crawler *)

(** What can happen to a flyer between two observations: an [update], a hit,
    or the physics step. *)
Inductive FlyerInput :=
| FlyerUpdate (fr : Flyer.Frame) (player : Player.t)
| FlyerHit (amount sourceX : Q)
| FlyerPhysics (x1 y1 vx vy : Q).

Definition Flyer_step (Math_sqrt Math_sin : Q -> Q) (f : Flyer.t) (i : FlyerInput)
  : Flyer.t :=
  match i with
  | FlyerUpdate fr player => fst (Flyer.update Math_sqrt Math_sin fr player f)
  | FlyerHit amount sourceX => Flyer.takeDamage amount sourceX f
  | FlyerPhysics x1 y1 vx vy => Flyer.physics x1 y1 vx vy f
  end.

Definition Flyer_run (Math_sqrt Math_sin : Q -> Q) (f : Flyer.t)
  (inputs : list FlyerInput) : Flyer.t :=
  fold_left (Flyer_step Math_sqrt Math_sin) inputs f.

(** The order of the flyer's behaviour cycle: a state, or the one that
    follows it. *)
Definition Flyer_follows (a b : Flyer.FlyerState) : bool :=
  match a, b with
  | Flyer.HOVER, Flyer.HOVER | Flyer.HOVER, Flyer.TRACK
  | Flyer.TRACK, Flyer.TRACK | Flyer.TRACK, Flyer.SWOOP
  | Flyer.SWOOP, Flyer.SWOOP | Flyer.SWOOP, Flyer.RETREAT
  | Flyer.RETREAT, Flyer.RETREAT | Flyer.RETREAT, Flyer.HOVER => true
  | _, _ => false
  end.

(** What entering a behaviour state sets up. *)
Definition Flyer_entered (player : Player.t) (f : Flyer.t) : Prop :=
  match Flyer.currentState f with
  | Flyer.HOVER => Flyer.hoverOffset f = 0
  | Flyer.TRACK => Flyer.trackTimer f = Flyer.trackDuration f
  | Flyer.SWOOP => Flyer.swoopTarget f = Some (Player.x player, Player.y player)
  | Flyer.RETREAT =>
      Flyer.swoopTarget f = None /\ Flyer.retreatTimer f = Flyer.retreatDuration f
  end.

(** What can happen to a crawler between two observations. *)
Inductive CrawlerInput :=
| CrawlerUpdate (fr : Crawler.Frame) (player : Player.t)
| CrawlerHit (amount sourceX : Q)
| CrawlerCall (cb : Crawler.Callback)
| CrawlerPhysics (x1 y1 vx vy : Q).

Definition Crawler_step (Math_sqrt : Q -> Q) (c : Crawler.t) (i : CrawlerInput)
  : Crawler.t :=
  match i with
  | CrawlerUpdate fr player => fst (fst (Crawler.update Math_sqrt fr player c))
  | CrawlerHit amount sourceX => Crawler.takeDamage amount sourceX c
  | CrawlerCall cb => Crawler.runCallback cb c
  | CrawlerPhysics x1 y1 vx vy => Crawler.physics x1 y1 vx vy c
  end.

Definition Crawler_run (Math_sqrt : Q -> Q) (c : Crawler.t) (inputs : list CrawlerInput)
  : Crawler.t :=
  fold_left (Crawler_step Math_sqrt) inputs c.

(** The horizontal speed each behaviour of the crawler sets: none when
    idle, the walking speed on patrol, twice that in a chase, three times
    that in the lunge. *)
Definition Crawler_pace (st : Crawler.CrawlerState) : Q :=
  match st with
  | Crawler.IDLE => 0
  | Crawler.PATROL => 120
  | Crawler.CHASE => 240
  | Crawler.ATTACK => 360
  end.

(** The crawler is alive and out of its hurt window once the hurt timer has
    counted [delta] down: [update] gets past its two early returns. *)
Definition Crawler_acts (delta : Q) (c : Crawler.t) : bool :=
  Crawler.isAlive c && negb (Enemy.isHurt (Enemy.updateHurt delta (Crawler.base c))).

Definition Flyer_acts (delta : Q) (f : Flyer.t) : bool :=
  Flyer.isAlive f && negb (Enemy.isHurt (Enemy.updateHurt delta (Flyer.base f))).

(** A crawler on patrol at (100, 500), and a player 200 px to its right on
    the same floor. *)
Definition patrolFrame : Crawler.Frame :=
  Crawler.mkFrame 16 (Geom.mkRect 76 476 48 48) (Geom.mkRect 288 468 24 64) false false.

Definition playerInSight : Player.t := Player.create 300 500.

(** What the behaviours of the flyer leave alone: the damage it deals,
    where it is, and the engine's state tag. *)
Definition Flyer_fixed (f : Flyer.t) : Q * Q * Z :=
  (Enemy.damage (Flyer.base f), Flyer.x f, Flyer.state f).

(** What decides the crawler's pace: its walking speed, its charge speed
    and its patrol direction. *)
Definition Crawler_gait (c : Crawler.t) : Prop :=
  Enemy.speed (Crawler.base c) = 120 /\ Crawler.chargeSpeed c = 120 * 2 /\
  (Crawler.patrolDirection c == 1 \/ Crawler.patrolDirection c == -1).

(** What the behaviours of the crawler leave alone: the damage it deals and
    where it is. *)
Definition Crawler_fixed (c : Crawler.t) : Q * Q :=
  (Enemy.damage (Crawler.base c), Crawler.x c).

(** ** Runs of the player *)

(** What can happen to the player between two observations: the attack key
    is looked at, a hit arrives, the death pit check runs, physics moves the
    sprite, or the scene clock advances. *)
Inductive PlayerInput :=
| PlayerAttack (justDown : bool)
| PlayerHit (amount sourceX : Q)
| PlayerPit (deathY : Q)
| PlayerMove (x1 y1 : Q) (b : Geom.Rectangle) (f : Z)
| PlayerTick (delta : Q).

Definition Player_step (p : Player.t) (i : PlayerInput) : Player.t :=
  match i with
  | PlayerAttack justDown => fst (Player.handleAttack justDown p)
  | PlayerHit amount sourceX => Player.takeDamage amount sourceX p
  | PlayerPit deathY => Player.checkDeathPit deathY p
  | PlayerMove x1 y1 b f => Player.moveTo x1 y1 b f p
  | PlayerTick delta => Player.tick delta p
  end.

Definition Player_run (p : Player.t) (inputs : list PlayerInput) : Player.t :=
  fold_left Player_step inputs p.


(** No frame time is negative and no hit heals. *)
Definition Player_inputsOK (inputs : list PlayerInput) : Prop :=
  Forall (fun i => match i with
                   | PlayerTick delta => 0 <= delta
                   | PlayerHit amount _ => 0 <= amount
                   | _ => True
                   end) inputs.

Definition isAllowAttack (cb : Player.Callback) : bool :=
  match cb with Player.AllowAttack => true | Player.ClearInvincible => false end.

(** How many end-of-cooldown calls of the attack are waiting. *)
Definition attacksPending (l : list (Q * Player.Callback)) : nat :=
  length (List.filter (fun e => isAllowAttack (snd e)) l).

(** What the HUD holds after the events a scene's player has emitted so
    far.  The HUD scene is launched once and lives across the game scenes:
    [ui] is what it held when the scene started. *)
Definition hudFrom (ui : UIScene.t) (events : list Player.Event) : UIScene.t :=
  fold_left (fun ui e => UIScene.onEvent e ui) events ui.

(** One swing of the nail, a slash of the boss, and 200 ms of waiting. *)
Definition swingAndWait : list PlayerInput :=
  [PlayerTick 100; PlayerHit 2 1100; PlayerTick 100].

(** ** Runs of a state machine with counting hooks *)

Inductive MachineOp :=
| OpAdd (r : nat) (nm : string)
| OpSet (nm : string)
| OpUpdate (time delta : Q).

Definition Machine_step (sm : StateMachine.t StateMachine.Counters) (op : MachineOp)
  : StateMachine.t StateMachine.Counters :=
  match op with
  | OpAdd r nm => StateMachine.addState (StateMachine.counting r nm) sm
  | OpSet nm => StateMachine.setState nm sm
  | OpUpdate time delta => StateMachine.update time delta sm
  end.

Definition Machine_run (ops : list MachineOp) : StateMachine.t StateMachine.Counters :=
  fold_left Machine_step ops (StateMachine.create (StateMachine.mkCounters 0 0)).

(** Every state object of the machine has the counting hooks. *)
Definition Machine_counting (sm : StateMachine.t StateMachine.Counters) : Prop :=
  (forall k st, StateMachine.states sm !! k = Some st ->
     exists r nm, st = StateMachine.counting r nm) /\
  (forall cur, StateMachine.currentState sm = Some cur ->
     exists r nm, cur = StateMachine.counting r nm).

(** ** The boss entity class: speed and cooldown by phase *)

Definition Boss_statsOK (b : Boss.t) : Prop :=
  match Boss.phase b with
  | Boss.PHASE_1 =>
      Boss.currentSpeed b = BOSS.PHASE1_SPEED /\
      Boss.attackCooldown b = BOSS.PHASE1_ATTACK_COOLDOWN
  | Boss.PHASE_2 =>
      Boss.currentSpeed b = BOSS.PHASE2_SPEED /\
      Boss.attackCooldown b = BOSS.PHASE2_ATTACK_COOLDOWN
  | Boss.PHASE_3 =>
      Boss.currentSpeed b = BOSS.PHASE3_SPEED /\
      Boss.attackCooldown b = BOSS.PHASE3_ATTACK_COOLDOWN
  end.




(** The player has between 0 (excluded) and 5 health points; a player that
    has emitted nothing yet is at full health; and once the player has
    emitted, the HUD shows the player's health, whatever it held before. *)
Definition HudInv (ui : UIScene.t) (p : Player.t) : Prop :=
  Player.maxHealth p = 5 /\ 0 < Player.health p /\ Player.health p <= 5 /\
  (Player.emitted p = [] -> Player.health p = 5) /\
  (Player.emitted p <> [] ->
   UIScene.currentHealth (hudFrom ui (Player.emitted p)) == Player.health p).

(** 1 when the machine is in a state, 0 before the first [setState]. *)
Definition Machine_occupied (sm : StateMachine.t StateMachine.Counters) : nat :=
  match StateMachine.currentState sm with Some _ => 1 | None => 0 end.

(** ** The arena *)

(** How often the scene is started again in a run. *)
Definition startsAgain (inputs : list ArenaScene.Input) : nat :=
  length (List.filter (fun i => match i with ArenaScene.StartAgain => true | _ => false end)
            inputs).

(** The children of the group are alive, at most five; the arena counts
    five enemies; every listener has counted every defeat; the exit portal
    is locked while fewer than five are counted; and the boss scene has been
    started only with the portal unlocked. *)
Definition ArenaInv (s : ArenaScene.t) : Prop :=
  Forall (fun e => EnemyManager.isAlive e = true) (ArenaScene.enemies s) /\
  (length (ArenaScene.enemies s) <= 5)%nat /\
  ArenaScene.totalEnemies s = 5%Z /\
  ArenaScene.enemiesDefeated s =
    Z.of_nat (ArenaScene.defeatListeners s * (5 - length (ArenaScene.enemies s)))%nat /\
  Portal.locked (ArenaScene.exitPortal s) = (ArenaScene.enemiesDefeated s <? 5)%Z /\
  (In ArenaScene.BOSS (ArenaScene.transitions s) ->
   Portal.locked (ArenaScene.exitPortal s) = false).

(** The player swings at the child of the group that has index [k], whose
    body is 30 px to the player's right; every other enemy is far away. *)
Definition swingAt (k : nat) : ArenaScene.Input :=
  ArenaScene.Update true
    (fun i => if (i =? k)%nat then Geom.mkRect 528 514 44 28
              else Geom.mkRect 5000 5000 44 28)
    (fun i => EnemyManager.mkFrame 320 (Geom.mkRect 5000 5000 44 28) false false).

(** A swing that reaches the children of index [k] and [k + 1]. *)
Definition swingAtTwo (k : nat) : ArenaScene.Input :=
  ArenaScene.Update true
    (fun i => if (i =? k)%nat || (i =? S k)%nat then Geom.mkRect 528 514 44 28
              else Geom.mkRect 5000 5000 44 28)
    (fun i => EnemyManager.mkFrame 320 (Geom.mkRect 5000 5000 44 28) false false).

(** The player stands at (520, 528), facing right. *)
Definition playerInPlace : ArenaScene.Input :=
  ArenaScene.Physics 520 528 (Geom.mkRect 508 (2528 # 5) 24 (272 # 5)) 1
    (fun i => match i with O => 550 | _ => 5000 end) (fun _ => 528).

(** [n] swings at the child of index [k], each followed by the nail's
    cooldown. *)
Definition swingsAt (k n : nat) : list ArenaScene.Input :=
  concat (repeat [swingAt k; ArenaScene.Tick 320] n).

(** The arena cleared on its first visit and the exit taken: two swings
    for each of the three crawlers, one for each of the two flyers. *)
Definition clearRun : list ArenaScene.Input :=
  playerInPlace :: swingsAt 0 8 ++ [ArenaScene.ExitOverlap].

(** The arena left for the tutorial and entered again; then the two flyers
    and the first crawler killed, and the exit taken. *)
Definition secondVisit : list ArenaScene.Input :=
  [ArenaScene.EntryOverlap; ArenaScene.StartAgain; playerInPlace] ++
  swingsAt 3 2 ++ swingsAt 0 2 ++ [ArenaScene.ExitOverlap].

(** One swing that reaches both flyers. *)
Definition doubleSwing : list ArenaScene.Input :=
  [playerInPlace; swingAtTwo 3].
(** * Properties *)

(** ** Comparisons *)

Lemma Qleb_le a b : Qleb a b = true <-> a <= b.
Proof. apply Qle_bool_iff. Qed.

Lemma Qleb_gt a b : Qleb a b = false <-> b < a.
Proof.
  unfold Qleb. split; intros H.
  - apply Qnot_le_lt. intros Hle. apply Qle_bool_iff in Hle. congruence.
  - destruct (Qle_bool a b) eqn:E; [|reflexivity].
    apply Qle_bool_iff in E. apply Qlt_not_le in H. contradiction.
Qed.

Lemma Qltb_lt a b : Qltb a b = true <-> a < b.
Proof.
  unfold Qltb. rewrite negb_true_iff. apply (Qleb_gt b a).
Qed.

Lemma Qltb_ge a b : Qltb a b = false <-> b <= a.
Proof.
  unfold Qltb. rewrite negb_false_iff. apply Qle_bool_iff.
Qed.

Lemma Clamp_bounds v lo hi :
  lo <= hi -> lo <= Geom.Clamp v lo hi /\ Geom.Clamp v lo hi <= hi.
Proof.
  intros Hlh. unfold Geom.Clamp, Math_max, Math_min.
  destruct (Qleb hi v) eqn:E1.
  - destruct (Qleb lo hi) eqn:E2.
    + split; [assumption | apply Qle_refl].
    + apply Qleb_gt in E2. split; [apply Qle_refl | assumption].
  - apply Qleb_gt in E1.
    destruct (Qleb lo v) eqn:E2.
    + apply Qleb_le in E2. split; [assumption | apply Qlt_le_weak; assumption].
    + split; [apply Qle_refl | assumption].
Qed.

(** ** The player's damage contract *)

Lemma Player_takeDamage_invincible amount sourceX p :
  Player.invincible p = true -> Player.takeDamage amount sourceX p = p.
Proof. intros H. unfold Player.takeDamage. rewrite H. reflexivity. Qed.

Lemma Player_takeDamage_opens_window amount sourceX p :
  Player.invincible (Player.takeDamage amount sourceX p) = true.
Proof.
  unfold Player.takeDamage.
  destruct (Player.invincible p) eqn:E; [exact E|].
  cbn. destruct (Qleb _ 0); reflexivity.
Qed.

Lemma Player_takeDamage_twice a1 x1 a2 x2 p :
  Player.takeDamage a2 x2 (Player.takeDamage a1 x1 p) = Player.takeDamage a1 x1 p.
Proof. apply Player_takeDamage_invincible, Player_takeDamage_opens_window. Qed.

Lemma Player_takeDamage_health amount sourceX p :
  Player.invincible p = false ->
  Player.health (Player.takeDamage amount sourceX p) =
    if Qleb (Player.health p - amount) 0 then Player.maxHealth p
    else Player.health p - amount.
Proof.
  intros H. unfold Player.takeDamage. rewrite H. cbn.
  destruct (Qleb _ 0); reflexivity.
Qed.

Lemma damagedValues_app es1 es2 :
  Player.damagedValues (es1 ++ es2) = Player.damagedValues es1 ++ Player.damagedValues es2.
Proof. unfold Player.damagedValues. apply flat_map_app. Qed.

Lemma PlayerHealthy_create x0 y0 : PlayerHealthy (Player.create x0 y0).
Proof.
  unfold PlayerHealthy. cbn. repeat split; try constructor; unfold Qlt, Qle; cbn; lia.
Qed.

Lemma PlayerHealthy_takeDamage amount sourceX p :
  0 <= amount -> PlayerHealthy p -> PlayerHealthy (Player.takeDamage amount sourceX p).
Proof.
  intros Ha (Hpos & Hmax & Hev). unfold Player.takeDamage.
  destruct (Player.invincible p); [repeat split; assumption|].
  unfold PlayerHealthy, Player.getHealth, Player.getMaxHealth in *.
  cbn. destruct (Qleb (Player.health p - amount) 0) eqn:E; cbn.
  - repeat split.
    + eapply Qlt_le_trans; eassumption.
    + apply Qle_refl.
    + rewrite !damagedValues_app. cbn.
      rewrite !Forall_app. repeat split; try assumption; repeat constructor.
      * lra.
      * apply Qle_refl.
  - apply Qleb_gt in E. repeat split.
    + exact E.
    + lra.
    + rewrite damagedValues_app, Forall_app. split; [assumption|].
      repeat constructor. lra.
Qed.

Lemma PlayerHealthy_fallDeath p : PlayerHealthy p -> PlayerHealthy (Player.fallDeath p).
Proof.
  intros (Hpos & Hmax & Hev). unfold Player.fallDeath.
  unfold PlayerHealthy, Player.getHealth, Player.getMaxHealth in *.
  cbn. destruct (Qleb (Player.health p - 1) 0) eqn:E; cbn.
  - repeat split.
    + eapply Qlt_le_trans; eassumption.
    + apply Qle_refl.
    + rewrite !damagedValues_app. cbn.
      rewrite !Forall_app. repeat split; try assumption; repeat constructor.
      * lra.
      * apply Qle_refl.
  - apply Qleb_gt in E. repeat split.
    + exact E.
    + lra.
    + rewrite damagedValues_app, Forall_app. split; [assumption|].
      repeat constructor. lra.
Qed.

Lemma UIScene_updateHealth_range h ui :
  0 <= UIScene.currentHealth (UIScene.updateHealth h ui) /\
  UIScene.currentHealth (UIScene.updateHealth h ui) <= UIScene.MAX_HEALTH.
Proof.
  cbn. apply Clamp_bounds. unfold UIScene.MAX_HEALTH. lra.
Qed.

(** ** The state machine *)

Section StateMachineFacts.

Context {T : Type}.
Implicit Types (sm : StateMachine.t T) (st : StateMachine.State T).

Lemma setState_unknown sm nm :
  StateMachine.states sm !! nm = None ->
  StateMachine.setState nm sm =
    StateMachine.mk (StateMachine.entity sm) (StateMachine.states sm)
      (StateMachine.currentState sm) (StateMachine.previousState sm)
      (StateMachine.console sm ++ [StateMachine.StateNotFound nm]).
Proof. intros H. unfold StateMachine.setState. rewrite H. reflexivity. Qed.

Lemma setState_same_object sm nm st :
  StateMachine.states sm !! nm = Some st ->
  StateMachine.isCurrent sm st = true ->
  StateMachine.setState nm sm = sm.
Proof. intros H Hc. unfold StateMachine.setState. rewrite H, Hc. reflexivity. Qed.

Lemma setState_switch sm nm st :
  StateMachine.states sm !! nm = Some st ->
  StateMachine.isCurrent sm st = false ->
  StateMachine.setState nm sm =
    StateMachine.mk
      (StateMachine.runHook (StateMachine.onEnter st)
         (match StateMachine.currentState sm with
          | Some cur => StateMachine.runHook (StateMachine.onExit cur) (StateMachine.entity sm)
          | None => StateMachine.entity sm
          end))
      (StateMachine.states sm) (Some st) (StateMachine.currentState sm)
      (StateMachine.console sm).
Proof. intros H Hc. unfold StateMachine.setState. rewrite H, Hc. reflexivity. Qed.

(** After [setState(X)] for a registered X the machine is in the state
    registered under X, so an immediate second [setState(X)] does
    nothing. *)
Lemma setState_reentry sm nm st :
  StateMachine.states sm !! nm = Some st ->
  StateMachine.setState nm (StateMachine.setState nm sm) = StateMachine.setState nm sm.
Proof.
  intros H. destruct (StateMachine.isCurrent sm st) eqn:Hc.
  - rewrite (setState_same_object sm nm st H Hc). apply (setState_same_object sm nm st H Hc).
  - rewrite (setState_switch sm nm st H Hc).
    eapply setState_same_object; [exact H|].
    unfold StateMachine.isCurrent. cbn. apply Nat.eqb_refl.
Qed.

Lemma setState_current_name sm nm :
  StateMachine.registryAgrees sm ->
  StateMachine.getCurrentState sm = Some nm ->
  StateMachine.setState nm sm = sm.
Proof.
  intros [_ Hwf] Hcur. unfold StateMachine.getCurrentState in Hcur.
  destruct (StateMachine.currentState sm) as [cur|] eqn:E; [|discriminate].
  cbn in Hcur. injection Hcur as <-.
  destruct (Hwf cur eq_refl) as (st & Hst & Href).
  apply (setState_same_object sm _ st Hst).
  unfold StateMachine.isCurrent. rewrite E. rewrite Href. apply Nat.eqb_refl.
Qed.

Lemma registryAgrees_create (e : T) : StateMachine.registryAgrees (StateMachine.create e).
Proof.
  split.
  - intros k st H. cbn in H. rewrite lookup_empty in H. discriminate.
  - intros cur H. discriminate.
Qed.

Lemma registryAgrees_setState sm nm :
  StateMachine.registryAgrees sm ->
  StateMachine.registryAgrees (StateMachine.setState nm sm).
Proof.
  intros [Hk Hwf]. unfold StateMachine.setState.
  destruct (StateMachine.states sm !! nm) as [st|] eqn:E.
  - destruct (StateMachine.isCurrent sm st); [split; assumption|].
    split; [exact Hk|].
    intros cur Hcur. cbn in Hcur. injection Hcur as <-. cbn.
    exists st. split; [|reflexivity].
    rewrite (Hk nm st E). exact E.
  - split; [exact Hk|exact Hwf].
Qed.

(** Registering a state keeps the agreement unless its name is the
    current state's and it is another object. *)
Lemma registryAgrees_addState sm st :
  StateMachine.registryAgrees sm ->
  (forall cur, StateMachine.currentState sm = Some cur ->
     StateMachine.name cur = StateMachine.name st ->
     StateMachine.ref cur = StateMachine.ref st) ->
  StateMachine.registryAgrees (StateMachine.addState st sm).
Proof.
  intros [Hk Hwf] Hfresh. split.
  - intros k st' H.
    change (<[StateMachine.name st := st]> (StateMachine.states sm) !! k = Some st') in H.
    destruct (decide (StateMachine.name st = k)) as [<-|Hne].
    + rewrite lookup_insert_eq in H. injection H as <-. reflexivity.
    + rewrite lookup_insert_ne in H by exact Hne. eapply Hk; exact H.
  - intros cur Hcur. change (StateMachine.currentState sm = Some cur) in Hcur.
    change (StateMachine.states (StateMachine.addState st sm))
      with (<[StateMachine.name st := st]> (StateMachine.states sm)).
    destruct (decide (StateMachine.name st = StateMachine.name cur)) as [Heq|Hne].
    + exists st. rewrite <- Heq, lookup_insert_eq. split; [reflexivity|].
      symmetry. apply Hfresh; [exact Hcur | symmetry; exact Heq].
    + rewrite lookup_insert_ne by exact Hne. apply Hwf. exact Hcur.
Qed.

End StateMachineFacts.

(** C4, as stated, fails: after a second state object is registered under
    the name of the current state, [setState] of that name is no longer a
    no-op, although the name is the current state's name: it runs the old
    object's onExit and the new object's onEnter (the counters go from
    1 entry, 0 exits to 2 entries, 1 exit). *)
Lemma C4_same_name_other_object :
  StateMachine.getCurrentState reregisteredA = Some "A"%string /\
  StateMachine.entity reregisteredA = StateMachine.mkCounters 1 0 /\
  StateMachine.entity (StateMachine.setState "A" reregisteredA) =
    StateMachine.mkCounters 2 1.
Proof. vm_compute. repeat split. Qed.

(** C4, amended: [setState(name)] looks the name up in the registry.  An
    unknown name only logs a warning: entity, registry, current and previous
    state are untouched.  When the state object registered under the name
    is the current state object it does nothing at all, running neither
    onExit nor onEnter; otherwise it runs the old state's onExit, records
    the old state as previous, switches, and runs the new state's onEnter.
    Hence a second [setState] of the same registered name right after the
    first does nothing, and as long as the registry still maps the current
    state's name to the current state object, [setState] of the current
    state's name does nothing. *)
Theorem C4_setState_cases {T : Type} (sm : StateMachine.t T) (nm : string) :
  (StateMachine.states sm !! nm = None ->
     StateMachine.setState nm sm =
       StateMachine.mk (StateMachine.entity sm) (StateMachine.states sm)
         (StateMachine.currentState sm) (StateMachine.previousState sm)
         (StateMachine.console sm ++ [StateMachine.StateNotFound nm])) /\
  (forall st, StateMachine.states sm !! nm = Some st ->
     StateMachine.isCurrent sm st = true ->
     StateMachine.setState nm sm = sm) /\
  (forall st, StateMachine.states sm !! nm = Some st ->
     StateMachine.isCurrent sm st = false ->
     StateMachine.setState nm sm =
       StateMachine.mk
         (StateMachine.runHook (StateMachine.onEnter st)
            (match StateMachine.currentState sm with
             | Some cur =>
                 StateMachine.runHook (StateMachine.onExit cur) (StateMachine.entity sm)
             | None => StateMachine.entity sm
             end))
         (StateMachine.states sm) (Some st) (StateMachine.currentState sm)
         (StateMachine.console sm)) /\
  (forall st, StateMachine.states sm !! nm = Some st ->
     StateMachine.setState nm (StateMachine.setState nm sm) =
       StateMachine.setState nm sm) /\
  (StateMachine.registryAgrees sm ->
     StateMachine.getCurrentState sm = Some nm ->
     StateMachine.setState nm sm = sm) /\
  (StateMachine.registryAgrees sm ->
     StateMachine.registryAgrees (StateMachine.setState nm sm)).
Proof.
  repeat split.
  - apply setState_unknown.
  - apply setState_same_object.
  - apply setState_switch.
  - apply setState_reentry.
  - apply setState_current_name.
  - apply registryAgrees_setState. assumption.
  - apply registryAgrees_setState. assumption.
Qed.

(** The machine that entered "A" once: asking for "A" again leaves the
    counters at 1 entry, 0 exits. *)
Lemma C4_setState_cases_witness :
  StateMachine.setState "A" enteredA = enteredA.
Proof.
  refine (proj1 (proj2 (proj2 (proj2 (proj2 (C4_setState_cases enteredA "A"))))) _ _).
  - unfold enteredA. apply registryAgrees_setState, registryAgrees_addState.
    + apply registryAgrees_create.
    + intros cur H. discriminate.
  - vm_compute. reflexivity.
Defined.

(** ** Enemies: the hurt window *)

Lemma Enemy_takeDamage_guard amount sourceX e :
  Enemy.isHurt e = true \/ Enemy.isAlive e = false ->
  Enemy.takeDamage amount sourceX e = e.
Proof.
  intros H. unfold Enemy.takeDamage.
  destruct H as [-> | ->]; [reflexivity | rewrite orb_true_r; reflexivity].
Qed.

Lemma Enemy_takeDamage_closes amount sourceX e :
  Enemy.isHurt (Enemy.takeDamage amount sourceX e) = true \/
  Enemy.isAlive (Enemy.takeDamage amount sourceX e) = false.
Proof.
  unfold Enemy.takeDamage.
  destruct (Enemy.isHurt e) eqn:Eh; [left; exact Eh|].
  destruct (Enemy.isAlive e) eqn:Ea; [|right; exact Ea].
  cbn. left. destruct (Qleb _ 0); reflexivity.
Qed.

Lemma Enemy_takeDamage_twice a1 x1 a2 x2 e :
  Enemy.takeDamage a2 x2 (Enemy.takeDamage a1 x1 e) = Enemy.takeDamage a1 x1 e.
Proof. apply Enemy_takeDamage_guard, Enemy_takeDamage_closes. Qed.

Lemma Enemy_takeDamage_health amount sourceX e :
  Enemy.isHurt e = false -> Enemy.isAlive e = true ->
  Enemy.health (Enemy.takeDamage amount sourceX e) = Enemy.health e - amount /\
  Enemy.isHurt (Enemy.takeDamage amount sourceX e) = true /\
  Enemy.hurtTimer (Enemy.takeDamage amount sourceX e) = Enemy.hurtDuration e.
Proof.
  intros Hh Ha. unfold Enemy.takeDamage. rewrite Hh, Ha. cbn.
  destruct (Qleb _ 0); repeat split.
Qed.

Lemma total_nonneg deltas : Forall (fun d => 0 <= d) deltas -> 0 <= total deltas.
Proof.
  induction 1 as [|d ds Hd _ IH].
  - unfold total. cbn. lra.
  - change (0 <= d + total ds). lra.
Qed.

(** The window stays open as long as less than the hurt timer has
    elapsed. *)
Lemma Enemy_elapse_window deltas : forall e,
  Enemy.isHurt e = true ->
  Forall (fun d => 0 <= d) deltas ->
  total deltas < Enemy.hurtTimer e ->
  Enemy.isHurt (Enemy_elapse deltas e) = true /\
  Enemy.health (Enemy_elapse deltas e) = Enemy.health e /\
  Enemy.isAlive (Enemy_elapse deltas e) = Enemy.isAlive e.
Proof.
  induction deltas as [|d ds IH]; intros e Hh Hpos Hsum.
  - repeat split; assumption.
  - inversion Hpos as [|? ? Hd Hds]; subst.
    change (d + total ds < Enemy.hurtTimer e) in Hsum.
    assert (Htot : 0 <= total ds) by (apply total_nonneg; exact Hds).
    unfold Enemy_elapse. cbn [fold_left]. fold (Enemy_elapse ds (Enemy.updateHurt d e)).
    assert (Hstep : Enemy.updateHurt d e = Enemy.set_hurtTimer (Enemy.hurtTimer e - d) e).
    { unfold Enemy.updateHurt. rewrite Hh. cbn.
      destruct (Qleb (Enemy.hurtTimer e - d) 0) eqn:E; [|reflexivity].
      apply Qleb_le in E. lra. }
    rewrite Hstep.
    destruct (IH (Enemy.set_hurtTimer (Enemy.hurtTimer e - d) e)) as (H1 & H2 & H3).
    + exact Hh.
    + exact Hds.
    + cbn. lra.
    + repeat split; assumption.
Qed.

Lemma BaseEnemy_takeDamage_guard amount sourceX e :
  BaseEnemy.isHurt e = true \/ BaseEnemy.isAlive e = false ->
  BaseEnemy.takeDamage amount sourceX e = e.
Proof.
  intros H. unfold BaseEnemy.takeDamage.
  destruct H as [-> | ->]; [reflexivity | rewrite orb_true_r; reflexivity].
Qed.

Lemma BaseEnemy_takeDamage_closes amount sourceX e :
  BaseEnemy.isHurt (BaseEnemy.takeDamage amount sourceX e) = true \/
  BaseEnemy.isAlive (BaseEnemy.takeDamage amount sourceX e) = false.
Proof.
  unfold BaseEnemy.takeDamage.
  destruct (BaseEnemy.isHurt e) eqn:Eh; [left; exact Eh|].
  destruct (BaseEnemy.isAlive e) eqn:Ea; [|right; exact Ea].
  cbn. left. destruct (Qleb _ 0); reflexivity.
Qed.

Lemma Boss_takeDamage_guard amount sourceX b :
  Boss.isHurt b = true \/ Boss.isAlive b = false ->
  Boss.takeDamage amount sourceX b = b.
Proof.
  intros H. unfold Boss.takeDamage.
  destruct H as [-> | ->]; [reflexivity | rewrite orb_true_r; reflexivity].
Qed.

Lemma Boss_takeDamage_closes amount sourceX b :
  Boss.isHurt (Boss.takeDamage amount sourceX b) = true \/
  Boss.isAlive (Boss.takeDamage amount sourceX b) = false.
Proof.
  unfold Boss.takeDamage.
  destruct (Boss.isHurt b) eqn:Eh; [left; exact Eh|].
  destruct (Boss.isAlive b) eqn:Ea; [|right; exact Ea].
  cbn. left. unfold Boss.checkPhaseTransition. cbn.
  repeat match goal with |- context [if ?c then _ else _] => destruct c end; reflexivity.
Qed.

(** ** The flyer *)

Lemma Flyer_set_base_eta f : Flyer.set_base (Flyer.base f) f = f.
Proof. destruct f; reflexivity. Qed.

(** [takeDamage] never writes the behaviour state. *)
Lemma Flyer_takeDamage_currentState amount sourceX f :
  Flyer.currentState (Flyer.takeDamage amount sourceX f) = Flyer.currentState f.
Proof.
  unfold Flyer.takeDamage. cbn.
  destruct (Flyer.isAlive _); reflexivity.
Qed.

Lemma Flyer_takeDamage_dead amount sourceX f :
  Flyer.isAlive f = false -> Flyer.takeDamage amount sourceX f = f.
Proof.
  intros Ha. unfold Flyer.takeDamage.
  rewrite Enemy_takeDamage_guard by (right; exact Ha).
  rewrite Flyer_set_base_eta, Ha. reflexivity.
Qed.

Lemma Flyer_takeDamage_hurt amount sourceX f :
  Flyer_hurtAsLeft f -> Flyer.isHurt f = true -> Flyer.takeDamage amount sourceX f = f.
Proof.
  intros Hinv Hh. destruct (Flyer.isAlive f) eqn:Ha.
  - destruct (Hinv Hh Ha) as [Hs Hr].
    unfold Flyer.takeDamage.
    rewrite Enemy_takeDamage_guard by (left; exact Hh).
    rewrite Flyer_set_base_eta, Ha.
    destruct f; cbn in *. subst. reflexivity.
  - apply Flyer_takeDamage_dead. exact Ha.
Qed.

Lemma Flyer_takeDamage_twice a1 x1 a2 x2 f :
  Flyer.takeDamage a2 x2 (Flyer.takeDamage a1 x1 f) = Flyer.takeDamage a1 x1 f.
Proof.
  unfold Flyer.takeDamage at 1.
  assert (Hb : Flyer.base (Flyer.takeDamage a1 x1 f) =
               Enemy.takeDamage a1 x1 (Flyer.base f)).
  { unfold Flyer.takeDamage. destruct (Flyer.isAlive _); reflexivity. }
  rewrite Hb, Enemy_takeDamage_twice, <- Hb, Flyer_set_base_eta.
  unfold Flyer.takeDamage.
  destruct (Flyer.isAlive (Flyer.set_base _ f)) eqn:Ha.
  - cbn. unfold Flyer.isAlive in Ha. cbn in Ha. unfold Flyer.isAlive. cbn. rewrite Ha.
    reflexivity.
  - rewrite Ha. reflexivity.
Qed.

Lemma Flyer_hurtAsLeft_takeDamage amount sourceX f :
  Flyer_hurtAsLeft (Flyer.takeDamage amount sourceX f).
Proof.
  intros Hh Ha. unfold Flyer.takeDamage in *.
  destruct (Flyer.isAlive (Flyer.set_base _ f)) eqn:E.
  - split; reflexivity.
  - rewrite E in Ha. discriminate.
Qed.

Ltac split_ifs :=
  repeat match goal with
         | |- context [if ?c then _ else _] => destruct c
         end.

Lemma Enemy_updateHurt_flags delta e :
  (Enemy.isHurt (Enemy.updateHurt delta e) = true -> Enemy.isHurt e = true) /\
  Enemy.isAlive (Enemy.updateHurt delta e) = Enemy.isAlive e.
Proof.
  unfold Enemy.updateHurt.
  destruct (Enemy.isHurt e) eqn:E; [|split; [intros H; congruence | reflexivity]].
  split; [reflexivity|]. cbn. destruct (Qleb _ 0); reflexivity.
Qed.

Section FlyerReach.

Variable Math_sqrt Math_sin : Q -> Q.

(** The behaviours touch neither the hurt flag nor the alive flag. *)
Lemma Flyer_updateHover_flags delta dist f :
  Flyer_flags (Flyer.updateHover Math_sin delta dist f) = Flyer_flags f.
Proof. unfold Flyer.updateHover. cbn. split_ifs; reflexivity. Qed.

Lemma Flyer_updateTrack_flags delta player f :
  Flyer_flags (Flyer.updateTrack Math_sqrt delta player f) = Flyer_flags f.
Proof. unfold Flyer.updateTrack, Flyer.startSwoop. cbn. split_ifs; reflexivity. Qed.

Lemma Flyer_updateSwoop_flags f :
  Flyer_flags (Flyer.updateSwoop Math_sqrt f) = Flyer_flags f.
Proof.
  unfold Flyer.updateSwoop. destruct (Flyer.swoopTarget f) as [[tx ty]|]; cbn;
    split_ifs; reflexivity.
Qed.

Lemma Flyer_updateRetreat_flags delta f :
  Flyer_flags (Flyer.updateRetreat delta f) = Flyer_flags f.
Proof. unfold Flyer.updateRetreat. cbn. split_ifs; reflexivity. Qed.

Lemma Flyer_checkPlayerCollision_flags fr player f :
  Flyer_flags (fst (Flyer.checkPlayerCollision fr player f)) = Flyer_flags f.
Proof. unfold Flyer.checkPlayerCollision. split_ifs; reflexivity. Qed.

(** Past the hurt gate, [update] returns a flyer with the same flags. *)
Lemma Flyer_update_active fr player f1 :
  Flyer_flags
    (fst (Flyer.checkPlayerCollision fr player
            (Flyer.set_base
               (Enemy.facePlayer (Player.x player)
                  (Flyer.base
                     (match Flyer.currentState f1 with
                      | Flyer.HOVER =>
                          Flyer.updateHover Math_sin (Flyer.delta fr)
                            (Flyer.DistanceBetween Math_sqrt (Flyer.x f1) (Flyer.y f1)
                               (Player.x player) (Player.y player)) f1
                      | Flyer.TRACK =>
                          Flyer.updateTrack Math_sqrt (Flyer.delta fr) player f1
                      | Flyer.SWOOP => Flyer.updateSwoop Math_sqrt f1
                      | Flyer.RETREAT => Flyer.updateRetreat (Flyer.delta fr) f1
                      end)))
               (match Flyer.currentState f1 with
                | Flyer.HOVER =>
                    Flyer.updateHover Math_sin (Flyer.delta fr)
                      (Flyer.DistanceBetween Math_sqrt (Flyer.x f1) (Flyer.y f1)
                         (Player.x player) (Player.y player)) f1
                | Flyer.TRACK => Flyer.updateTrack Math_sqrt (Flyer.delta fr) player f1
                | Flyer.SWOOP => Flyer.updateSwoop Math_sqrt f1
                | Flyer.RETREAT => Flyer.updateRetreat (Flyer.delta fr) f1
                end)))) = Flyer_flags f1.
Proof.
  rewrite Flyer_checkPlayerCollision_flags.
  match goal with
  | |- Flyer_flags (Flyer.set_base (Enemy.facePlayer ?px (Flyer.base ?g)) ?g) = _ =>
      change (Flyer_flags (Flyer.set_base (Enemy.facePlayer px (Flyer.base g)) g))
        with (Flyer_flags g)
  end.
  destruct (Flyer.currentState f1).
  - apply Flyer_updateHover_flags.
  - apply Flyer_updateTrack_flags.
  - apply Flyer_updateSwoop_flags.
  - apply Flyer_updateRetreat_flags.
Qed.

Lemma Flyer_update_alive fr player f :
  Flyer.isAlive (fst (Flyer.update Math_sqrt Math_sin fr player f)) = Flyer.isAlive f.
Proof.
  unfold Flyer.update.
  destruct (Flyer.isAlive f) eqn:Ha; cbn [negb]; [|exact Ha].
  set (f1 := Flyer.set_base (Enemy.updateHurt (Flyer.delta fr) (Flyer.base f)) f).
  assert (H1 : Flyer.isAlive f1 = true).
  { unfold f1, Flyer.isAlive. cbn.
    rewrite (proj2 (Enemy_updateHurt_flags _ _)). exact Ha. }
  destruct (Flyer.isHurt f1); [exact H1|].
  pose proof (Flyer_update_active fr player f1) as Hfl.
  unfold Flyer_flags in Hfl. injection Hfl as _ Hal. exact (eq_trans Hal H1).
Qed.

(** If a living flyer is hurt after [update], it was hurt before, and
    [update] did nothing but count the hurt timer down. *)
Lemma Flyer_update_hurt fr player f :
  Flyer.isAlive f = true ->
  Flyer.isHurt (fst (Flyer.update Math_sqrt Math_sin fr player f)) = true ->
  Flyer.isHurt f = true /\
  fst (Flyer.update Math_sqrt Math_sin fr player f) =
    Flyer.set_base (Enemy.updateHurt (Flyer.delta fr) (Flyer.base f)) f.
Proof.
  unfold Flyer.update. intros Ha. rewrite Ha. cbn [negb].
  set (f1 := Flyer.set_base (Enemy.updateHurt (Flyer.delta fr) (Flyer.base f)) f).
  destruct (Flyer.isHurt f1) eqn:Eh.
  - intros _. split; [|reflexivity].
    apply (proj1 (Enemy_updateHurt_flags (Flyer.delta fr) (Flyer.base f))). exact Eh.
  - intros H. exfalso.
    pose proof (Flyer_update_active fr player f1) as Hfl.
    unfold Flyer_flags in Hfl. injection Hfl as Hh _.
    assert (Hc : Flyer.isHurt f1 = true) by (rewrite <- Hh; exact H).
    congruence.
Qed.

Lemma Flyer_reachable_hurtAsLeft f :
  Flyer.reachable Math_sqrt Math_sin f -> Flyer_hurtAsLeft f.
Proof.
  induction 1 as [x0 y0 | f fr player Hr IH | f amount sourceX Hr IH
                 | f x1 y1 vx vy Hr IH].
  - intros Hh. discriminate.
  - intros Hh Ha. rewrite Flyer_update_alive in Ha.
    destruct (Flyer_update_hurt fr player f Ha Hh) as (Hh0 & ->).
    apply IH; assumption.
  - apply Flyer_hurtAsLeft_takeDamage.
  - exact IH.
Qed.

End FlyerReach.

(** ** Runs of a system whose phase can only stay or advance by one *)

Lemma Forall_any {A : Type} (l : list A) : Forall (fun _ => True) l.
Proof. induction l; constructor; auto. Qed.

Lemma last_In {A : Type} (l : list A) : forall a d, In (List.last (a :: l) d) (a :: l).
Proof.
  induction l as [|b l IH]; intros a d; [left; reflexivity|].
  right. apply (IH b d).
Qed.

(** An invariant of the steps the inputs allow holds along the run. *)
Lemma trajectory_Forall {S I : Type} (step : S -> I -> S) (ok : I -> Prop)
  (Inv : S -> Prop) :
  (forall s i, ok i -> Inv s -> Inv (step s i)) ->
  forall inputs s, Forall ok inputs -> Inv s -> Forall Inv (trajectory step s inputs).
Proof.
  intros Hstep. induction inputs as [|i inputs IH]; intros s Hok Hs; cbn [trajectory].
  - constructor; [exact Hs | constructor].
  - inversion Hok as [|? ? Hi Hrest]; subst.
    constructor; [exact Hs|]. apply IH; [exact Hrest|]. apply Hstep; assumption.
Qed.

Section Trajectories.

Context {S I : Type}.
Variable step : S -> I -> S.
Variable ok : I -> Prop.
Variable Inv : S -> Prop.
Variable phase : S -> Z.
Variable health : S -> Q.

Hypothesis step_ok : forall s i,
  ok i -> Inv s ->
  Inv (step s i) /\
  (phase (step s i) = phase s \/ phase (step s i) = (phase s + 1)%Z) /\
  health (step s i) <= health s.

Lemma trajectory_head inputs s : exists rest, trajectory step s inputs = s :: rest.
Proof. destruct inputs; eexists; reflexivity. Qed.

Lemma trajectory_last inputs : forall s i d,
  List.last (trajectory step s (i :: inputs)) d =
  List.last (trajectory step (step s i) inputs) d.
Proof.
  intros s i d. cbn [trajectory].
  destruct (trajectory_head inputs (step s i)) as [rest ->]. reflexivity.
Qed.

Lemma trajectory_last_default inputs : forall s d d',
  List.last (trajectory step s inputs) d = List.last (trajectory step s inputs) d'.
Proof.
  induction inputs as [|i inputs IH]; intros s d d'; [reflexivity|].
  rewrite !trajectory_last. apply IH.
Qed.

Lemma trajectory_invariant inputs : forall s,
  Forall ok inputs -> Inv s -> Forall Inv (trajectory step s inputs).
Proof.
  induction inputs as [|i inputs IH]; intros s Hok Hs; cbn [trajectory].
  - repeat constructor. exact Hs.
  - inversion Hok as [|? ? Hi Hrest]; subst.
    constructor; [exact Hs|]. apply IH; [exact Hrest|]. apply step_ok; assumption.
Qed.

Lemma trajectory_phase_sorted inputs : forall s,
  Forall ok inputs -> Inv s -> Sorted Z.le (List.map phase (trajectory step s inputs)).
Proof.
  induction inputs as [|i inputs IH]; intros s Hok Hs; cbn [trajectory List.map].
  - repeat constructor.
  - inversion Hok as [|? ? Hi Hrest]; subst.
    destruct (step_ok s i Hi Hs) as (Hs' & Hph & _).
    constructor; [apply IH; assumption|].
    destruct (trajectory_head inputs (step s i)) as [rest ->].
    cbn [List.map]. constructor. lia.
Qed.

Lemma trajectory_health_sorted inputs : forall s,
  Forall ok inputs -> Inv s ->
  Sorted (fun a b => b <= a) (List.map health (trajectory step s inputs)).
Proof.
  induction inputs as [|i inputs IH]; intros s Hok Hs; cbn [trajectory List.map].
  - repeat constructor.
  - inversion Hok as [|? ? Hi Hrest]; subst.
    destruct (step_ok s i Hi Hs) as (Hs' & _ & Hh).
    constructor; [apply IH; assumption|].
    destruct (trajectory_head inputs (step s i)) as [rest ->].
    cbn [List.map]. constructor. exact Hh.
Qed.

(** No phase is skipped: every phase between the first and the last one
    is the phase of some state of the run. *)
Lemma trajectory_phase_steps inputs : forall s p,
  Forall ok inputs -> Inv s ->
  (phase s <= p <= phase (List.last (trajectory step s inputs) s))%Z ->
  In p (List.map phase (trajectory step s inputs)).
Proof.
  induction inputs as [|i inputs IH]; intros s p Hok Hs Hp.
  - cbn in *. left. lia.
  - inversion Hok as [|? ? Hi Hrest]; subst.
    destruct (step_ok s i Hi Hs) as (Hs' & Hph & _).
    cbn [trajectory List.map]. destruct (Z.eq_dec p (phase s)) as [->|Hne].
    + left. reflexivity.
    + right. apply IH; [exact Hrest | exact Hs'|].
      rewrite trajectory_last in Hp.
      rewrite (trajectory_last_default inputs (step s i) s (step s i)) in Hp. lia.
Qed.

End Trajectories.

(** ** The boss encounter *)

Section SceneFacts.

Import BossScene.

(** A setter of a field outside the view, or a function that unfolds to
    such setters, does not change the view. *)
Ltac push_view V :=
  repeat match goal with
         | |- context [V (?f ?v ?x)] => progress change (V (f v x)) with (V x)
         | |- context [V (?f ?x)] => progress change (V (f x)) with (V x)
         end.

Ltac view V := repeat first [ reflexivity | progress push_view V ].

Lemma vitals_core s : vitals s = fst (core s).
Proof. reflexivity. Qed.

Lemma invincibleTimer_core s : invincibleTimer s = snd (core s).
Proof. reflexivity. Qed.

(** *** What leaves health, phase and invincibility alone *)

Lemma core_startSlash s : core (startSlash s) = core s.
Proof. reflexivity. Qed.

Lemma core_startCharge s : core (startCharge s) = core s.
Proof. reflexivity. Qed.

Lemma core_delayedCalls (f : nat -> Q) cb (l : list nat) : forall s,
  core (fold_left (fun s i => delayedCall (f i) cb s) l s) = core s.
Proof. induction l as [|i l IH]; intros s; [reflexivity|]. cbn [fold_left]. rewrite IH. reflexivity. Qed.

Lemma core_startSummon s : core (startSummon s) = core s.
Proof.
  unfold startSummon. push_view core.
  rewrite (core_delayedCalls (fun i => 300 + inject_Z (Z.of_nat i) * 200)). reflexivity.
Qed.

Lemma core_startSlam s : core (startSlam s) = core s.
Proof. reflexivity. Qed.

Lemma core_chooseNextAction roll s : core (chooseNextAction roll s) = core s.
Proof.
  unfold chooseNextAction. split_ifs;
    auto using core_startSlash, core_startCharge, core_startSummon, core_startSlam.
Qed.

Lemma core_updateIdle roll s : core (updateIdle roll s) = core s.
Proof.
  unfold updateIdle.
  destruct (_ && _); [rewrite core_chooseNextAction|]; reflexivity.
Qed.

Lemma core_updateWalking s : core (updateWalking s) = core s.
Proof. unfold updateWalking. split_ifs; reflexivity. Qed.

Lemma core_updateCharge s : core (updateCharge s) = core s.
Proof. unfold updateCharge. split_ifs; reflexivity. Qed.

Lemma core_checkBossPlayerCollision s : core (checkBossPlayerCollision s) = core s.
Proof. unfold checkBossPlayerCollision. split_ifs; reflexivity. Qed.

Lemma core_runState roll s : core (runState roll s) = core s.
Proof.
  unfold runState. destruct (bossState s); try reflexivity.
  - apply core_updateIdle.
  - apply core_updateWalking.
  - unfold updateSlash. split_ifs; reflexivity.
  - apply core_updateCharge.
  - unfold updateSummon. split_ifs; reflexivity.
  - unfold updateSlam. split_ifs; reflexivity.
  - unfold updateStunned. split_ifs; reflexivity.
Qed.

Lemma core_moveBoss delta s : core (moveBoss delta s) = core s.
Proof. reflexivity. Qed.

Lemma core_updateBoss delta roll s : core (updateBoss delta roll s) = core s.
Proof.
  unfold updateBoss.
  destruct (_ || _); [reflexivity|].
  destruct (BossState_eqb (bossState s) DEAD); [reflexivity|].
  rewrite core_checkBossPlayerCollision, core_moveBoss, core_runState. reflexivity.
Qed.

Lemma core_runCallback cb s : core (runCallback cb s) = core s.
Proof.
  destruct cb; cbn [runCallback]; try reflexivity; split_ifs; reflexivity.
Qed.

Lemma core_runCallbacks (due : list (Q * Callback)) : forall s,
  core (fold_left (fun s '(_, cb) => runCallback cb s) due s) = core s.
Proof.
  induction due as [|[ms cb] due IH]; intros s; [reflexivity|].
  cbn [fold_left]. rewrite IH. apply core_runCallback.
Qed.

Lemma core_tickClock delta s : core (tickClock delta s) = core s.
Proof. unfold tickClock. rewrite core_runCallbacks. reflexivity. Qed.

Lemma core_onTriggerOverlap s : core (onTriggerOverlap s) = core s.
Proof. unfold onTriggerOverlap. split_ifs; reflexivity. Qed.

Lemma core_updateVoidOrbs sqrt delta s : core (updateVoidOrbs sqrt delta s) = core s.
Proof.
  unfold updateVoidOrbs. destruct (updateOrbList _ _ _ _) as [orbs p]. reflexivity.
Qed.

Lemma core_updateScreenShake s : core (updateScreenShake s) = core s.
Proof. unfold updateScreenShake. split_ifs; reflexivity. Qed.

Lemma core_updateTimers delta s :
  core (updateTimers delta s) =
    (vitals s,
     if Qltb 0 (invincibleTimer s) then invincibleTimer s - delta else invincibleTimer s).
Proof.
  unfold updateTimers.
  destruct (Qltb 0 (attackCooldown s));
    cbn [invincibleTimer set_attackCooldown];
    destruct (Qltb 0 (invincibleTimer s)); reflexivity.
Qed.

(** *** An accepted hit *)

Lemma vitals_bossTakeDamage s : vitals (bossTakeDamage 1 s) = hitVitals (vitals s).
Proof.
  unfold bossTakeDamage, hitVitals, vitals. cbn.
  destruct (Qleb ((bossHealth s - 1) / bossMaxHealth s) (33 # 100) && (bossPhase s <? 3)%Z).
  - cbn. destruct (Qleb _ 0); reflexivity.
  - destruct (Qleb ((bossHealth s - 1) / bossMaxHealth s) (66 # 100) && (bossPhase s <? 2)%Z);
      cbn; destruct (Qleb _ 0); reflexivity.
Qed.

Lemma invincibleTimer_bossTakeDamage amount s :
  invincibleTimer (bossTakeDamage amount s) = 300.
Proof. unfold bossTakeDamage. cbn. split_ifs; reflexivity. Qed.

(** The listener either turns the attack away, leaving the scene as it
    is, or lets one point of damage through. *)
Lemma onPlayerAttack_cases hitbox s :
  onPlayerAttack hitbox s = s \/
  (invincibleTimer s <= 0 /\ bossState s <> DORMANT /\ bossState s <> AWAKENING /\
   bossState s <> DEAD /\ onPlayerAttack hitbox s = bossTakeDamage 1 s).
Proof.
  unfold onPlayerAttack.
  destruct (Qltb 0 (invincibleTimer s)) eqn:Ei.
  - left. rewrite !orb_true_r. reflexivity.
  - apply Qltb_ge in Ei.
    destruct (bossState s) eqn:Es; cbn; try (left; reflexivity);
      (destruct (Geom.Overlaps hitbox (bossHitbox s)); [right|left; reflexivity]);
      repeat split; try assumption; rewrite ?Es; discriminate.
Qed.

Lemma onPlayerAttack_rejected hitbox s :
  0 < invincibleTimer s \/ bossState s = DORMANT \/ bossState s = AWAKENING \/
  bossState s = DEAD ->
  onPlayerAttack hitbox s = s.
Proof.
  intros H. unfold onPlayerAttack.
  destruct H as [H | [H | [H | H]]].
  - apply Qltb_lt in H. rewrite H, !orb_true_r. reflexivity.
  - rewrite H. reflexivity.
  - rewrite H. reflexivity.
  - rewrite H. reflexivity.
Qed.

Lemma playerUpdate_cases fr s :
  core (playerUpdate fr s) = core s \/
  (invincibleTimer s <= 0 /\
   core (playerUpdate fr s) = (hitVitals (vitals s), 300)).
Proof.
  unfold playerUpdate. destruct (Player.handleAttack _ _) as [p [hitbox|]].
  - destruct (onPlayerAttack_cases hitbox (set_player p s)) as [-> | (Hi & _ & _ & _ & ->)].
    + left. reflexivity.
    + right. split; [exact Hi|]. unfold core.
      rewrite vitals_bossTakeDamage, invincibleTimer_bossTakeDamage. reflexivity.
  - left. reflexivity.
Qed.

Lemma playerUpdate_window fr s :
  0 < invincibleTimer s -> core (playerUpdate fr s) = core s.
Proof.
  intros H. unfold playerUpdate. destruct (Player.handleAttack _ _) as [p [hitbox|]].
  - rewrite onPlayerAttack_rejected; [reflexivity | left; exact H].
  - reflexivity.
Qed.

(** *** One frame *)

Lemma core_update sqrt fr s :
  core (update sqrt fr s) =
    (fst (core (playerUpdate fr s)),
     if Qltb 0 (snd (core (playerUpdate fr s)))
     then snd (core (playerUpdate fr s)) - delta fr
     else snd (core (playerUpdate fr s))).
Proof.
  unfold update. rewrite core_updateVoidOrbs, core_updateScreenShake, core_updateTimers.
  assert (H : core (updateBoss (delta fr) (roll fr)
                      (set_player (Player.checkDeathPit (720 + 50)
                                     (player (playerUpdate fr s)))
                                  (playerUpdate fr s))) = core (playerUpdate fr s)).
  { rewrite core_updateBoss. reflexivity. }
  rewrite (vitals_core (updateBoss _ _ _)), (invincibleTimer_core (updateBoss _ _ _)), H.
  reflexivity.
Qed.

Lemma core_before_update fr s :
  core (if inTrigger fr
        then onTriggerOverlap
               (set_player (Player.moveTo (playerX fr) (playerY fr) (playerBody fr)
                              (playerFacing fr) (player (tickClock (delta fr) s)))
                           (tickClock (delta fr) s))
        else set_player (Player.moveTo (playerX fr) (playerY fr) (playerBody fr)
                           (playerFacing fr) (player (tickClock (delta fr) s)))
                        (tickClock (delta fr) s)) = core s.
Proof.
  destruct (inTrigger fr); rewrite ?core_onTriggerOverlap;
    push_view core; apply core_tickClock.
Qed.

(** A frame leaves the vitals alone or lets exactly one hit through. *)
Lemma vitals_frame sqrt s fr :
  vitals (frame sqrt s fr) = vitals s \/
  vitals (frame sqrt s fr) = hitVitals (vitals s).
Proof.
  unfold frame. rewrite (vitals_core (update _ _ _)), core_update.
  cbn [fst].
  pose proof (core_before_update fr s) as Hpre.
  match goal with
  | |- context [playerUpdate fr ?x] =>
      remember x as pre eqn:Epre;
      destruct (playerUpdate_cases fr pre) as [-> | [_ ->]]
  end.
  - left. rewrite Hpre. reflexivity.
  - right. cbn [fst]. rewrite (vitals_core pre), Hpre. reflexivity.
Qed.

(** Inside the invincibility window a frame changes nothing about the
    boss's health and phase, whatever the player does, and the window
    shrinks by the frame time. *)
Lemma core_frame_window sqrt s fr :
  0 < invincibleTimer s ->
  core (frame sqrt s fr) = (vitals s, invincibleTimer s - delta fr).
Proof.
  intros Hw. unfold frame. rewrite core_update.
  pose proof (core_before_update fr s) as Hpre.
  match goal with
  | |- context [playerUpdate fr ?x] => remember x as pre eqn:Epre
  end.
  assert (Hx : 0 < invincibleTimer pre)
    by (rewrite (invincibleTimer_core pre), Hpre; exact Hw).
  rewrite (playerUpdate_window fr pre Hx), Hpre.
  cbn [fst snd core]. apply Qltb_lt in Hw. rewrite Hw. reflexivity.
Qed.

(** *** Phases *)

Ltac q_linear := unfold Qdiv in *; change (/ 20) with (1 # 20) in *; lra.

Lemma hitVitals_invariant h ph banners :
  phaseMatchesHealth (h, 20, ph, banners) ->
  phaseMatchesHealth (hitVitals (h, 20, ph, banners)) /\
  (snd (fst (hitVitals (h, 20, ph, banners))) = ph \/
   snd (fst (hitVitals (h, 20, ph, banners))) = (ph + 1)%Z) /\
  fst (fst (fst (hitVitals (h, 20, ph, banners)))) = h - 1.
Proof.
  unfold phaseMatchesHealth, hitVitals.
  intros [(-> & H66 & ->) | [(-> & H66 & H33 & ->) | (-> & H33 & ->)]].
  - destruct (Qleb ((h - 1) / 20) (33 # 100)) eqn:E33;
      [apply Qleb_le in E33; exfalso; q_linear|].
    apply Qleb_gt in E33. cbn [andb].
    destruct (Qleb ((h - 1) / 20) (66 # 100)) eqn:E66.
    + apply Qleb_le in E66. cbn. repeat split; [|right; reflexivity].
      right. left. repeat split; [exact E66 | q_linear].
    + apply Qleb_gt in E66. cbn. repeat split; [|left; reflexivity].
      left. repeat split. q_linear.
  - destruct (Qleb ((h - 1) / 20) (33 # 100)) eqn:E33.
    + apply Qleb_le in E33. cbn. repeat split; [|right; reflexivity].
      right. right. repeat split. exact E33.
    + apply Qleb_gt in E33. rewrite andb_false_r. cbn.
      repeat split; [|left; reflexivity].
      right. left. repeat split; q_linear.
  - rewrite !andb_false_r. cbn. repeat split; [|left; reflexivity].
    right. right. repeat split. q_linear.
Qed.

Lemma phaseInvariant_create : phaseInvariant create.
Proof.
  split; [reflexivity|]. left. repeat split. cbn. unfold Qle. cbn. lia.
Qed.

Lemma phaseInvariant_next s s' :
  phaseInvariant s ->
  vitals s' = vitals s \/ vitals s' = hitVitals (vitals s) ->
  phaseInvariant s' /\
  (bossPhase s' = bossPhase s \/ bossPhase s' = (bossPhase s + 1)%Z) /\
  bossHealth s' <= bossHealth s.
Proof.
  intros [Hm Hv] Hcases.
  unfold phaseInvariant.
  assert (Hshape : vitals s = (bossHealth s, 20, bossPhase s, phaseTextLog s))
    by (unfold vitals; rewrite Hm; reflexivity).
  rewrite Hshape in Hv.
  destruct (hitVitals_invariant _ _ _ Hv) as (Hv' & Hph & Hh).
  rewrite Hshape in Hcases.
  assert (Em : bossMaxHealth s' = snd (fst (fst (vitals s')))) by reflexivity.
  assert (Ep : bossPhase s' = snd (fst (vitals s'))) by reflexivity.
  assert (Eh : bossHealth s' = fst (fst (fst (vitals s')))) by reflexivity.
  rewrite Em, Ep, Eh.
  destruct Hcases as [E | E]; rewrite E.
  - cbn [fst snd]. repeat split; [exact Hv|left; reflexivity|apply Qle_refl].
  - repeat split.
    + unfold hitVitals. split_ifs; reflexivity.
    + exact Hv'.
    + exact Hph.
    + rewrite Hh. lra.
Qed.

Lemma phaseInvariant_frame sqrt s fr :
  phaseInvariant s ->
  phaseInvariant (frame sqrt s fr) /\
  (bossPhase (frame sqrt s fr) = bossPhase s \/
   bossPhase (frame sqrt s fr) = (bossPhase s + 1)%Z) /\
  bossHealth (frame sqrt s fr) <= bossHealth s.
Proof.
  intros H. apply (phaseInvariant_next s (frame sqrt s fr) H). apply vitals_frame.
Qed.

(** *** The state machine of one update *)

Lemma bossState_checkBossPlayerCollision s :
  bossState (checkBossPlayerCollision s) = bossState s.
Proof. unfold checkBossPlayerCollision. split_ifs; reflexivity. Qed.

(** After the state machine has run, the rest of [updateBoss] (velocity,
    bounds, hitbox, contact) leaves state, velocity and state timer as
    they are, and touches the player only through the contact check. *)
Lemma updateBoss_active delta roll s :
  bossState s <> DORMANT -> bossState s <> AWAKENING -> bossState s <> DEAD ->
  let facing := (if Qltb (Player.x (player s)) (bossX s) then -1 else 1)%Z in
  let m := runState roll (set_bossFacing facing (set_stateTimer (stateTimer s - delta) s)) in
  updateBoss delta roll s = checkBossPlayerCollision (moveBoss delta m) /\
  bossState (updateBoss delta roll s) = bossState m /\
  bossVelocityX (updateBoss delta roll s) = bossVelocityX m /\
  stateTimer (updateBoss delta roll s) = stateTimer m.
Proof.
  intros H1 H2 H3. cbv zeta.
  assert (E : updateBoss delta roll s =
              checkBossPlayerCollision
                (moveBoss delta
                   (runState roll
                      (set_bossFacing
                         (if Qltb (Player.x (player s)) (bossX s) then -1 else 1)%Z
                         (set_stateTimer (stateTimer s - delta) s))))).
  { unfold updateBoss. destruct (bossState s); try reflexivity; congruence. }
  rewrite E. split; [reflexivity|].
  generalize (runState roll
                (set_bossFacing
                   (if Qltb (Player.x (player s)) (bossX s) then -1 else 1)%Z
                   (set_stateTimer (stateTimer s - delta) s))) as m.
  intros m. unfold checkBossPlayerCollision, moveBoss. split_ifs; repeat split.
Qed.

Lemma bossState_delayedCalls (f : nat -> Q) cb (l : list nat) : forall s,
  bossState (fold_left (fun s i => delayedCall (f i) cb s) l s) = bossState s.
Proof.
  induction l as [|i l IH]; intros s; [reflexivity|].
  cbn [fold_left]. rewrite IH. reflexivity.
Qed.

Lemma bossState_startSummon s : bossState (startSummon s) = SUMMON.
Proof.
  unfold startSummon. cbn [bossState set_attackCooldown].
  rewrite (bossState_delayedCalls (fun i => 300 + inject_Z (Z.of_nat i) * 200)).
  reflexivity.
Qed.

Lemma chooseNextAction_state roll s :
  bossState (chooseNextAction roll s) =
    idlePolicy (Math_abs (Player.x (player s) - bossX s)) (bossPhase s) roll.
Proof.
  unfold chooseNextAction, idlePolicy.
  split_ifs; try reflexivity. apply bossState_startSummon.
Qed.

Lemma idlePolicy_not_idle distance phase roll : idlePolicy distance phase roll <> IDLE.
Proof. unfold idlePolicy. split_ifs; discriminate. Qed.

(** C5: in an update that finds the boss Idle, the boss stays Idle unless
    both the state timer (after this frame's decrement) and the attack
    cooldown have run out; when both have, it leaves Idle for the action
    the priority list picks from the distance to the player, the phase
    and the one random draw: Slash when closer than 120; else Charge when
    farther than 400, phase at least 2 and the draw above 0.5; else
    Summon when phase at least 2 and the draw above 0.7; else Slam when
    phase at least 3 and the draw above 0.6; else Walking. *)
Theorem C5_idle_decision (delta roll : Q) (s : t) (Hidle : bossState s = IDLE) :
  let s' := updateBoss delta roll s in
  let distance := Math_abs (Player.x (player s) - bossX s) in
  (stateTimer s - delta <= 0 /\ attackCooldown s <= 0 ->
     bossState s' = idlePolicy distance (bossPhase s) roll) /\
  (~ (stateTimer s - delta <= 0 /\ attackCooldown s <= 0) -> bossState s' = IDLE) /\
  (bossState s' <> IDLE -> stateTimer s - delta <= 0 /\ attackCooldown s <= 0) /\
  idlePolicy distance (bossPhase s) roll <> IDLE.
Proof.
  cbv zeta.
  destruct (updateBoss_active delta roll s) as (_ & Hst & _ & _);
    try (rewrite Hidle; discriminate).
  rewrite Hst. clear Hst.
  unfold runState. cbn [bossState set_bossFacing set_stateTimer]. rewrite Hidle.
  unfold updateIdle. cbn [stateTimer attackCooldown set_bossVelocityX set_bossVelocityY
                            set_bossFacing set_stateTimer].
  destruct (Qleb (stateTimer s - delta) 0) eqn:Et;
    destruct (Qleb (attackCooldown s) 0) eqn:Ec; cbn [andb];
    try apply Qleb_le in Et; try apply Qleb_gt in Et;
    try apply Qleb_le in Ec; try apply Qleb_gt in Ec.
  - rewrite chooseNextAction_state.
    cbn [player bossX bossPhase set_bossVelocityX set_bossVelocityY set_bossFacing
           set_stateTimer].
    split; [intros _; reflexivity|].
    split; [intros Hn; exfalso; apply Hn; split; assumption|].
    split; [intros _; split; assumption | apply idlePolicy_not_idle].
  - cbn [bossState set_bossVelocityX set_bossVelocityY set_bossFacing set_stateTimer].
    rewrite Hidle.
    split; [intros [H1 H2]; lra|].
    split; [reflexivity|].
    split; [intros Hn; congruence | apply idlePolicy_not_idle].
  - cbn [bossState set_bossVelocityX set_bossVelocityY set_bossFacing set_stateTimer].
    rewrite Hidle.
    split; [intros [H1 H2]; lra|].
    split; [reflexivity|].
    split; [intros Hn; congruence | apply idlePolicy_not_idle].
  - cbn [bossState set_bossVelocityX set_bossVelocityY set_bossFacing set_stateTimer].
    rewrite Hidle.
    split; [intros [H1 H2]; lra|].
    split; [reflexivity|].
    split; [intros Hn; congruence | apply idlePolicy_not_idle].
Qed.

(** C6: in an update that finds the boss charging at or beyond a wall
    mark (x at most 100 or at least 1300, which includes the bounds 80
    and 1320 the boss is clamped to), not in contact with the player, and
    with state timer left after this frame's decrement, the boss becomes
    Stunned, with its velocity zeroed and a 1000 ms stun; it does not
    become Idle. *)
Theorem C6_charge_wall_stuns (delta roll : Q) (s : t)
  (Hcharge : bossState s = CHARGE)
  (Hwall : bossX s <= 100 \/ 1300 <= bossX s)
  (Hmiss : Geom.Overlaps (bossHitbox s) (playerRect s) = false)
  (Htimer : 0 < stateTimer s - delta) :
  bossState (updateBoss delta roll s) = STUNNED /\
  bossState (updateBoss delta roll s) <> IDLE /\
  bossVelocityX (updateBoss delta roll s) = 0 /\
  stateTimer (updateBoss delta roll s) = 1000.
Proof.
  destruct (updateBoss_active delta roll s) as (_ & Hst & Hvx & Htm);
    try (rewrite Hcharge; discriminate).
  rewrite Hst, Hvx, Htm. clear Hst Hvx Htm.
  unfold runState. cbn [bossState set_bossFacing set_stateTimer]. rewrite Hcharge.
  unfold updateCharge.
  change (Geom.Overlaps (bossHitbox s) (playerRect s) = false) in Hmiss.
  match goal with
  | |- context [Geom.Overlaps ?a ?b] =>
      change (Geom.Overlaps a b) with (Geom.Overlaps (bossHitbox s) (playerRect s))
  end.
  rewrite Hmiss. cbn [bossX set_bossFacing set_stateTimer].
  assert (Hw : Qleb (bossX s) 100 || Qleb 1300 (bossX s) = true).
  { destruct Hwall as [H | H]; apply Qleb_le in H; rewrite H;
      [reflexivity | apply orb_true_r]. }
  rewrite Hw. cbn.
  repeat split; try discriminate.
Qed.

(** C10: the contact check deals no damage while the boss is Stunned,
    Dormant or Dead, and in every other state deals 1 damage on overlap;
    so whenever it touched the player the boss was in one of the other
    states and overlapping.  Over a whole update: a Dormant or Dead boss
    is not updated at all, and a boss that is Stunned and stays so (state
    timer left after this frame's decrement) leaves the player alone. *)
Theorem C10_no_contact_damage_when_stunned (s : t) (delta roll : Q) :
  (bossState s = STUNNED \/ bossState s = DORMANT \/ bossState s = DEAD ->
     checkBossPlayerCollision s = s) /\
  (player (checkBossPlayerCollision s) <> player s ->
     bossState s <> STUNNED /\ bossState s <> DORMANT /\ bossState s <> DEAD /\
     Geom.Overlaps (bossHitbox s) (playerRect s) = true) /\
  (bossState s <> STUNNED -> bossState s <> DORMANT -> bossState s <> DEAD ->
     Geom.Overlaps (bossHitbox s) (playerRect s) = true ->
     checkBossPlayerCollision s = playerTakeDamage 1 (bossX s) s) /\
  (bossState s = DORMANT \/ bossState s = DEAD -> updateBoss delta roll s = s) /\
  (bossState s = STUNNED -> 0 < stateTimer s - delta ->
     player (updateBoss delta roll s) = player s /\
     bossState (updateBoss delta roll s) = STUNNED).
Proof.
  split; [|split; [|split; [|split]]].
  - intros [H | [H | H]]; unfold checkBossPlayerCollision; rewrite H; cbn;
      [destruct (Geom.Overlaps _ _)|..]; reflexivity.
  - unfold checkBossPlayerCollision.
    destruct (bossState s) eqn:Es; cbn; try (intros H; congruence);
      destruct (Geom.Overlaps (bossHitbox s) (playerRect s)) eqn:Eo;
      try (intros H; congruence);
      intros _; repeat split; discriminate.
  - intros H1 H2 H3 Ho. unfold checkBossPlayerCollision. rewrite Ho.
    destruct (bossState s); try congruence; reflexivity.
  - intros [H | H]; unfold updateBoss; rewrite H; reflexivity.
  - intros Hs Ht.
    destruct (updateBoss_active delta roll s) as (E & Hst & _ & _);
      try (rewrite Hs; discriminate).
    rewrite Hst, E. clear E Hst.
    unfold runState. cbn [bossState set_bossFacing set_stateTimer]. rewrite Hs.
    unfold updateStunned. cbn [stateTimer set_bossFacing set_stateTimer].
    apply Qleb_gt in Ht. rewrite Ht.
    unfold checkBossPlayerCollision, moveBoss.
    cbn [bossState set_bossHitbox set_bossX set_bossY set_bossFacing set_stateTimer].
    rewrite Hs. cbn. split_ifs; split; reflexivity.
Qed.

(** *** Damage while dying *)

(** The listener turns attacks away in Dormant, Awakening and Dead, and
    while the invincibility countdown runs; Dying is not among them. *)
Lemma onPlayerAttack_dying hitbox s :
  bossState s = DYING -> invincibleTimer s <= 0 ->
  Geom.Overlaps hitbox (bossHitbox s) = true ->
  onPlayerAttack hitbox s = bossTakeDamage 1 s /\
  bossHealth (onPlayerAttack hitbox s) = bossHealth s - 1 /\
  (bossHealth s - 1 <= 0 ->
   effects (onPlayerAttack hitbox s) = effects s ++ [DeathSequence] /\
   clock (onPlayerAttack hitbox s) = clock s ++ [(2500, BossDead)]).
Proof.
  intros Hs Hi Ho. unfold onPlayerAttack. rewrite Hs, Ho. cbn.
  apply Qltb_ge in Hi. rewrite Hi. split; [reflexivity|].
  unfold bossTakeDamage. cbn. split.
  - split_ifs; reflexivity.
  - intros Hz. apply Qleb_le in Hz.
    destruct (_ && _); cbn; [rewrite Hz; split; reflexivity|].
    destruct (_ && _); cbn; rewrite Hz; split; reflexivity.
Qed.

(** *** The invincibility window over frames *)

Lemma run_cons sqrt s fr frames :
  run sqrt s (fr :: frames) = run sqrt (frame sqrt s fr) frames.
Proof. reflexivity. Qed.

Lemma core_split s' (v : Vitals) (i : Q) :
  core s' = (v, i) -> vitals s' = v /\ invincibleTimer s' = i.
Proof. unfold core. intros H. injection H as -> ->. split; reflexivity. Qed.

Lemma run_window sqrt frames : forall s,
  0 < invincibleTimer s ->
  Forall (fun fr => 0 <= delta fr) frames ->
  Fight.totalTime frames < invincibleTimer s ->
  vitals (run sqrt s frames) = vitals s.
Proof.
  induction frames as [|fr frames IH]; intros s Hw Hpos Hsum; [reflexivity|].
  inversion Hpos as [|? ? Hd Hds]; subst.
  assert (Hsum' : delta fr + Fight.totalTime frames < invincibleTimer s) by exact Hsum.
  assert (Htot : 0 <= Fight.totalTime frames).
  { apply total_nonneg. clear -Hds. induction Hds; constructor; assumption. }
  destruct (core_split _ _ _ (core_frame_window sqrt s fr Hw)) as [Hv Hi].
  rewrite run_cons, IH.
  - exact Hv.
  - rewrite Hi. lra.
  - exact Hds.
  - rewrite Hi. lra.
Qed.

End SceneFacts.

(** ** The boss entity class: phases *)

Lemma Boss_runCallbacks_phase (due : list (Q * Boss.Callback)) : forall b,
  let b' := fold_left (fun b '(_, cb) => Boss.runCallback cb b) due b in
  Boss.health b' = Boss.health b /\ Boss.maxHealth b' = Boss.maxHealth b /\
  Boss.phase b' = Boss.phase b /\ Boss.roars b' = Boss.roars b /\
  Boss.isAlive b' = Boss.isAlive b.
Proof.
  induction due as [|[ms cb] due IH]; intros b; [repeat split|].
  cbn [fold_left]. destruct (IH (Boss.runCallback cb b)) as (H1 & H2 & H3 & H4 & H5).
  cbv zeta. rewrite H1, H2, H3, H4, H5. destruct cb; repeat split.
Qed.

Lemma Boss_update_phase delta b :
  let b' := Boss.step b (Boss.Update delta) in
  Boss.health b' = Boss.health b /\ Boss.maxHealth b' = Boss.maxHealth b /\
  Boss.phase b' = Boss.phase b /\ Boss.roars b' = Boss.roars b.
Proof.
  cbn [Boss.step]. unfold Boss.tickClock.
  match goal with
  | |- context [fold_left ?f ?due ?b0] =>
      destruct (Boss_runCallbacks_phase due b0) as (H1 & H2 & H3 & H4 & _);
      remember (fold_left f due b0) as b1 eqn:E; clear E
  end.
  cbn in H1, H2, H3, H4. cbv zeta.
  assert (Hu : Boss.health (Boss.updateHurt delta b1) = Boss.health b1 /\
               Boss.maxHealth (Boss.updateHurt delta b1) = Boss.maxHealth b1 /\
               Boss.phase (Boss.updateHurt delta b1) = Boss.phase b1 /\
               Boss.roars (Boss.updateHurt delta b1) = Boss.roars b1).
  { unfold Boss.updateHurt. split_ifs; repeat split. }
  destruct Hu as (U1 & U2 & U3 & U4).
  destruct (Boss.isAlive b1); rewrite ?U1, ?U2, ?U3, ?U4; repeat split; assumption.
Qed.

Lemma Boss_phaseInvariant_create x0 : Boss.phaseInvariant (Boss.create x0).
Proof.
  split; [reflexivity|]. left. repeat split. cbn. unfold Qle. cbn. lia.
Qed.

Lemma Boss_vitals_takeDamage amount sourceX b :
  Boss.vitals (Boss.takeDamage amount sourceX b) = Boss.vitals b \/
  Boss.vitals (Boss.takeDamage amount sourceX b) = Boss.hitVitals amount (Boss.vitals b).
Proof.
  unfold Boss.takeDamage.
  destruct (Boss.isHurt b || negb (Boss.isAlive b)); [left; reflexivity|right].
  unfold Boss.hitVitals, Boss.vitals, Boss.checkPhaseTransition. cbn.
  destruct (Qleb ((Boss.health b - amount) / Boss.maxHealth b) (66 # 100) &&
            Boss.BossPhase_eqb (Boss.phase b) Boss.PHASE_1).
  - cbn. destruct (Qleb _ 0); reflexivity.
  - destruct (Qleb ((Boss.health b - amount) / Boss.maxHealth b) (33 # 100) &&
              Boss.BossPhase_eqb (Boss.phase b) Boss.PHASE_2);
      cbn; destruct (Qleb _ 0); reflexivity.
Qed.

(** What a step does to the vitals: nothing, or, for a hit, what
    [hitVitals] says. *)
Lemma Boss_vitals_step b st :
  Boss.vitals (Boss.step b st) = Boss.vitals b \/
  exists amount sourceX,
    st = Boss.Hit amount sourceX /\
    Boss.vitals (Boss.step b st) = Boss.hitVitals amount (Boss.vitals b).
Proof.
  destruct st as [amount sourceX | delta].
  - destruct (Boss_vitals_takeDamage amount sourceX b) as [H | H]; [left; exact H|].
    right. exists amount, sourceX. split; [reflexivity | exact H].
  - left. destruct (Boss_update_phase delta b) as (H1 & H2 & H3 & H4).
    cbv zeta in H1, H2, H3, H4. unfold Boss.vitals. rewrite H1, H2, H3, H4. reflexivity.
Qed.

(** Under hits of any amount the phase stays or advances by one, and the
    roars stay in step with it. *)
Lemma Boss_roarsInOrder_step b st :
  True -> Boss.roarsInOrder b ->
  Boss.roarsInOrder (Boss.step b st) /\
  (Boss.phaseNumber (Boss.phase (Boss.step b st)) = Boss.phaseNumber (Boss.phase b) \/
   Boss.phaseNumber (Boss.phase (Boss.step b st)) = (Boss.phaseNumber (Boss.phase b) + 1)%Z) /\
  (0 : Q) <= 0.
Proof.
  intros _ Hr. split; [|split; [|apply Qle_refl]].
  - destruct (Boss_vitals_step b st) as [E | (amount & sourceX & _ & E)];
      unfold Boss.roarsInOrder, Boss.vitals, Boss.hitVitals in *.
    + injection E as _ _ -> ->. exact Hr.
    + rewrite Hr in E. destruct (Boss.phase b);
        cbn [Boss.BossPhase_eqb Boss.phaseNumber Z.eqb Pos.eqb andb] in E;
        rewrite ?andb_true_r, ?andb_false_r in E;
        repeat match type of E with
               | context [if ?c then _ else _] => destruct c
               end;
        injection E as _ _ -> ->; reflexivity.
  - destruct (Boss_vitals_step b st) as [E | (amount & sourceX & _ & E)];
      unfold Boss.vitals, Boss.hitVitals in *.
    + injection E as _ _ -> _. left. reflexivity.
    + destruct (Boss.phase b);
        cbn [Boss.BossPhase_eqb Boss.phaseNumber Z.eqb Pos.eqb andb] in E;
        rewrite ?andb_true_r, ?andb_false_r in E;
        repeat match type of E with
               | context [if ?c then _ else _] => destruct c
               end;
        injection E as _ _ -> _; cbn; auto.
Qed.

(** A hit that does not heal leaves the health where it was or lower. *)
Lemma Boss_health_step b st :
  match st with Boss.Hit amount _ => 0 <= amount | Boss.Update _ => True end ->
  True ->
  True /\ ((0 = 0)%Z \/ (0 = 0 + 1)%Z) /\ Boss.health (Boss.step b st) <= Boss.health b.
Proof.
  intros Hok _. split; [exact I|]. split; [left; reflexivity|].
  destruct (Boss_vitals_step b st) as [E | (amount & sourceX & Est & E)];
    unfold Boss.vitals, Boss.hitVitals in *.
  - injection E as -> _ _ _. apply Qle_refl.
  - rewrite Est in Hok.
    repeat match type of E with
           | context [if ?c then _ else _] => destruct c
           end;
      injection E as -> _ _ _; lra.
Qed.

Lemma Boss_phaseInvariant_next b b' :
  Boss.phaseInvariant b ->
  Boss.vitals b' = Boss.vitals b \/ Boss.vitals b' = Boss.hitVitals 1 (Boss.vitals b) ->
  Boss.phaseInvariant b' /\
  (Boss.phaseNumber (Boss.phase b') = Boss.phaseNumber (Boss.phase b) \/
   Boss.phaseNumber (Boss.phase b') = (Boss.phaseNumber (Boss.phase b) + 1)%Z) /\
  Boss.health b' <= Boss.health b.
Proof.
  intros Hinv Hcases.
  destruct b as [x vx h m dmg ph cs fr al hu ht hd at_ ac atk sp rs pe].
  destruct b' as [x' vx' h' m' dmg' ph' cs' fr' al' hu' ht' hd' at_' ac' atk' sp' rs' pe'].
  unfold Boss.phaseInvariant, Boss.getHealthPercent, Boss.vitals, Boss.hitVitals in *.
  cbn [Boss.health Boss.maxHealth Boss.phase Boss.roars] in *.
  destruct Hinv as [-> Hinv].
  assert (Hq : forall a : Q, a / 15 = a * (1 # 15)) by reflexivity.
  rewrite !Hq in *.
  destruct Hcases as [E | E].
  - injection E as -> -> -> ->. repeat split; try assumption;
      [left; reflexivity | apply Qle_refl].
  - destruct Hinv as [(-> & H66 & ->) | [(-> & H66 & H33 & ->) | (-> & H33 & ->)]];
      cbn [Boss.BossPhase_eqb Boss.phaseNumber Z.eqb Pos.eqb andb] in E.
    + rewrite andb_true_r, andb_false_r in E.
      destruct (Qleb ((h - 1) * (1 # 15)) (66 # 100)) eqn:E66;
        injection E as -> -> -> ->; cbn [app Boss.phaseNumber].
      * apply Qleb_le in E66.
        repeat split; [|right; reflexivity|(rewrite ?Hq in *; lra)].
        right; left. repeat split; [(rewrite ?Hq; exact E66) | (rewrite ?Hq in *; lra)].
      * apply Qleb_gt in E66.
        repeat split; [|left; reflexivity|(rewrite ?Hq in *; lra)].
        left. repeat split. (rewrite ?Hq in *; lra).
    + rewrite andb_false_r, andb_true_r in E.
      destruct (Qleb ((h - 1) * (1 # 15)) (33 # 100)) eqn:E33;
        injection E as -> -> -> ->; cbn [app Boss.phaseNumber].
      * apply Qleb_le in E33.
        repeat split; [|right; reflexivity|(rewrite ?Hq in *; lra)].
        right; right. repeat split. (rewrite ?Hq; exact E33).
      * apply Qleb_gt in E33.
        repeat split; [|left; reflexivity|(rewrite ?Hq in *; lra)].
        right; left. repeat split; (rewrite ?Hq in *; lra).
    + rewrite !andb_false_r in E. injection E as -> -> -> ->.
      repeat split; [|left; reflexivity|(rewrite ?Hq in *; lra)].
      right; right. repeat split. (rewrite ?Hq in *; lra).
Qed.

Lemma Boss_phaseInvariant_step b st :
  match st with Boss.Hit amount _ => amount = 1 | Boss.Update _ => True end ->
  Boss.phaseInvariant b ->
  Boss.phaseInvariant (Boss.step b st) /\
  (Boss.phaseNumber (Boss.phase (Boss.step b st)) = Boss.phaseNumber (Boss.phase b) \/
   Boss.phaseNumber (Boss.phase (Boss.step b st)) = (Boss.phaseNumber (Boss.phase b) + 1)%Z) /\
  Boss.health (Boss.step b st) <= Boss.health b.
Proof.
  intros Hok H. apply (Boss_phaseInvariant_next b (Boss.step b st) H).
  destruct (Boss_vitals_step b st) as [E | (amount & sourceX & Est & E)];
    [left; exact E | right]. rewrite Est in Hok. rewrite <- Hok. exact E.
Qed.

Lemma Boss_roarsInOrder_create x0 : Boss.roarsInOrder (Boss.create x0).
Proof. reflexivity. Qed.

(** ** Phase monotonicity *)

(** C1, as stated, fails for the boss entity class under hits heavier than
    the nail's: [takeDamage] checks one threshold per hit, then death.  A
    hit of 15 on a new boss (health 15) drives the health to 0 through the
    phases 1 and 2 only, with the roar of phase 2 alone; and after a hit of
    11 the boss is at 4 of 15, below 33%, and in phase 2. *)
Lemma C1_heavy_hit_skips_phase :
  Boss.health (List.last (Boss.history (Boss.create 0) [Boss.Hit 15 0]) (Boss.create 0)) <= 0 /\
  List.map (fun b => Boss.phaseNumber (Boss.phase b))
           (Boss.history (Boss.create 0) [Boss.Hit 15 0]) = [1; 2]%Z /\
  Boss.roars (List.last (Boss.history (Boss.create 0) [Boss.Hit 15 0]) (Boss.create 0)) =
    [Boss.PHASE_2] /\
  Boss.getHealthPercent (Boss.takeDamage 11 0 (Boss.create 0)) <= 33 # 100 /\
  Boss.phase (Boss.takeDamage 11 0 (Boss.create 0)) = Boss.PHASE_2.
Proof. vm_compute. repeat split; discriminate. Qed.

(** C1, amended.  For the scene's boss, whose listener passes the nail's 1
    damage: over any run of the fight from its creation (frames in which
    the player may or may not land a hit), the phase is 1 while health is
    above 66% of the maximum, 2 from 66% down to above 33%, and 3 from 33%
    down; the phase banner of each transition has been shown exactly once
    from the moment its threshold is reached; the observed phases never
    decrease, health never increases, and a fight driven to 0 health has
    passed through exactly the phases 1, 2 and 3.  For the boss entity
    class, over any run of [takeDamage] calls of any amounts and updates:
    the phase never decreases, and the roars shown are those of the phases
    up to the current one, each once and in order; health
    never increases when no hit heals; and when every hit is the nail's 1
    damage, all of the above holds as for the scene's boss. *)
Theorem C1_phases_monotone (Math_sqrt : Q -> Q) (frames : list BossScene.Frame)
  (x0 : Q) (steps : list Boss.Step) :
  let fight := BossScene.history Math_sqrt BossScene.create frames in
  let duel := Boss.history (Boss.create x0) steps in
  (Forall BossScene.phaseInvariant fight /\
   Sorted Z.le (List.map BossScene.bossPhase fight) /\
   Sorted (fun a b => b <= a) (List.map BossScene.bossHealth fight) /\
   (BossScene.bossHealth (List.last fight BossScene.create) <= 0 ->
    BossScene.phaseTextLog (List.last fight BossScene.create) = [2; 3]%Z /\
    forall p, In p (List.map BossScene.bossPhase fight) <-> (p = 1 \/ p = 2 \/ p = 3)%Z)) /\
  (Forall Boss.roarsInOrder duel /\
   Sorted Z.le (List.map (fun b => Boss.phaseNumber (Boss.phase b)) duel) /\
   (Boss.hitsTakeOff steps ->
    Sorted (fun a b => b <= a) (List.map Boss.health duel))) /\
  (Boss.nailHits steps ->
   Forall Boss.phaseInvariant duel /\
   (Boss.health (List.last duel (Boss.create x0)) <= 0 ->
    Boss.roars (List.last duel (Boss.create x0)) = [Boss.PHASE_2; Boss.PHASE_3] /\
    forall p, In p (List.map (fun b => Boss.phaseNumber (Boss.phase b)) duel) <->
              (p = 1 \/ p = 2 \/ p = 3)%Z)).
Proof.
  cbv zeta. unfold BossScene.history, Boss.history. split; [|split].
  - pose proof (fun s i (_ : True) => phaseInvariant_frame Math_sqrt s i) as Hstep.
    pose proof (Forall_any frames) as Hany.
    pose proof (trajectory_invariant _ _ _ _ _ Hstep frames _ Hany phaseInvariant_create)
      as Hall.
    split; [exact Hall|].
    split; [apply (trajectory_phase_sorted _ _ _ _ _ Hstep); [exact Hany|];
            apply phaseInvariant_create|].
    split; [apply (trajectory_health_sorted _ _ _ _ _ Hstep); [exact Hany|];
            apply phaseInvariant_create|].
    intros Hdead.
    assert (Hlast : BossScene.phaseInvariant
                      (List.last (trajectory (BossScene.frame Math_sqrt) BossScene.create frames)
                         BossScene.create)).
    { rewrite List.Forall_forall in Hall. apply Hall.
      destruct (trajectory_head (BossScene.frame Math_sqrt) frames BossScene.create)
        as [rest Hr].
      rewrite Hr. apply last_In. }
    remember (List.last _ BossScene.create) as final eqn:Ef.
    destruct Hlast as [Hm Hv]. unfold BossScene.phaseMatchesHealth, BossScene.vitals in Hv.
    rewrite Hm in Hv.
    assert (Hphase3 : BossScene.bossPhase final = 3%Z /\
                      BossScene.phaseTextLog final = [2; 3]%Z).
    { destruct Hv as [(_ & H66 & _) | [(_ & _ & H33 & _) | (Hp & _ & Hl)]].
      - exfalso. unfold Qdiv in *. change (/ 20) with (1 # 20) in *. lra.
      - exfalso. unfold Qdiv in *. change (/ 20) with (1 # 20) in *. lra.
      - split; assumption. }
    destruct Hphase3 as [Hp3 Hl3]. split; [exact Hl3|].
    intros p. split.
    + intros Hin. apply in_map_iff in Hin. destruct Hin as (s & <- & Hs).
      rewrite List.Forall_forall in Hall. destruct (Hall s Hs) as [_ Hvs].
      unfold BossScene.phaseMatchesHealth, BossScene.vitals in Hvs.
      destruct Hvs as [(-> & _) | [(-> & _) | (-> & _)]]; auto.
    + intros Hp.
      apply (trajectory_phase_steps _ _ _ _ _ Hstep frames BossScene.create p Hany
               phaseInvariant_create).
      rewrite <- Ef, Hp3. cbn. lia.
  - pose proof (Forall_any steps) as Hany.
    split; [|split].
    + apply (trajectory_invariant Boss.step (fun _ => True) Boss.roarsInOrder
               (fun b => Boss.phaseNumber (Boss.phase b)) (fun _ => 0)
               Boss_roarsInOrder_step steps _ Hany (Boss_roarsInOrder_create x0)).
    + apply (trajectory_phase_sorted Boss.step (fun _ => True) Boss.roarsInOrder
               (fun b => Boss.phaseNumber (Boss.phase b)) (fun _ => 0)
               Boss_roarsInOrder_step steps _ Hany (Boss_roarsInOrder_create x0)).
    + intros Hpos.
      apply (trajectory_health_sorted Boss.step _ (fun _ => True) (fun _ => 0%Z)
               Boss.health (fun b st H1 H2 => Boss_health_step b st H1 H2) steps _ Hpos I).
  - intros Hnail.
    pose proof Boss_phaseInvariant_step as Hstep.
    pose proof (trajectory_invariant _ _ _ (fun b => Boss.phaseNumber (Boss.phase b))
                  Boss.health Hstep steps _ Hnail (Boss_phaseInvariant_create x0)) as Hall.
    split; [exact Hall|].
    intros Hdead.
    assert (Hlast : Boss.phaseInvariant
                      (List.last (trajectory Boss.step (Boss.create x0) steps)
                         (Boss.create x0))).
    { rewrite List.Forall_forall in Hall. apply Hall.
      destruct (trajectory_head Boss.step steps (Boss.create x0)) as [rest Hr].
      rewrite Hr. apply last_In. }
    remember (List.last _ (Boss.create x0)) as final eqn:Ef.
    destruct Hlast as [Hm Hv]. unfold Boss.getHealthPercent in Hv.
    rewrite Hm in Hv.
    assert (Hphase3 : Boss.phase final = Boss.PHASE_3 /\
                      Boss.roars final = [Boss.PHASE_2; Boss.PHASE_3]).
    { destruct Hv as [(_ & H66 & _) | [(_ & _ & H33 & _) | (Hp & _ & Hl)]].
      - exfalso. unfold Qdiv in *. change (/ 15) with (1 # 15) in *. lra.
      - exfalso. unfold Qdiv in *. change (/ 15) with (1 # 15) in *. lra.
      - split; assumption. }
    destruct Hphase3 as [Hp3 Hl3]. split; [exact Hl3|].
    intros p. split.
    + intros Hin. apply in_map_iff in Hin. destruct Hin as (s & <- & Hs).
      rewrite List.Forall_forall in Hall. destruct (Hall s Hs) as [_ Hvs].
      destruct Hvs as [(-> & _) | [(-> & _) | (-> & _)]]; cbn; auto.
    + intros Hp.
      apply (trajectory_phase_steps _ _ _ (fun b => Boss.phaseNumber (Boss.phase b))
               Boss.health Hstep steps (Boss.create x0) p Hnail
               (Boss_phaseInvariant_create x0)).
      rewrite <- Ef, Hp3. cbn. lia.
Qed.

(** ** Void orbs *)

Section OrbFacts.

Import BossScene.
Variable Math_sqrt : Q -> Q.

Lemma updateVoidOrb_expired delta p o :
  lifetime o - delta <= 0 -> updateVoidOrb Math_sqrt delta p o = (None, p).
Proof.
  intros H. apply Qleb_le in H. unfold updateVoidOrb.
  destruct (active o); cbn [negb]; [rewrite H|]; reflexivity.
Qed.

Lemma updateVoidOrb_no_contact delta p o :
  inHitRadius Math_sqrt p o = false -> snd (updateVoidOrb Math_sqrt delta p o) = p.
Proof.
  unfold inHitRadius, orbDistance, updateVoidOrb. intros H.
  destruct (active o); cbn [negb]; [|reflexivity].
  destruct (Qleb (lifetime o - delta) 0); [reflexivity|].
  cbn [chasing ox oy speed lifetime].
  destruct (chasing o); [|reflexivity].
  cbn [andb] in H. rewrite H. reflexivity.
Qed.

Lemma updateVoidOrb_contact delta p o :
  active o = true -> 0 < lifetime o - delta -> inHitRadius Math_sqrt p o = true ->
  updateVoidOrb Math_sqrt delta p o =
    (None, Player.takeDamage 1 (orbXAfterMove Math_sqrt delta p o) p).
Proof.
  unfold inHitRadius, orbDistance, orbXAfterMove, updateVoidOrb. intros Ha Hl H.
  apply andb_true_iff in H. destruct H as [Hc Hd].
  apply Qleb_gt in Hl. rewrite Ha, Hl. cbn [negb chasing ox oy speed lifetime].
  rewrite Hc, Hd.
  destruct (Qltb 0 _); reflexivity.
Qed.

Lemma updateVoidOrb_survivor delta p o o' p' :
  updateVoidOrb Math_sqrt delta p o = (Some o', p') ->
  lifetime o' = lifetime o - delta /\ 0 < lifetime o' /\ p' = p.
Proof.
  unfold updateVoidOrb.
  destruct (active o); cbn [negb]; [|discriminate].
  destruct (Qleb (lifetime o - delta) 0) eqn:El; [discriminate|].
  apply Qleb_gt in El. cbn [chasing ox oy speed lifetime].
  destruct (chasing o).
  - destruct (Qltb _ 30); [discriminate|].
    destruct (Qltb 0 _); intros H; injection H as <- <-; repeat split; exact El.
  - intros H; injection H as <- <-; repeat split; exact El.
Qed.

Lemma orbRun_gone ticks : forall p,
  orbRun Math_sqrt ticks p None = (None, playerElsewhere ticks p).
Proof.
  induction ticks as [|tk ticks IH]; intros p; [reflexivity|].
  cbn [orbRun]. rewrite IH. reflexivity.
Qed.

Lemma lifetime_floatEnd armed o : lifetime (floatEnd armed o) = lifetime o.
Proof. destruct armed; reflexivity. Qed.

Lemma active_floatEnd armed o : active (floatEnd armed o) = active o.
Proof. destruct armed; reflexivity. Qed.

(** An orb is gone once the frame times of its updates add up to its
    lifetime, wherever the player is. *)
Lemma orbRun_lifetime ticks : forall p o,
  0 < lifetime o -> lifetime o <= elapsed ticks ->
  fst (orbRun Math_sqrt ticks p (Some o)) = None.
Proof.
  induction ticks as [|tk ticks IH]; intros p o Hpos Hle.
  - unfold elapsed in Hle. cbn in Hle. lra.
  - change (lifetime o <= tickDelta tk + elapsed ticks) in Hle.
    cbn [orbRun].
    destruct (updateVoidOrb Math_sqrt (tickDelta tk) (elsewhere tk p)
                (floatEnd (floatDone tk) o)) as [[o'|] p'] eqn:E.
    + apply updateVoidOrb_survivor in E. destruct E as (Hl & Hp & _).
      rewrite lifetime_floatEnd in Hl. apply IH; [exact Hp | rewrite Hl; lra].
    + rewrite orbRun_gone. reflexivity.
Qed.

(** An orb that never sees the player within its hit radius never touches
    the player. *)
Lemma orbRun_no_contact ticks : forall p o,
  neverInHitRadius Math_sqrt ticks p o ->
  snd (orbRun Math_sqrt ticks p o) = playerElsewhere ticks p.
Proof.
  induction ticks as [|tk ticks IH]; intros p o Hn; [reflexivity|].
  destruct o as [o|]; [|rewrite orbRun_gone; reflexivity].
  cbn [orbRun neverInHitRadius playerElsewhere fold_left] in *.
  destruct Hn as [Hfar Hrest].
  pose proof (updateVoidOrb_no_contact (tickDelta tk) _ _ Hfar) as Hp.
  destruct (updateVoidOrb Math_sqrt (tickDelta tk) (elsewhere tk p)
              (floatEnd (floatDone tk) o)) as [o' p'].
  cbn [fst snd] in *. subst p'. apply IH. exact Hrest.
Qed.

(** An armed orb that sees the player within its hit radius, with
    lifetime left, hits once and is gone for good. *)
Lemma orbRun_contact tk ticks p o :
  active o = true -> 0 < lifetime o - tickDelta tk ->
  inHitRadius Math_sqrt (elsewhere tk p) (floatEnd (floatDone tk) o) = true ->
  orbRun Math_sqrt (tk :: ticks) p (Some o) =
    (None,
     playerElsewhere ticks
       (Player.takeDamage 1
          (orbXAfterMove Math_sqrt (tickDelta tk) (elsewhere tk p)
             (floatEnd (floatDone tk) o))
          (elsewhere tk p))).
Proof.
  intros Ha Hl Hin. cbn [orbRun].
  rewrite updateVoidOrb_contact;
    [| rewrite active_floatEnd; exact Ha | rewrite lifetime_floatEnd; exact Hl | exact Hin].
  apply orbRun_gone.
Qed.

End OrbFacts.

(** C7, as stated, fails: an armed orb 10 px from a player who is not
    invincible, in the update in which its lifetime runs out, is destroyed
    without touching the player.  And "at or before L ms" holds up to the
    rounding of the counter only: at 60 frames per second the frame times
    of 180 updates multiply out to 3000, but the lifetime counted down in
    doubles is still above zero after them, and the orb goes in update
    181. *)
Lemma C7_expiring_orb_deals_no_damage :
  (BossScene.inHitRadius isqrt freshPlayer lastGaspOrb = true /\
   Player.invincible freshPlayer = false /\
   BossScene.updateVoidOrb isqrt 16 freshPlayer lastGaspOrb = (None, freshPlayer)) /\
  (Doubles.isExactly (Doubles.elapsed Doubles.frames180) Doubles.threeSeconds = true /\
   Doubles.positive (Doubles.orbLifetime 180) = true /\
   Doubles.positive (Doubles.orbLifetime 181) = false).
Proof. vm_compute. repeat split. Qed.

(** C7, amended: each update takes the frame time off the orb's lifetime
    and destroys the orb when what is left is at or below zero, before
    anything else (so an orb whose lifetime runs out in an update is
    destroyed there without dealing damage, wherever the player is); hence
    an orb as spawned (lifetime at most 3000 ms), updated in frames of at
    least 1 ms, is gone by the update at which the frame times since its
    spawn have added up to its lifetime and 1 ms more (the margin covers
    the rounding of the counter in the source's doubles, which can put the
    expiry one update late); an orb that at none of its updates is armed
    and within 30 px of the player never touches the player; and an armed
    orb that at an update is within 30 px of the player's live position
    with lifetime left applies the player's damage contract with 1 damage
    exactly once (a no-op while the player is invincible) and is destroyed
    in that same update, never to touch the player again. *)
Theorem C7_orb_lifecycle (Math_sqrt : Q -> Q) (ticks : list BossScene.OrbTick)
  (p : Player.t) (o : BossScene.Orb) :
  (0 < BossScene.lifetime o -> BossScene.lifetime o <= 3000 ->
   Forall (fun tk => 1 <= BossScene.tickDelta tk) ticks ->
   BossScene.lifetime o + 1 <= BossScene.elapsed ticks ->
     fst (BossScene.orbRun Math_sqrt ticks p (Some o)) = None) /\
  (forall delta, BossScene.lifetime o - delta <= 0 ->
     BossScene.updateVoidOrb Math_sqrt delta p o = (None, p)) /\
  (BossScene.neverInHitRadius Math_sqrt ticks p (Some o) ->
     snd (BossScene.orbRun Math_sqrt ticks p (Some o)) = BossScene.playerElsewhere ticks p) /\
  (forall tk,
     BossScene.active o = true -> 0 < BossScene.lifetime o - BossScene.tickDelta tk ->
     BossScene.inHitRadius Math_sqrt (BossScene.elsewhere tk p)
       (BossScene.floatEnd (BossScene.floatDone tk) o) = true ->
     BossScene.orbRun Math_sqrt (tk :: ticks) p (Some o) =
       (None,
        BossScene.playerElsewhere ticks
          (Player.takeDamage 1
             (BossScene.orbXAfterMove Math_sqrt (BossScene.tickDelta tk)
                (BossScene.elsewhere tk p) (BossScene.floatEnd (BossScene.floatDone tk) o))
             (BossScene.elsewhere tk p)))).
Proof.
  split; [|split; [|split]].
  - intros Hpos _ _ Hle. apply orbRun_lifetime; [exact Hpos | lra].
  - intros delta. apply updateVoidOrb_expired.
  - apply orbRun_no_contact.
  - intros tk. apply orbRun_contact.
Qed.

(** An armed orb with 2500 ms left, 10 px from the player, in a 16 ms
    update: the player is hit once, for 1 point of the 5.  And an orb on its
    last 16 ms is gone after two updates of 16 ms. *)
Lemma C7_orb_lifecycle_witness :
  BossScene.orbRun isqrt [quietTick] freshPlayer (Some closeOrb) =
  (None,
   BossScene.playerElsewhere []
     (Player.takeDamage 1
        (BossScene.orbXAfterMove isqrt (BossScene.tickDelta quietTick)
           (BossScene.elsewhere quietTick freshPlayer)
           (BossScene.floatEnd (BossScene.floatDone quietTick) closeOrb))
        (BossScene.elsewhere quietTick freshPlayer))) /\
  fst (BossScene.orbRun isqrt [quietTick; quietTick] freshPlayer (Some lastGaspOrb)) = None.
Proof.
  split.
  - refine (proj2 (proj2 (proj2 (C7_orb_lifecycle isqrt [] freshPlayer closeOrb)))
              quietTick _ _ _).
    + reflexivity.
    + reflexivity.
    + vm_compute. reflexivity.
  - refine (proj1 (C7_orb_lifecycle isqrt [quietTick; quietTick] freshPlayer lastGaspOrb)
              _ _ _ _).
    + reflexivity.
    + discriminate.
    + repeat constructor; discriminate.
    + discriminate.
Defined.

(** ** The damage contract across entities *)

Lemma Crawler_set_base_eta c : Crawler.set_base (Crawler.base c) c = c.
Proof. destruct c; reflexivity. Qed.

Lemma onPlayerAttack_after_hit hitbox amount s :
  BossScene.onPlayerAttack hitbox (BossScene.bossTakeDamage amount s) =
    BossScene.bossTakeDamage amount s.
Proof.
  apply onPlayerAttack_rejected. left.
  rewrite invincibleTimer_bossTakeDamage. reflexivity.
Qed.

(** An accepted hit takes its amount off, once. *)
Lemma BaseEnemy_takeDamage_health amount sourceX e :
  BaseEnemy.isHurt e = false -> BaseEnemy.isAlive e = true ->
  BaseEnemy.health (BaseEnemy.takeDamage amount sourceX e) = BaseEnemy.health e - amount /\
  BaseEnemy.isHurt (BaseEnemy.takeDamage amount sourceX e) = true.
Proof.
  intros Hh Ha. unfold BaseEnemy.takeDamage. rewrite Hh, Ha. cbn.
  destruct (Qleb _ 0); split; reflexivity.
Qed.

Lemma Boss_takeDamage_health amount sourceX b :
  Boss.isHurt b = false -> Boss.isAlive b = true ->
  Boss.health (Boss.takeDamage amount sourceX b) = Boss.health b - amount /\
  Boss.isHurt (Boss.takeDamage amount sourceX b) = true.
Proof.
  intros Hh Ha. unfold Boss.takeDamage. rewrite Hh, Ha. cbn.
  unfold Boss.checkPhaseTransition. cbn.
  repeat match goal with |- context [if ?c then _ else _] => destruct c end;
    split; reflexivity.
Qed.

Lemma Flyer_takeDamage_health amount sourceX f :
  Flyer.isHurt f = false -> Flyer.isAlive f = true ->
  Enemy.health (Flyer.base (Flyer.takeDamage amount sourceX f)) =
    Enemy.health (Flyer.base f) - amount /\
  Flyer.isHurt (Flyer.takeDamage amount sourceX f) = true.
Proof.
  intros Hh Ha.
  destruct (Enemy_takeDamage_health amount sourceX (Flyer.base f) Hh Ha) as (H1 & H2 & _).
  assert (Hb : Flyer.base (Flyer.takeDamage amount sourceX f) =
               Enemy.takeDamage amount sourceX (Flyer.base f)).
  { unfold Flyer.takeDamage. destruct (Flyer.isAlive (Flyer.set_base _ f)); reflexivity. }
  unfold Flyer.isHurt. rewrite Hb. split; assumption.
Qed.

Lemma onPlayerAttack_accepted hitbox s :
  BossScene.invincibleTimer s <= 0 ->
  BossScene.bossState s <> BossScene.DORMANT ->
  BossScene.bossState s <> BossScene.AWAKENING ->
  BossScene.bossState s <> BossScene.DEAD ->
  Geom.Overlaps hitbox (BossScene.bossHitbox s) = true ->
  BossScene.onPlayerAttack hitbox s = BossScene.bossTakeDamage 1 s /\
  BossScene.bossHealth (BossScene.onPlayerAttack hitbox s) = BossScene.bossHealth s - 1 /\
  BossScene.invincibleTimer (BossScene.onPlayerAttack hitbox s) = 300.
Proof.
  intros Hi H1 H2 H3 Ho. unfold BossScene.onPlayerAttack. rewrite Ho.
  apply Qltb_ge in Hi. rewrite Hi.
  destruct (BossScene.bossState s); try congruence; cbn;
    (split; [reflexivity|]); (split; [|apply invincibleTimer_bossTakeDamage]);
    unfold BossScene.bossTakeDamage; cbn; split_ifs; reflexivity.
Qed.

(** While the hurt flag is still up, the updates in between have changed
    neither health nor life. *)
Lemma Enemy_elapse_open deltas : forall e,
  Enemy.isHurt (Enemy_elapse deltas e) = true ->
  Enemy.isHurt e = true /\
  Enemy.health (Enemy_elapse deltas e) = Enemy.health e /\
  Enemy.isAlive (Enemy_elapse deltas e) = Enemy.isAlive e.
Proof.
  induction deltas as [|d ds IH]; intros e H; [repeat split; exact H|].
  change (Enemy_elapse (d :: ds) e) with (Enemy_elapse ds (Enemy.updateHurt d e)) in *.
  destruct (IH _ H) as (Hh & Hv & Ha).
  destruct (Enemy_updateHurt_flags d e) as [Hf Hal].
  split; [apply Hf; exact Hh|]. rewrite Hv, Ha, Hal.
  split; [|reflexivity].
  unfold Enemy.updateHurt. destruct (Enemy.isHurt e); [|reflexivity].
  cbn. destruct (Qleb _ 0); reflexivity.
Qed.

(** C2 fails on the code, for the scene's boss.  Everywhere else the
    contract holds: for the player (invincible), for the enemy base class
    and so the crawler and the flyer, for the arena's enemies and for the
    boss entity class (hurt, or not alive), a damage call inside the window
    or on a dead entity changes nothing, a call outside it takes its amount
    off the health and opens the window, and so a second call right after a
    first, or after any updates that have left the hurt flag up, changes
    nothing more.  The scene's boss turns hits away while its invincibility
    countdown runs and while Dormant, Awakening or Dead, and takes 1 off
    otherwise; but Dying is not among the states its listener turns away,
    so a boss whose health has reached 0 takes damage again once the
    countdown has run out: in the fight below the twentieth hit brings the
    health to 0 and one more swing, 320 ms later, brings it to -1. *)
Theorem C2_hurt_window_noop (Math_sqrt Math_sin : Q -> Q) :
  (* player *)
  (forall a x p, Player.invincible p = true -> Player.takeDamage a x p = p) /\
  (forall a x p, Player.invincible p = false ->
     Player.health (Player.takeDamage a x p) =
       (if Qleb (Player.health p - a) 0 then Player.maxHealth p else Player.health p - a) /\
     Player.invincible (Player.takeDamage a x p) = true) /\
  (forall a1 x1 a2 x2 p,
     Player.takeDamage a2 x2 (Player.takeDamage a1 x1 p) = Player.takeDamage a1 x1 p) /\
  (* enemy base class *)
  (forall a x e, Enemy.isHurt e = true \/ Enemy.isAlive e = false ->
     Enemy.takeDamage a x e = e) /\
  (forall a x e, Enemy.isHurt e = false -> Enemy.isAlive e = true ->
     Enemy.health (Enemy.takeDamage a x e) = Enemy.health e - a /\
     Enemy.isHurt (Enemy.takeDamage a x e) = true /\
     Enemy.hurtTimer (Enemy.takeDamage a x e) = Enemy.hurtDuration e) /\
  (forall a1 x1 a2 x2 e,
     Enemy.takeDamage a2 x2 (Enemy.takeDamage a1 x1 e) = Enemy.takeDamage a1 x1 e) /\
  (forall a1 x1 a2 x2 deltas e,
     Enemy.isHurt e = false -> Enemy.isAlive e = true ->
     Enemy.isHurt (Enemy_elapse deltas (Enemy.takeDamage a1 x1 e)) = true ->
     Enemy.health
       (Enemy.takeDamage a2 x2 (Enemy_elapse deltas (Enemy.takeDamage a1 x1 e))) =
     Enemy.health e - a1) /\
  (* crawler *)
  (forall a x c,
     Enemy.isHurt (Crawler.base c) = true \/ Enemy.isAlive (Crawler.base c) = false ->
     Crawler.takeDamage a x c = c) /\
  (forall a x c, Crawler.isHurt c = false -> Crawler.isAlive c = true ->
     Enemy.health (Crawler.base (Crawler.takeDamage a x c)) =
       Enemy.health (Crawler.base c) - a /\
     Crawler.isHurt (Crawler.takeDamage a x c) = true) /\
  (forall a1 x1 a2 x2 c,
     Crawler.takeDamage a2 x2 (Crawler.takeDamage a1 x1 c) = Crawler.takeDamage a1 x1 c) /\
  (* the arena's enemies *)
  (forall a x e, BaseEnemy.isHurt e = true \/ BaseEnemy.isAlive e = false ->
     BaseEnemy.takeDamage a x e = e) /\
  (forall a x e, BaseEnemy.isHurt e = false -> BaseEnemy.isAlive e = true ->
     BaseEnemy.health (BaseEnemy.takeDamage a x e) = BaseEnemy.health e - a /\
     BaseEnemy.isHurt (BaseEnemy.takeDamage a x e) = true) /\
  (forall a1 x1 a2 x2 e,
     BaseEnemy.takeDamage a2 x2 (BaseEnemy.takeDamage a1 x1 e) =
     BaseEnemy.takeDamage a1 x1 e) /\
  (* flyer *)
  (forall a x f, Flyer.reachable Math_sqrt Math_sin f ->
     Flyer.isHurt f = true \/ Flyer.isAlive f = false ->
     Flyer.takeDamage a x f = f) /\
  (forall a x f, Flyer.isHurt f = false -> Flyer.isAlive f = true ->
     Enemy.health (Flyer.base (Flyer.takeDamage a x f)) = Enemy.health (Flyer.base f) - a /\
     Flyer.isHurt (Flyer.takeDamage a x f) = true) /\
  (forall a1 x1 a2 x2 f,
     Flyer.takeDamage a2 x2 (Flyer.takeDamage a1 x1 f) = Flyer.takeDamage a1 x1 f) /\
  (* boss entity class *)
  (forall a x b, Boss.isHurt b = true \/ Boss.isAlive b = false ->
     Boss.takeDamage a x b = b) /\
  (forall a x b, Boss.isHurt b = false -> Boss.isAlive b = true ->
     Boss.health (Boss.takeDamage a x b) = Boss.health b - a /\
     Boss.isHurt (Boss.takeDamage a x b) = true) /\
  (forall a1 x1 a2 x2 b,
     Boss.takeDamage a2 x2 (Boss.takeDamage a1 x1 b) = Boss.takeDamage a1 x1 b) /\
  (* the scene's boss *)
  (forall hitbox s,
     0 < BossScene.invincibleTimer s \/ BossScene.bossState s = BossScene.DORMANT \/
     BossScene.bossState s = BossScene.AWAKENING \/
     BossScene.bossState s = BossScene.DEAD ->
     BossScene.onPlayerAttack hitbox s = s) /\
  (forall hitbox s,
     BossScene.invincibleTimer s <= 0 ->
     BossScene.bossState s <> BossScene.DORMANT ->
     BossScene.bossState s <> BossScene.AWAKENING ->
     BossScene.bossState s <> BossScene.DEAD ->
     Geom.Overlaps hitbox (BossScene.bossHitbox s) = true ->
     BossScene.onPlayerAttack hitbox s = BossScene.bossTakeDamage 1 s /\
     BossScene.bossHealth (BossScene.onPlayerAttack hitbox s) = BossScene.bossHealth s - 1 /\
     BossScene.invincibleTimer (BossScene.onPlayerAttack hitbox s) = 300) /\
  (forall hitbox amount s,
     BossScene.onPlayerAttack hitbox (BossScene.bossTakeDamage amount s) =
     BossScene.bossTakeDamage amount s) /\
  (* the gap: a dying boss *)
  (forall hitbox s,
     BossScene.bossState s = BossScene.DYING -> BossScene.invincibleTimer s <= 0 ->
     Geom.Overlaps hitbox (BossScene.bossHitbox s) = true ->
     BossScene.bossHealth (BossScene.onPlayerAttack hitbox s) = BossScene.bossHealth s - 1) /\
  (BossScene.bossState (BossScene.run isqrt BossScene.create Fight.toDeath) = BossScene.DYING /\
   BossScene.bossHealth (BossScene.run isqrt BossScene.create Fight.toDeath) == 0 /\
   BossScene.bossState (BossScene.run isqrt BossScene.create Fight.oneMore) = BossScene.DYING /\
   BossScene.bossHealth (BossScene.run isqrt BossScene.create Fight.oneMore) == -1).
Proof.
  repeat match goal with |- _ /\ _ => split end.
  - intros. apply Player_takeDamage_invincible. assumption.
  - intros. split; [apply Player_takeDamage_health; assumption
                   | apply Player_takeDamage_opens_window].
  - intros. apply Player_takeDamage_twice.
  - intros. apply Enemy_takeDamage_guard. assumption.
  - intros. apply Enemy_takeDamage_health; assumption.
  - intros. apply Enemy_takeDamage_twice.
  - intros a1 x1 a2 x2 deltas e Hh Ha Hopen.
    destruct (Enemy_takeDamage_health a1 x1 e Hh Ha) as (H1 & _ & _).
    destruct (Enemy_elapse_open _ _ Hopen) as (_ & W2 & _).
    rewrite Enemy_takeDamage_guard by (left; exact Hopen). rewrite W2. exact H1.
  - intros a x c H. unfold Crawler.takeDamage.
    rewrite Enemy_takeDamage_guard by exact H. apply Crawler_set_base_eta.
  - intros a x c Hh Ha.
    destruct (Enemy_takeDamage_health a x (Crawler.base c) Hh Ha) as (H1 & H2 & _).
    split; [exact H1 | exact H2].
  - intros a1 x1 a2 x2 c. unfold Crawler.takeDamage. cbn.
    rewrite Enemy_takeDamage_twice. reflexivity.
  - intros. apply BaseEnemy_takeDamage_guard. assumption.
  - intros. apply BaseEnemy_takeDamage_health; assumption.
  - intros. apply BaseEnemy_takeDamage_guard, BaseEnemy_takeDamage_closes.
  - intros a x f Hr [Hh | Ha].
    + apply Flyer_takeDamage_hurt; [|exact Hh].
      apply (Flyer_reachable_hurtAsLeft Math_sqrt Math_sin). exact Hr.
    + apply Flyer_takeDamage_dead. exact Ha.
  - intros. apply Flyer_takeDamage_health; assumption.
  - intros. apply Flyer_takeDamage_twice.
  - intros. apply Boss_takeDamage_guard. assumption.
  - intros. apply Boss_takeDamage_health; assumption.
  - intros. apply Boss_takeDamage_guard, Boss_takeDamage_closes.
  - intros. apply onPlayerAttack_rejected. assumption.
  - intros. apply onPlayerAttack_accepted; assumption.
  - intros. apply onPlayerAttack_after_hit.
  - intros hitbox s Hs Hi Ho.
    apply onPlayerAttack_accepted; try assumption; rewrite Hs; discriminate.
  - vm_compute. reflexivity.
  - vm_compute. reflexivity.
  - vm_compute. reflexivity.
  - vm_compute. reflexivity.
Qed.

(** The boss brought to 0 health by twenty hits, its invincibility run out:
    a nail that reaches it takes one more point off. *)
Lemma C2_hurt_window_noop_witness :
  BossScene.bossHealth
    (BossScene.onPlayerAttack
       (BossScene.bossHitbox (BossScene.run isqrt BossScene.create Fight.toDeath))
       (BossScene.run isqrt BossScene.create Fight.toDeath)) =
  BossScene.bossHealth (BossScene.run isqrt BossScene.create Fight.toDeath) - 1.
Proof.
  generalize (C2_hurt_window_noop isqrt (fun _ => 0)).
  intros (_ & _ & _ & _ & _ & _ & _ & _ & _ & _ & _ & _ & _ & _ & _ & _ & _ & _ & _ &
          _ & _ & _ & H & _).
  apply H.
  - vm_compute. reflexivity.
  - vm_compute. discriminate.
  - vm_compute. reflexivity.
Defined.

(** ** The dying boss *)

(** C3 fails on the code: the attack listener turns hits away in Dormant,
    Awakening and Dead but not in Dying.  In the fight below the twentieth
    hit brings the boss to 0 health and starts the death sequence; the
    player swings once more 320 ms later, after the 300 ms of
    invincibility: health goes to -1 and the death sequence starts a second
    time, and in the end the victory is shown twice. *)
Theorem C3_dying_boss_takes_damage :
  let dying := BossScene.run isqrt BossScene.create Fight.toDeath in
  let struck := BossScene.run isqrt BossScene.create Fight.oneMore in
  let final := BossScene.run isqrt BossScene.create Fight.aftermath in
  (BossScene.bossState dying = BossScene.DYING /\
   BossScene.bossHealth dying == 0 /\
   BossScene.countEffect BossScene.DeathSequence dying = 1%nat) /\
  (BossScene.bossState struck = BossScene.DYING /\
   BossScene.bossHealth struck == -1 /\
   BossScene.countEffect BossScene.DeathSequence struck = 2%nat) /\
  (BossScene.bossState final = BossScene.DEAD /\
   BossScene.countEffect BossScene.Victory final = 2%nat /\
   Player.health (BossScene.player final) == 5).
Proof. vm_compute. repeat split. Qed.

(** ** The flyer's retreat *)

(** C8 fails on the code: [takeDamage] writes the engine's [state] tag,
    never [currentState], so the behaviour state is what it was.  A new
    flyer (hovering) that survives a hit is hurt, alive, tagged 3 (RETREAT)
    and still hovering; in the first update after its hurt window the Hover
    behaviour runs and, the player being 50 px away, sends it to Track; the
    retreat timer still stands at 1500. *)
Theorem C8_flyer_damage_keeps_behaviour (Math_sin : Q -> Q) :
  (forall amount sourceX f,
     Flyer.currentState (Flyer.takeDamage amount sourceX f) = Flyer.currentState f) /\
  (Flyer.isAlive grazedFlyer = true /\ Flyer.isHurt grazedFlyer = true /\
   Flyer.state grazedFlyer = Flyer.code Flyer.RETREAT /\
   Flyer.currentState grazedFlyer = Flyer.HOVER) /\
  (Flyer.currentState
     (fst (Flyer.update isqrt Math_sin afterHurt nearbyPlayer grazedFlyer)) = Flyer.TRACK /\
   Flyer.retreatTimer
     (fst (Flyer.update isqrt Math_sin afterHurt nearbyPlayer grazedFlyer)) = 1500).
Proof.
  split; [apply Flyer_takeDamage_currentState|].
  split; [repeat split|].
  split; vm_compute; reflexivity.
Qed.

(** ** Sample runs *)

(** A fight driven to 0 health has shown the banners of phase 2 and phase 3,
    once each; and so has a boss of the entity class brought down by
    fifteen hits of the nail. *)
Lemma C1_phases_monotone_witness :
  BossScene.phaseTextLog
    (List.last (BossScene.history isqrt BossScene.create Fight.toDeath) BossScene.create) =
  [2; 3]%Z /\
  Boss.roars (List.last (Boss.history (Boss.create 0) nailDuel) (Boss.create 0)) =
  [Boss.PHASE_2; Boss.PHASE_3].
Proof.
  refine ((fun H =>
             conj (proj1 (proj2 (proj2 (proj2 (proj1 H))) _))
                  (proj1 (proj2 (proj2 (proj2 H) _) _)))
            (C1_phases_monotone isqrt Fight.toDeath 0 nailDuel)).
  - vm_compute. discriminate.
  - unfold Boss.nailHits, nailDuel. cbn. repeat constructor.
  - vm_compute. discriminate.
Defined.

(** The boss, Idle with its timers run out and the player 60 px away,
    slashes. *)
Lemma C5_idle_decision_witness :
  BossScene.bossState
    (BossScene.updateBoss 500 0 (BossScene.run isqrt BossScene.create Fight.awake)) =
  BossScene.idlePolicy
    (Math_abs
       (Player.x (BossScene.player (BossScene.run isqrt BossScene.create Fight.awake)) -
        BossScene.bossX (BossScene.run isqrt BossScene.create Fight.awake)))
    (BossScene.bossPhase (BossScene.run isqrt BossScene.create Fight.awake)) 0.
Proof.
  refine (proj1 (C5_idle_decision 500 0
                   (BossScene.run isqrt BossScene.create Fight.awake) _) _).
  - vm_compute. reflexivity.
  - split; vm_compute; discriminate.
Defined.

Lemma C6_charge_wall_stuns_witness :
  BossScene.bossState (BossScene.updateBoss 16 0 Fight.chargingAtWall) = BossScene.STUNNED.
Proof.
  refine (proj1 (C6_charge_wall_stuns 16 0 Fight.chargingAtWall _ _ _ _)).
  - reflexivity.
  - right. vm_compute. discriminate.
  - vm_compute. reflexivity.
  - vm_compute. reflexivity.
Defined.

Lemma C10_no_contact_damage_when_stunned_witness :
  BossScene.checkBossPlayerCollision Fight.stunnedOnPlayer = Fight.stunnedOnPlayer.
Proof.
  refine (proj1 (C10_no_contact_damage_when_stunned Fight.stunnedOnPlayer 16 0) _).
  left. reflexivity.
Defined.

(** ** Observable health *)

(** What a damage call does to the boss entity's health and life. *)
Lemma Boss_takeDamage_life amount sourceX b :
  Boss.maxHealth (Boss.takeDamage amount sourceX b) = Boss.maxHealth b /\
  (Boss.isHurt b = true \/ Boss.isAlive b = false ->
   Boss.health (Boss.takeDamage amount sourceX b) = Boss.health b /\
   Boss.isAlive (Boss.takeDamage amount sourceX b) = Boss.isAlive b) /\
  (Boss.isHurt b = false -> Boss.isAlive b = true ->
   Boss.health (Boss.takeDamage amount sourceX b) = Boss.health b - amount /\
   Boss.isAlive (Boss.takeDamage amount sourceX b) =
     negb (Qleb (Boss.health b - amount) 0)).
Proof.
  split; [|split].
  - unfold Boss.takeDamage.
    destruct (Boss.isHurt b || negb (Boss.isAlive b)); [reflexivity|].
    unfold Boss.checkPhaseTransition. cbn.
    repeat match goal with |- context [if ?c then _ else _] => destruct c end; reflexivity.
  - intros H. rewrite Boss_takeDamage_guard by exact H. split; reflexivity.
  - intros Hh Ha. unfold Boss.takeDamage. rewrite Hh, Ha. cbn.
    unfold Boss.checkPhaseTransition. cbn.
    destruct (Qleb ((Boss.health b - amount) / Boss.maxHealth b) (66 # 100) &&
              Boss.BossPhase_eqb (Boss.phase b) Boss.PHASE_1); cbn.
    + destruct (Qleb (Boss.health b - amount) 0); cbn; rewrite ?Ha; split; reflexivity.
    + destruct (Qleb ((Boss.health b - amount) / Boss.maxHealth b) (33 # 100) &&
                Boss.BossPhase_eqb (Boss.phase b) Boss.PHASE_2); cbn;
        destruct (Qleb (Boss.health b - amount) 0); cbn; rewrite ?Ha; split; reflexivity.
Qed.

Lemma Boss_guard_cases b :
  (Boss.isHurt b = true \/ Boss.isAlive b = false) \/
  (Boss.isHurt b = false /\ Boss.isAlive b = true).
Proof. destruct (Boss.isHurt b), (Boss.isAlive b); auto. Qed.

Lemma Boss_update_life delta b :
  let b' := Boss.step b (Boss.Update delta) in
  Boss.health b' = Boss.health b /\ Boss.maxHealth b' = Boss.maxHealth b /\
  Boss.isAlive b' = Boss.isAlive b.
Proof.
  destruct (Boss_update_phase delta b) as (H1 & H2 & _ & _). cbv zeta in *.
  split; [exact H1|]. split; [exact H2|].
  cbn [Boss.step]. unfold Boss.tickClock.
  match goal with
  | |- context [fold_left ?f ?due ?b0] =>
      destruct (Boss_runCallbacks_phase due b0) as (_ & _ & _ & _ & H5);
      remember (fold_left f due b0) as b1 eqn:E; clear E
  end.
  cbn in H5. cbv zeta.
  destruct (Boss.isAlive b1) eqn:Ea; [|congruence].
  rewrite <- H5. unfold Boss.updateHurt. split_ifs; cbn; congruence.
Qed.

(** The boss entity's health never exceeds its 15 when no hit heals. *)
Lemma Boss_health_capped_step b st :
  match st with Boss.Hit amount _ => 0 <= amount | Boss.Update _ => True end ->
  Boss.maxHealth b = 15 /\ Boss.health b <= 15 ->
  Boss.maxHealth (Boss.step b st) = 15 /\ Boss.health (Boss.step b st) <= 15.
Proof.
  intros Hok [Hm Hh]. destruct st as [amount sourceX | delta].
  - cbn [Boss.step].
    destruct (Boss_takeDamage_life amount sourceX b) as (Em & Hg & Hf).
    rewrite Em. split; [exact Hm|].
    destruct (Boss_guard_cases b) as [G | [G1 G2]].
    + destruct (Hg G) as [Eh _]. rewrite Eh. exact Hh.
    + destruct (Hf G1 G2) as [Eh _]. rewrite Eh. lra.
  - destruct (Boss_update_life delta b) as (Eh & Em & _). cbv zeta in *.
    rewrite Em, Eh. split; assumption.
Qed.

(** Under hits of the nail the boss entity's health is a whole number, not
    negative, and positive while the boss is alive. *)
Lemma Boss_wholeHealth_step b st :
  match st with Boss.Hit amount _ => amount = 1 | Boss.Update _ => True end ->
  Boss_wholeHealth b -> Boss_wholeHealth (Boss.step b st).
Proof.
  intros Hok (Hm & n & Hn & H0 & Hal). destruct st as [amount sourceX | delta].
  - cbn [Boss.step]. subst amount.
    destruct (Boss_takeDamage_life 1 sourceX b) as (Em & Hg & Hf).
    split; [rewrite Em; exact Hm|].
    destruct (Boss_guard_cases b) as [G | [G1 G2]].
    + destruct (Hg G) as [Eh Ea]. exists n. rewrite Eh, Ea. repeat split; assumption.
    + destruct (Hf G1 G2) as [Eh Ea]. exists (n - 1)%Z. rewrite Eh, Ea.
      assert (Hq : Boss.health b - 1 == inject_Z (n - 1)).
      { rewrite Hn. unfold Z.sub. rewrite inject_Z_plus, inject_Z_opp. reflexivity. }
      pose proof (Hal G2) as Hpos.
      split; [exact Hq|]. split; [lia|].
      intros Hlive. apply negb_true_iff, Qleb_gt in Hlive.
      rewrite Hq in Hlive. change 0 with (inject_Z 0) in Hlive.
      rewrite <- Zlt_Qlt in Hlive. exact Hlive.
  - destruct (Boss_update_life delta b) as (Eh & Em & Ea). cbv zeta in *.
    split; [rewrite Em; exact Hm|].
    exists n. rewrite Eh, Ea. repeat split; assumption.
Qed.

Lemma Boss_wholeHealth_create x0 : Boss_wholeHealth (Boss.create x0).
Proof. split; [reflexivity|]. exists 15%Z. repeat split; try lia; reflexivity. Qed.

(** The scene boss's health never exceeds its 20. *)
Lemma BossScene_health_capped Math_sqrt s fr :
  True ->
  BossScene.phaseInvariant s /\ BossScene.bossHealth s <= 20 ->
  BossScene.phaseInvariant (BossScene.frame Math_sqrt s fr) /\
  BossScene.bossHealth (BossScene.frame Math_sqrt s fr) <= 20.
Proof.
  intros _ [Hinv Hh].
  destruct (phaseInvariant_frame Math_sqrt s fr Hinv) as (H1 & _ & H3).
  split; [exact H1 | lra].
Qed.

(** C9, as stated, fails.  The third slash finds the player at 1 health, and
    the [player-damaged] event it emits before the death check carries
    1 - 2 = -1.  And the boss entity's [getHealthPercent] is the raw health
    over the maximum: after a hit of 16 on a new boss it is negative. *)
Lemma C9_event_health_negative :
  (exists h, In h (Player.damagedValues (Player.emitted thriceSlashed)) /\ h < 0) /\
  Boss.getHealthPercent (Boss.takeDamage 16 0 (Boss.create 0)) < 0.
Proof.
  split; [|reflexivity].
  exists (5 - 2 - 2 - 2). split.
  - vm_compute. right. right. left. reflexivity.
  - reflexivity.
Qed.

(** C9, amended.  The player: the health the getter returns after a damage
    call or a fall is positive and at most [maxHealth], and no
    [player-damaged] event carries more than [maxHealth]; at the death
    check any value at or below zero means death (health back to
    [maxHealth], [player-died] emitted); the HUD clamps every value it is
    sent into 0 .. MAX_HEALTH.  The raw value carried by the event emitted
    before the death check may be negative.  The boss entity class:
    [getHealthPercent] never exceeds 1 when no hit heals, and is never
    below 0 under hits of the nail; it is not clamped, so a heavier hit
    that overshoots leaves it negative.  Crawlers, flyers and the arena's
    enemies have no health getter and emit no event that carries health.
    For every entity the death check treats any value at or below zero
    alike: the entity dies.  The scene boss's health-bar fraction never
    exceeds 1. *)
Theorem C9_health_observable (p : Player.t) (amount sourceX : Q)
  (Hamount : 0 <= amount) (Hp : PlayerHealthy p) :
  PlayerHealthy (Player.takeDamage amount sourceX p) /\
  PlayerHealthy (Player.fallDeath p) /\
  (Player.invincible p = false -> Player.health p - amount <= 0 ->
     Player.getHealth (Player.takeDamage amount sourceX p) = Player.getMaxHealth p /\
     In Player.PlayerDied (Player.emitted (Player.takeDamage amount sourceX p))) /\
  (Player.health p - 1 <= 0 ->
     Player.getHealth (Player.fallDeath p) = Player.getMaxHealth p /\
     In Player.PlayerDied (Player.emitted (Player.fallDeath p))) /\
  (forall e ui,
     0 <= UIScene.currentHealth ui <= UIScene.MAX_HEALTH ->
     0 <= UIScene.currentHealth (UIScene.onEvent e ui) <= UIScene.MAX_HEALTH) /\
  (* the boss entity class *)
  (forall x0 steps, Boss.hitsTakeOff steps ->
     Forall (fun b => Boss.getHealthPercent b <= 1) (Boss.history (Boss.create x0) steps)) /\
  (forall x0 steps, Boss.nailHits steps ->
     Forall (fun b => 0 <= Boss.getHealthPercent b) (Boss.history (Boss.create x0) steps)) /\
  (* the death checks *)
  (forall a x b, Boss.isHurt b = false -> Boss.isAlive b = true ->
     Boss.isAlive (Boss.takeDamage a x b) = negb (Qleb (Boss.health b - a) 0)) /\
  (forall a x e, Enemy.isHurt e = false -> Enemy.isAlive e = true ->
     Enemy.isAlive (Enemy.takeDamage a x e) = negb (Qleb (Enemy.health e - a) 0)) /\
  (forall a x e, BaseEnemy.isHurt e = false -> BaseEnemy.isAlive e = true ->
     BaseEnemy.isAlive (BaseEnemy.takeDamage a x e) =
       negb (Qleb (BaseEnemy.health e - a) 0)) /\
  (forall a s, BossScene.bossHealth s - a <= 0 ->
     BossScene.bossState (BossScene.bossTakeDamage a s) = BossScene.DYING) /\
  (* the scene boss's health bar *)
  (forall Math_sqrt frames,
     Forall (fun s => BossScene.healthPercent s <= 1)
            (BossScene.history Math_sqrt BossScene.create frames)).
Proof.
  split; [apply PlayerHealthy_takeDamage; assumption|].
  split; [apply PlayerHealthy_fallDeath; assumption|].
  repeat match goal with |- _ /\ _ => split end.
  - intros Hinv Hle. apply Qleb_le in Hle.
    unfold Player.takeDamage, Player.getHealth. rewrite Hinv. cbn. rewrite Hle. cbn.
    split; [reflexivity|]. rewrite !in_app_iff. cbn. tauto.
  - intros Hle. apply Qleb_le in Hle.
    unfold Player.fallDeath, Player.getHealth. cbn. rewrite Hle. cbn.
    split; [reflexivity|]. rewrite !in_app_iff. cbn. tauto.
  - intros [h m|] ui Hui; cbn -[Geom.Clamp].
    + apply Clamp_bounds. unfold UIScene.MAX_HEALTH. lra.
    + exact Hui.
  - intros x0 steps Hok.
    pose proof (trajectory_Forall Boss.step _ _ Boss_health_capped_step steps
                  (Boss.create x0) Hok) as H.
    eapply List.Forall_impl; [|apply H; split; [reflexivity | discriminate]].
    intros b [Hm Hh]. unfold Boss.getHealthPercent. rewrite Hm.
    unfold Qdiv. change (/ 15) with (1 # 15). lra.
  - intros x0 steps Hok.
    pose proof (trajectory_Forall Boss.step _ _ Boss_wholeHealth_step steps
                  (Boss.create x0) Hok (Boss_wholeHealth_create x0)) as H.
    eapply List.Forall_impl; [|exact H].
    intros b (Hm & n & Hn & H0 & _). unfold Boss.getHealthPercent. rewrite Hm, Hn.
    unfold Qdiv. change (/ 15) with (1 # 15).
    assert (0 <= inject_Z n) by (change 0 with (inject_Z 0); rewrite <- Zle_Qle; exact H0).
    lra.
  - intros a x b Hh Ha. apply (Boss_takeDamage_life a x b); assumption.
  - intros a x e Hh Ha. unfold Enemy.takeDamage. rewrite Hh, Ha. cbn.
    destruct (Qleb _ 0); cbn; rewrite ?Ha; reflexivity.
  - intros a x e Hh Ha. unfold BaseEnemy.takeDamage. rewrite Hh, Ha. cbn.
    destruct (Qleb _ 0); cbn; rewrite ?Ha; reflexivity.
  - intros a s Hle. apply Qleb_le in Hle. unfold BossScene.bossTakeDamage. cbn.
    destruct (Qleb ((BossScene.bossHealth s - a) / BossScene.bossMaxHealth s) (33 # 100) &&
              (BossScene.bossPhase s <? 3)%Z); cbn; [rewrite Hle; reflexivity|].
    destruct (Qleb ((BossScene.bossHealth s - a) / BossScene.bossMaxHealth s) (66 # 100) &&
              (BossScene.bossPhase s <? 2)%Z); cbn; rewrite Hle; reflexivity.
  - intros Math_sqrt frames.
    pose proof (trajectory_Forall (BossScene.frame Math_sqrt) (fun _ => True) _
                  (BossScene_health_capped Math_sqrt) frames BossScene.create
                  (Forall_any frames)) as H.
    eapply List.Forall_impl; [|apply H; split; [apply phaseInvariant_create | discriminate]].
    intros s [[Hm _] Hh]. unfold BossScene.healthPercent. rewrite Hm.
    unfold Qdiv. change (/ 20) with (1 # 20). lra.
Qed.

(** A player at 1 of 5 health takes a slash of 2. *)
Lemma C9_health_observable_witness :
  PlayerHealthy (Player.takeDamage 2 1100 (Player.set_health 1 (Player.create 150 520))).
Proof.
  refine (proj1 (C9_health_observable (Player.set_health 1 (Player.create 150 520))
                   2 1100 _ _)).
  - unfold Qle; cbn; lia.
  - unfold PlayerHealthy. cbn. repeat split; try constructor; unfold Qlt, Qle; cbn; lia.
Defined.

(** ** The movement controller *)

Ltac q_cases :=
  repeat match goal with
         | |- context [Qleb ?a ?b] =>
             let E := fresh "E" in
             destruct (Qleb a b) eqn:E; [apply Qleb_le in E | apply Qleb_gt in E]
         | |- context [Qltb ?a ?b] =>
             let E := fresh "E" in
             destruct (Qltb a b) eqn:E; [apply Qltb_lt in E | apply Qltb_ge in E]
         end.

Lemma Math_abs_le a b : Math_abs a <= b <-> - b <= a /\ a <= b.
Proof. apply Qabs_Qle_condition. Qed.

(** X1 (handleMovement): for a frame time that is not negative, the
    horizontal velocity after [handleMovement] lies between the velocity
    before and the velocity the held keys ask for (280 to the right, -280 to
    the left, 0 with no key): acceleration never overshoots the target and
    braking never reverses the direction.  A speed within the 280 px/s cap
    stays within it. *)
Theorem handleMovement_no_overshoot (k : PlayerControl.Keys) (c : PlayerControl.t) :
  0 <= PlayerControl.delta k ->
  between (PlayerControl.velocityX c) (heldVelocity k)
          (PlayerControl.velocityX (PlayerControl.handleMovement k c)) /\
  (Math_abs (PlayerControl.velocityX c) <= PHYSICS.MOVE_SPEED ->
   Math_abs (PlayerControl.velocityX (PlayerControl.handleMovement k c))
     <= PHYSICS.MOVE_SPEED).
Proof.
  intros Hd. rewrite !Math_abs_le.
  unfold between, heldVelocity, PlayerControl.handleMovement, Math_min, Math_max,
    PHYSICS.MOVE_SPEED, PHYSICS.ACCEL, PHYSICS.DECEL, PHYSICS.AIR_CONTROL.
  set (v := PlayerControl.velocityX c). set (d := PlayerControl.delta k) in *.
  destruct (PlayerControl.rightPressed k), (PlayerControl.leftPressed k),
    (PlayerControl.grounded c) eqn:G; cbn -[Qleb Qltb Qmult Qplus Qminus Qdiv Qopp];
    rewrite ?G; fold v;
    q_cases; cbn -[Qleb Qltb Qmult Qplus Qminus Qdiv Qopp]; fold v;
    unfold Qdiv in *; change (/ 1000) with (1 # 1000) in *;
    change (inject_Z 1) with 1 in *; change (inject_Z (-1)) with (-1 # 1) in *;
    (split; [split|intros [? ?]; split]); try lra.
Qed.

Lemma handleMovement_no_overshoot_witness :
  0 <= PlayerControl.delta jumpFromFloor /\
  between (PlayerControl.velocityX PlayerControl.create) (heldVelocity jumpFromFloor)
          (PlayerControl.velocityX
             (PlayerControl.handleMovement jumpFromFloor PlayerControl.create)).
Proof.
  split; [vm_compute; discriminate|].
  apply (handleMovement_no_overshoot jumpFromFloor PlayerControl.create).
  vm_compute; discriminate.
Defined.

Section ControlFacts.

Import PlayerControl.

Lemma dashView_handleMovement k c : dashView (handleMovement k c) = dashView c.
Proof. unfold handleMovement. split_ifs; reflexivity. Qed.

Lemma dashView_handleJump k c :
  State_eqb (currentState c) DASH = false ->
  dashView (handleJump k c) = dashView c.
Proof.
  intros H. unfold handleJump, dashView.
  destruct (jumpPressed k); cbn -[Qltb];
    destruct (Qltb 0 _ && _); cbn -[Qltb];
    split_ifs; cbn; rewrite ?H; reflexivity.
Qed.

Lemma dashView_handleDashInput k c :
  dashView (handleDashInput k c) = dashView c \/
  dashView (handleDashInput k c) = (false, true).
Proof.
  unfold handleDashInput. destruct (dashPressed k && canDash c);
    [right|left]; reflexivity.
Qed.

Lemma dashView_updateState c : dashView (updateState c) = dashView c.
Proof.
  unfold updateState, dashView.
  destruct (State_eqb (currentState c) DASH) eqn:Hs.
  - rewrite Hs. reflexivity.
  - split_ifs; reflexivity.
Qed.

Lemma dashView_updateDash c :
  dashView c = (false, true) ->
  dashView (updateDash c) = (false, true) \/ dashView (updateDash c) = (true, false).
Proof.
  unfold updateDash, dashView. intros H.
  destruct (Qleb _ 0); cbn -[Qleb].
  - right. destruct (grounded _); reflexivity.
  - left. exact H.
Qed.

Lemma gravityMatchesDash_cases c :
  gravityMatchesDash c <-> dashView c = (true, false) \/ dashView c = (false, true).
Proof.
  unfold gravityMatchesDash, dashView.
  destruct (allowGravity c), (State_eqb (currentState c) DASH); cbn;
    split; intros H; try discriminate; try tauto;
    destruct H as [H|H]; discriminate.
Qed.

Lemma dashView_updateGround k c : dashView (updateGround k c) = dashView c.
Proof. unfold updateGround. split_ifs; reflexivity. Qed.

Lemma dashView_updateTimers k c : dashView (updateTimers k c) = dashView c.
Proof. unfold updateTimers. split_ifs; reflexivity. Qed.

Lemma dashView_applyFallGravity k c : dashView (applyFallGravity k c) = dashView c.
Proof. unfold applyFallGravity. split_ifs; reflexivity. Qed.

Lemma dashView_snd c : State_eqb (currentState c) DASH = snd (dashView c).
Proof. reflexivity. Qed.

Lemma gravityMatchesDash_update k c :
  gravityMatchesDash c -> gravityMatchesDash (update k c).
Proof.
  rewrite !gravityMatchesDash_cases. intros H. unfold update.
  set (c1 := updateTimers k (updateGround k c)).
  assert (Hv : dashView c1 = dashView c)
    by (unfold c1; rewrite dashView_updateTimers; apply dashView_updateGround).
  clearbody c1. rewrite <- Hv in H. clear Hv.
  destruct (State_eqb (currentState c1) DASH) eqn:Hs.
  - rewrite dashView_snd in Hs.
    destruct H as [H|H]; [rewrite H in Hs; discriminate|].
    destruct (dashView_updateDash c1 H) as [E|E]; rewrite E; tauto.
  - rewrite dashView_updateState, dashView_applyFallGravity.
    destruct (dashView_handleDashInput k (handleJump k (handleMovement k c1)))
      as [E|E]; rewrite E; [|tauto].
    rewrite dashView_handleJump, dashView_handleMovement; [exact H|].
    rewrite dashView_snd, dashView_handleMovement. exact Hs.
Qed.

Lemma dashView_cooldowns (due : list Q) : forall c,
  dashView (fold_left (fun c _ => set_canDash true c) due c) = dashView c.
Proof.
  induction due as [|ms due IH]; intros c; [reflexivity|].
  cbn [fold_left]. rewrite IH. reflexivity.
Qed.

Lemma dashView_tick delta c : dashView (tick delta c) = dashView c.
Proof. unfold tick. rewrite dashView_cooldowns. reflexivity. Qed.

Lemma gravityMatchesDash_step c i : gravityMatchesDash c -> gravityMatchesDash (step c i).
Proof.
  destruct i as [k|vx vy|delta]; cbn [step].
  - apply gravityMatchesDash_update.
  - intros H. exact H.
  - rewrite !gravityMatchesDash_cases, dashView_tick. tauto.
Qed.

(** *** Jumps *)

Lemma handleJump_launch k c :
  jumpPressed k = true ->
  (grounded c || Qltb 0 (coyoteTimer c)) = true ->
  handleJump k c = jumping k c.
Proof.
  intros Hj Hc. unfold handleJump, jumping. rewrite Hj.
  change (jumpBufferTimer (set_jumpBufferTimer PHYSICS.JUMP_BUFFER_MS c))
    with PHYSICS.JUMP_BUFFER_MS.
  change (Qltb 0 PHYSICS.JUMP_BUFFER_MS) with true.
  change (grounded (set_jumpBufferTimer PHYSICS.JUMP_BUFFER_MS c)) with (grounded c).
  change (coyoteTimer (set_jumpBufferTimer PHYSICS.JUMP_BUFFER_MS c))
    with (coyoteTimer c).
  rewrite Hc. cbn [andb].
  destruct (jumpHeld k); reflexivity.
Qed.

Lemma launched_jumping k c : launched (jumping k c).
Proof. unfold launched, jumping. destruct (jumpHeld k); [left|right]; reflexivity. Qed.

Lemma jumping_fields k c :
  grounded (jumping k c) = grounded c /\ coyoteTimer (jumping k c) = 0 /\
  jumpBufferTimer (jumping k c) = 0 /\ currentState (jumping k c) = JUMP.
Proof. unfold jumping. destruct (jumpHeld k); repeat split; reflexivity. Qed.

Lemma applyFallGravity_rising k c : launched c -> applyFallGravity k c = c.
Proof.
  unfold launched, applyFallGravity. intros [H|H]; rewrite H; reflexivity.
Qed.

Lemma updateState_fields c :
  velocityY (updateState c) = velocityY c /\ grounded (updateState c) = grounded c /\
  coyoteTimer (updateState c) = coyoteTimer c /\
  jumpBufferTimer (updateState c) = jumpBufferTimer c.
Proof.
  unfold updateState.
  destruct (State_eqb (currentState c) DASH); [repeat split; reflexivity|].
  destruct (grounded c) eqn:G; [destruct (Qltb 20 _)|destruct (Qltb _ 0)];
    cbn; rewrite G; repeat split; reflexivity.
Qed.

Lemma updateState_grounded c :
  grounded c = true -> State_eqb (currentState (updateState c)) JUMP = false.
Proof.
  intros Hg. unfold updateState.
  destruct (State_eqb (currentState c) DASH) eqn:E.
  - destruct (currentState c); try discriminate; reflexivity.
  - rewrite Hg. destruct (Qltb 20 _); reflexivity.
Qed.

Lemma launched_ext c c' : velocityY c' = velocityY c -> launched c -> launched c'.
Proof. unfold launched. intros ->. tauto. Qed.

Lemma update_from_floor k c :
  State_eqb (currentState c) DASH = false ->
  onFloor k = true -> jumpPressed k = true -> dashPressed k = false ->
  launched (update k c) /\ grounded (update k c) = true /\
  coyoteTimer (update k c) = 0 /\ jumpBufferTimer (update k c) = 0 /\
  State_eqb (currentState (update k c)) JUMP = false /\
  State_eqb (currentState (update k c)) DASH = false.
Proof.
  intros Hs Hf Hj Hd. unfold update.
  set (c1 := updateTimers k (updateGround k c)).
  assert (Hs1 : State_eqb (currentState c1) DASH = false).
  { rewrite dashView_snd. unfold c1.
    rewrite dashView_updateTimers, dashView_updateGround. exact Hs. }
  assert (Hg1 : grounded c1 = true).
  { unfold c1, updateTimers, updateGround. rewrite <- Hf. split_ifs; reflexivity. }
  clearbody c1. rewrite Hs1.
  set (c2 := handleMovement k c1).
  assert (Hg2 : grounded c2 = true).
  { rewrite <- Hg1. unfold c2, handleMovement. split_ifs; reflexivity. }
  clearbody c2.
  rewrite (handleJump_launch k c2 Hj) by (rewrite Hg2; reflexivity).
  unfold handleDashInput. rewrite Hd. cbn [andb].
  rewrite (applyFallGravity_rising k _ (launched_jumping k c2)).
  destruct (updateState_fields (jumping k c2)) as (Hv & Hg & Hc & Hb).
  destruct (jumping_fields k c2) as (Jg & Jc & Jb & Js).
  split; [exact (launched_ext _ _ Hv (launched_jumping k c2))|].
  split; [rewrite Hg, Jg; exact Hg2|].
  split; [rewrite Hc; exact Jc|].
  split; [rewrite Hb; exact Jb|].
  split; [apply updateState_grounded; rewrite Jg; exact Hg2|].
  rewrite dashView_snd, dashView_updateState. unfold dashView. rewrite Js. reflexivity.
Qed.

Lemma handleDashInput_airborne k c :
  grounded c = false ->
  velocityY (handleDashInput k c) = velocityY c /\
  grounded (handleDashInput k c) = false.
Proof.
  intros Hg. unfold handleDashInput.
  destruct (dashPressed k && canDash c); cbn; rewrite Hg; split; reflexivity.
Qed.

Lemma update_coyote_jump k vx vy c :
  grounded c = true -> State_eqb (currentState c) JUMP = false ->
  State_eqb (currentState c) DASH = false ->
  onFloor k = false -> jumpPressed k = true ->
  PlayerControl.delta k < PHYSICS.COYOTE_MS ->
  launched (update k (physics vx vy c)) /\ grounded (update k (physics vx vy c)) = false.
Proof.
  intros Hg Hj Hs Hf Hp Hd. unfold update.
  set (c1 := updateTimers k (updateGround k (physics vx vy c))).
  assert (Hs1 : State_eqb (currentState c1) DASH = false).
  { rewrite dashView_snd. unfold c1.
    rewrite dashView_updateTimers, dashView_updateGround. exact Hs. }
  assert (Hg1 : grounded c1 = false).
  { unfold c1, updateTimers, updateGround. rewrite <- Hf. split_ifs; reflexivity. }
  assert (Hc1 : Qltb 0 (coyoteTimer c1) = true).
  { unfold c1, updateGround, physics.
    change (grounded (set_velocityY vy (set_velocityX vx c))) with (grounded c).
    rewrite Hg, Hf. cbn [grounded set_grounded andb negb currentState set_velocityY
      set_velocityX].
    rewrite Hj. cbn [andb negb]. unfold updateTimers.
    cbn [coyoteTimer set_coyoteTimer]. change (Qltb 0 PHYSICS.COYOTE_MS) with true.
    cbn iota. apply Qltb_lt.
    assert (forall c', coyoteTimer c' = PHYSICS.COYOTE_MS - PlayerControl.delta k ->
              0 < coyoteTimer c') as Hpos
      by (intros c' ->; unfold PHYSICS.COYOTE_MS in *; lra).
    apply Hpos. split_ifs; reflexivity. }
  clearbody c1. rewrite Hs1.
  set (c2 := handleMovement k c1).
  assert (Hg2 : grounded c2 = false).
  { rewrite <- Hg1. unfold c2, handleMovement. split_ifs; reflexivity. }
  assert (Hc2 : Qltb 0 (coyoteTimer c2) = true).
  { rewrite <- Hc1. unfold c2, handleMovement. split_ifs; reflexivity. }
  clearbody c2.
  rewrite (handleJump_launch k c2 Hp) by (rewrite Hc2; apply orb_true_r).
  destruct (jumping_fields k c2) as (Jg & _).
  destruct (handleDashInput_airborne k (jumping k c2)) as (Dv & Dg);
    [rewrite Jg; exact Hg2|].
  set (c3 := handleDashInput k (jumping k c2)) in *.
  assert (L3 : launched c3) by exact (launched_ext _ _ Dv (launched_jumping k c2)).
  rewrite (applyFallGravity_rising k c3 L3).
  destruct (updateState_fields c3) as (Hv & Hg3 & _).
  split; [exact (launched_ext _ _ Hv L3)|].
  rewrite Hg3. exact Dg.
Qed.

End ControlFacts.

(** X2 (Player.update, handleDashInput, updateDash): whatever the keys, the
    physics and the clock do from a new player on, gravity on the player's
    body is switched off exactly while the controller is in its dash
    state. *)
Theorem gravity_off_iff_dashing (inputs : list PlayerControl.Input) :
  gravityMatchesDash (PlayerControl.run PlayerControl.create inputs).
Proof.
  unfold PlayerControl.run.
  assert (H : gravityMatchesDash PlayerControl.create) by reflexivity.
  revert H. generalize PlayerControl.create.
  induction inputs as [|i inputs IH]; intros c H; [exact H|].
  cbn [fold_left]. apply IH. apply gravityMatchesDash_step. exact H.
Qed.

(** X3 (Player.update, handleJump, updateState): coyote time also opens
    after a jump from the floor.  In the update in which a jump is launched
    from the floor, [updateState] overwrites the JUMP state with IDLE or RUN
    (the player still counts as grounded), so the guard
    [currentState !== State.JUMP] does not hold the coyote timer back in the
    next update, when the player has left the floor: a second press of the
    jump key within 100 ms launches a second jump in mid-air, whatever
    velocity the physics step has left. *)
Theorem ground_jump_reopens_coyote (k1 k2 : PlayerControl.Keys) (vx vy : Q)
  (c : PlayerControl.t) :
  PlayerControl.State_eqb (PlayerControl.currentState c) PlayerControl.DASH = false ->
  PlayerControl.onFloor k1 = true -> PlayerControl.jumpPressed k1 = true ->
  PlayerControl.dashPressed k1 = false ->
  PlayerControl.onFloor k2 = false -> PlayerControl.jumpPressed k2 = true ->
  PlayerControl.delta k2 < PHYSICS.COYOTE_MS ->
  let c1 := PlayerControl.update k1 c in
  let c2 := PlayerControl.update k2 (PlayerControl.physics vx vy c1) in
  launched c1 /\
  PlayerControl.State_eqb (PlayerControl.currentState c1) PlayerControl.JUMP = false /\
  PlayerControl.grounded c2 = false /\ launched c2.
Proof.
  intros Hs Hf1 Hj1 Hd1 Hf2 Hj2 Hd2 c1 c2.
  destruct (update_from_floor k1 c Hs Hf1 Hj1 Hd1) as (L1 & G1 & _ & _ & J1 & D1).
  destruct (update_coyote_jump k2 vx vy c1 G1 J1 D1 Hf2 Hj2 Hd2) as (L2 & G2).
  repeat split; assumption.
Qed.

Lemma ground_jump_reopens_coyote_witness :
  launched (PlayerControl.update jumpFromFloor PlayerControl.create) /\
  launched (PlayerControl.update jumpInAir
              (PlayerControl.physics 0 (-530)
                 (PlayerControl.update jumpFromFloor PlayerControl.create))).
Proof.
  pose proof (ground_jump_reopens_coyote jumpFromFloor jumpInAir 0 (-530)
                PlayerControl.create) as H.
  cbv zeta in H.
  destruct H as (L1 & _ & _ & L2); try reflexivity.
  split; [exact L1 | exact L2].
Defined.

(** ** The arena and the stages of the fight *)

Section ArenaFacts.

Import BossScene.

Ltac push V :=
  repeat match goal with
         | |- context [V (?f ?v ?x)] => progress change (V (f v x)) with (V x)
         | |- context [V (?f ?x)] => progress change (V (f x)) with (V x)
         end.

(** *** Where the boss is *)

Lemma bossPosition_delayedCalls (f : nat -> Q) cb (l : list nat) : forall s,
  bossPosition (fold_left (fun s i => delayedCall (f i) cb s) l s) = bossPosition s.
Proof.
  induction l as [|i l IH]; intros s; [reflexivity|].
  cbn [fold_left]. rewrite IH. reflexivity.
Qed.

Lemma bossPosition_chooseNextAction roll s :
  bossPosition (chooseNextAction roll s) = bossPosition s.
Proof.
  unfold chooseNextAction. split_ifs; try reflexivity.
  unfold startSummon. push bossPosition.
  rewrite (bossPosition_delayedCalls (fun i => 300 + inject_Z (Z.of_nat i) * 200)).
  reflexivity.
Qed.

Lemma bossPosition_runState roll s : bossPosition (runState roll s) = bossPosition s.
Proof.
  unfold runState. destruct (bossState s); try reflexivity.
  - unfold updateIdle. destruct (_ && _); [rewrite bossPosition_chooseNextAction|];
      reflexivity.
  - unfold updateWalking. split_ifs; reflexivity.
  - unfold updateSlash. split_ifs; reflexivity.
  - unfold updateCharge. split_ifs; reflexivity.
  - unfold updateSummon. split_ifs; reflexivity.
  - unfold updateSlam. split_ifs; reflexivity.
  - unfold updateStunned. split_ifs; reflexivity.
Qed.

Lemma bossPosition_checkBossPlayerCollision s :
  bossPosition (checkBossPlayerCollision s) = bossPosition s.
Proof. unfold checkBossPlayerCollision. split_ifs; reflexivity. Qed.

Lemma inArena_ext s s' : bossPosition s' = bossPosition s -> inArena s -> inArena s'.
Proof.
  unfold bossPosition, inArena. intros H. injection H as -> ->. tauto.
Qed.

Lemma inArena_moveBoss delta s : inArena (moveBoss delta s).
Proof.
  unfold inArena, moveBoss.
  cbn [bossX bossY set_bossX set_bossY set_bossHitbox].
  destruct (Clamp_bounds (bossX s + bossVelocityX s * (delta / 1000)) 80 1320)
    as [H1 H2]; [discriminate|].
  destruct (Clamp_bounds (bossY s + bossVelocityY s * (delta / 1000)) 100 580)
    as [H3 H4]; [discriminate|].
  tauto.
Qed.

Lemma inArena_updateBoss delta roll s : inArena s -> inArena (updateBoss delta roll s).
Proof.
  intros H. unfold updateBoss.
  destruct (_ || _); [exact H|].
  destruct (BossState_eqb (bossState s) DEAD); [exact H|].
  eapply inArena_ext; [apply bossPosition_checkBossPlayerCollision|].
  apply inArena_moveBoss.
Qed.

Lemma inArena_runCallback cb s : inArena s -> inArena (runCallback cb s).
Proof.
  intros H. destruct cb; cbn [runCallback];
    try (apply (inArena_ext s); [split_ifs; reflexivity | exact H]).
  unfold inArena in *. cbn. repeat split; try tauto; discriminate.
Qed.

Lemma inArena_runCallbacks (due : list (Q * Callback)) : forall s,
  inArena s -> inArena (fold_left (fun s '(_, cb) => runCallback cb s) due s).
Proof.
  induction due as [|[ms cb] due IH]; intros s H; [exact H|].
  cbn [fold_left]. apply IH. apply inArena_runCallback. exact H.
Qed.

Lemma inArena_tickClock delta s : inArena s -> inArena (tickClock delta s).
Proof. intros H. unfold tickClock. apply inArena_runCallbacks. exact H. Qed.

Lemma bossPosition_bossTakeDamage amount s :
  bossPosition (bossTakeDamage amount s) = bossPosition s.
Proof. unfold bossTakeDamage. split_ifs; reflexivity. Qed.

Lemma bossPosition_playerUpdate fr s : bossPosition (playerUpdate fr s) = bossPosition s.
Proof.
  unfold playerUpdate. destruct (Player.handleAttack _ _) as [p [hitbox|]];
    [|reflexivity].
  unfold onPlayerAttack. split_ifs; rewrite ?bossPosition_bossTakeDamage; reflexivity.
Qed.

Lemma bossPosition_onTriggerOverlap s : bossPosition (onTriggerOverlap s) = bossPosition s.
Proof. unfold onTriggerOverlap. split_ifs; reflexivity. Qed.

Lemma bossPosition_updateVoidOrbs sqrt delta s :
  bossPosition (updateVoidOrbs sqrt delta s) = bossPosition s.
Proof.
  unfold updateVoidOrbs. destruct (updateOrbList _ _ _ _) as [orbs p]. reflexivity.
Qed.

Lemma bossPosition_updateScreenShake s :
  bossPosition (updateScreenShake s) = bossPosition s.
Proof. unfold updateScreenShake. split_ifs; reflexivity. Qed.

Lemma bossPosition_updateTimers delta s :
  bossPosition (updateTimers delta s) = bossPosition s.
Proof. unfold updateTimers. split_ifs; reflexivity. Qed.

Lemma bossPosition_after_updateBoss sqrt fr s :
  bossPosition
    (updateVoidOrbs sqrt (delta fr) (updateScreenShake (updateTimers (delta fr) s))) =
  bossPosition s.
Proof.
  rewrite bossPosition_updateVoidOrbs, bossPosition_updateScreenShake.
  apply bossPosition_updateTimers.
Qed.

Lemma inArena_frame sqrt s fr : inArena s -> inArena (frame sqrt s fr).
Proof.
  intros H. unfold frame, update.
  apply (inArena_ext _ _ (bossPosition_after_updateBoss sqrt fr _)).
  apply inArena_updateBoss.
  match goal with
  | |- inArena (set_player ?p (playerUpdate fr ?pre)) =>
      apply (inArena_ext pre);
        [transitivity (bossPosition (playerUpdate fr pre));
           [reflexivity | apply bossPosition_playerUpdate]|]
  end.
  apply (inArena_tickClock (delta fr)) in H. revert H.
  generalize (tickClock (delta fr) s). intros s1 H.
  destruct (inTrigger fr);
    [apply (inArena_ext _ _ (bossPosition_onTriggerOverlap _))|]; exact H.
Qed.

(** *** The stages of the fight *)

Lemma pendingCount_app p l1 l2 :
  pendingCount p (l1 ++ l2) = (pendingCount p l1 + pendingCount p l2)%nat.
Proof. unfold pendingCount. rewrite List.filter_app, List.length_app. reflexivity. Qed.

Lemma pendingCount_snoc p l ms cb :
  pendingCount p (l ++ [(ms, cb)]) =
  if p cb then S (pendingCount p l) else pendingCount p l.
Proof.
  rewrite pendingCount_app. unfold pendingCount at 2. cbn [List.filter snd].
  destruct (p cb); cbn [length]; lia.
Qed.

Lemma pendingCount_aged p delta (l : list (Q * Callback)) :
  pendingCount p (map (fun '(ms, cb) => (ms - delta, cb)) l) = pendingCount p l.
Proof.
  unfold pendingCount. induction l as [|[ms cb] l IH]; [reflexivity|].
  cbn [map List.filter snd]. destruct (p cb); cbn [length]; rewrite IH; reflexivity.
Qed.

Lemma pendingCount_split p (f g : Q * Callback -> bool) (l : list (Q * Callback)) :
  (forall e, g e = negb (f e)) ->
  (pendingCount p (List.filter f l) + pendingCount p (List.filter g l))%nat =
  pendingCount p l.
Proof.
  intros Hg. unfold pendingCount. induction l as [|e l IH]; [reflexivity|].
  cbn [List.filter]. rewrite Hg. destruct (f e); cbn [negb List.filter];
    destruct (p (snd e)); cbn [length]; lia.
Qed.

Lemma lifeView_eq s s' :
  stage (bossState s') = stage (bossState s) ->
  bossHealth s' = bossHealth s ->
  pendingCount isAwakeningDone (clock s') = pendingCount isAwakeningDone (clock s) ->
  pendingCount isBossDead (clock s') = pendingCount isBossDead (clock s) ->
  lifeView s' = lifeView s.
Proof. unfold lifeView. intros -> -> -> ->. reflexivity. Qed.

(** Reduce a goal [lifeView (f s) = lifeView s] to its four parts, for an
    [f] that unfolds to setters and delayed calls. *)
Ltac life :=
  apply lifeView_eq;
  cbn -[Qleb Qltb Qplus Qminus Qmult Qdiv inject_Z pendingCount stage];
  rewrite ?pendingCount_snoc; cbn [isAwakeningDone isBossDead stage];
  try first [reflexivity | congruence | symmetry; assumption].

Lemma lifeView_delayedCalls (f : nat -> Q) (l : list nat) : forall s,
  lifeView (fold_left (fun s i => delayedCall (f i) SpawnOrb s) l s) = lifeView s.
Proof.
  induction l as [|i l IH]; intros s; [reflexivity|].
  cbn [fold_left]. rewrite IH. life.
Qed.

Lemma lifeView_startSlash s :
  stage (bossState s) = 2%Z -> lifeView (startSlash s) = lifeView s.
Proof. intros H. unfold startSlash. life. Qed.

Lemma lifeView_startCharge s :
  stage (bossState s) = 2%Z -> lifeView (startCharge s) = lifeView s.
Proof. intros H. unfold startCharge. life. Qed.

Lemma lifeView_startSlam s :
  stage (bossState s) = 2%Z -> lifeView (startSlam s) = lifeView s.
Proof. intros H. unfold startSlam. life. Qed.

Lemma lifeView_startSummon s :
  stage (bossState s) = 2%Z -> lifeView (startSummon s) = lifeView s.
Proof.
  intros H. unfold startSummon.
  transitivity (lifeView (fold_left
    (fun s i => delayedCall (300 + inject_Z (Z.of_nat i) * 200) SpawnOrb s)
    (seq 0 (Z.to_nat (bossPhase s)))
    (set_bossVelocityX 0 (set_stateTimer 1500 (set_bossState SUMMON s))))).
  - life.
  - rewrite (lifeView_delayedCalls (fun i => 300 + inject_Z (Z.of_nat i) * 200)). life.
Qed.

Lemma lifeView_chooseNextAction roll s :
  stage (bossState s) = 2%Z -> lifeView (chooseNextAction roll s) = lifeView s.
Proof.
  intros H. unfold chooseNextAction. split_ifs;
    auto using lifeView_startSlash, lifeView_startCharge, lifeView_startSummon,
      lifeView_startSlam.
  life.
Qed.

Lemma lifeView_runState roll s : lifeView (runState roll s) = lifeView s.
Proof.
  unfold runState.
  destruct (bossState s) eqn:E; try reflexivity;
    assert (H : stage (bossState s) = 2%Z) by (rewrite E; reflexivity).
  - unfold updateIdle. destruct (_ && _); [rewrite lifeView_chooseNextAction by exact H|]; life.
  - unfold updateWalking. destruct (_ && _); [rewrite lifeView_startSlash by exact H; life|].
    destruct (Qleb _ 0); life.
  - unfold updateSlash. destruct (Qleb _ 0); life.
  - unfold updateCharge. destruct (Geom.Overlaps _ _); [life|].
    destruct (_ || _); destruct (Qleb _ 0); life.
  - unfold updateSummon. destruct (Qleb _ 0); life.
  - unfold updateSlam. destruct (Qleb _ 0); life.
  - unfold updateStunned. destruct (Qleb _ 0); life.
Qed.

Lemma lifeView_moveBoss delta s : lifeView (moveBoss delta s) = lifeView s.
Proof. reflexivity. Qed.

Lemma lifeView_checkBossPlayerCollision s :
  lifeView (checkBossPlayerCollision s) = lifeView s.
Proof. unfold checkBossPlayerCollision. split_ifs; reflexivity. Qed.

Lemma lifeView_updateBoss delta roll s : lifeView (updateBoss delta roll s) = lifeView s.
Proof.
  unfold updateBoss.
  destruct (_ || _); [reflexivity|].
  destruct (BossState_eqb (bossState s) DEAD); [reflexivity|].
  rewrite lifeView_checkBossPlayerCollision, lifeView_moveBoss, lifeView_runState.
  reflexivity.
Qed.

Lemma lifeView_updateVoidOrbs sqrt delta s :
  lifeView (updateVoidOrbs sqrt delta s) = lifeView s.
Proof.
  unfold updateVoidOrbs. destruct (updateOrbList _ _ _ _) as [orbs p]. reflexivity.
Qed.

Lemma lifeView_updateScreenShake s : lifeView (updateScreenShake s) = lifeView s.
Proof. unfold updateScreenShake. split_ifs; reflexivity. Qed.

Lemma lifeView_updateTimers delta s : lifeView (updateTimers delta s) = lifeView s.
Proof. unfold updateTimers. split_ifs; reflexivity. Qed.

(** Every delayed call but the end of the awakening and the end of the
    death sequence leaves the stage alone. *)
Lemma lifeView_runCallback cb s :
  isAwakeningDone cb = false -> isBossDead cb = false ->
  lifeView (runCallback cb s) = lifeView s.
Proof.
  intros Ha Hd. destruct cb; try discriminate; cbn [runCallback];
    unfold spawnVoidOrb, createSlamWave, transitionOut, cue; split_ifs; life.
Qed.

Ltac life_cases H :=
  unfold lifeOK in H; cbn [stage] in H;
  destruct H as [(?&?&?)|[(?&?&?)|[(?&?&?)|[(?&?&?)|(?&?)]]]].

Ltac life_pick :=
  unfold lifeOK;
  first [ solve [left; repeat split; first [assumption | lia]]
        | solve [right; left; repeat split; first [assumption | lia]]
        | solve [right; right; left; repeat split; first [assumption | lia]]
        | solve [right; right; right; left; repeat split; first [assumption | lia]]
        | solve [right; right; right; right; repeat split; first [assumption | lia]] ].

Lemma advances_same s s' : lifeView s' = lifeView s -> lifeOK (lifeView s) -> advances s s'.
Proof.
  intros H Hok. split; [rewrite H; exact Hok|].
  unfold lifeView in H. injection H as H _ _ _. lia.
Qed.

Lemma advances_after s1 s2 s3 :
  (stage (bossState s1) <= stage (bossState s2))%Z -> advances s2 s3 -> advances s1 s3.
Proof. unfold advances. intros H1 [Hok H2]. split; [exact Hok | lia]. Qed.

Lemma life_runCallbacks (due : list (Q * Callback)) : forall s,
  lifeOK (stage (bossState s), bossHealth s,
          (pendingCount isAwakeningDone (clock s) + pendingCount isAwakeningDone due)%nat,
          (pendingCount isBossDead (clock s) + pendingCount isBossDead due)%nat) ->
  advances s (fold_left (fun s '(_, cb) => runCallback cb s) due s).
Proof.
  induction due as [|[ms cb] due IH]; intros s Hok.
  - cbn [fold_left]. unfold pendingCount at 2 4 in Hok. cbn [List.filter length] in Hok.
    rewrite !Nat.add_0_r in Hok. split; [exact Hok | lia].
  - cbn [fold_left].
    change ((ms, cb) :: due) with ([(ms, cb)] ++ due) in Hok.
    rewrite !(pendingCount_app _ [(ms, cb)] due) in Hok.
    unfold pendingCount at 2 5 in Hok. cbn [List.filter snd] in Hok.
    destruct (isAwakeningDone cb) eqn:Ea; [|destruct (isBossDead cb) eqn:Ed].
    + destruct cb; try discriminate. cbn [isBossDead length] in Hok.
      apply (advances_after _ (runCallback AwakeningDone s)).
      * cbn [runCallback bossState set_bossState set_stateTimer stage].
        life_cases Hok; lia.
      * apply IH.
        cbn [runCallback bossState bossHealth clock set_bossState set_stateTimer stage].
        life_cases Hok; try lia; life_pick.
    + destruct cb; try discriminate. cbn [isAwakeningDone length] in Hok.
      assert (Hc : clock (runCallback BossDead s) = clock s ++ [(6000, ReturnToMenu)])
        by reflexivity.
      apply (advances_after _ (runCallback BossDead s)).
      * cbn [runCallback showVictory cue delayedCall bossState set_clock
               set_effects set_bossState stage].
        life_cases Hok; lia.
      * apply IH. rewrite Hc, !pendingCount_snoc.
        cbn [runCallback showVictory cue delayedCall bossState bossHealth set_clock
               set_effects set_bossState stage isAwakeningDone isBossDead].
        life_cases Hok; try lia; life_pick.
    + cbn [length] in Hok. rewrite !Nat.add_0_l in Hok.
      pose proof (lifeView_runCallback cb s Ea Ed) as Hv.
      unfold lifeView in Hv. injection Hv as H1 H2 H3 H4.
      apply (advances_after _ (runCallback cb s)); [lia|].
      apply IH. rewrite H1, H2, H3, H4. exact Hok.
Qed.

Lemma life_tickClock delta s : lifeOK (lifeView s) -> advances s (tickClock delta s).
Proof.
  intros Hok. unfold tickClock.
  match goal with
  | |- advances s (fold_left _ ?due (set_player ?p (set_clock ?rest s))) =>
      apply (advances_after _ (set_player p (set_clock rest s)));
        [cbn [bossState set_player set_clock]; lia|];
      apply life_runCallbacks;
      cbn [bossState bossHealth clock set_player set_clock];
      pose proof (pendingCount_split isAwakeningDone
                    (fun '(ms, _) => Qleb ms 0) (fun '(ms, _) => negb (Qleb ms 0))
                    (map (fun '(ms, cb) => (ms - delta, cb)) (clock s))
                    (fun '(ms, _) => eq_refl)) as Ha;
      pose proof (pendingCount_split isBossDead
                    (fun '(ms, _) => Qleb ms 0) (fun '(ms, _) => negb (Qleb ms 0))
                    (map (fun '(ms, cb) => (ms - delta, cb)) (clock s))
                    (fun '(ms, _) => eq_refl)) as Hd
  end.
  rewrite pendingCount_aged in Ha, Hd.
  unfold lifeView in Hok.
  match type of Ha with
  | (?a1 + ?a2)%nat = _ =>
      match type of Hd with
      | (?d1 + ?d2)%nat = _ =>
          replace (pendingCount isAwakeningDone (clock s)) with (a2 + a1)%nat in Hok by lia;
          replace (pendingCount isBossDead (clock s)) with (d2 + d1)%nat in Hok by lia
      end
  end.
  exact Hok.
Qed.

Lemma life_onTriggerOverlap s : lifeOK (lifeView s) -> advances s (onTriggerOverlap s).
Proof.
  intros Hok. unfold onTriggerOverlap.
  destruct (triggerZone s && BossState_eqb (bossState s) DORMANT) eqn:E;
    [|apply advances_same; [reflexivity | exact Hok]].
  apply andb_true_iff in E. destruct E as [_ E].
  assert (Hs : bossState s = DORMANT) by (destruct (bossState s); try discriminate; reflexivity).
  unfold advances, lifeView in *. rewrite Hs in *.
  unfold startBossFight.
  cbn -[Qleb Qltb Qplus Qminus Qmult Qdiv inject_Z pendingCount].
  rewrite !pendingCount_snoc. cbn [isAwakeningDone isBossDead].
  split; [|lia]. life_cases Hok; try lia; life_pick.
Qed.

Lemma life_bossTakeDamage s :
  lifeOK (lifeView s) ->
  (stage (bossState s) = 2 \/ stage (bossState s) = 3)%Z ->
  advances s (bossTakeDamage 1 s).
Proof.
  intros Hok Hst. unfold bossTakeDamage.
  match goal with
  | |- advances s (if Qleb (bossHealth ?x) 0 then _ else _) => set (s2 := x)
  end.
  assert (Hh : bossHealth s2 = bossHealth s - 1)
    by (unfold s2, transitionToPhase; split_ifs; reflexivity).
  assert (Ha : pendingCount isAwakeningDone (clock s2) =
               pendingCount isAwakeningDone (clock s))
    by (unfold s2, transitionToPhase; split_ifs; reflexivity).
  assert (Hd : pendingCount isBossDead (clock s2) = pendingCount isBossDead (clock s))
    by (unfold s2, transitionToPhase; split_ifs; reflexivity).
  assert (S2 : stage (bossState s) = 2%Z -> stage (bossState s2) = 2%Z)
    by (intros H; unfold s2, transitionToPhase; split_ifs; try exact H; reflexivity).
  clearbody s2.
  destruct (Qleb (bossHealth s2) 0) eqn:E.
  - apply Qleb_le in E. unfold advances, lifeView, startBossDeath, cue.
    cbn -[Qleb Qltb Qplus Qminus Qmult Qdiv inject_Z pendingCount].
    rewrite !pendingCount_snoc. cbn [isAwakeningDone isBossDead].
    rewrite Ha. split; [|lia].
    life_cases Hok; try lia; unfold lifeOK; right; right; right; left;
      repeat split; try lia; exact E.
  - apply Qleb_gt in E. unfold advances, lifeView. rewrite Hh, Ha, Hd.
    rewrite Hh in E.
    destruct Hst as [Hst|Hst].
    + rewrite (S2 Hst), Hst. split; [|lia].
      life_cases Hok; try lia; life_pick.
    + life_cases Hok; try lia. exfalso. lra.
Qed.

Lemma life_playerUpdate fr s : lifeOK (lifeView s) -> advances s (playerUpdate fr s).
Proof.
  intros Hok. unfold playerUpdate.
  destruct (Player.handleAttack _ _) as [p [hitbox|]];
    [|apply advances_same; [reflexivity | exact Hok]].
  unfold onPlayerAttack.
  destruct (BossState_eqb (bossState (set_player p s)) DORMANT ||
            BossState_eqb (bossState (set_player p s)) AWAKENING ||
            BossState_eqb (bossState (set_player p s)) DEAD ||
            Qltb 0 (invincibleTimer (set_player p s))) eqn:E;
    [apply advances_same; [reflexivity | exact Hok]|].
  destruct (Geom.Overlaps _ _); [|apply advances_same; [reflexivity | exact Hok]].
  apply (advances_after _ (set_player p s)); [cbn [bossState set_player]; lia|].
  apply life_bossTakeDamage; [exact Hok|].
  cbn [bossState set_player] in *.
  destruct (bossState s); cbn in E; try discriminate; cbn; tauto.
Qed.

Lemma life_frame sqrt s fr : lifeOK (lifeView s) -> advances s (frame sqrt s fr).
Proof.
  intros Hok. unfold frame, update.
  pose proof (life_tickClock (delta fr) s Hok) as H1.
  set (s1 := tickClock (delta fr) s) in *.
  set (s2 := set_player (Player.moveTo (playerX fr) (playerY fr) (playerBody fr)
                           (playerFacing fr) (player s1)) s1).
  assert (H2 : advances s s2) by exact H1.
  set (s3 := if inTrigger fr then onTriggerOverlap s2 else s2).
  assert (H3 : advances s s3).
  { unfold s3. destruct (inTrigger fr); [|exact H2].
    destruct H2 as [Hok2 Hle]. apply (advances_after _ s2); [exact Hle|].
    apply life_onTriggerOverlap. exact Hok2. }
  clearbody s3. clear s1 s2 H1 H2.
  destruct H3 as [Hok3 Hle3].
  apply (advances_after _ s3); [exact Hle3|].
  pose proof (life_playerUpdate fr s3 Hok3) as [Hok4 Hle4].
  set (s4 := playerUpdate fr s3) in *. clearbody s4.
  apply (advances_after _ s4); [exact Hle4|].
  apply advances_same; [|exact Hok4].
  rewrite lifeView_updateVoidOrbs, lifeView_updateScreenShake, lifeView_updateTimers,
    lifeView_updateBoss.
  reflexivity.
Qed.

(** *** The hit rectangle *)

Lemma bossBody_checkBossPlayerCollision s :
  bossBody (checkBossPlayerCollision s) = bossBody s.
Proof. unfold checkBossPlayerCollision. split_ifs; reflexivity. Qed.

Lemma bossBody_after_updateBoss sqrt delta s :
  bossBody (updateVoidOrbs sqrt delta (updateScreenShake (updateTimers delta s))) =
  bossBody s.
Proof.
  unfold updateVoidOrbs. destruct (updateOrbList _ _ _ _) as [orbs p].
  transitivity (bossBody (updateScreenShake (updateTimers delta s))); [reflexivity|].
  transitivity (bossBody (updateTimers delta s)).
  - unfold updateScreenShake. split_ifs; reflexivity.
  - unfold updateTimers. split_ifs; reflexivity.
Qed.

Lemma hitboxOnBoss_ext s s' : bossBody s' = bossBody s -> hitboxOnBoss s -> hitboxOnBoss s'.
Proof.
  unfold bossBody, bossPosition, hitboxOnBoss. intros H.
  injection H as _ -> -> ->. tauto.
Qed.

Lemma hitboxOnBoss_moveBoss delta s : hitboxOnBoss (moveBoss delta s).
Proof. split; reflexivity. Qed.

Lemma hitboxOnBoss_updateBoss delta roll s :
  (stage (bossState (updateBoss delta roll s)) = 2 \/
   stage (bossState (updateBoss delta roll s)) = 3)%Z ->
  hitboxOnBoss (updateBoss delta roll s).
Proof.
  unfold updateBoss.
  destruct (BossState_eqb (bossState s) DORMANT || BossState_eqb (bossState s) AWAKENING)
    eqn:E1.
  { destruct (bossState s); try discriminate; cbn [stage]; intros [H|H]; discriminate. }
  destruct (BossState_eqb (bossState s) DEAD) eqn:E2.
  { destruct (bossState s); try discriminate; cbn [stage]; intros [H|H]; discriminate. }
  intros _.
  eapply hitboxOnBoss_ext; [apply bossBody_checkBossPlayerCollision|].
  apply hitboxOnBoss_moveBoss.
Qed.

Lemma hitboxOnBoss_after delta roll s s' :
  bossBody s' = bossBody (updateBoss delta roll s) ->
  (stage (bossState s') = 2 \/ stage (bossState s') = 3)%Z ->
  hitboxOnBoss s'.
Proof.
  intros Hb H. apply (hitboxOnBoss_ext _ _ Hb). apply hitboxOnBoss_updateBoss.
  assert (Hs : bossState s' = bossState (updateBoss delta roll s))
    by exact (f_equal (fun b => fst (fst b)) Hb).
  rewrite <- Hs. exact H.
Qed.

(** *** What moves the hit rectangle *)

Lemma bossHitbox_runCallback cb s : bossHitbox (runCallback cb s) = bossHitbox s.
Proof. destruct cb; cbn [runCallback]; try reflexivity; split_ifs; reflexivity. Qed.

Lemma bossHitbox_runCallbacks (due : list (Q * Callback)) : forall s,
  bossHitbox (fold_left (fun s '(_, cb) => runCallback cb s) due s) = bossHitbox s.
Proof.
  induction due as [|[ms cb] due IH]; intros s; [reflexivity|].
  cbn [fold_left]. rewrite IH. apply bossHitbox_runCallback.
Qed.

Lemma bossHitbox_tickClock delta s : bossHitbox (tickClock delta s) = bossHitbox s.
Proof. unfold tickClock. rewrite bossHitbox_runCallbacks. reflexivity. Qed.

Lemma bossHitbox_onTriggerOverlap s : bossHitbox (onTriggerOverlap s) = bossHitbox s.
Proof. unfold onTriggerOverlap. split_ifs; reflexivity. Qed.

Lemma bossHitbox_bossTakeDamage amount s :
  bossHitbox (bossTakeDamage amount s) = bossHitbox s.
Proof. unfold bossTakeDamage. split_ifs; reflexivity. Qed.

Lemma bossHitbox_playerUpdate fr s : bossHitbox (playerUpdate fr s) = bossHitbox s.
Proof.
  unfold playerUpdate. destruct (Player.handleAttack _ _) as [p [hitbox|]];
    [|reflexivity].
  unfold onPlayerAttack. split_ifs; rewrite ?bossHitbox_bossTakeDamage; reflexivity.
Qed.

(** The rectangle [update] finds is the one the frame before left. *)
Lemma bossHitbox_beforeUpdate s fr : bossHitbox (beforeUpdate s fr) = bossHitbox s.
Proof.
  unfold beforeUpdate. cbv zeta.
  destruct (inTrigger fr); rewrite ?bossHitbox_onTriggerOverlap;
    apply bossHitbox_tickClock.
Qed.

Lemma hitboxPlaced_after delta roll s x s' :
  bossBody s' = bossBody (updateBoss delta roll x) ->
  bossHitbox x = bossHitbox s ->
  (stage (bossState s) <= stage (bossState s'))%Z ->
  hitboxPlaced s -> hitboxPlaced s'.
Proof.
  intros Hbody Hx Hle [Hrest Hon].
  assert (Hst : bossState s' = bossState (updateBoss delta roll x))
    by (unfold bossBody in Hbody; congruence).
  assert (Hhb : bossHitbox s' = bossHitbox (updateBoss delta roll x))
    by (unfold bossBody in Hbody; congruence).
  pose proof (lifeView_updateBoss delta roll x) as Hlv.
  assert (Hsx : stage (bossState (updateBoss delta roll x)) = stage (bossState x))
    by (unfold lifeView in Hlv; congruence).
  split.
  - intros Hlt. rewrite Hst, Hsx in Hlt.
    assert (Hsame : updateBoss delta roll x = x).
    { unfold updateBoss. destruct (bossState x); cbn in Hlt |- *; try reflexivity; lia. }
    rewrite Hhb, Hsame, Hx. apply Hrest.
    rewrite Hst, Hsame in Hle. lia.
  - intros H23. apply (hitboxOnBoss_after delta roll x s' Hbody H23).
Qed.

Lemma bossHitbox_update_start fr s0 :
  bossHitbox (set_player (Player.checkDeathPit (720 + 50) (player (playerUpdate fr s0)))
                (playerUpdate fr s0)) = bossHitbox s0.
Proof.
  transitivity (bossHitbox (playerUpdate fr s0));
    [reflexivity | apply bossHitbox_playerUpdate].
Qed.

Lemma hitboxPlaced_frame sqrt s fr :
  lifeOK (lifeView s) -> hitboxPlaced s -> hitboxPlaced (frame sqrt s fr).
Proof.
  intros Hlife Hp.
  destruct (life_frame sqrt s fr Hlife) as [_ Hle].
  revert Hle. unfold frame, update. intros Hle.
  match goal with
  | |- hitboxPlaced (updateVoidOrbs ?q ?d (updateScreenShake
                       (updateTimers ?d (updateBoss ?d ?r ?x)))) =>
      apply (hitboxPlaced_after d r s x _
               (bossBody_after_updateBoss q d (updateBoss d r x)));
        [|exact Hle | exact Hp]
  end.
  rewrite bossHitbox_update_start.
  destruct (inTrigger fr); rewrite ?bossHitbox_onTriggerOverlap;
    apply bossHitbox_tickClock.
Qed.

End ArenaFacts.

(** X4 (updateBoss, startSlam): over every run of frames from [create()],
    the boss stays inside the arena: its x between 80 and 1320 and its y
    between 100 and 580, at the end of every frame, whatever attack it is
    in (walk, charge, the slam's leap, teleporting tweens) and whatever the
    player does. *)
Theorem boss_stays_in_arena (Math_sqrt : Q -> Q) (frames : list BossScene.Frame) :
  Forall inArena (BossScene.history Math_sqrt BossScene.create frames).
Proof.
  unfold BossScene.history.
  assert (H : inArena BossScene.create) by (unfold inArena; cbn; repeat split; discriminate).
  revert H. generalize BossScene.create.
  induction frames as [|fr frames IH]; intros s H; cbn [trajectory].
  - constructor; [exact H | constructor].
  - constructor; [exact H|]. apply IH. apply inArena_frame. exact H.
Qed.

(** X5 (update, updateBoss, startBossFight, bossTakeDamage, startBossDeath):
    over every run of frames from [create()], the stage of the encounter
    never goes back: asleep, waking, fighting (Idle to Stunned), dying,
    dead.  So the battle trigger starts the fight only once, a boss that
    has started to die never fights again, and a dead boss stays dead. *)
Theorem fight_never_goes_back (Math_sqrt : Q -> Q) (frames : list BossScene.Frame) :
  Sorted Z.le
    (List.map (fun s => stage (BossScene.bossState s))
       (BossScene.history Math_sqrt BossScene.create frames)).
Proof.
  unfold BossScene.history.
  assert (H : lifeOK (lifeView BossScene.create)) by (left; repeat split; reflexivity).
  revert H. generalize BossScene.create.
  induction frames as [|fr frames IH]; intros s H; cbn [trajectory List.map].
  - repeat constructor.
  - destruct (life_frame Math_sqrt s fr H) as [Hok Hle].
    constructor; [apply IH; exact Hok|].
    destruct (trajectory_head (BossScene.frame Math_sqrt) frames
                (BossScene.frame Math_sqrt s fr)) as [rest ->].
    cbn [List.map]. constructor. exact Hle.
Qed.

(** X6 (createBoss, updateBoss, update): the boss's hit rectangle is moved
    by [updateBoss] only.  Over every run of frames from [create()], at the
    end of every frame: while the boss has not begun to fight (Dormant,
    Awakening) the rectangle is still where [createBoss] put it, at
    (-30, -50); while the boss fights or dies it is on the boss (30 px left
    of and 50 px above its position).  The nail listener runs from
    [player.update], before [updateBoss]: in every frame it tests the
    rectangle the frame before has left.  So in the frame in which the
    awakening ends the boss is Idle and the nail still tests the creation
    rectangle. *)
Theorem hitbox_follows_boss (Math_sqrt : Q -> Q) (frames : list BossScene.Frame) :
  Forall hitboxPlaced (BossScene.history Math_sqrt BossScene.create frames) /\
  (forall s fr,
     BossScene.frame Math_sqrt s fr = BossScene.update Math_sqrt fr (beforeUpdate s fr) /\
     BossScene.bossHitbox (beforeUpdate s fr) = BossScene.bossHitbox s) /\
  (BossScene.bossState
     (beforeUpdate (BossScene.run isqrt BossScene.create stillWaking) (Fight.stand 500 true)) =
     BossScene.IDLE /\
   BossScene.bossHitbox
     (beforeUpdate (BossScene.run isqrt BossScene.create stillWaking) (Fight.stand 500 true)) =
     creationHitbox).
Proof.
  split; [|split].
  - unfold BossScene.history.
    assert (H : lifeOK (lifeView BossScene.create) /\ hitboxPlaced BossScene.create).
    { split; [left; repeat split; reflexivity|].
      split; [reflexivity | cbn; intros [H | H]; discriminate]. }
    apply (List.Forall_impl hitboxPlaced
             (P := fun s => lifeOK (lifeView s) /\ hitboxPlaced s));
      [intros a Ha; exact (proj2 Ha)|].
    apply (trajectory_Forall (BossScene.frame Math_sqrt) (fun _ => True)
             (fun s => lifeOK (lifeView s) /\ hitboxPlaced s));
      [|apply Forall_any | exact H].
    intros s fr _ [Hl Hp]. split.
    + apply (life_frame Math_sqrt s fr Hl).
    + apply hitboxPlaced_frame; assumption.
  - intros s fr. split; [reflexivity | apply bossHitbox_beforeUpdate].
  - split; vm_compute; reflexivity.
Qed.

(** ** Orbs, summons and screen shake *)

Section SceneFacts2.

Import BossScene.

Lemma updateVoidOrb_player sqrt delta p o :
  snd (updateVoidOrb sqrt delta p o) = p \/
  exists x, snd (updateVoidOrb sqrt delta p o) = Player.takeDamage 1 x p.
Proof.
  unfold updateVoidOrb.
  destruct (negb (active o)); [left; reflexivity|].
  destruct (Qleb _ 0); [left; reflexivity|].
  cbn [chasing ox oy]. destruct (chasing o); [|left; reflexivity].
  destruct (Qltb _ 30); [|left; reflexivity].
  right. eexists. reflexivity.
Qed.

Lemma updateOrbList_invincible sqrt delta (orbs : list Orb) : forall p,
  Player.invincible p = true -> snd (updateOrbList sqrt delta p orbs) = p.
Proof.
  induction orbs as [|o orbs IH]; intros p Hp; [reflexivity|].
  cbn [updateOrbList].
  destruct (updateVoidOrb_player sqrt delta p o) as [H|[x H]];
    destruct (updateVoidOrb sqrt delta p o) as [kept p1]; cbn [snd] in H; subst p1.
  - specialize (IH p Hp). destruct (updateOrbList sqrt delta p orbs) as [rest' p2].
    exact IH.
  - rewrite (Player_takeDamage_invincible 1 x p Hp).
    specialize (IH p Hp). destruct (updateOrbList sqrt delta p orbs) as [rest' p2].
    exact IH.
Qed.

Lemma pendingCount_app' p l1 l2 :
  pendingCount p (l1 ++ l2) = (pendingCount p l1 + pendingCount p l2)%nat.
Proof. unfold pendingCount. rewrite List.filter_app, List.length_app. reflexivity. Qed.

Lemma spawns_delayedCalls (f : nat -> Q) (l : list nat) : forall s,
  pendingCount isSpawnOrb
    (clock (fold_left (fun s i => delayedCall (f i) SpawnOrb s) l s)) =
  (pendingCount isSpawnOrb (clock s) + length l)%nat.
Proof.
  induction l as [|i l IH]; intros s; cbn [fold_left length]; [lia|].
  rewrite IH. unfold delayedCall. cbn [clock set_clock].
  rewrite pendingCount_app'. unfold pendingCount at 2. cbn. lia.
Qed.

Lemma shake_step s :
  0 <= screenShakeIntensity s ->
  0 <= screenShakeIntensity (updateScreenShake s) /\
  screenShakeIntensity (updateScreenShake s) <= screenShakeIntensity s * (9 # 10) /\
  (screenShakeIntensity (updateScreenShake s) == 0 \/
   1 # 2 <= screenShakeIntensity (updateScreenShake s)).
Proof.
  intros H. unfold updateScreenShake.
  destruct (Qltb 0 (screenShakeIntensity s)) eqn:E.
  - apply Qltb_lt in E. cbn [screenShakeIntensity set_screenShakeIntensity].
    destruct (Qltb (screenShakeIntensity s * (9 # 10)) (1 # 2)) eqn:E2;
      [apply Qltb_lt in E2 | apply Qltb_ge in E2];
      cbn [screenShakeIntensity set_screenShakeIntensity].
    + split; [lra|]. split; [lra|]. left. reflexivity.
    + split; [lra|]. split; [lra|]. right. exact E2.
  - apply Qltb_ge in E. split; [lra|]. split; [lra|]. left. lra.
Qed.

Lemma shakeFrames_bound k : forall s,
  0 <= screenShakeIntensity s -> screenShakeIntensity s <= 20 ->
  0 <= screenShakeIntensity (shakeFrames k s) /\
  screenShakeIntensity (shakeFrames k s) <= shakeBound k.
Proof.
  induction k as [|k IH]; intros s H0 H20; cbn [shakeFrames shakeBound].
  - split; assumption.
  - destruct (IH s H0 H20) as [Ha Hb].
    destruct (shake_step (shakeFrames k s) Ha) as (H1 & H2 & _).
    split; [exact H1|]. lra.
Qed.

Lemma shakeFrames_S k s :
  shakeFrames (S k) s = updateScreenShake (shakeFrames k s).
Proof. reflexivity. Qed.

End SceneFacts2.

(** X7 (updateVoidOrbs): however many armed orbs are within the hit radius
    in one update, the player is damaged at most once in it: after the
    update the player is as before, or as after a single [takeDamage(1, x)];
    an invincible player comes out unchanged. *)
Theorem orbs_hit_at_most_once (Math_sqrt : Q -> Q) (delta : Q)
  (orbs : list BossScene.Orb) (p : Player.t) :
  (snd (BossScene.updateOrbList Math_sqrt delta p orbs) = p \/
   exists x, snd (BossScene.updateOrbList Math_sqrt delta p orbs) = Player.takeDamage 1 x p) /\
  (Player.invincible p = true ->
   snd (BossScene.updateOrbList Math_sqrt delta p orbs) = p).
Proof.
  split; [|apply updateOrbList_invincible].
  revert p. induction orbs as [|o orbs IH]; intros p; [left; reflexivity|].
  cbn [BossScene.updateOrbList].
  destruct (updateVoidOrb_player Math_sqrt delta p o) as [H|[x H]];
    destruct (BossScene.updateVoidOrb Math_sqrt delta p o) as [kept p1];
    cbn [snd] in H; subst p1.
  - specialize (IH p).
    destruct (BossScene.updateOrbList Math_sqrt delta p orbs) as [rest' p2]. exact IH.
  - pose proof (updateOrbList_invincible Math_sqrt delta orbs (Player.takeDamage 1 x p)
                  (Player_takeDamage_opens_window 1 x p)) as Hi.
    destruct (BossScene.updateOrbList Math_sqrt delta (Player.takeDamage 1 x p) orbs)
      as [rest' p2].
    cbn [snd] in *. right. exists x. exact Hi.
Qed.

(** A player still invincible from an earlier hit, with an armed orb 10 px
    away: the update leaves the player as it is. *)
Lemma orbs_hit_at_most_once_witness :
  snd (BossScene.updateOrbList isqrt 16 (Player.takeDamage 1 0 freshPlayer) [closeOrb]) =
  Player.takeDamage 1 0 freshPlayer.
Proof.
  apply (proj2 (orbs_hit_at_most_once isqrt 16 [closeOrb] (Player.takeDamage 1 0 freshPlayer))).
  reflexivity.
Defined.

(** X8 (startSummon, spawnVoidOrb): a summon schedules exactly as many orb
    spawns as the boss's phase number, and each spawn adds exactly one orb,
    not yet armed, with a lifetime of 3000 ms, aimed at where the player
    stands when it spawns. *)
Theorem summon_spawns_phase_orbs (s : BossScene.t) :
  pendingCount isSpawnOrb (BossScene.clock (BossScene.startSummon s)) =
    (pendingCount isSpawnOrb (BossScene.clock s) + Z.to_nat (BossScene.bossPhase s))%nat /\
  exists orb,
    BossScene.voidOrbs (BossScene.runCallback BossScene.SpawnOrb s) =
      BossScene.voidOrbs s ++ [orb] /\
    BossScene.chasing orb = false /\ BossScene.lifetime orb = 3000 /\
    BossScene.targetX orb = Player.x (BossScene.player s) /\
    BossScene.targetY orb = Player.y (BossScene.player s).
Proof.
  split.
  - unfold BossScene.startSummon.
    cbn [BossScene.clock BossScene.set_attackCooldown].
    rewrite (spawns_delayedCalls (fun i => 300 + inject_Z (Z.of_nat i) * 200)).
    rewrite List.length_seq. reflexivity.
  - eexists. repeat split.
Qed.

(** X9 (update, "Screen shake" block): a screen shake always dies out.
    From any intensity between 0 and 20 (the strongest the scene sets, at
    the boss's death), 36 frames without a new shake bring the intensity
    to zero. *)
Theorem screen_shake_dies_out (s : BossScene.t) :
  0 <= BossScene.screenShakeIntensity s -> BossScene.screenShakeIntensity s <= 20 ->
  BossScene.screenShakeIntensity (shakeFrames 36 s) == 0.
Proof.
  intros H0 H20.
  rewrite (shakeFrames_S 35 s).
  destruct (shakeFrames_bound 35 s H0 H20) as [Ha Hb].
  destruct (shake_step (shakeFrames 35 s) Ha) as (H1 & H2 & [H3|H3]); [exact H3|].
  exfalso.
  assert (Hk : shakeBound 35 * (9 # 10) < 1 # 2) by (vm_compute; reflexivity).
  lra.
Qed.

Lemma screen_shake_dies_out_witness :
  BossScene.screenShakeIntensity
    (shakeFrames 36 (BossScene.startBossDeath BossScene.create)) == 0.
Proof.
  apply (screen_shake_dies_out (BossScene.startBossDeath BossScene.create));
    vm_compute; discriminate.
Defined.

(** ** The flyer's and the crawler's behaviour *)

Lemma Enemy_updateHurt_keeps delta e :
  (Enemy.x (Enemy.updateHurt delta e), Enemy.y (Enemy.updateHurt delta e),
   Enemy.damage (Enemy.updateHurt delta e), Enemy.speed (Enemy.updateHurt delta e),
   Enemy.velocityX (Enemy.updateHurt delta e)) =
  (Enemy.x e, Enemy.y e, Enemy.damage e, Enemy.speed e, Enemy.velocityX e).
Proof. unfold Enemy.updateHurt. split_ifs; reflexivity. Qed.

(** Facing the player and the collision check keep the behaviour state
    and what entering it has set up. *)
Lemma Flyer_after_behaviour fr player g :
  let f' :=
    fst (Flyer.checkPlayerCollision fr player
           (Flyer.set_base (Enemy.facePlayer (Player.x player) (Flyer.base g)) g)) in
  Flyer.currentState f' = Flyer.currentState g /\
  (Flyer_entered player g -> Flyer_entered player f').
Proof.
  cbv zeta. unfold Flyer.checkPlayerCollision, Flyer_entered.
  destruct (Geom.Overlaps _ _); [destruct (_ =? _)%Z|]; cbn [fst];
    (split; [reflexivity|]);
    cbn [Flyer.currentState Flyer.set_retreatTimer Flyer.set_state Flyer.set_base
           Flyer.hoverOffset Flyer.trackTimer Flyer.trackDuration Flyer.swoopTarget
           Flyer.retreatTimer Flyer.retreatDuration];
    destruct (Flyer.currentState g); try tauto.
Qed.

Section FlyerBehaviour.

Variable Math_sqrt Math_sin : Q -> Q.

Lemma Flyer_behaviour_fixed fr player f :
  Flyer_fixed (match Flyer.currentState f with
         | Flyer.HOVER =>
             Flyer.updateHover Math_sin (Flyer.delta fr)
               (Flyer.DistanceBetween Math_sqrt (Flyer.x f) (Flyer.y f)
                  (Player.x player) (Player.y player)) f
         | Flyer.TRACK => Flyer.updateTrack Math_sqrt (Flyer.delta fr) player f
         | Flyer.SWOOP => Flyer.updateSwoop Math_sqrt f
         | Flyer.RETREAT => Flyer.updateRetreat (Flyer.delta fr) f
         end) = Flyer_fixed f.
Proof.
  destruct (Flyer.currentState f).
  - unfold Flyer.updateHover. split_ifs; reflexivity.
  - unfold Flyer.updateTrack, Flyer.startSwoop. split_ifs; reflexivity.
  - unfold Flyer.updateSwoop. destruct (Flyer.swoopTarget f) as [[tx ty]|];
      split_ifs; reflexivity.
  - unfold Flyer.updateRetreat. split_ifs; reflexivity.
Qed.

Lemma Flyer_behaviour_cycle fr player f :
  let f' :=
    match Flyer.currentState f with
    | Flyer.HOVER =>
        Flyer.updateHover Math_sin (Flyer.delta fr)
          (Flyer.DistanceBetween Math_sqrt (Flyer.x f) (Flyer.y f)
             (Player.x player) (Player.y player)) f
    | Flyer.TRACK => Flyer.updateTrack Math_sqrt (Flyer.delta fr) player f
    | Flyer.SWOOP => Flyer.updateSwoop Math_sqrt f
    | Flyer.RETREAT => Flyer.updateRetreat (Flyer.delta fr) f
    end in
  Flyer_follows (Flyer.currentState f) (Flyer.currentState f') = true /\
  (Flyer.currentState f' <> Flyer.currentState f -> Flyer_entered player f').
Proof.
  destruct (Flyer.currentState f) eqn:E; cbv zeta.
  - unfold Flyer.updateHover. destruct (Qltb _ FLYER.DETECTION_RANGE).
    + split; [reflexivity|]. intros _. reflexivity.
    + cbn. rewrite E. split; [reflexivity | congruence].
  - unfold Flyer.updateTrack, Flyer.startSwoop. destruct (_ || _).
    + split; [reflexivity|]. intros _. reflexivity.
    + destruct (Qltb 10 _); cbn; rewrite E; (split; [reflexivity | congruence]).
  - unfold Flyer.updateSwoop. destruct (Flyer.swoopTarget f) as [[tx ty]|] eqn:T.
    + destruct (Qltb 20 _); [destruct (Qltb (ty + 50) _)|].
      * split; [reflexivity|]. intros _. split; reflexivity.
      * cbn. rewrite E. split; [reflexivity | congruence].
      * split; [reflexivity|]. intros _. split; reflexivity.
    + split; [reflexivity|]. intros _. split; [exact T | reflexivity].
  - unfold Flyer.updateRetreat. destruct (_ || _).
    + split; [reflexivity|]. intros _. reflexivity.
    + cbn. rewrite E. split; [reflexivity | congruence].
Qed.

Lemma Flyer_update_state fr player f :
  Flyer.state f <> Flyer.code Flyer.SWOOP ->
  Flyer.state (fst (Flyer.update Math_sqrt Math_sin fr player f)) = Flyer.state f.
Proof.
  intros Hs. unfold Flyer.update.
  destruct (negb (Flyer.isAlive f)); [reflexivity|].
  set (f1 := Flyer.set_base (Enemy.updateHurt (Flyer.delta fr) (Flyer.base f)) f).
  destruct (Flyer.isHurt f1); [reflexivity|].
  pose proof (Flyer_behaviour_fixed fr player f1) as Hf.
  cbv zeta.
  match goal with
  | |- context [Flyer.set_base (Enemy.facePlayer _ (Flyer.base ?g)) ?g] =>
      set (f2 := g) in *
  end.
  assert (H2 : Flyer.state f2 = Flyer.state f)
    by exact (f_equal (fun v => snd v) Hf).
  clearbody f2. unfold Flyer.checkPlayerCollision.
  destruct (Geom.Overlaps _ _); [|exact H2].
  cbn [Flyer.state Flyer.set_base]. rewrite H2.
  destruct (Flyer.state f =? Flyer.code Flyer.SWOOP)%Z eqn:E;
    [apply Z.eqb_eq in E; contradiction|].
  exact H2.
Qed.

Lemma Flyer_run_state (inputs : list FlyerInput) : forall f,
  (Flyer.state f = 0 \/ Flyer.state f = Flyer.code Flyer.RETREAT)%Z ->
  (Flyer.state (Flyer_run Math_sqrt Math_sin f inputs) = 0 \/
   Flyer.state (Flyer_run Math_sqrt Math_sin f inputs) = Flyer.code Flyer.RETREAT)%Z.
Proof.
  induction inputs as [|i inputs IH]; intros f H; [exact H|].
  unfold Flyer_run in *. cbn [fold_left]. apply IH.
  destruct i as [fr player|amount sourceX|x1 y1 vx vy]; cbn [Flyer_step].
  - rewrite Flyer_update_state; [exact H|].
    destruct H as [H|H]; rewrite H; discriminate.
  - unfold Flyer.takeDamage. destruct (Flyer.isAlive _); [right; reflexivity|exact H].
  - exact H.
Qed.

Lemma Flyer_update_player fr player f :
  snd (Flyer.update Math_sqrt Math_sin fr player f) =
  if Flyer_acts (Flyer.delta fr) f &&
     Geom.Overlaps (Flyer.bounds fr) (Flyer.playerBounds fr)
  then Player.takeDamage (Enemy.damage (Flyer.base f)) (Flyer.x f) player
  else player.
Proof.
  unfold Flyer.update, Flyer_acts.
  destruct (Flyer.isAlive f); cbn [negb andb]; [|reflexivity].
  set (f1 := Flyer.set_base (Enemy.updateHurt (Flyer.delta fr) (Flyer.base f)) f).
  change (Enemy.isHurt (Enemy.updateHurt (Flyer.delta fr) (Flyer.base f)))
    with (Flyer.isHurt f1).
  destruct (Flyer.isHurt f1); cbn [negb andb]; [reflexivity|].
  pose proof (Flyer_behaviour_fixed fr player f1) as Hf.
  cbv zeta.
  match goal with
  | |- context [Flyer.set_base (Enemy.facePlayer _ (Flyer.base ?g)) ?g] =>
      set (f2 := g) in *
  end.
  assert (H1 : Flyer_fixed f1 = Flyer_fixed f).
  { unfold Flyer_fixed, f1, Flyer.x. cbn [Flyer.base Flyer.set_base Flyer.state].
    pose proof (Enemy_updateHurt_keeps (Flyer.delta fr) (Flyer.base f)) as K.
    injection K as -> _ -> _ _. reflexivity. }
  rewrite H1 in Hf. clearbody f2. unfold Flyer_fixed in Hf. injection Hf as Hd Hx _.
  unfold Flyer.checkPlayerCollision.
  destruct (Geom.Overlaps _ _); [|reflexivity].
  assert (Hx' : Flyer.x (Flyer.set_base
                  (Enemy.facePlayer (Player.x player) (Flyer.base f2)) f2) = Flyer.x f)
    by exact Hx.
  assert (Hd' : Enemy.damage (Flyer.base (Flyer.set_base
                  (Enemy.facePlayer (Player.x player) (Flyer.base f2)) f2)) =
                Enemy.damage (Flyer.base f)) by exact Hd.
  rewrite Hx', Hd'. destruct (_ =? _)%Z; reflexivity.
Qed.

End FlyerBehaviour.

(** X10 (Flyer.update): one update moves the flyer's behaviour state along
    the cycle HOVER, TRACK, SWOOP, RETREAT, HOVER by at most one step, never
    back and never across; and a state it has just entered is set up:
    HOVER with the hover phase at 0, TRACK with the full track timer, SWOOP
    aimed at the player's position, RETREAT with the swoop target cleared
    and the full retreat timer. *)
Theorem flyer_cycle_order (Math_sqrt Math_sin : Q -> Q) (fr : Flyer.Frame)
  (player : Player.t) (f : Flyer.t) :
  let f' := fst (Flyer.update Math_sqrt Math_sin fr player f) in
  Flyer_follows (Flyer.currentState f) (Flyer.currentState f') = true /\
  (Flyer.currentState f' <> Flyer.currentState f -> Flyer_entered player f').
Proof.
  cbv zeta. unfold Flyer.update.
  assert (Hsame : forall g, Flyer.currentState g = Flyer.currentState f ->
            Flyer_follows (Flyer.currentState f) (Flyer.currentState g) = true /\
            (Flyer.currentState g <> Flyer.currentState f -> Flyer_entered player g)).
  { intros g ->. split; [destruct (Flyer.currentState f); reflexivity | congruence]. }
  destruct (negb (Flyer.isAlive f)); [apply Hsame; reflexivity|].
  set (f1 := Flyer.set_base (Enemy.updateHurt (Flyer.delta fr) (Flyer.base f)) f).
  destruct (Flyer.isHurt f1); [apply Hsame; reflexivity|].
  pose proof (Flyer_behaviour_cycle Math_sqrt Math_sin fr player f1) as Hc.
  cbv zeta in Hc |- *.
  match goal with
  | |- context [Flyer.set_base (Enemy.facePlayer _ (Flyer.base ?g)) ?g] =>
      set (f2 := g) in *
  end.
  clearbody f2.
  destruct (Flyer_after_behaviour fr player f2) as [Hs He]. cbv zeta in Hs, He.
  rewrite Hs. change (Flyer.currentState f1) with (Flyer.currentState f) in Hc.
  destruct Hc as [H1 H2]. split; [exact H1|].
  intros Hne. apply He, H2, Hne.
Qed.

(** A new flyer with the player 50 px away: the update takes it from HOVER
    to TRACK, set up as a state just entered. *)
Lemma flyer_cycle_order_witness :
  Flyer_entered nearbyPlayer
    (fst (Flyer.update isqrt (fun _ => 0) afterHurt nearbyPlayer (Flyer.create 100 100))).
Proof.
  apply (proj2 (flyer_cycle_order isqrt (fun _ => 0) afterHurt nearbyPlayer
                  (Flyer.create 100 100))).
  vm_compute. discriminate.
Defined.

(** X11 (Flyer.checkPlayerCollision, Flyer.takeDamage): no flyer the code
    can produce from a new one (by updates, hits and physics steps) ever has
    the engine tag [state] equal to SWOOP, the value [checkPlayerCollision]
    tests for, so its "if swooping, retreat after hit" branch is never
    taken: a collision with the player leaves the flyer itself unchanged,
    and a swooping flyer that hits the player dives on. *)
Theorem flyer_hit_never_ends_swoop (Math_sqrt Math_sin : Q -> Q) (x0 y0 : Q)
  (inputs : list FlyerInput) (fr : Flyer.Frame) (player : Player.t) :
  let f := Flyer_run Math_sqrt Math_sin (Flyer.create x0 y0) inputs in
  Flyer.state f <> Flyer.code Flyer.SWOOP /\
  fst (Flyer.checkPlayerCollision fr player f) = f.
Proof.
  cbv zeta.
  pose proof (Flyer_run_state Math_sqrt Math_sin inputs (Flyer.create x0 y0)
                (or_introl eq_refl)) as H.
  set (f := Flyer_run Math_sqrt Math_sin (Flyer.create x0 y0) inputs) in *.
  clearbody f.
  assert (Hne : Flyer.state f <> Flyer.code Flyer.SWOOP)
    by (destruct H as [H|H]; rewrite H; discriminate).
  split; [exact Hne|].
  unfold Flyer.checkPlayerCollision.
  destruct (Geom.Overlaps _ _); [|reflexivity].
  destruct (Flyer.state f =? Flyer.code Flyer.SWOOP)%Z eqn:E;
    [apply Z.eqb_eq in E; contradiction | reflexivity].
Qed.

Section CrawlerBehaviour.

Variable Math_sqrt : Q -> Q.

(** The crawler past the two early returns of [update], and the state
    machine's result on it. *)
Lemma Crawler_update_acts fr player c :
  Crawler_acts (Crawler.delta fr) c = true ->
  let c1 := Crawler.set_base (Enemy.updateHurt (Crawler.delta fr) (Crawler.base c)) c in
  let dist := Crawler.DistanceBetween Math_sqrt (Crawler.x c1) (Crawler.y c1)
                (Player.x player) (Player.y player) in
  let visible := Crawler.canSeePlayer player c1 in
  Crawler.update Math_sqrt fr player c =
    let '(c2, calls) :=
      match Crawler.currentState c1 with
      | Crawler.IDLE => (Crawler.updateIdle (Crawler.delta fr) dist visible c1, [])
      | Crawler.PATROL => (Crawler.updatePatrol fr dist visible c1, [])
      | Crawler.CHASE => (Crawler.updateChase player dist c1, [])
      | Crawler.ATTACK => Crawler.updateAttack player c1
      end in
    (c2, Crawler.checkPlayerCollision fr player c2, calls).
Proof.
  unfold Crawler_acts, Crawler.update. intros H.
  apply andb_true_iff in H. destruct H as [Ha Hh].
  rewrite Ha. cbn [negb]. cbv zeta.
  change (Crawler.isHurt (Crawler.set_base
            (Enemy.updateHurt (Crawler.delta fr) (Crawler.base c)) c))
    with (Enemy.isHurt (Enemy.updateHurt (Crawler.delta fr) (Crawler.base c))).
  apply negb_true_iff in Hh. rewrite Hh. reflexivity.
Qed.

Lemma Crawler_update_rests fr player c :
  Crawler_acts (Crawler.delta fr) c = false ->
  Crawler.update Math_sqrt fr player c =
    (if Crawler.isAlive c
     then Crawler.set_base (Enemy.updateHurt (Crawler.delta fr) (Crawler.base c)) c
     else c, player, []).
Proof.
  unfold Crawler_acts, Crawler.update. intros H.
  destruct (Crawler.isAlive c); cbn [negb andb] in *; [|reflexivity].
  change (Crawler.isHurt (Crawler.set_base
            (Enemy.updateHurt (Crawler.delta fr) (Crawler.base c)) c))
    with (Enemy.isHurt (Enemy.updateHurt (Crawler.delta fr) (Crawler.base c))).
  apply negb_false_iff in H. rewrite H. reflexivity.
Qed.

Lemma Crawler_behaviour_fixed fr player dist visible c :
  Crawler_fixed
    (fst (match Crawler.currentState c with
          | Crawler.IDLE => (Crawler.updateIdle (Crawler.delta fr) dist visible c, [])
          | Crawler.PATROL => (Crawler.updatePatrol fr dist visible c, [])
          | Crawler.CHASE => (Crawler.updateChase player dist c, [])
          | Crawler.ATTACK => Crawler.updateAttack player c
          end)) = Crawler_fixed c.
Proof.
  destruct (Crawler.currentState c); cbn [fst].
  - unfold Crawler.updateIdle. split_ifs; reflexivity.
  - unfold Crawler.updatePatrol. split_ifs; reflexivity.
  - unfold Crawler.updateChase. split_ifs; reflexivity.
  - unfold Crawler.updateAttack. split_ifs; reflexivity.
Qed.

Lemma Crawler_update_player fr player c :
  snd (fst (Crawler.update Math_sqrt fr player c)) =
  if Crawler_acts (Crawler.delta fr) c &&
     Geom.Overlaps (Crawler.bounds fr) (Crawler.playerBounds fr)
  then Player.takeDamage (Enemy.damage (Crawler.base c)) (Crawler.x c) player
  else player.
Proof.
  destruct (Crawler_acts (Crawler.delta fr) c) eqn:E.
  - rewrite (Crawler_update_acts fr player c E). cbv zeta. cbn [andb].
    set (c1 := Crawler.set_base (Enemy.updateHurt (Crawler.delta fr) (Crawler.base c)) c).
    pose proof (Crawler_behaviour_fixed fr player
                  (Crawler.DistanceBetween Math_sqrt (Crawler.x c1) (Crawler.y c1)
                     (Player.x player) (Player.y player))
                  (Crawler.canSeePlayer player c1) c1) as Hf.
    assert (H1 : Crawler_fixed c1 = Crawler_fixed c).
    { unfold Crawler_fixed, c1, Crawler.x. cbn [Crawler.base Crawler.set_base].
      pose proof (Enemy_updateHurt_keeps (Crawler.delta fr) (Crawler.base c)) as K.
      injection K as -> _ -> _ _. reflexivity. }
    rewrite H1 in Hf.
    destruct (match Crawler.currentState c1 with
              | Crawler.IDLE => _ | Crawler.PATROL => _
              | Crawler.CHASE => _ | Crawler.ATTACK => _ end) as [c2 calls].
    cbn [fst snd] in *. unfold Crawler_fixed in Hf. injection Hf as Hd Hx.
    unfold Crawler.checkPlayerCollision. rewrite Hd, Hx. reflexivity.
  - rewrite (Crawler_update_rests fr player c E). reflexivity.
Qed.

(** *** The crawler's pace *)

Lemma Crawler_gait_ext c c' :
  Enemy.speed (Crawler.base c') = Enemy.speed (Crawler.base c) ->
  Crawler.chargeSpeed c' = Crawler.chargeSpeed c ->
  (Crawler.patrolDirection c' = Crawler.patrolDirection c \/
   Crawler.patrolDirection c' = Crawler.patrolDirection c * -1) ->
  Crawler_gait c -> Crawler_gait c'.
Proof.
  unfold Crawler_gait. intros -> -> Hd (Hs & Hc & Hp).
  split; [exact Hs|]. split; [exact Hc|].
  destruct Hd as [-> | ->]; [exact Hp|].
  destruct Hp as [Hp|Hp]; rewrite Hp; [right|left]; reflexivity.
Qed.

Lemma Enemy_speed_updateHurt delta e :
  Enemy.speed (Enemy.updateHurt delta e) = Enemy.speed e.
Proof. unfold Enemy.updateHurt. split_ifs; reflexivity. Qed.

Lemma Enemy_speed_takeDamage amount sourceX e :
  Enemy.speed (Enemy.takeDamage amount sourceX e) = Enemy.speed e.
Proof. unfold Enemy.takeDamage, Enemy.die. split_ifs; reflexivity. Qed.

Lemma Crawler_gait_behaviour fr player dist visible c :
  Crawler_gait c ->
  Crawler_gait
    (fst (match Crawler.currentState c with
          | Crawler.IDLE => (Crawler.updateIdle (Crawler.delta fr) dist visible c, [])
          | Crawler.PATROL => (Crawler.updatePatrol fr dist visible c, [])
          | Crawler.CHASE => (Crawler.updateChase player dist c, [])
          | Crawler.ATTACK => Crawler.updateAttack player c
          end)).
Proof.
  apply Crawler_gait_ext; destruct (Crawler.currentState c); cbn [fst];
    unfold Crawler.updateIdle, Crawler.updatePatrol, Crawler.updateChase,
      Crawler.updateAttack; split_ifs; try reflexivity;
    first [left; reflexivity | right; reflexivity].
Qed.

Lemma Crawler_gait_step c i : Crawler_gait c -> Crawler_gait (Crawler_step Math_sqrt c i).
Proof.
  intros H. destruct i as [fr player|amount sourceX|cb|x1 y1 vx vy]; cbn [Crawler_step].
  - destruct (Crawler_acts (Crawler.delta fr) c) eqn:E.
    + rewrite (Crawler_update_acts fr player c E). cbv zeta.
      set (c1 := Crawler.set_base
                   (Enemy.updateHurt (Crawler.delta fr) (Crawler.base c)) c).
      assert (H1 : Crawler_gait c1).
      { revert H. apply Crawler_gait_ext; [apply Enemy_speed_updateHurt | reflexivity
                                          | left; reflexivity]. }
      pose proof (Crawler_gait_behaviour fr player
                    (Crawler.DistanceBetween Math_sqrt (Crawler.x c1) (Crawler.y c1)
                       (Player.x player) (Player.y player))
                    (Crawler.canSeePlayer player c1) c1 H1) as H2.
      destruct (match Crawler.currentState c1 with
                | Crawler.IDLE => _ | Crawler.PATROL => _
                | Crawler.CHASE => _ | Crawler.ATTACK => _ end) as [c2 calls].
      exact H2.
    + rewrite (Crawler_update_rests fr player c E). cbn [fst].
      destruct (Crawler.isAlive c); [|exact H].
      revert H. apply Crawler_gait_ext; [apply Enemy_speed_updateHurt | reflexivity
                                        | left; reflexivity].
  - revert H. apply Crawler_gait_ext; [apply Enemy_speed_takeDamage | reflexivity
                                      | left; reflexivity].
  - destruct cb. unfold Crawler.runCallback. destruct (Crawler.isAlive c); exact H.
  - exact H.
Qed.

Lemma Crawler_gait_run (inputs : list CrawlerInput) : forall c,
  Crawler_gait c -> Crawler_gait (Crawler_run Math_sqrt c inputs).
Proof.
  induction inputs as [|i inputs IH]; intros c H; [exact H|].
  unfold Crawler_run in *. cbn [fold_left]. apply IH, Crawler_gait_step, H.
Qed.

Lemma Crawler_pace_behaviour fr player dist visible c :
  Crawler_gait c ->
  Math_abs (Enemy.velocityX (Crawler.base
    (fst (match Crawler.currentState c with
          | Crawler.IDLE => (Crawler.updateIdle (Crawler.delta fr) dist visible c, [])
          | Crawler.PATROL => (Crawler.updatePatrol fr dist visible c, [])
          | Crawler.CHASE => (Crawler.updateChase player dist c, [])
          | Crawler.ATTACK => Crawler.updateAttack player c
          end)))) == Crawler_pace (Crawler.currentState c).
Proof.
  intros (Hs & Hc & Hp). unfold Math_abs.
  destruct (Crawler.currentState c); cbn [fst Crawler_pace].
  - assert (H : Enemy.velocityX (Crawler.base
                  (Crawler.updateIdle (Crawler.delta fr) dist visible c)) = 0)
      by (unfold Crawler.updateIdle; split_ifs; reflexivity).
    rewrite H. reflexivity.
  - assert (H : Enemy.velocityX (Crawler.base (Crawler.updatePatrol fr dist visible c)) =
                Enemy.speed (Crawler.base c) * Crawler.patrolDirection c)
      by (unfold Crawler.updatePatrol; split_ifs; reflexivity).
    rewrite H, Hs. destruct Hp as [Hp|Hp]; rewrite Hp; reflexivity.
  - assert (H : Enemy.velocityX (Crawler.base (Crawler.updateChase player dist c)) =
                Crawler.chargeSpeed c *
                (if Qltb (Crawler.x c) (Player.x player) then 1 else -1))
      by (unfold Crawler.updateChase;
          change (Crawler.x (Crawler.set_base
                    (Enemy.facePlayer (Player.x player) (Crawler.base c)) c))
            with (Crawler.x c);
          destruct (Qltb (Crawler.x c) (Player.x player)); split_ifs; reflexivity).
    rewrite H, Hc. destruct (Qltb _ _); reflexivity.
  - assert (H : Enemy.velocityX (Crawler.base (fst (Crawler.updateAttack player c))) =
                Crawler.chargeSpeed c * (15 # 10) *
                (if Qltb (Crawler.x c) (Player.x player) then 1 else -1))
      by reflexivity.
    rewrite H, Hc. destruct (Qltb _ _); reflexivity.
Qed.

End CrawlerBehaviour.

(** X12 (Crawler.update): whatever has happened to a crawler since it was
    created (updates, hits, delayed calls, physics steps), an update that
    gets past the dead and hurt checks leaves it moving at the pace of the
    behaviour that ran: 0 when idle, 120 px/s on patrol, 240 px/s in a
    chase, 360 px/s in the lunge (the patrol direction being 1 or
    -1 at all times). *)
Theorem crawler_pace (Math_sqrt : Q -> Q) (x0 y0 : Q) (inputs : list CrawlerInput)
  (fr : Crawler.Frame) (player : Player.t) :
  let c := Crawler_run Math_sqrt (Crawler.create x0 y0) inputs in
  Crawler_acts (Crawler.delta fr) c = true ->
  Math_abs (Enemy.velocityX (Crawler.base
    (fst (fst (Crawler.update Math_sqrt fr player c))))) ==
  Crawler_pace (Crawler.currentState c).
Proof.
  cbv zeta. intros Ha.
  assert (Hg : Crawler_gait (Crawler_run Math_sqrt (Crawler.create x0 y0) inputs)).
  { apply Crawler_gait_run. repeat split. left. reflexivity. }
  set (c := Crawler_run Math_sqrt (Crawler.create x0 y0) inputs) in *. clearbody c.
  rewrite (Crawler_update_acts Math_sqrt fr player c Ha). cbv zeta.
  set (c1 := Crawler.set_base (Enemy.updateHurt (Crawler.delta fr) (Crawler.base c)) c).
  assert (H1 : Crawler_gait c1).
  { revert Hg. apply Crawler_gait_ext; [apply Enemy_speed_updateHurt | reflexivity
                                       | left; reflexivity]. }
  pose proof (Crawler_pace_behaviour fr player
                (Crawler.DistanceBetween Math_sqrt (Crawler.x c1) (Crawler.y c1)
                   (Player.x player) (Player.y player))
                (Crawler.canSeePlayer player c1) c1 H1) as H2.
  change (Crawler.currentState c1) with (Crawler.currentState c) in H2 at 2.
  destruct (match Crawler.currentState c1 with
            | Crawler.IDLE => _ | Crawler.PATROL => _
            | Crawler.CHASE => _ | Crawler.ATTACK => _ end) as [c2 calls].
  exact H2.
Qed.

Lemma crawler_pace_witness :
  Math_abs (Enemy.velocityX (Crawler.base
    (fst (fst (Crawler.update isqrt patrolFrame playerInSight (Crawler.create 100 500)))))) ==
  Crawler_pace Crawler.PATROL.
Proof.
  apply (crawler_pace isqrt 100 500 [] patrolFrame playerInSight). reflexivity.
Defined.

(** X13 (Crawler.update, canSeePlayer): a crawler that is idle or on patrol
    starts to chase in the very update in which the player is less than
    100 px above or below it and closer than its detection range, provided
    the update gets past the dead and hurt checks; a crawler in a chase
    gives up and returns to patrol, with a full patrol timer, when the
    player is out of attack range and farther than 1.5 times the detection
    range; and a crawler that is dead or still hurt keeps its state. *)
Theorem crawler_detects_player (Math_sqrt : Q -> Q) (fr : Crawler.Frame)
  (player : Player.t) (c : Crawler.t) :
  let dist := Crawler.DistanceBetween Math_sqrt (Crawler.x c) (Crawler.y c)
                (Player.x player) (Player.y player) in
  let c' := fst (fst (Crawler.update Math_sqrt fr player c)) in
  (Crawler_acts (Crawler.delta fr) c = true ->
   (Crawler.currentState c = Crawler.IDLE \/ Crawler.currentState c = Crawler.PATROL) ->
   Crawler.canSeePlayer player c = true -> dist < Crawler.detectionRange c ->
   Crawler.currentState c' = Crawler.CHASE) /\
  (Crawler_acts (Crawler.delta fr) c = true ->
   Crawler.currentState c = Crawler.CHASE ->
   Crawler.attackRange c <= dist -> Crawler.detectionRange c * (15 # 10) < dist ->
   Crawler.currentState c' = Crawler.PATROL /\
   Crawler.patrolTimer c' = Crawler.patrolDuration c) /\
  (Crawler_acts (Crawler.delta fr) c = false ->
   Crawler.currentState c' = Crawler.currentState c).
Proof.
  cbv zeta.
  assert (Hk : forall d v,
    (Crawler.x (Crawler.set_base (Enemy.updateHurt d (Crawler.base c)) c),
     Crawler.y (Crawler.set_base (Enemy.updateHurt d (Crawler.base c)) c)) =
    (Crawler.x c, Crawler.y c) /\
    Crawler.canSeePlayer v (Crawler.set_base (Enemy.updateHurt d (Crawler.base c)) c) =
    Crawler.canSeePlayer v c).
  { intros d v. unfold Crawler.canSeePlayer, Crawler.x, Crawler.y.
    cbn [Crawler.base Crawler.set_base].
    pose proof (Enemy_updateHurt_keeps d (Crawler.base c)) as K.
    injection K as -> -> _ _ _. split; reflexivity. }
  destruct (Hk (Crawler.delta fr) player) as [Hxy Hsee].
  injection Hxy as Hx Hy.
  split; [|split].
  - intros Ha Hst Hv Hd. rewrite (Crawler_update_acts Math_sqrt fr player c Ha).
    cbv zeta. rewrite Hx, Hy, Hsee, Hv.
    set (c1 := Crawler.set_base (Enemy.updateHurt (Crawler.delta fr) (Crawler.base c)) c).
    change (Crawler.currentState c1) with (Crawler.currentState c).
    apply Qltb_lt in Hd.
    destruct Hst as [-> | ->]; cbn [fst].
    + unfold Crawler.updateIdle.
      cbn [Crawler.detectionRange Crawler.set_idleTimer Crawler.set_velocityX
             Crawler.set_base andb].
      change (Crawler.detectionRange c1) with (Crawler.detectionRange c).
      rewrite Hd. reflexivity.
    + unfold Crawler.updatePatrol.
      cbn [Crawler.detectionRange Crawler.set_patrolTimer Crawler.set_velocityX
             Crawler.set_base andb].
      change (Crawler.detectionRange c1) with (Crawler.detectionRange c).
      rewrite Hd. reflexivity.
  - intros Ha Hst Hnear Hfar. rewrite (Crawler_update_acts Math_sqrt fr player c Ha).
    cbv zeta. rewrite Hx, Hy.
    set (c1 := Crawler.set_base (Enemy.updateHurt (Crawler.delta fr) (Crawler.base c)) c).
    change (Crawler.currentState c1) with (Crawler.currentState c).
    rewrite Hst. cbn [fst]. apply Qltb_ge in Hnear. apply Qltb_lt in Hfar.
    unfold Crawler.updateChase.
    cbn [Crawler.attackRange Crawler.detectionRange Crawler.set_velocityX Crawler.set_base].
    change (Crawler.attackRange c1) with (Crawler.attackRange c).
    change (Crawler.detectionRange c1) with (Crawler.detectionRange c).
    rewrite Hnear, Hfar. split; reflexivity.
  - intros Ha. rewrite (Crawler_update_rests Math_sqrt fr player c Ha). cbn [fst].
    destruct (Crawler.isAlive c); reflexivity.
Qed.

Lemma crawler_detects_player_witness :
  Crawler.currentState
    (fst (fst (Crawler.update isqrt patrolFrame playerInSight (Crawler.create 100 500)))) =
  Crawler.CHASE.
Proof.
  apply (crawler_detects_player isqrt patrolFrame playerInSight (Crawler.create 100 500));
    [reflexivity | right; reflexivity | reflexivity | reflexivity].
Defined.

(** X14 (Enemy.checkPlayerCollision via Crawler.update and Flyer.update):
    an update of a crawler or a flyer damages the player exactly when the
    enemy is alive, is out of its hurt window once the hurt timer has
    counted the frame down, and its bounds overlap the player's; it then
    applies the player's [takeDamage] with the enemy's damage and the
    enemy's x as the source.  A dead or hurt enemy deals no contact
    damage. *)
Theorem enemy_contact_damage (Math_sqrt Math_sin : Q -> Q) (player : Player.t) :
  (forall (fr : Crawler.Frame) (c : Crawler.t),
     snd (fst (Crawler.update Math_sqrt fr player c)) =
     if Crawler_acts (Crawler.delta fr) c &&
        Geom.Overlaps (Crawler.bounds fr) (Crawler.playerBounds fr)
     then Player.takeDamage (Enemy.damage (Crawler.base c)) (Crawler.x c) player
     else player) /\
  (forall (fr : Flyer.Frame) (f : Flyer.t),
     snd (Flyer.update Math_sqrt Math_sin fr player f) =
     if Flyer_acts (Flyer.delta fr) f &&
        Geom.Overlaps (Flyer.bounds fr) (Flyer.playerBounds fr)
     then Player.takeDamage (Enemy.damage (Flyer.base f)) (Flyer.x f) player
     else player).
Proof.
  split.
  - intros fr c. apply Crawler_update_player.
  - intros fr f. apply Flyer_update_player.
Qed.

(** ** The player over runs: attack cooldown and the HUD *)




(** What the delayed calls of the player do when they fire: they touch
    neither the pending calls nor health and events, and the attack is
    allowed again as soon as one end-of-cooldown call fires. *)
Lemma Player_runCallbacks (due : list (Q * Player.Callback)) : forall p,
  let p' := fold_left (fun p '(_, cb) => Player.runCallback cb p) due p in
  Player.pending p' = Player.pending p /\ Player.emitted p' = Player.emitted p /\
  Player.health p' = Player.health p /\ Player.maxHealth p' = Player.maxHealth p /\
  Player.canAttack p' = (Player.canAttack p || negb (attacksPending due =? 0)%nat).
Proof.
  induction due as [|[ms cb] due IH]; intros p; cbv zeta.
  - cbn. rewrite orb_false_r. repeat split.
  - cbn [fold_left]. destruct (IH (Player.runCallback cb p)) as (H1 & H2 & H3 & H4 & H5).
    cbv zeta in H1, H2, H3, H4, H5. rewrite H1, H2, H3, H4, H5.
    unfold attacksPending. cbn [List.filter snd].
    destruct cb; cbn [isAllowAttack Player.runCallback length].
    + repeat split.
    + repeat split. cbn [Player.canAttack Player.set_canAttack Nat.eqb negb orb].
      symmetry. apply orb_true_r.
Qed.

Lemma Player_tick_fields delta p :
  let aged := map (fun '(ms, cb) => (ms - delta, cb)) (Player.pending p) in
  Player.pending (Player.tick delta p) =
    List.filter (fun '(ms, _) => negb (Qleb ms 0)) aged /\
  Player.emitted (Player.tick delta p) = Player.emitted p /\
  Player.health (Player.tick delta p) = Player.health p /\
  Player.maxHealth (Player.tick delta p) = Player.maxHealth p /\
  Player.canAttack (Player.tick delta p) =
    (Player.canAttack p ||
     negb (attacksPending (List.filter (fun '(ms, _) => Qleb ms 0) aged) =? 0)%nat).
Proof.
  cbv zeta. unfold Player.tick.
  match goal with
  | |- context [fold_left ?f ?due ?p0] =>
      destruct (Player_runCallbacks due p0) as (H1 & H2 & H3 & H4 & H5)
  end.
  cbv zeta in *. rewrite H1, H2, H3, H4, H5. repeat split.
Qed.

(** *** The attack cooldown *)











(** *** The HUD *)

Lemma hudFrom_snoc ui es e : hudFrom ui (es ++ [e]) = UIScene.onEvent e (hudFrom ui es).
Proof. unfold hudFrom. rewrite fold_left_app. reflexivity. Qed.

Lemma Clamp_inside v : 0 < v -> v <= 5 -> Geom.Clamp v 0 UIScene.MAX_HEALTH == v.
Proof.
  intros H0 H5. unfold Geom.Clamp, Math_max, Math_min, UIScene.MAX_HEALTH.
  destruct (Qleb 5 v) eqn:E1; [apply Qleb_le in E1 | apply Qleb_gt in E1].
  - change (Qleb 0 5) with true. cbn iota. lra.
  - destruct (Qleb 0 v) eqn:E2; [reflexivity|]. apply Qleb_gt in E2. lra.
Qed.

Lemma snoc_not_nil {A : Type} (l : list A) (a : A) : l ++ [a] <> [].
Proof. destruct l; discriminate. Qed.

Lemma HudInv_hurt ui a p :
  0 <= a -> HudInv ui p ->
  let p1 := Player.emit (Player.PlayerDamaged (Player.health p - a) (Player.maxHealth p))
              (Player.set_health (Player.health p - a) p) in
  (0 < Player.health p - a -> forall p',
     Player.maxHealth p' = Player.maxHealth p1 -> Player.health p' = Player.health p1 ->
     Player.emitted p' = Player.emitted p1 -> HudInv ui p') /\
  (Player.health p - a <= 0 -> forall p',
     Player.maxHealth p' = Player.maxHealth p -> Player.health p' = Player.maxHealth p ->
     Player.emitted p' =
       (Player.emitted p1 ++ [Player.PlayerDied]) ++
       [Player.PlayerDamaged (Player.maxHealth p) (Player.maxHealth p)] ->
     HudInv ui p').
Proof.
  intros Ha (Hm & H0 & H5 & _ & _). cbv zeta. split.
  - intros Hpos p' E1 E2 E3. unfold HudInv. rewrite E1, E2, E3.
    cbn [Player.maxHealth Player.health Player.emitted Player.emit Player.set_health
           Player.set_emitted].
    split; [exact Hm|]. split; [exact Hpos|]. split; [lra|].
    split; [intros E; exfalso; exact (snoc_not_nil _ _ E)|]. intros _.
    rewrite hudFrom_snoc. cbn [UIScene.onEvent UIScene.updateHealth UIScene.currentHealth].
    apply Clamp_inside; lra.
  - intros Hdead p' E1 E2 E3. unfold HudInv. rewrite E1, E2, E3, Hm.
    split; [reflexivity|]. split; [reflexivity|]. split; [discriminate|].
    split; [intros E; exfalso; exact (snoc_not_nil _ _ E)|]. intros _.
    rewrite hudFrom_snoc. reflexivity.
Qed.

Lemma HudInv_takeDamage ui amount sourceX p :
  0 <= amount -> HudInv ui p -> HudInv ui (Player.takeDamage amount sourceX p).
Proof.
  intros Ha H. unfold Player.takeDamage.
  destruct (Player.invincible p); [exact H|].
  destruct (HudInv_hurt ui amount p Ha H) as [Hlive Hdie]. cbv zeta in *.
  cbn [Player.health Player.set_health Player.set_invincible Player.set_velocityX
         Player.set_velocityY Player.emit Player.set_emitted Player.maxHealth].
  destruct (Qleb (Player.health p - amount) 0) eqn:E;
    [apply Qleb_le in E | apply Qleb_gt in E].
  - apply (Hdie E); reflexivity.
  - apply (Hlive E); reflexivity.
Qed.

Lemma HudInv_checkDeathPit ui deathY p :
  HudInv ui p -> HudInv ui (Player.checkDeathPit deathY p).
Proof.
  intros H. unfold Player.checkDeathPit, Player.fallDeath.
  destruct (Qltb deathY (Player.y p)); [|exact H].
  destruct (HudInv_hurt ui 1 p ltac:(discriminate) H) as [Hlive Hdie]. cbv zeta in *.
  cbn [Player.health Player.set_health Player.emit Player.set_emitted Player.maxHealth].
  destruct (Qleb (Player.health p - 1) 0) eqn:E;
    [apply Qleb_le in E | apply Qleb_gt in E].
  - apply (Hdie E); reflexivity.
  - apply (Hlive E); reflexivity.
Qed.

Lemma HudInv_ext ui p p' :
  Player.maxHealth p' = Player.maxHealth p -> Player.health p' = Player.health p ->
  Player.emitted p' = Player.emitted p -> HudInv ui p -> HudInv ui p'.
Proof. unfold HudInv. intros -> -> ->. tauto. Qed.

Lemma HudInv_step ui p i :
  match i with PlayerHit amount _ => 0 <= amount | _ => True end ->
  HudInv ui p -> HudInv ui (Player_step p i).
Proof.
  intros Hi H. destruct i as [j|amount sourceX|deathY|x1 y1 b f|delta]; cbn [Player_step].
  - revert H. apply HudInv_ext; unfold Player.handleAttack;
      destruct (j && Player.canAttack p); reflexivity.
  - apply HudInv_takeDamage; assumption.
  - apply HudInv_checkDeathPit; assumption.
  - exact H.
  - destruct (Player_tick_fields delta p) as (_ & He & Hh & Hm & _). cbv zeta in *.
    revert H. apply HudInv_ext; assumption.
Qed.

(** X16 (Player.takeDamage, fallDeath, die; UIScene.updateHealth): the HUD
    scene is launched once and keeps what it holds from one game scene to
    the next, while every scene creates its player at full health without
    emitting.  For every run of a scene's new player under attacks, hits
    that do not heal, pit falls, movement and clock ticks, and whatever the
    HUD held when the scene started: until the player has emitted its
    first event the HUD keeps what it held and the player is at full
    health, so the HUD shows the player's health only if it held
    MAX_HEALTH; from the first [player-damaged] event on, the health the
    HUD holds equals the health the player's getter returns: the negative
    value a lethal hit puts on the bus is always followed by the event that
    carries the refilled health.  The player's health is above 0 and at
    most 5 throughout. *)
Theorem hud_shows_health (x0 y0 : Q) (inputs : list PlayerInput) (ui : UIScene.t) :
  Player_inputsOK inputs ->
  let p := Player_run (Player.create x0 y0) inputs in
  (Player.emitted p = [] ->
   hudFrom ui (Player.emitted p) = ui /\ Player.getHealth p = Player.getMaxHealth p) /\
  (Player.emitted p <> [] ->
   UIScene.currentHealth (hudFrom ui (Player.emitted p)) == Player.getHealth p) /\
  (UIScene.currentHealth ui == UIScene.MAX_HEALTH ->
   UIScene.currentHealth (hudFrom ui (Player.emitted p)) == Player.getHealth p) /\
  0 < Player.getHealth p /\ Player.getHealth p <= Player.getMaxHealth p.
Proof.
  intros Hok. cbv zeta.
  assert (H : HudInv ui (Player_run (Player.create x0 y0) inputs)).
  { assert (H0 : HudInv ui (Player.create x0 y0)).
    { unfold HudInv. cbn. repeat split; try reflexivity; try discriminate.
      intros E. exfalso. apply E. reflexivity. }
    revert H0. generalize (Player.create x0 y0).
    induction Hok as [|i l Hi _ IH]; intros p Hp; [exact Hp|].
    unfold Player_run in *. cbn [fold_left]. apply IH, HudInv_step; [|exact Hp].
    destruct i; try exact I. exact Hi. }
  destruct H as (Hm & H0 & H5 & Hnone & Hsome).
  unfold Player.getHealth, Player.getMaxHealth. rewrite Hm.
  split; [|split; [|split; [|split; assumption]]].
  - intros E. split; [rewrite E; reflexivity | apply Hnone, E].
  - exact Hsome.
  - intros Hfull.
    destruct (Player.emitted (Player_run (Player.create x0 y0) inputs)) as [|e es] eqn:E.
    + cbn. rewrite Hfull, (Hnone eq_refl). reflexivity.
    + apply Hsome. discriminate.
Qed.

(** A HUD that held 4 from the scene before, and a new player who swings,
    is slashed for 2 and waits: the HUD shows the player's 3. *)
Lemma hud_shows_health_witness :
  UIScene.currentHealth
    (hudFrom (UIScene.mk 4)
       (Player.emitted (Player_run (Player.create 150 520) swingAndWait))) ==
  Player.getHealth (Player_run (Player.create 150 520) swingAndWait).
Proof.
  refine (proj1 (proj2 (hud_shows_health 150 520 swingAndWait (UIScene.mk 4) _)) _).
  - unfold Player_inputsOK, swingAndWait. repeat constructor; vm_compute; discriminate.
  - vm_compute. discriminate.
Defined.

(** ** The state machine over runs: entries and exits *)

Lemma Machine_counting_step sm op : Machine_counting sm -> Machine_counting (Machine_step sm op).
Proof.
  intros [Hreg Hcur]. destruct op as [r nm|nm|time delta]; cbn [Machine_step].
  - split; [|exact Hcur].
    intros k st H.
    change (<[nm := StateMachine.counting r nm]> (StateMachine.states sm) !! k = Some st)
      in H.
    destruct (decide (nm = k)) as [<-|Hne].
    + rewrite lookup_insert_eq in H. injection H as <-. eauto.
    + rewrite lookup_insert_ne in H by exact Hne. eapply Hreg; exact H.
  - unfold StateMachine.setState.
    destruct (StateMachine.states sm !! nm) as [newState|] eqn:E.
    + destruct (StateMachine.isCurrent sm newState); [split; assumption|].
      split; [exact Hreg|]. cbn [StateMachine.currentState].
      intros cur H. injection H as <-. exact (Hreg _ _ E).
    + split; assumption.
  - assert (Hs : StateMachine.states (StateMachine.update time delta sm) =
                 StateMachine.states sm /\
                 StateMachine.currentState (StateMachine.update time delta sm) =
                 StateMachine.currentState sm).
    { unfold StateMachine.update.
      destruct (StateMachine.currentState sm) as [cur|] eqn:Ec;
        [destruct (StateMachine.onUpdate cur)|]; cbn; rewrite ?Ec; split; reflexivity. }
    destruct Hs as [Hs1 Hs2]. unfold Machine_counting. rewrite Hs1, Hs2.
    split; assumption.
Qed.

Lemma Machine_balance_step sm op :
  Machine_counting sm ->
  StateMachine.entered (StateMachine.entity sm) =
    (StateMachine.exited (StateMachine.entity sm) + Machine_occupied sm)%nat ->
  StateMachine.entered (StateMachine.entity (Machine_step sm op)) =
    (StateMachine.exited (StateMachine.entity (Machine_step sm op)) +
     Machine_occupied (Machine_step sm op))%nat.
Proof.
  intros [Hreg Hcur] Hb. unfold Machine_occupied in *.
  destruct op as [r nm|nm|time delta]; cbn [Machine_step].
  - exact Hb.
  - unfold StateMachine.setState.
    destruct (StateMachine.states sm !! nm) as [newState|] eqn:E; [|exact Hb].
    destruct (StateMachine.isCurrent sm newState); [exact Hb|].
    destruct (Hreg _ _ E) as (r & nm' & ->).
    cbn [StateMachine.entity StateMachine.currentState StateMachine.onEnter
           StateMachine.counting StateMachine.runHook].
    destruct (StateMachine.currentState sm) as [cur|] eqn:Ec.
    + destruct (Hcur cur eq_refl) as (r' & nm'' & ->).
      cbn [StateMachine.onExit StateMachine.counting StateMachine.runHook
             StateMachine.countEnter StateMachine.countExit StateMachine.entered
             StateMachine.exited].
      lia.
    + cbn [StateMachine.countEnter StateMachine.entered StateMachine.exited]. lia.
  - unfold StateMachine.update.
    destruct (StateMachine.currentState sm) as [cur|] eqn:Ec; [|rewrite Ec; exact Hb].
    destruct (Hcur cur eq_refl) as (r' & nm'' & ->).
    cbn [StateMachine.onUpdate StateMachine.counting]. rewrite Ec. exact Hb.
Qed.

(** X17 (StateMachine.setState, addState, update): entries and exits are
    balanced.  Over every sequence of [addState], [setState] and [update]
    calls on a new machine whose states count their [onEnter] and [onExit]
    calls, the number of entries equals the number of exits, plus one for
    the state the machine is in: no state is exited without having been
    entered, none is entered twice without an exit in between, and
    re-registering a name or asking for an unknown one never unbalances the
    hooks. *)
Theorem hooks_balanced (ops : list MachineOp) :
  StateMachine.entered (StateMachine.entity (Machine_run ops)) =
    (StateMachine.exited (StateMachine.entity (Machine_run ops)) +
     Machine_occupied (Machine_run ops))%nat.
Proof.
  unfold Machine_run.
  assert (H : Machine_counting (StateMachine.create (StateMachine.mkCounters 0 0)) /\
              StateMachine.entered (StateMachine.entity
                (StateMachine.create (StateMachine.mkCounters 0 0))) =
              (StateMachine.exited (StateMachine.entity
                 (StateMachine.create (StateMachine.mkCounters 0 0))) +
               Machine_occupied (StateMachine.create (StateMachine.mkCounters 0 0)))%nat).
  { split; [split|reflexivity].
    - intros k st H. cbn in H. rewrite lookup_empty in H. discriminate.
    - intros cur H. discriminate. }
  revert H. generalize (StateMachine.create (StateMachine.mkCounters 0 0)).
  induction ops as [|op ops IH]; intros sm [Hc Hb]; [exact Hb|].
  cbn [fold_left]. apply IH. split.
  - apply Machine_counting_step, Hc.
  - apply Machine_balance_step; assumption.
Qed.

(** ** The boss entity class: speed and cooldown by phase *)

Lemma Boss_statsOK_ext b b' :
  Boss.phase b' = Boss.phase b -> Boss.currentSpeed b' = Boss.currentSpeed b ->
  Boss.attackCooldown b' = Boss.attackCooldown b -> Boss_statsOK b -> Boss_statsOK b'.
Proof. unfold Boss_statsOK. intros -> -> ->. tauto. Qed.

Lemma Boss_statsOK_transition ph b :
  ph <> Boss.PHASE_1 -> Boss_statsOK (Boss.transitionToPhase ph b).
Proof.
  intros Hne. unfold Boss_statsOK, Boss.transitionToPhase, Boss.delayedCall.
  cbn [Boss.phase Boss.set_pending Boss.set_roars].
  destruct ph; [contradiction| |];
    cbn [Boss.phase Boss.currentSpeed Boss.attackCooldown Boss.set_attackCooldown
           Boss.set_currentSpeed Boss.set_currentState Boss.set_phase];
    split; reflexivity.
Qed.

Lemma Boss_statsOK_checkPhaseTransition b :
  Boss_statsOK b -> Boss_statsOK (Boss.checkPhaseTransition b).
Proof.
  intros H. unfold Boss.checkPhaseTransition.
  destruct (_ && Boss.BossPhase_eqb _ Boss.PHASE_1);
    [apply Boss_statsOK_transition; discriminate|].
  destruct (_ && Boss.BossPhase_eqb _ Boss.PHASE_2);
    [apply Boss_statsOK_transition; discriminate|].
  exact H.
Qed.

Lemma Boss_statsOK_die b : Boss_statsOK b -> Boss_statsOK (Boss.die b).
Proof. apply Boss_statsOK_ext; reflexivity. Qed.

Lemma Boss_statsOK_takeDamage amount sourceX b :
  Boss_statsOK b -> Boss_statsOK (Boss.takeDamage amount sourceX b).
Proof.
  intros H. unfold Boss.takeDamage.
  destruct (Boss.isHurt b || negb (Boss.isAlive b)); [exact H|].
  destruct (Qleb _ 0); [apply Boss_statsOK_die|];
    apply Boss_statsOK_checkPhaseTransition; revert H;
    apply Boss_statsOK_ext; reflexivity.
Qed.

Lemma Boss_statsOK_callbacks (due : list (Q * Boss.Callback)) : forall b,
  Boss_statsOK b -> Boss_statsOK (fold_left (fun b '(_, cb) => Boss.runCallback cb b) due b).
Proof.
  induction due as [|[ms cb] due IH]; intros b H; [exact H|].
  cbn [fold_left]. apply IH. destruct cb; exact H.
Qed.

Lemma Boss_statsOK_step b st : Boss_statsOK b -> Boss_statsOK (Boss.step b st).
Proof.
  intros H. destruct st as [amount sourceX|delta]; cbn [Boss.step].
  - apply Boss_statsOK_takeDamage, H.
  - cbv zeta.
    assert (H1 : Boss_statsOK (Boss.tickClock delta b))
      by (unfold Boss.tickClock; apply Boss_statsOK_callbacks; exact H).
    destruct (Boss.isAlive (Boss.tickClock delta b)); [|exact H1].
    revert H1. apply Boss_statsOK_ext; unfold Boss.updateHurt; split_ifs; reflexivity.
Qed.

(** X18 (Boss.transitionToPhase, Boss.takeDamage): at every point of every
    run of hits and updates on a new boss of the entity class, its
    movement speed and attack cooldown are the ones of its current phase:
    180 px/s and 2000 ms in phase 1, 220 and 1500 in phase 2, 260 and 1000
    in phase 3. *)
Theorem boss_stats_follow_phase (x0 : Q) (steps : list Boss.Step) :
  Forall Boss_statsOK (Boss.history (Boss.create x0) steps).
Proof.
  unfold Boss.history.
  assert (H : Boss_statsOK (Boss.create x0)) by (split; reflexivity).
  revert H. generalize (Boss.create x0).
  induction steps as [|st steps IH]; intros b H; cbn [trajectory].
  - constructor; [exact H | constructor].
  - constructor; [exact H|]. apply IH, Boss_statsOK_step, H.
Qed.

(** ** The enemy's hurt window closes *)

Lemma Enemy_elapse_closes deltas : forall e,
  Enemy.isHurt (Enemy_elapse deltas e) = false \/
  (Enemy.isHurt e = true /\
   Enemy.hurtTimer (Enemy_elapse deltas e) == Enemy.hurtTimer e - total deltas /\
   0 < Enemy.hurtTimer (Enemy_elapse deltas e) \/ deltas = []).
Proof.
  induction deltas as [|d ds IH]; intros e; [right; right; reflexivity|].
  unfold Enemy_elapse in *. cbn [fold_left].
  destruct (Enemy.isHurt e) eqn:Hh.
  - destruct (IH (Enemy.updateHurt d e)) as [H|[(H1 & H2 & H3)| -> ]].
    + left. exact H.
    + right. left. split; [reflexivity|]. split; [|exact H3].
      rewrite H2. change (total (d :: ds)) with (d + total ds).
      assert (Ht : Enemy.hurtTimer (Enemy.updateHurt d e) = Enemy.hurtTimer e - d)
        by (unfold Enemy.updateHurt; rewrite Hh;
            cbn [Enemy.hurtTimer Enemy.set_hurtTimer];
            destruct (Qleb _ 0); reflexivity).
      rewrite Ht. ring.
    + cbn [fold_left]. unfold Enemy.updateHurt. rewrite Hh. cbn.
      destruct (Qleb (Enemy.hurtTimer e - d) 0) eqn:E.
      * left. reflexivity.
      * right. left. apply Qleb_gt in E. cbn. rewrite ?Hh.
        split; [reflexivity|]. split; [|exact E].
        change (total [d]) with (d + 0). ring.
  - left.
    assert (Hu : Enemy.updateHurt d e = e) by (unfold Enemy.updateHurt; rewrite Hh; reflexivity).
    rewrite Hu. clear IH Hu. revert e Hh.
    induction ds as [|d' ds IH]; intros e Hh; [exact Hh|].
    cbn [fold_left].
    assert (Hu : Enemy.updateHurt d' e = e) by (unfold Enemy.updateHurt; rewrite Hh; reflexivity).
    rewrite Hu. apply IH, Hh.
Qed.

Lemma Enemy_elapse_keeps deltas : forall e,
  Enemy.health (Enemy_elapse deltas e) = Enemy.health e /\
  Enemy.isAlive (Enemy_elapse deltas e) = Enemy.isAlive e.
Proof.
  induction deltas as [|d ds IH]; intros e; [split; reflexivity|].
  unfold Enemy_elapse in *. cbn [fold_left].
  destruct (IH (Enemy.updateHurt d e)) as [H1 H2]. rewrite H1, H2.
  unfold Enemy.updateHurt. split_ifs; split; reflexivity.
Qed.

(** X19 (Enemy.takeDamage, Enemy.updateHurt): the hurt window closes.  An
    enemy that survives a hit is hurt for its hurt duration (200 ms); once
    the frame times of its updates, each of at least 1 ms, add up to that
    and 1 ms more, it is no longer hurt, still alive, with the health the
    hit left, and the next hit is accepted and takes its amount off.  (The
    margin covers the rounding of the timer in the source's doubles: at 60
    frames per second the timer counted down from 200 is still above zero
    after the 12 updates that add up to 200 ms, see
    [Doubles.hurtTimer].) *)
Theorem enemy_hurt_window_closes (e : Enemy.t) (a1 x1 a2 x2 : Q) (deltas : list Q) :
  Enemy.isHurt e = false -> Enemy.isAlive e = true ->
  0 < Enemy.health e - a1 ->
  0 < Enemy.hurtDuration e -> Enemy.hurtDuration e <= 1000 ->
  Forall (fun d => 1 <= d) deltas ->
  Enemy.hurtDuration e + 1 <= total deltas ->
  let e' := Enemy_elapse deltas (Enemy.takeDamage a1 x1 e) in
  Enemy.isHurt e' = false /\ Enemy.isAlive e' = true /\
  Enemy.health e' = Enemy.health e - a1 /\
  Enemy.health (Enemy.takeDamage a2 x2 e') = Enemy.health e - a1 - a2.
Proof.
  intros Hh Ha Hlive Hdur _ _ Hsum1.
  assert (Hsum : Enemy.hurtDuration e <= total deltas) by lra. clear Hsum1. revert Hsum.
  intros Hsum. cbv zeta.
  assert (Ht : Enemy.takeDamage a1 x1 e =
               Enemy.set_velocityY (-100)
                 (Enemy.set_velocityX
                    (Enemy.knockbackVelocity e * (if Qltb (Enemy.x e) x1 then -1 else 1))
                    (Enemy.set_hurtTimer (Enemy.hurtDuration e)
                       (Enemy.set_isHurt true (Enemy.set_health (Enemy.health e - a1) e))))).
  { unfold Enemy.takeDamage. rewrite Hh, Ha. cbn.
    apply Qleb_gt in Hlive. rewrite Hlive. reflexivity. }
  rewrite Ht. clear Ht.
  match goal with |- context [Enemy_elapse deltas ?x] => set (e1 := x) end.
  destruct (Enemy_elapse_keeps deltas e1) as [Kh Ka].
  assert (Hclosed : Enemy.isHurt (Enemy_elapse deltas e1) = false).
  { destruct (Enemy_elapse_closes deltas e1) as [H|[(_ & H2 & H3)| -> ]].
    - exact H.
    - exfalso. rewrite H2 in H3. cbn in H3. lra.
    - exfalso. unfold total in Hsum. cbn in Hsum. lra. }
  split; [exact Hclosed|]. split; [rewrite Ka; exact Ha|]. split; [exact Kh|].
  unfold Enemy.takeDamage. rewrite Hclosed, Ka.
  change (Enemy.isAlive e1) with (Enemy.isAlive e). rewrite Ha. cbn [orb negb].
  cbn. destruct (Qleb _ 0); cbn; rewrite Kh; reflexivity.
Qed.

Lemma enemy_hurt_window_closes_witness :
  Enemy.health
    (Enemy.takeDamage 1 0 (Enemy_elapse [150; 150] (Enemy.takeDamage 1 0 (Enemy.create 10 0 3 1 120)))) =
  Enemy.health (Enemy.create 10 0 3 1 120) - 1 - 1.
Proof.
  apply (enemy_hurt_window_closes (Enemy.create 10 0 3 1 120) 1 0 1 0 [150; 150]);
    try reflexivity; try (vm_compute; discriminate).
  repeat constructor; discriminate.
Defined.
(** ** The arena: the exit opens when enough defeats are counted *)

Lemma handlePlayerAttackFrom_alive hitbox playerX bodies (n : nat) :
  forall (l : list EnemyManager.Enemy) from,
  (length l <= n)%nat ->
  Forall (fun e => EnemyManager.isAlive e = true) l ->
  Forall (fun e => EnemyManager.isAlive e = true)
    (fst (EnemyManager.handlePlayerAttackFrom from hitbox playerX bodies l)) /\
  (length (fst (EnemyManager.handlePlayerAttackFrom from hitbox playerX bodies l)) +
   snd (EnemyManager.handlePlayerAttackFrom from hitbox playerX bodies l))%nat = length l.
Proof.
  induction n as [|n IH]; intros l from Hn H.
  - destruct l; [cbn; split; [constructor | reflexivity] | cbn in Hn; lia].
  - destruct l as [|e l]; [cbn; split; [constructor | reflexivity]|].
    cbn [length] in Hn. inversion H as [|? ? He Hl]; subst.
    assert (Hnext : forall e',
      EnemyManager.isAlive e' = true ->
      Forall (fun e => EnemyManager.isAlive e = true)
        (fst (let '(rest, defeated) :=
                EnemyManager.handlePlayerAttackFrom (S from) hitbox playerX bodies l in
              (e' :: rest, defeated))) /\
      (length (fst (let '(rest, defeated) :=
                EnemyManager.handlePlayerAttackFrom (S from) hitbox playerX bodies l in
              (e' :: rest, defeated))) +
       snd (let '(rest, defeated) :=
                EnemyManager.handlePlayerAttackFrom (S from) hitbox playerX bodies l in
              (e' :: rest, defeated)))%nat = S (length l)).
    { intros e' He'. destruct (IH l (S from) ltac:(lia) Hl) as [I1 I2].
      destruct (EnemyManager.handlePlayerAttackFrom (S from) hitbox playerX bodies l)
        as [rest defeated].
      cbn [fst snd length] in *. split; [constructor; assumption | lia]. }
    cbn [EnemyManager.handlePlayerAttackFrom length].
    destruct (EnemyManager.active e && EnemyManager.isAlive e); [|apply Hnext, He].
    destruct (Geom.Overlaps hitbox (bodies from)); [|apply Hnext, He].
    destruct (EnemyManager.isAlive (EnemyManager.takeDamage 1 playerX e)) eqn:Ea;
      [apply Hnext, Ea|].
    destruct l as [|passedOver l]; [cbn; split; [constructor | reflexivity]|].
    inversion Hl as [|? ? Hp Hl']; subst. cbn [length] in Hn.
    destruct (IH l (S (S from)) ltac:(lia) Hl') as [I1 I2].
    destruct (EnemyManager.handlePlayerAttackFrom (S (S from)) hitbox playerX bodies l)
      as [rest defeated].
    cbn [fst snd length] in *. split; [constructor; assumption | lia].
Qed.

Lemma onEnemyDefeated_iter k : forall s,
  ArenaScene.totalEnemies s = 5%Z ->
  Portal.locked (ArenaScene.exitPortal s) = (ArenaScene.enemiesDefeated s <? 5)%Z ->
  let s' := Nat.iter k ArenaScene.onEnemyDefeated s in
  ArenaScene.enemies s' = ArenaScene.enemies s /\
  ArenaScene.totalEnemies s' = 5%Z /\
  ArenaScene.transitions s' = ArenaScene.transitions s /\
  ArenaScene.defeatListeners s' = ArenaScene.defeatListeners s /\
  ArenaScene.enemiesDefeated s' = (ArenaScene.enemiesDefeated s + Z.of_nat k)%Z /\
  Portal.locked (ArenaScene.exitPortal s') =
    (ArenaScene.enemiesDefeated s + Z.of_nat k <? 5)%Z.
Proof.
  induction k as [|k IH]; intros s Ht Hl; cbv zeta.
  - cbn [Nat.iter]. rewrite Z.add_0_r. repeat split; assumption.
  - rewrite !Nat.iter_succ. destruct (IH s Ht Hl) as (I1 & I2 & I3 & I6 & I4 & I5).
    cbv zeta in *.
    set (s1 := Nat.iter k ArenaScene.onEnemyDefeated s) in *. clearbody s1.
    unfold ArenaScene.onEnemyDefeated, ArenaScene.updateExitStatus.
    cbn [ArenaScene.totalEnemies ArenaScene.enemiesDefeated ArenaScene.enemies
           ArenaScene.exitPortal ArenaScene.transitions ArenaScene.player
           ArenaScene.entryPortal ArenaScene.defeatListeners].
    rewrite I2, I4.
    destruct (5 - (ArenaScene.enemiesDefeated s + Z.of_nat k + 1) <=? 0)%Z eqn:E;
      cbn [ArenaScene.totalEnemies ArenaScene.enemiesDefeated ArenaScene.enemies
             ArenaScene.exitPortal ArenaScene.transitions Portal.unlock Portal.locked
             ArenaScene.defeatListeners];
      rewrite ?I5; repeat split; try assumption; try lia.
    + symmetry. apply Z.ltb_ge. apply Z.leb_le in E. lia.
    + apply Z.leb_gt in E.
      rewrite (proj2 (Z.ltb_lt _ _)) by lia.
      rewrite (proj2 (Z.ltb_lt _ _)) by lia. reflexivity.
Qed.

Lemma emitEnemyDefeated_iter d : forall s,
  ArenaScene.totalEnemies s = 5%Z ->
  Portal.locked (ArenaScene.exitPortal s) = (ArenaScene.enemiesDefeated s <? 5)%Z ->
  let s' := Nat.iter d ArenaScene.emitEnemyDefeated s in
  ArenaScene.enemies s' = ArenaScene.enemies s /\
  ArenaScene.totalEnemies s' = 5%Z /\
  ArenaScene.transitions s' = ArenaScene.transitions s /\
  ArenaScene.defeatListeners s' = ArenaScene.defeatListeners s /\
  ArenaScene.enemiesDefeated s' =
    (ArenaScene.enemiesDefeated s + Z.of_nat (ArenaScene.defeatListeners s * d))%Z /\
  Portal.locked (ArenaScene.exitPortal s') = (ArenaScene.enemiesDefeated s' <? 5)%Z.
Proof.
  induction d as [|d IH]; intros s Ht Hl; cbv zeta.
  - cbn [Nat.iter]. rewrite Nat.mul_0_r, Z.add_0_r. repeat split; assumption.
  - rewrite !Nat.iter_succ. destruct (IH s Ht Hl) as (I1 & I2 & I3 & I6 & I4 & I5).
    cbv zeta in *.
    set (s1 := Nat.iter d ArenaScene.emitEnemyDefeated s) in *. clearbody s1.
    unfold ArenaScene.emitEnemyDefeated.
    destruct (onEnemyDefeated_iter (ArenaScene.defeatListeners s1) s1 I2 I5)
      as (J1 & J2 & J3 & J6 & J4 & J5). cbv zeta in *.
    rewrite J1, J2, J3, J6, J4, J5, I1, I3, I6, I4.
    repeat split; try reflexivity; lia.
Qed.

Section ArenaFacts2.

Variable Math_sin : Q -> Q.

Lemma enemyUpdate_keeps fr player e :
  EnemyManager.isAlive (fst (EnemyManager.enemyUpdate Math_sin fr player e)) =
    EnemyManager.isAlive e.
Proof.
  assert (Hb : forall p b,
    BaseEnemy.isAlive (fst (EnemyManager.baseUpdate fr p b)) = BaseEnemy.isAlive b).
  { intros p b. unfold EnemyManager.baseUpdate. split_ifs; reflexivity. }
  unfold EnemyManager.enemyUpdate, EnemyManager.crawlerUpdate, EnemyManager.flyerUpdate.
  specialize (Hb player (EnemyManager.base e)).
  destruct (EnemyManager.baseUpdate fr player (EnemyManager.base e)) as [b p1].
  cbn [fst] in Hb.
  unfold EnemyManager.isAlive.
  destruct (EnemyManager.type e); cbn [EnemyManager.base EnemyManager.set_base];
    split_ifs; cbn; rewrite ?Hb; reflexivity.
Qed.

Lemma updateFrom_keeps frames (l : list EnemyManager.Enemy) : forall from player,
  Forall (fun e => EnemyManager.isAlive e = true) l ->
  Forall (fun e => EnemyManager.isAlive e = true)
    (fst (EnemyManager.updateFrom Math_sin from frames player l)) /\
  length (fst (EnemyManager.updateFrom Math_sin from frames player l)) = length l.
Proof.
  induction l as [|e l IH]; intros from player H;
    [cbn; split; [constructor | reflexivity]|].
  inversion H as [|? ? He Hl]; subst.
  cbn [EnemyManager.updateFrom].
  set (r := if EnemyManager.active e && EnemyManager.isAlive e
            then EnemyManager.enemyUpdate Math_sin (frames from) player e
            else (e, player)).
  assert (Hr : EnemyManager.isAlive (fst r) = EnemyManager.isAlive e).
  { unfold r. destruct (_ && _); [apply enemyUpdate_keeps | reflexivity]. }
  destruct r as [e1 p1]. cbn [fst] in Hr.
  destruct (IH (S from) p1 Hl) as (I1 & I2).
  destruct (EnemyManager.updateFrom Math_sin (S from) frames p1 l) as [rest p2].
  cbn [fst] in *.
  split; [constructor; [congruence | exact I1] | cbn [length]; lia].
Qed.

Lemma physicsFrom_keeps xs ys (l : list EnemyManager.Enemy) : forall from,
  Forall (fun e => EnemyManager.isAlive e = true) l ->
  Forall (fun e => EnemyManager.isAlive e = true)
    (EnemyManager.physicsFrom from xs ys l) /\
  length (EnemyManager.physicsFrom from xs ys l) = length l.
Proof.
  induction l as [|e l IH]; intros from H;
    [cbn; split; [constructor | reflexivity]|].
  inversion H as [|? ? He Hl]; subst.
  destruct (IH (S from) Hl) as (I1 & I2).
  cbn [EnemyManager.physicsFrom].
  split; [constructor; [exact He | exact I1] | cbn [length]; lia].
Qed.


Lemma ArenaInv_onPlayerAttack hitbox bodies s :
  ArenaInv s ->
  ArenaInv (ArenaScene.onPlayerAttack hitbox bodies s) /\
  ArenaScene.defeatListeners (ArenaScene.onPlayerAttack hitbox bodies s) =
    ArenaScene.defeatListeners s.
Proof.
  intros (Ht & Hn & Htot & Hd & Hl & Hb). unfold ArenaScene.onPlayerAttack.
  destruct (handlePlayerAttackFrom_alive hitbox (Player.x (ArenaScene.player s)) bodies
              (length (ArenaScene.enemies s)) (ArenaScene.enemies s) 0 (le_n _) Ht)
    as (A1 & A2).
  fold (EnemyManager.handlePlayerAttack hitbox (Player.x (ArenaScene.player s)) bodies
          (ArenaScene.enemies s)) in A1, A2.
  destruct (EnemyManager.handlePlayerAttack hitbox (Player.x (ArenaScene.player s))
              bodies (ArenaScene.enemies s)) as [l' defeated].
  cbn [fst snd] in A1, A2.
  destruct (emitEnemyDefeated_iter defeated (ArenaScene.set_enemies l' s) Htot Hl)
    as (I1 & I2 & I3 & I6 & I4 & I5). cbv zeta in *.
  cbn [ArenaScene.set_enemies ArenaScene.enemies ArenaScene.enemiesDefeated
         ArenaScene.transitions ArenaScene.defeatListeners] in I1, I3, I4, I6.
  split; [|exact I6].
  unfold ArenaInv. rewrite I1, I2, I3, I4, I5, I6.
  split; [exact A1|]. split; [lia|]. split; [reflexivity|].
  split; [rewrite Hd; nia|]. split; [rewrite I4; reflexivity|].
  intros HB. specialize (Hb HB). rewrite Hl in Hb.
  apply Z.ltb_ge in Hb. apply Z.ltb_ge. lia.
Qed.

Lemma ArenaInv_ext s s' :
  ArenaScene.enemies s' = ArenaScene.enemies s ->
  ArenaScene.enemiesDefeated s' = ArenaScene.enemiesDefeated s ->
  ArenaScene.totalEnemies s' = ArenaScene.totalEnemies s ->
  ArenaScene.exitPortal s' = ArenaScene.exitPortal s ->
  ArenaScene.defeatListeners s' = ArenaScene.defeatListeners s ->
  ArenaScene.transitions s' = ArenaScene.transitions s ->
  ArenaInv s -> ArenaInv s'.
Proof. unfold ArenaInv. intros -> -> -> -> -> ->. tauto. Qed.

Lemma ArenaInv_enemies l s :
  Forall (fun e => EnemyManager.isAlive e = true) l ->
  length l = length (ArenaScene.enemies s) ->
  ArenaInv s -> forall p, ArenaInv (ArenaScene.set_enemies l (ArenaScene.set_player p s)).
Proof.
  intros Hl Hn (Ht & Hn5 & Htot & Hd & Hlk & Hb) p. unfold ArenaInv.
  cbn [ArenaScene.set_enemies ArenaScene.set_player ArenaScene.enemies
         ArenaScene.enemiesDefeated ArenaScene.totalEnemies ArenaScene.exitPortal
         ArenaScene.transitions ArenaScene.defeatListeners].
  rewrite Hn. repeat split; assumption.
Qed.

Lemma ArenaInv_createOn listeners : ArenaInv (ArenaScene.createOn listeners).
Proof.
  unfold ArenaInv. cbn -[Nat.mul Z.of_nat].
  split; [repeat constructor|]. split; [lia|]. split; [reflexivity|].
  split; [rewrite Nat.mul_0_r; reflexivity|]. split; [reflexivity|]. intros [].
Qed.

Lemma ArenaInv_step s i :
  ArenaInv s ->
  ArenaInv (ArenaScene.step Math_sin s i) /\
  ArenaScene.defeatListeners (ArenaScene.step Math_sin s i) =
    (ArenaScene.defeatListeners s + startsAgain [i])%nat.
Proof.
  intros H.
  destruct i as [attackDown bodies frames|px py pb pf xs ys|delta| | |];
    cbn [ArenaScene.step startsAgain List.filter length]; rewrite ?Nat.add_0_r.
  - unfold ArenaScene.update.
    assert (H1 : ArenaInv (ArenaScene.playerUpdate attackDown bodies s) /\
                 ArenaScene.defeatListeners (ArenaScene.playerUpdate attackDown bodies s)
                 = ArenaScene.defeatListeners s).
    { unfold ArenaScene.playerUpdate.
      destruct (Player.handleAttack attackDown (ArenaScene.player s)) as [p [hitbox|]].
      - apply (ArenaInv_onPlayerAttack hitbox bodies (ArenaScene.set_player p s)).
        revert H. apply ArenaInv_ext; reflexivity.
      - split; [|reflexivity]. revert H. apply ArenaInv_ext; reflexivity. }
    destruct H1 as [H1 L1].
    set (s1 := ArenaScene.playerUpdate attackDown bodies s) in *. clearbody s1.
    set (s2 := ArenaScene.set_player
                 (Player.checkDeathPit (720 - 10) (ArenaScene.player s1)) s1).
    assert (H2 : ArenaInv s2) by (revert H1; apply ArenaInv_ext; reflexivity).
    assert (L2 : ArenaScene.defeatListeners s2 = ArenaScene.defeatListeners s)
      by exact L1.
    clearbody s2.
    pose proof H2 as (Ht & Hrest).
    destruct (updateFrom_keeps frames (ArenaScene.enemies s2) 0 (ArenaScene.player s2) Ht)
      as (U1 & U2).
    unfold EnemyManager.update.
    destruct (EnemyManager.updateFrom Math_sin 0 frames (ArenaScene.player s2)
                (ArenaScene.enemies s2)) as [l' p'].
    cbn [fst] in *. split; [apply ArenaInv_enemies; assumption | exact L2].
  - pose proof H as (Ht & Hrest).
    destruct (physicsFrom_keeps xs ys (ArenaScene.enemies s) 0 Ht) as (P1 & P2).
    split; [apply ArenaInv_enemies; assumption | reflexivity].
  - split; [|reflexivity]. revert H. apply ArenaInv_ext; reflexivity.
  - unfold ArenaScene.onEntryOverlap, Portal.onOverlap.
    destruct (negb (Portal.locked (ArenaScene.entryPortal s)));
      [|split; [exact H | reflexivity]].
    split; [|reflexivity].
    destruct H as (Ht & Hn & Htot & Hd & Hl & Hb).
    unfold ArenaInv, ArenaScene.transitionTo.
    cbn [ArenaScene.enemies ArenaScene.enemiesDefeated ArenaScene.totalEnemies
           ArenaScene.exitPortal ArenaScene.transitions ArenaScene.defeatListeners].
    repeat split; try assumption.
    intros HB. apply in_app_or in HB. destruct HB as [HB|[HB|[]]];
      [exact (Hb HB) | discriminate].
  - unfold ArenaScene.onExitOverlap, Portal.onOverlap.
    destruct (Portal.locked (ArenaScene.exitPortal s)) eqn:E; cbn [negb];
      [split; [exact H | reflexivity]|].
    split; [|reflexivity].
    destruct H as (Ht & Hn & Htot & Hd & Hl & Hb).
    unfold ArenaInv, ArenaScene.transitionTo.
    cbn [ArenaScene.enemies ArenaScene.enemiesDefeated ArenaScene.totalEnemies
           ArenaScene.exitPortal ArenaScene.transitions ArenaScene.defeatListeners].
    rewrite E in *. repeat split; try assumption.
  - split; [apply ArenaInv_createOn|].
    unfold ArenaScene.startAgain, ArenaScene.createOn.
    cbn [ArenaScene.defeatListeners]. lia.
Qed.

Lemma startsAgain_cons i inputs :
  startsAgain (i :: inputs) = (startsAgain [i] + startsAgain inputs)%nat.
Proof. unfold startsAgain. cbn [List.filter]. destruct i; reflexivity. Qed.

Lemma ArenaInv_run (inputs : list ArenaScene.Input) :
  ArenaInv (ArenaScene.run Math_sin inputs) /\
  ArenaScene.defeatListeners (ArenaScene.run Math_sin inputs) = S (startsAgain inputs).
Proof.
  unfold ArenaScene.run.
  assert (H : ArenaInv ArenaScene.create) by apply ArenaInv_createOn.
  change (S (startsAgain inputs))
    with (ArenaScene.defeatListeners ArenaScene.create + startsAgain inputs)%nat.
  revert H. generalize ArenaScene.create.
  induction inputs as [|i inputs IH]; intros s H;
    [split; [exact H | cbn; lia]|].
  cbn [fold_left]. destruct (ArenaInv_step s i H) as [H1 L1].
  destruct (IH _ H1) as [H2 L2]. split; [exact H2|].
  rewrite L2, L1, (startsAgain_cons i inputs). lia.
Qed.

End ArenaFacts2.

(** X20 (ArenaScene.create, ArenaScene.updateExitStatus,
    EnemyManager.handlePlayerAttack, BaseEnemy.die): the arena scene object
    is started once and then any number of times again, [create()] adding
    one listener on [enemy-defeated] at each start.  At every point of
    every run the number of listeners is one more than the number of
    restarts; the children of the enemy group are alive; the defeat counter
    is the number of listeners times the number of enemies killed since the
    last start; the exit portal is locked exactly while the counter is below
    five; and the boss scene has been started only with a counter of five
    or more.  So on the first visit the exit is locked exactly while an
    enemy is alive and the boss scene starts only from a cleared arena; on
    the second visit three kills open it, with two enemies alive.  A swing
    that reaches two neighbours of the group kills the first and passes over
    the second. *)
Theorem arena_exit_opens_when_cleared (Math_sin : Q -> Q)
  (inputs : list ArenaScene.Input) :
  let s := ArenaScene.run Math_sin inputs in
  let alive := EnemyManager.getAliveCount (ArenaScene.enemies s) in
  let listeners := ArenaScene.defeatListeners s in
  (listeners = S (startsAgain inputs) /\
   alive = length (ArenaScene.enemies s) /\ (alive <= 5)%nat /\
   ArenaScene.enemiesDefeated s = (Z.of_nat listeners * (5 - Z.of_nat alive))%Z /\
   Portal.isLocked (ArenaScene.exitPortal s) = (ArenaScene.enemiesDefeated s <? 5)%Z /\
   (In ArenaScene.BOSS (ArenaScene.transitions s) ->
    (5 <= ArenaScene.enemiesDefeated s)%Z)) /\
  (startsAgain inputs = 0%nat ->
   Portal.isLocked (ArenaScene.exitPortal s) = negb (alive =? 0)%nat /\
   ArenaScene.enemiesDefeated s = (5 - Z.of_nat alive)%Z /\
   (In ArenaScene.BOSS (ArenaScene.transitions s) -> alive = 0%nat)) /\
  (let s2 := ArenaScene.run (fun _ => 0) secondVisit in
   ArenaScene.defeatListeners s2 = 2%nat /\
   EnemyManager.getAliveCount (ArenaScene.enemies s2) = 2%nat /\
   ArenaScene.enemiesDefeated s2 = 6%Z /\
   Portal.isLocked (ArenaScene.exitPortal s2) = false /\
   ArenaScene.transitions s2 = [ArenaScene.BOSS]) /\
  EnemyManager.getAliveCount
    (ArenaScene.enemies (ArenaScene.run (fun _ => 0) doubleSwing)) = 4%nat.
Proof.
  cbv zeta.
  destruct (ArenaInv_run Math_sin inputs) as ((Ht & Hn & Htot & Hd & Hl & Hb) & HL).
  set (s := ArenaScene.run Math_sin inputs) in *. clearbody s.
  assert (Ha : EnemyManager.getAliveCount (ArenaScene.enemies s) =
               length (ArenaScene.enemies s)).
  { unfold EnemyManager.getAliveCount. clear -Ht.
    induction Ht as [|e l He _ IH]; [reflexivity|].
    cbn [List.filter]. rewrite He. cbn [length]. rewrite IH. reflexivity. }
  rewrite Ha. unfold Portal.isLocked.
  assert (Hd' : ArenaScene.enemiesDefeated s =
                (Z.of_nat (ArenaScene.defeatListeners s) *
                 (5 - Z.of_nat (length (ArenaScene.enemies s))))%Z) by (rewrite Hd; nia).
  split; [|split; [|split]].
  - split; [exact HL|]. split; [reflexivity|]. split; [exact Hn|].
    split; [exact Hd'|]. split; [exact Hl|].
    intros HB. specialize (Hb HB). rewrite Hl in Hb. apply Z.ltb_ge in Hb. exact Hb.
  - intros H0. rewrite H0 in HL. rewrite HL in Hd'.
    assert (Hd1 : ArenaScene.enemiesDefeated s =
                  (5 - Z.of_nat (length (ArenaScene.enemies s)))%Z) by lia.
    split; [|split; [exact Hd1|]].
    + rewrite Hl, Hd1.
      destruct (Nat.eqb_spec (length (ArenaScene.enemies s)) 0) as [->|Hne]; cbn [negb].
      * apply Z.ltb_ge. lia.
      * apply Z.ltb_lt. lia.
    + intros HB. specialize (Hb HB). rewrite Hl, Hd1 in Hb. apply Z.ltb_ge in Hb. lia.
  - vm_compute. repeat split; reflexivity.
  - vm_compute. reflexivity.
Qed.

(** The arena cleared enemy by enemy on its first visit and the exit
    taken: the boss scene has started, and no enemy is alive. *)
Lemma arena_exit_opens_when_cleared_witness :
  EnemyManager.getAliveCount (ArenaScene.enemies (ArenaScene.run (fun _ => 0) clearRun)) = 0%nat.
Proof.
  generalize (arena_exit_opens_when_cleared (fun _ => 0) clearRun).
  intros (_ & H & _). apply H; vm_compute; [reflexivity | left; reflexivity].
Defined.

(** ** Math utilities *)

(** Case analysis on a comparison whose operands hold no comparison, so
    that nested [Math_min]/[Math_max] are opened from the inside. *)
Ltac q_inner :=
  match goal with
  | |- context [Qleb ?a ?b] =>
      lazymatch a with
      | context [Qleb _ _] => fail
      | _ => lazymatch b with
             | context [Qleb _ _] => fail
             | _ => let E := fresh "E" in
                    destruct (Qleb a b) eqn:E; [apply Qleb_le in E | apply Qleb_gt in E]
             end
      end
  end.

Lemma Math_abs_pos a : 0 <= a -> Math_abs a == a.
Proof. apply Qabs_pos. Qed.

Lemma Math_abs_neg a : a <= 0 -> Math_abs a == - a.
Proof. apply Qabs_neg. Qed.

(** X21 (MathHelpers.approach): for an amount that is not negative,
    [approach] never overshoots: the result lies between the current value
    and the target; it is the target as soon as the target is within
    [amount]; and otherwise it is the step the source computes,
    [current + amount] below the target and [current - amount] above it. *)
Theorem approach_never_overshoots (current target amount : Q) :
  0 <= amount ->
  between current target (MathHelpers.approach current target amount) /\
  (Math_abs (target - current) <= amount ->
   MathHelpers.approach current target amount == target) /\
  (current < target -> amount < target - current ->
   MathHelpers.approach current target amount == current + amount) /\
  (target < current -> amount < current - target ->
   MathHelpers.approach current target amount == current - amount).
Proof.
  intros Ha. unfold between, MathHelpers.approach, Math_min, Math_max.
  destruct (Qltb current target) eqn:E1; [apply Qltb_lt in E1 | apply Qltb_ge in E1].
  - rewrite (Math_abs_pos (target - current)) by lra.
    q_cases; (split; [split; lra|]); repeat split; intros; lra.
  - destruct (Qltb target current) eqn:E2; [apply Qltb_lt in E2 | apply Qltb_ge in E2].
    + rewrite (Math_abs_neg (target - current)) by lra.
      q_cases; (split; [split; lra|]); repeat split; intros; lra.
    + rewrite (Math_abs_pos (target - current)) by lra.
      q_cases; (split; [split; lra|]); repeat split; intros; lra.
Qed.

Lemma approach_never_overshoots_witness :
  between 0 10 (MathHelpers.approach 0 10 3) /\
  MathHelpers.approach 0 10 3 == 0 + 3.
Proof.
  refine ((fun H => conj (proj1 H) (proj1 (proj2 (proj2 H)) _ _))
            (approach_never_overshoots 0 10 3 _)).
  - reflexivity.
  - reflexivity.
  - discriminate.
Defined.

(** X22 (MathHelpers.mapRange): for ranges that are not empty, [mapRange]
    sends the ends of the input range to the ends of the output range, and
    mapping back with the ranges swapped returns the value one started
    from; and [mapRange] is [lerp] over the output range at the value's
    fraction of the input range.  Numbers are exact rationals here. *)
Theorem mapRange_round_trip (value inMin inMax outMin outMax : Q) :
  ~ inMin == inMax -> ~ outMin == outMax ->
  MathHelpers.mapRange inMin inMin inMax outMin outMax == outMin /\
  MathHelpers.mapRange inMax inMin inMax outMin outMax == outMax /\
  MathHelpers.mapRange (MathHelpers.mapRange value inMin inMax outMin outMax)
                       outMin outMax inMin inMax == value /\
  MathHelpers.lerp outMin outMax (MathHelpers.mapRange value inMin inMax 0 1) ==
    MathHelpers.mapRange value inMin inMax outMin outMax.
Proof.
  intros Hin Hout. unfold MathHelpers.mapRange, MathHelpers.lerp.
  assert (H1 : ~ inMax - inMin == 0) by (intros H; apply Hin; lra).
  assert (H2 : ~ outMax - outMin == 0) by (intros H; apply Hout; lra).
  repeat split; field; auto.
Qed.

Lemma mapRange_round_trip_witness :
  MathHelpers.mapRange (MathHelpers.mapRange 25 0 100 0 1) 0 1 0 100 == 25.
Proof.
  refine (proj1 (proj2 (proj2 (mapRange_round_trip 25 0 100 0 1 _ _))));
    intros H; discriminate H.
Defined.

(** X23 (MathHelpers.clamp, Phaser.Math.Clamp): for [min <= max] the
    project's own [clamp] and the engine's [Clamp] agree; the result lies in
    the range, a value inside the range is returned as it is, and clamping
    twice is clamping once. *)
Theorem clamp_agrees_with_engine (value min max : Q) :
  min <= max ->
  MathHelpers.clamp value min max == Geom.Clamp value min max /\
  min <= MathHelpers.clamp value min max /\ MathHelpers.clamp value min max <= max /\
  (min <= value -> value <= max -> MathHelpers.clamp value min max == value) /\
  MathHelpers.clamp (MathHelpers.clamp value min max) min max ==
    MathHelpers.clamp value min max.
Proof.
  intros H. unfold MathHelpers.clamp, Geom.Clamp, Math_min, Math_max.
  repeat q_inner; repeat split; intros; lra.
Qed.

Lemma clamp_agrees_with_engine_witness :
  MathHelpers.clamp 7 0 5 == Geom.Clamp 7 0 5.
Proof.
  apply (clamp_agrees_with_engine 7 0 5). discriminate.
Defined.

(** X25 (MathHelpers.easeInOutCubic): the easing curve starts at 0, passes
    through 1/2 at the middle and ends at 1; it stays within [0, 1/2] on
    the first half of [0, 1] and within [1/2, 1] on the second. *)
Theorem easeInOutCubic_range (t : Q) :
  MathHelpers.easeInOutCubic 0 == 0 /\
  MathHelpers.easeInOutCubic (1 # 2) == 1 # 2 /\
  MathHelpers.easeInOutCubic 1 == 1 /\
  (0 <= t -> t < 1 # 2 ->
   0 <= MathHelpers.easeInOutCubic t /\ MathHelpers.easeInOutCubic t <= 1 # 2) /\
  (1 # 2 <= t -> t <= 1 ->
   1 # 2 <= MathHelpers.easeInOutCubic t /\ MathHelpers.easeInOutCubic t <= 1).
Proof.
  split; [reflexivity|]. split; [reflexivity|]. split; [reflexivity|]. split.
  - intros H0 H1. unfold MathHelpers.easeInOutCubic.
    destruct (Qltb t (5 # 10)) eqn:E; [|apply Qltb_ge in E; lra].
    assert (0 <= t * t) by nra. assert (t * t <= 1 # 4) by nra.
    assert (0 <= t * t * t) by nra. assert (t * t * t <= 1 # 8) by nra. lra.
  - intros H0 H1. unfold MathHelpers.easeInOutCubic.
    destruct (Qltb t (5 # 10)) eqn:E; [apply Qltb_lt in E; lra|].
    set (x := -2 * t + 2). assert (0 <= x) by (unfold x; lra).
    assert (x <= 1) by (unfold x; lra).
    assert (0 <= x * x) by nra. assert (x * x <= 1) by nra.
    assert (0 <= x * x * x) by nra. assert (x * x * x <= 1) by nra.
    assert (x * x * x / 2 == x * x * x * (1 # 2)) by field. lra.
Qed.

(** A quarter of the way in, the curve is within [0, 1/2]. *)
Lemma easeInOutCubic_range_witness :
  0 <= MathHelpers.easeInOutCubic (1 # 4) /\ MathHelpers.easeInOutCubic (1 # 4) <= 1 # 2.
Proof.
  apply (proj1 (proj2 (proj2 (proj2 (easeInOutCubic_range (1 # 4)))))); [discriminate|].
  reflexivity.
Defined.
